(** * Multi-fidelity batch Bayesian optimisation: the acquisition and
      batching engine of [bayes_op.py]

    A shallow embedding of the controller classes of [bayes_op.py]
    ([mfLiveBatch], [mfUCB], [mfUCBPlus], [MultiTaskUCBwILP], [MF_MES],
    [MF_TuRBO] and the [TurboState] dataclass), followed by the properties
    of the specification that are about them.

    Conventions of the embedding.
    - Python [int]s are [Z]; list indices follow Python (a negative index
      counts from the end, an index out of range raises [IndexError]).
    - Finite Python/torch floats are exact rationals [Q]: rounding is not
      modelled.  The one place where the code relies on the IEEE special
      values ([TurboState.best_value], initialised to [-inf]) uses
      [pyfloat], which keeps [nan], [-inf] and [+inf] with their IEEE
      arithmetic and comparisons.
    - The Gaussian-process engine, the environment, the random source and
      the transcendental functions are collaborators of the code: they are
      the operations of the classes [Surrogate], [Environment] and
      [Numerics] below, and the theorems hold for every instance.
    - Methods are functions in a state-and-exception monad over the
      object's fields; a [while] loop takes a fuel argument, and a call
      ends in [Timeout] when the fuel is used up. *)

From Stdlib Require Import List ZArith QArith Qround Qabs Lia Lqa Bool.
From Stdlib Require String DecimalString DecimalZ.
Import ListNotations.

Set Implicit Arguments.

Local Open Scope Q_scope.

(* ===================================================================== *)
(** * Python-level helpers *)
(* ===================================================================== *)

Module Py.

(** The exceptions the modelled code can raise. *)
Inductive exn : Type :=
| TypeError
| IndexError
| ValueError
| ZeroDivisionError
| UnboundLocalError
| RuntimeError
| OverflowError.

(** Outcome of evaluating an expression: a value or a raised
    exception. *)
Inductive outcome (A : Type) : Type :=
| Ret (a : A)
| Raise (e : exn).
Arguments Ret {A} a.
Arguments Raise {A} e.

Definition obind {A B} (o : outcome A) (k : A -> outcome B) : outcome B :=
  match o with
  | Ret a => k a
  | Raise e => Raise e
  end.

(** [a < b] on floats, as a boolean. *)
Definition Qltb (a b : Q) : bool := negb (Qle_bool b a).

(** Python's [max(a, b)]: the first argument unless the second is
    strictly greater. *)
Definition max2 (a b : Q) : Q := if Qltb a b then b else a.

(** Python's [min(a, b)]: the first argument unless the second is
    strictly smaller. *)
Definition min2 (a b : Q) : Q := if Qltb b a then b else a.

(** [max(l)] of a sequence; [ValueError] on an empty one. *)
Definition max_seq (l : list Q) : outcome Q :=
  match l with
  | [] => Raise ValueError
  | x :: r => Ret (fold_left max2 r x)
  end.

(** [len(l)] *)
Definition len {A} (l : list A) : Z := Z.of_nat (List.length l).

(** The position that the index [i] denotes in a sequence of length
    [n]: a negative index counts from the end, and an index out of range
    raises [IndexError]. *)
Definition position (n i : Z) : outcome nat :=
  let j := if (i <? 0)%Z then (i + n)%Z else i in
  if ((j <? 0) || (n <=? j))%Z then Raise IndexError
  else Ret (Z.to_nat j).

(** [l[i]] *)
Definition index {A} (l : list A) (i : Z) : outcome A :=
  obind (position (len l) i) (fun j =>
    match nth_error l j with
    | Some a => Ret a
    | None => Raise IndexError
    end).

Fixpoint replace_nth {A} (l : list A) (n : nat) (a : A) : list A :=
  match l, n with
  | [], _ => []
  | _ :: r, O => a :: r
  | x :: r, S m => x :: replace_nth r m a
  end.

(** [l[i] = a] *)
Definition set_index {A} (l : list A) (i : Z) (a : A) : outcome (list A) :=
  obind (position (len l) i) (fun j => Ret (replace_nth l j a)).

(** [f(a)] for every [a] of [l], in order, stopping at the first
    exception. *)
Fixpoint omap {A B} (f : A -> outcome B) (l : list A) : outcome (list B) :=
  match l with
  | [] => Ret []
  | a :: r => obind (f a) (fun b => obind (omap f r) (fun bs => Ret (b :: bs)))
  end.

(** [l != []] *)
Definition nonempty {A} (l : list A) : bool :=
  match l with
  | [] => false
  | _ :: _ => true
  end.

(** [self.field[i].append(a)] on a list of lists. *)
Definition append_at {A} (l : list (list A)) (i : Z) (a : A)
  : outcome (list (list A)) :=
  obind (index l i) (fun row => set_index l i (row ++ [a])).

(** [l[i].append(e)] where the argument [e] is an expression that may
    raise: the row [l[i]] is looked up first, then [e] is evaluated, then
    the value is appended.  Returns the new table and the value of [e]. *)
Definition append_eval {A} (l : list (list A)) (i : Z) (e : outcome A)
  : outcome (list (list A) * A) :=
  obind (index l i) (fun row =>
  obind e (fun a =>
  obind (set_index l i (row ++ [a])) (fun l' => Ret (l', a)))).

(** [a / b] on Python numbers: a zero divisor raises. *)
Definition div (a b : Q) : outcome Q :=
  if Qeq_bool b 0 then Raise ZeroDivisionError else Ret (a / b).

(** [float(n)] of an int: exact up to [2 ** 53] in absolute value; beyond
    that, [n] is rounded to 53 significant bits, a tie going to the even
    neighbour, and a result that reaches [2 ** 1024] raises. *)
Definition float_of_int (n : Z) : outcome Q :=
  let a := Z.abs n in
  if (a <=? 2 ^ 53)%Z then Ret (inject_Z n)
  else
    let e := (Z.log2 a - 52)%Z in
    let q := Z.shiftr a e in
    let r := Z.land a (Z.ones e) in
    let half := Z.shiftl 1 (e - 1) in
    let q' :=
      if (half <? r)%Z || ((half =? r)%Z && Z.odd q) then (q + 1)%Z else q in
    let m := Z.shiftl q' e in
    if (2 ^ 1024 <=? m)%Z then Raise OverflowError
    else Ret (inject_Z (Z.sgn n * m)).

(** [torch.argmax(v)]: the position of the first largest entry. *)
Fixpoint argmax_from (best : Q) (best_i : Z) (i : Z) (v : list Q) : Z :=
  match v with
  | [] => best_i
  | x :: r =>
      if Qltb best x then argmax_from x i (i + 1)%Z r
      else argmax_from best best_i (i + 1)%Z r
  end.

Definition argmax (v : list Q) : outcome Z :=
  match v with
  | [] => Raise RuntimeError
  | x :: r => Ret (argmax_from x 0%Z 1%Z r)
  end.

(** [range(n)] *)
Definition range (n : Z) : list Z :=
  map Z.of_nat (seq 0 (Z.to_nat n)).

(** [range(a, b)] *)
Definition range2 (a b : Z) : list Z :=
  map (fun k => (a + Z.of_nat k)%Z) (seq 0 (Z.to_nat (b - a))).

(** The values a [for] statement may be asked to iterate over in the
    modelled code. *)
Inductive value : Type :=
| VInt (n : Z)
| VRange (n : Z).

(** [iter(v)]: an [int] is not iterable. *)
Definition iter (v : value) : outcome (list Z) :=
  match v with
  | VInt _ => Raise TypeError
  | VRange n => Ret (range n)
  end.

End Py.

Import Py.

Declare Scope outcome_scope.
Delimit Scope outcome_scope with outcome.
Notation "x <~ c ;; k" := (obind c (fun x => k))
  (at level 61, c at next level, right associativity) : outcome_scope.
Notation "' pat <~ c ;; k" := (obind c (fun x => match x with pat => k end))
  (at level 61, pat pattern, c at next level, right associativity)
  : outcome_scope.

(* ===================================================================== *)
(** * Floats with the IEEE special values *)
(* ===================================================================== *)

(** [TurboState.best_value] starts at [-float("inf")], and the success
    test of [update_state] computes with it, so this field keeps the
    special values.  Finite values are exact. *)
Inductive pyfloat : Type :=
| NaN
| NegInf
| PosInf
| Fin (q : Q).

Module F.

(** [a + b] *)
Definition add (a b : pyfloat) : pyfloat :=
  match a, b with
  | NaN, _ | _, NaN => NaN
  | NegInf, PosInf | PosInf, NegInf => NaN
  | NegInf, _ | _, NegInf => NegInf
  | PosInf, _ | _, PosInf => PosInf
  | Fin x, Fin y => Fin (x + y)
  end.

Definition inf_of_sign (q : Q) (pos : pyfloat) (neg : pyfloat) : pyfloat :=
  if Qeq_bool q 0 then NaN else if Qltb 0 q then pos else neg.

(** [a * b] *)
Definition mul (a b : pyfloat) : pyfloat :=
  match a, b with
  | NaN, _ | _, NaN => NaN
  | PosInf, PosInf | NegInf, NegInf => PosInf
  | PosInf, NegInf | NegInf, PosInf => NegInf
  | Fin x, PosInf | PosInf, Fin x => inf_of_sign x PosInf NegInf
  | Fin x, NegInf | NegInf, Fin x => inf_of_sign x NegInf PosInf
  | Fin x, Fin y => Fin (x * y)
  end.

(** [math.fabs(a)] *)
Definition fabs (a : pyfloat) : pyfloat :=
  match a with
  | NaN => NaN
  | NegInf | PosInf => PosInf
  | Fin x => Fin (Qabs x)
  end.

(** [a > b]: false as soon as one side is [nan]. *)
Definition gt (a b : pyfloat) : bool :=
  match a, b with
  | NaN, _ | _, NaN => false
  | PosInf, PosInf => false
  | PosInf, _ => true
  | _, PosInf => false
  | NegInf, _ => false
  | Fin _, NegInf => true
  | Fin x, Fin y => Qltb y x
  end.

(** Python's [max(a, b)]. *)
Definition max2 (a b : pyfloat) : pyfloat := if gt b a then b else a.

End F.

(* ===================================================================== *)
(** * [TurboState] and [MF_TuRBO.update_state] *)
(* ===================================================================== *)

Module Turbo.

(** The [TurboState] dataclass.  [failure_tolerance] is declared with a
    placeholder and set by [__post_init__]. *)
Record TurboState : Type := mkTurboState {
  dim : Z;
  batch_size : Z;
  length : Q;
  length_min : Q;
  length_max : Q;
  failure_counter : Z;
  failure_tolerance : Z;
  success_counter : Z;
  success_tolerance : Z;
  best_value : pyfloat;
  restart_triggered : bool
}.

Definition set_length (s : TurboState) (v : Q) : TurboState :=
  mkTurboState (dim s) (batch_size s) v (length_min s) (length_max s)
    (failure_counter s) (failure_tolerance s) (success_counter s)
    (success_tolerance s) (best_value s) (restart_triggered s).

Definition set_failure_counter (s : TurboState) (v : Z) : TurboState :=
  mkTurboState (dim s) (batch_size s) (length s) (length_min s) (length_max s)
    v (failure_tolerance s) (success_counter s)
    (success_tolerance s) (best_value s) (restart_triggered s).

Definition set_failure_tolerance (s : TurboState) (v : Z) : TurboState :=
  mkTurboState (dim s) (batch_size s) (length s) (length_min s) (length_max s)
    (failure_counter s) v (success_counter s)
    (success_tolerance s) (best_value s) (restart_triggered s).

Definition set_success_counter (s : TurboState) (v : Z) : TurboState :=
  mkTurboState (dim s) (batch_size s) (length s) (length_min s) (length_max s)
    (failure_counter s) (failure_tolerance s) v
    (success_tolerance s) (best_value s) (restart_triggered s).

Definition set_best_value (s : TurboState) (v : pyfloat) : TurboState :=
  mkTurboState (dim s) (batch_size s) (length s) (length_min s) (length_max s)
    (failure_counter s) (failure_tolerance s) (success_counter s)
    (success_tolerance s) v (restart_triggered s).

Definition set_restart_triggered (s : TurboState) (v : bool) : TurboState :=
  mkTurboState (dim s) (batch_size s) (length s) (length_min s) (length_max s)
    (failure_counter s) (failure_tolerance s) (success_counter s)
    (success_tolerance s) (best_value s) v.

(** [__post_init__]:
    [failure_tolerance = math.ceil(max([4.0 / batch_size, float(dim) / batch_size]))].
    The first quotient is evaluated first, then [float(dim)], which
    rounds a [dim] beyond [2 ** 53] and raises on one that no double
    holds.  The two quotients are exact, as they are in the code for the
    batch size 1 of every state that is built. *)
Definition post_init (s : TurboState) : outcome TurboState :=
  if (batch_size s =? 0)%Z then Raise ZeroDivisionError
  else
    let a := 4 / inject_Z (batch_size s) in
    obind (float_of_int (dim s)) (fun d =>
    let b := d / inject_Z (batch_size s) in
    Ret (set_failure_tolerance s (Qceiling (Py.max2 a b)))).

(** [TurboState(dim = d)]: every other field takes its default. *)
Definition new (d : Z) : outcome TurboState :=
  post_init
    {| dim := d;
       batch_size := 1;
       length := 8 # 10;               (* 0.8 *)
       length_min := 1 # 128;          (* 0.5 ** 7 *)
       length_max := 16 # 10;          (* 1.6 *)
       failure_counter := 0;
       failure_tolerance := 0;         (* nan, "Post-initialized" *)
       success_counter := 0;
       success_tolerance := 10;
       best_value := NegInf;           (* -float("inf") *)
       restart_triggered := false |}.

(** [best + 1e-3 * math.fabs(best)] *)
Definition threshold (best : pyfloat) : pyfloat :=
  F.add best (F.mul (Fin (1 # 1000)) (F.fabs best)).

(** The success test of [update_state]:
    [max(Y_next) > state.best_value + 1e-3 * math.fabs(state.best_value)] *)
Definition improves (state : TurboState) (y : Q) : bool :=
  F.gt (Fin y) (threshold (best_value state)).

(** [MF_TuRBO.update_state(state, Y_next)].  Finite floats are exact
    rationals: the code rounds the threshold of the success test and,
    below the smallest normal double, the halved length (which reaches
    [0.0] after some 1075 halvings). *)
Definition update_state (state : TurboState) (Y_next : list Q)
  : outcome TurboState :=
  obind (max_seq Y_next) (fun y =>
  (* count if a success, otherwise a failure *)
  let state :=
    if improves state y
    then set_failure_counter
           (set_success_counter state (success_counter state + 1)%Z) 0%Z
    else set_failure_counter
           (set_success_counter state 0%Z) (failure_counter state + 1)%Z in
  (* check if we need to expand or shrink the trust region *)
  let state :=
    if (success_counter state =? success_tolerance state)%Z then
      set_success_counter
        (set_length state (Py.min2 (2 * length state) (length_max state))) 0%Z
    else if (failure_counter state =? failure_tolerance state)%Z then
      set_failure_counter (set_length state (length state / 2)) 0%Z
    else state in
  (* set the best value if we got a new observation *)
  let state := set_best_value state (F.max2 (best_value state) (Fin y)) in
  let state :=
    if Qltb (length state) (length_min state)
    then set_restart_triggered state true
    else state in
  Ret state).

(** The calls [self.state = self.update_state(self.state, obs)] made for a
    sequence of target-fidelity observations, in order. *)
Fixpoint update_all (state : TurboState) (obs : list (list Q))
  : outcome TurboState :=
  match obs with
  | [] => Ret state
  | Y_next :: rest =>
      obind (update_state state Y_next) (fun state' => update_all state' rest)
  end.

(** Every observation of a run is a non-empty tensor. *)
Definition observations_ok (obs : list (list Q)) : Prop :=
  Forall (fun Y_next => Y_next <> []) obs.

(** A run of single observations, each above the running best [b] by
    more than the relative tolerance. *)
Fixpoint improving_run (b : Q) (ys : list Q) : Prop :=
  match ys with
  | [] => True
  | y :: r => b + (1 # 1000) * Qabs b < y /\ improving_run y r
  end.

(** A run of single observations none of which passes the success test
    of the code against the running best. *)
Fixpoint stalling_run (best : pyfloat) (ys : list Q) : bool :=
  match ys with
  | [] => true
  | y :: r =>
      negb (F.gt (Fin y) (threshold best))
      && stalling_run (F.max2 best (Fin y)) r
  end.

(** Both counters are below their tolerances, and at most one of them
    is counting. *)
Definition counters_ok (st : TurboState) : Prop :=
  (0 <= success_counter st < success_tolerance st)%Z /\
  (0 <= failure_counter st < failure_tolerance st)%Z /\
  (success_counter st = 0%Z \/ failure_counter st = 0%Z).

(** The bounds and tolerances of two states agree. *)
Definition same_setting (st st' : TurboState) : Prop :=
  length_max st' = length_max st /\
  success_tolerance st' = success_tolerance st /\
  failure_tolerance st' = failure_tolerance st.

(** The observations [ys], each as a one-entry tensor. *)
Definition singles (ys : list Q) : list (list Q) := map (fun y => [y]) ys.

End Turbo.

(* ===================================================================== *)
(** * The state-and-exception monad of the methods *)
(* ===================================================================== *)

Module Monad.

(** How a call of a method ends: it returns a value, it raises, or a
    loop in it has used up its fuel. *)
Inductive ending (A : Type) : Type :=
| Returns (a : A)
| Raises (e : exn)
| Timeout.
Arguments Returns {A} a.
Arguments Raises {A} e.
Arguments Timeout {A}.

(** A method body: it reads and writes the object [S].  The object is
    kept when an exception is raised, as in Python. *)
Definition M (S A : Type) : Type := S -> ending A * S.

Definition ret {S A} (a : A) : M S A := fun s => (Returns a, s).

Definition bind {S A B} (m : M S A) (k : A -> M S B) : M S B :=
  fun s =>
    match m s with
    | (Returns a, s') => k a s'
    | (Raises e, s') => (Raises e, s')
    | (Timeout, s') => (Timeout, s')
    end.

Definition get {S} : M S S := fun s => (Returns s, s).

Definition gets {S A} (f : S -> A) : M S A := fun s => (Returns (f s), s).

Definition modify {S} (f : S -> S) : M S unit := fun s => (Returns tt, f s).

(** Evaluate an expression that does not touch the object. *)
Definition lift {S A} (o : outcome A) : M S A :=
  fun s =>
    match o with
    | Ret a => (Returns a, s)
    | Raise e => (Raises e, s)
    end.

Definition timeout {S A} : M S A := fun s => (Timeout, s).

(** [for a in l: body(a)] *)
Fixpoint for_each {S A} (l : list A) (body : A -> M S unit) : M S unit :=
  match l with
  | [] => ret tt
  | a :: r => bind (body a) (fun _ => for_each r body)
  end.

(** [if c: body] *)
Definition when {S} (c : bool) (body : M S unit) : M S unit :=
  if c then body else ret tt.

(** [m] takes every object it is run on to an object related to it by
    [R], whatever the outcome. *)
Definition preserves {S A} (R : S -> S -> Prop) (m : M S A) : Prop :=
  forall s, R s (snd (m s)).

(** From an object that satisfies [I], [m] returns to an object that
    satisfies [I] again, or raises (or runs out of fuel) on one that
    satisfies [J]. *)
Definition maintains {S A} (I J : S -> Prop) (m : M S A) : Prop :=
  forall s, I s ->
    match fst (m s) with
    | Returns _ => I (snd (m s))
    | _ => J (snd (m s))
    end.

(** The relation [Rv] between the values of [f] on two objects. *)
Definition through {S V} (f : S -> V) (Rv : V -> V -> Prop)
  : S -> S -> Prop :=
  fun s s' => Rv (f s) (f s').

(** [m] never ends by running out of fuel. *)
Definition finishes {S A} (m : M S A) : Prop :=
  forall s, fst (m s) <> Timeout.

(** The value of [f] does not depend on the field written by [set]. *)
Definition blind {S V T} (f : S -> V) (set : T -> S -> S) : Prop :=
  forall (v : T) (s : S), f (set v s) = f s.

End Monad.

Import Monad.

Declare Scope monad_scope.
Delimit Scope monad_scope with monad.
Notation "x <- c ;; k" := (bind c (fun x => k))
  (at level 61, c at next level, right associativity) : monad_scope.
Notation "' pat <- c ;; k" := (bind c (fun x => match x with pat => k end))
  (at level 61, pat pattern, c at next level, right associativity) : monad_scope.
Notation "c ;; k" := (bind c (fun _ => k))
  (at level 61, right associativity) : monad_scope.

(* ===================================================================== *)
(** * The collaborators of the controller *)
(* ===================================================================== *)

(** An input location in [[0,1]^d]; a row of an [n x d] tensor. *)
Definition point : Type := list Q.

(** The hyper-parameter tuple [(constant, lengthscale, noise, mean_constant)]
    of a model: [hypers[0]], [hypers[1]], [hypers[2]], [hypers[3]]. *)
Record hypers : Type := mkHypers {
  constant : Q;
  length_scale : list Q;
  noise : Q;
  mean_constant : Q
}.

(** The Gaussian-process engine ([gp_utils.BoTorchGP]): an opaque
    service.  [posterior] gives the mean and the standard deviation at one
    row; [max_grad_norm] is the largest norm of the gradient of the
    posterior mean over a grid (the code gets it from autograd). *)
Class Surrogate (gp : Type) : Type := {
  new_gp : Z -> gp;
  new_bias_gp : Z -> gp;
  posterior : gp -> point -> Q * Q;
  fit_model : gp -> list point -> list Q -> hypers -> gp;
  optim_hyperparams : gp -> bool -> gp;
  current_hyperparams : gp -> hypers;
  set_hyperparams : gp -> hypers -> gp;
  max_grad_norm : gp -> list point -> Q
}.

(** The optimisation environment ([env] and [env.func]). *)
Class Environment (E : Type) : Type := {
  env_dim : E -> Z;
  env_num_of_fidelities : E -> Z;
  env_current_time : E -> Z;
  expected_costs : E -> list Q;
  fidelity_costs : E -> list Q;
  require_transform : E -> bool;
  env_grid_search : E -> bool;
  gen_search_grid : E -> Z -> list point;
  query_list : E -> list point;
  fidelities_list : E -> list Z;
  (** [step(new_Xs, new_Ms)]: the resolved inputs, their fidelities and
      their values ([None] when nothing resolved), and the environment
      after the step. *)
  step : E -> list point -> list Z ->
         (list point * list Z * option (list Q)) * E
}.

(** Numerical services: the transcendental functions, the quasi-random
    grid, the random source and the multi-start gradient ascent that the
    code runs with [torch.optim.Adam]. *)
Class Numerics (rng : Type) : Type := {
  log : Q -> Q;
  softplus : Q -> Q;                        (* log(1 + exp(u)) *)
  norm : point -> point -> Q;               (* || p - x ||_2 *)
  sobol_grid : Z -> Z -> list point;        (* i4_sobol_generate(dim, n) *)
  uniform : Z -> rng -> point * rng;        (* np.random.uniform(size = dim) *)
  multistart_ascent :
    (list point -> outcome (list Q)) -> Z -> Z -> Z -> rng ->
    outcome point * rng
}.

(* ===================================================================== *)
(** * [mfLiveBatch] and its subclasses *)
(* ===================================================================== *)

Module MF.

(** How the bias bound may move from [a]: not at all, or by steps that
    each replace the current bound [b] by [1.2 * diff] for a difference
    [diff] that exceeds [b]. *)
Inductive inflated (a : Q) : Q -> Prop :=
| inflated_same : inflated a a
| inflated_more (b diff : Q) :
    inflated a b -> b < diff -> inflated a ((12 # 10) * diff).

(** The cost of the queries at fidelities [Ms], at the prices [costs]. *)
Definition total_cost (costs : list Q) (Ms : list Z) : Q :=
  fold_right
    (fun m acc =>
       match index costs m with
       | Ret c => c
       | Raise _ => 0
       end + acc)
    0 Ms.

(** How a fidelity threshold may move from [a]: not at all, or by
    doublings. *)
Inductive doubled (a : Q) : Q -> Prop :=
| doubled_same : doubled a a
| doubled_more (b : Q) : doubled a b -> doubled a (b * 2).

(** The largest of 0, the initial entry of [max_value], and the values
    [ys]: what [max(max_value[fid], y)] builds up over the observations
    of one fidelity. *)
Definition running_max (ys : list Q) : Q := fold_left Py.max2 ys 0.

Section Controller.

Context (gp E rng : Type).
Context {SurrogateGP : Surrogate gp}.
Context {EnvE : Environment E}.
Context {Num : Numerics rng}.

Local Open Scope monad_scope.

(** The fields of an [mfLiveBatch] object (and of its subclasses, which
    add [query_being_evaluated]).  [env] is the environment it holds;
    [rng_state] is the global random state.  Fields that the class writes
    but that no modelled method reads ([fidelity_thresholds_init],
    [num_of_grad_points], [domain], [queried_batch], [grid_to_search]) are
    left out. *)
Record Self : Type := mkSelf {
  env : E;
  rng_state : rng;
  dim : Z;
  cost_budget : Q;
  batch_costs : Q;
  budget : Z;
  num_of_fidelities : Z;
  fidelity_thresholds : list Q;
  increasing_thresholds : bool;
  update_max_bias : bool;
  cost_thresholds : list Q;
  fidelity_count_list : list Z;
  bias_list : list Q;
  bias_constant : Q;
  gp_hyperparams : list hypers;
  fixed_beta : bool;
  beta : list Q;
  penalization_gamma : Q;
  lipschitz_constant : list Q;
  max_value : list Q;
  estimate_lipschitz : bool;
  local_lipschitz : bool;
  lipschitz_grid : list point;
  soft_plus_transform : bool;
  num_of_starts : Z;
  num_of_optim_epochs : Z;
  grid_search : bool;
  hp_update_frequency : option Z;
  last_n_obs : list Z;
  X : list (list point);
  Y : list (list Q);
  T : list (list Z);
  bias_X : list (list point);
  bias_Y : list (list Q);
  model : list gp;
  bias_model : list gp;
  current_time : Z;
  new_obs : option (list Q);
  lipschitz_batch_list : list Q;
  current_batch : list point;
  current_batch_fids : list Z;
  query_being_evaluated : bool
}.

Definition set_env (v : E) (s : Self) : Self :=
  mkSelf v (rng_state s) (dim s) (cost_budget s) (batch_costs s) (budget s)
    (num_of_fidelities s) (fidelity_thresholds s) (increasing_thresholds s)
    (update_max_bias s) (cost_thresholds s) (fidelity_count_list s)
    (bias_list s) (bias_constant s) (gp_hyperparams s) (fixed_beta s) (beta
    s) (penalization_gamma s) (lipschitz_constant s) (max_value s)
    (estimate_lipschitz s) (local_lipschitz s) (lipschitz_grid s)
    (soft_plus_transform s) (num_of_starts s) (num_of_optim_epochs s)
    (grid_search s) (hp_update_frequency s) (last_n_obs s) (X s) (Y s) (T s)
    (bias_X s) (bias_Y s) (model s) (bias_model s) (current_time s) (new_obs
    s) (lipschitz_batch_list s) (current_batch s) (current_batch_fids s)
    (query_being_evaluated s).

Definition set_rng_state (v : rng) (s : Self) : Self :=
  mkSelf (env s) v (dim s) (cost_budget s) (batch_costs s) (budget s)
    (num_of_fidelities s) (fidelity_thresholds s) (increasing_thresholds s)
    (update_max_bias s) (cost_thresholds s) (fidelity_count_list s)
    (bias_list s) (bias_constant s) (gp_hyperparams s) (fixed_beta s) (beta
    s) (penalization_gamma s) (lipschitz_constant s) (max_value s)
    (estimate_lipschitz s) (local_lipschitz s) (lipschitz_grid s)
    (soft_plus_transform s) (num_of_starts s) (num_of_optim_epochs s)
    (grid_search s) (hp_update_frequency s) (last_n_obs s) (X s) (Y s) (T s)
    (bias_X s) (bias_Y s) (model s) (bias_model s) (current_time s) (new_obs
    s) (lipschitz_batch_list s) (current_batch s) (current_batch_fids s)
    (query_being_evaluated s).

Definition set_batch_costs (v : Q) (s : Self) : Self :=
  mkSelf (env s) (rng_state s) (dim s) (cost_budget s) v (budget s)
    (num_of_fidelities s) (fidelity_thresholds s) (increasing_thresholds s)
    (update_max_bias s) (cost_thresholds s) (fidelity_count_list s)
    (bias_list s) (bias_constant s) (gp_hyperparams s) (fixed_beta s) (beta
    s) (penalization_gamma s) (lipschitz_constant s) (max_value s)
    (estimate_lipschitz s) (local_lipschitz s) (lipschitz_grid s)
    (soft_plus_transform s) (num_of_starts s) (num_of_optim_epochs s)
    (grid_search s) (hp_update_frequency s) (last_n_obs s) (X s) (Y s) (T s)
    (bias_X s) (bias_Y s) (model s) (bias_model s) (current_time s) (new_obs
    s) (lipschitz_batch_list s) (current_batch s) (current_batch_fids s)
    (query_being_evaluated s).

Definition set_num_of_fidelities (v : Z) (s : Self) : Self :=
  mkSelf (env s) (rng_state s) (dim s) (cost_budget s) (batch_costs s)
    (budget s) v (fidelity_thresholds s) (increasing_thresholds s)
    (update_max_bias s) (cost_thresholds s) (fidelity_count_list s)
    (bias_list s) (bias_constant s) (gp_hyperparams s) (fixed_beta s) (beta
    s) (penalization_gamma s) (lipschitz_constant s) (max_value s)
    (estimate_lipschitz s) (local_lipschitz s) (lipschitz_grid s)
    (soft_plus_transform s) (num_of_starts s) (num_of_optim_epochs s)
    (grid_search s) (hp_update_frequency s) (last_n_obs s) (X s) (Y s) (T s)
    (bias_X s) (bias_Y s) (model s) (bias_model s) (current_time s) (new_obs
    s) (lipschitz_batch_list s) (current_batch s) (current_batch_fids s)
    (query_being_evaluated s).

Definition set_fidelity_thresholds (v : list Q) (s : Self) : Self :=
  mkSelf (env s) (rng_state s) (dim s) (cost_budget s) (batch_costs s)
    (budget s) (num_of_fidelities s) v (increasing_thresholds s)
    (update_max_bias s) (cost_thresholds s) (fidelity_count_list s)
    (bias_list s) (bias_constant s) (gp_hyperparams s) (fixed_beta s) (beta
    s) (penalization_gamma s) (lipschitz_constant s) (max_value s)
    (estimate_lipschitz s) (local_lipschitz s) (lipschitz_grid s)
    (soft_plus_transform s) (num_of_starts s) (num_of_optim_epochs s)
    (grid_search s) (hp_update_frequency s) (last_n_obs s) (X s) (Y s) (T s)
    (bias_X s) (bias_Y s) (model s) (bias_model s) (current_time s) (new_obs
    s) (lipschitz_batch_list s) (current_batch s) (current_batch_fids s)
    (query_being_evaluated s).

Definition set_cost_thresholds (v : list Q) (s : Self) : Self :=
  mkSelf (env s) (rng_state s) (dim s) (cost_budget s) (batch_costs s)
    (budget s) (num_of_fidelities s) (fidelity_thresholds s)
    (increasing_thresholds s) (update_max_bias s) v (fidelity_count_list s)
    (bias_list s) (bias_constant s) (gp_hyperparams s) (fixed_beta s) (beta
    s) (penalization_gamma s) (lipschitz_constant s) (max_value s)
    (estimate_lipschitz s) (local_lipschitz s) (lipschitz_grid s)
    (soft_plus_transform s) (num_of_starts s) (num_of_optim_epochs s)
    (grid_search s) (hp_update_frequency s) (last_n_obs s) (X s) (Y s) (T s)
    (bias_X s) (bias_Y s) (model s) (bias_model s) (current_time s) (new_obs
    s) (lipschitz_batch_list s) (current_batch s) (current_batch_fids s)
    (query_being_evaluated s).

Definition set_fidelity_count_list (v : list Z) (s : Self) : Self :=
  mkSelf (env s) (rng_state s) (dim s) (cost_budget s) (batch_costs s)
    (budget s) (num_of_fidelities s) (fidelity_thresholds s)
    (increasing_thresholds s) (update_max_bias s) (cost_thresholds s) v
    (bias_list s) (bias_constant s) (gp_hyperparams s) (fixed_beta s) (beta
    s) (penalization_gamma s) (lipschitz_constant s) (max_value s)
    (estimate_lipschitz s) (local_lipschitz s) (lipschitz_grid s)
    (soft_plus_transform s) (num_of_starts s) (num_of_optim_epochs s)
    (grid_search s) (hp_update_frequency s) (last_n_obs s) (X s) (Y s) (T s)
    (bias_X s) (bias_Y s) (model s) (bias_model s) (current_time s) (new_obs
    s) (lipschitz_batch_list s) (current_batch s) (current_batch_fids s)
    (query_being_evaluated s).

Definition set_bias_constant (v : Q) (s : Self) : Self :=
  mkSelf (env s) (rng_state s) (dim s) (cost_budget s) (batch_costs s)
    (budget s) (num_of_fidelities s) (fidelity_thresholds s)
    (increasing_thresholds s) (update_max_bias s) (cost_thresholds s)
    (fidelity_count_list s) (bias_list s) v (gp_hyperparams s) (fixed_beta
    s) (beta s) (penalization_gamma s) (lipschitz_constant s) (max_value s)
    (estimate_lipschitz s) (local_lipschitz s) (lipschitz_grid s)
    (soft_plus_transform s) (num_of_starts s) (num_of_optim_epochs s)
    (grid_search s) (hp_update_frequency s) (last_n_obs s) (X s) (Y s) (T s)
    (bias_X s) (bias_Y s) (model s) (bias_model s) (current_time s) (new_obs
    s) (lipschitz_batch_list s) (current_batch s) (current_batch_fids s)
    (query_being_evaluated s).

Definition set_gp_hyperparams (v : list hypers) (s : Self) : Self :=
  mkSelf (env s) (rng_state s) (dim s) (cost_budget s) (batch_costs s)
    (budget s) (num_of_fidelities s) (fidelity_thresholds s)
    (increasing_thresholds s) (update_max_bias s) (cost_thresholds s)
    (fidelity_count_list s) (bias_list s) (bias_constant s) v (fixed_beta s)
    (beta s) (penalization_gamma s) (lipschitz_constant s) (max_value s)
    (estimate_lipschitz s) (local_lipschitz s) (lipschitz_grid s)
    (soft_plus_transform s) (num_of_starts s) (num_of_optim_epochs s)
    (grid_search s) (hp_update_frequency s) (last_n_obs s) (X s) (Y s) (T s)
    (bias_X s) (bias_Y s) (model s) (bias_model s) (current_time s) (new_obs
    s) (lipschitz_batch_list s) (current_batch s) (current_batch_fids s)
    (query_being_evaluated s).

Definition set_beta (v : list Q) (s : Self) : Self :=
  mkSelf (env s) (rng_state s) (dim s) (cost_budget s) (batch_costs s)
    (budget s) (num_of_fidelities s) (fidelity_thresholds s)
    (increasing_thresholds s) (update_max_bias s) (cost_thresholds s)
    (fidelity_count_list s) (bias_list s) (bias_constant s) (gp_hyperparams
    s) (fixed_beta s) v (penalization_gamma s) (lipschitz_constant s)
    (max_value s) (estimate_lipschitz s) (local_lipschitz s) (lipschitz_grid
    s) (soft_plus_transform s) (num_of_starts s) (num_of_optim_epochs s)
    (grid_search s) (hp_update_frequency s) (last_n_obs s) (X s) (Y s) (T s)
    (bias_X s) (bias_Y s) (model s) (bias_model s) (current_time s) (new_obs
    s) (lipschitz_batch_list s) (current_batch s) (current_batch_fids s)
    (query_being_evaluated s).

Definition set_lipschitz_constant (v : list Q) (s : Self) : Self :=
  mkSelf (env s) (rng_state s) (dim s) (cost_budget s) (batch_costs s)
    (budget s) (num_of_fidelities s) (fidelity_thresholds s)
    (increasing_thresholds s) (update_max_bias s) (cost_thresholds s)
    (fidelity_count_list s) (bias_list s) (bias_constant s) (gp_hyperparams
    s) (fixed_beta s) (beta s) (penalization_gamma s) v (max_value s)
    (estimate_lipschitz s) (local_lipschitz s) (lipschitz_grid s)
    (soft_plus_transform s) (num_of_starts s) (num_of_optim_epochs s)
    (grid_search s) (hp_update_frequency s) (last_n_obs s) (X s) (Y s) (T s)
    (bias_X s) (bias_Y s) (model s) (bias_model s) (current_time s) (new_obs
    s) (lipschitz_batch_list s) (current_batch s) (current_batch_fids s)
    (query_being_evaluated s).

Definition set_max_value (v : list Q) (s : Self) : Self :=
  mkSelf (env s) (rng_state s) (dim s) (cost_budget s) (batch_costs s)
    (budget s) (num_of_fidelities s) (fidelity_thresholds s)
    (increasing_thresholds s) (update_max_bias s) (cost_thresholds s)
    (fidelity_count_list s) (bias_list s) (bias_constant s) (gp_hyperparams
    s) (fixed_beta s) (beta s) (penalization_gamma s) (lipschitz_constant s)
    v (estimate_lipschitz s) (local_lipschitz s) (lipschitz_grid s)
    (soft_plus_transform s) (num_of_starts s) (num_of_optim_epochs s)
    (grid_search s) (hp_update_frequency s) (last_n_obs s) (X s) (Y s) (T s)
    (bias_X s) (bias_Y s) (model s) (bias_model s) (current_time s) (new_obs
    s) (lipschitz_batch_list s) (current_batch s) (current_batch_fids s)
    (query_being_evaluated s).

Definition set_last_n_obs (v : list Z) (s : Self) : Self :=
  mkSelf (env s) (rng_state s) (dim s) (cost_budget s) (batch_costs s)
    (budget s) (num_of_fidelities s) (fidelity_thresholds s)
    (increasing_thresholds s) (update_max_bias s) (cost_thresholds s)
    (fidelity_count_list s) (bias_list s) (bias_constant s) (gp_hyperparams
    s) (fixed_beta s) (beta s) (penalization_gamma s) (lipschitz_constant s)
    (max_value s) (estimate_lipschitz s) (local_lipschitz s) (lipschitz_grid
    s) (soft_plus_transform s) (num_of_starts s) (num_of_optim_epochs s)
    (grid_search s) (hp_update_frequency s) v (X s) (Y s) (T s) (bias_X s)
    (bias_Y s) (model s) (bias_model s) (current_time s) (new_obs s)
    (lipschitz_batch_list s) (current_batch s) (current_batch_fids s)
    (query_being_evaluated s).

Definition set_X (v : list (list point)) (s : Self) : Self :=
  mkSelf (env s) (rng_state s) (dim s) (cost_budget s) (batch_costs s)
    (budget s) (num_of_fidelities s) (fidelity_thresholds s)
    (increasing_thresholds s) (update_max_bias s) (cost_thresholds s)
    (fidelity_count_list s) (bias_list s) (bias_constant s) (gp_hyperparams
    s) (fixed_beta s) (beta s) (penalization_gamma s) (lipschitz_constant s)
    (max_value s) (estimate_lipschitz s) (local_lipschitz s) (lipschitz_grid
    s) (soft_plus_transform s) (num_of_starts s) (num_of_optim_epochs s)
    (grid_search s) (hp_update_frequency s) (last_n_obs s) v (Y s) (T s)
    (bias_X s) (bias_Y s) (model s) (bias_model s) (current_time s) (new_obs
    s) (lipschitz_batch_list s) (current_batch s) (current_batch_fids s)
    (query_being_evaluated s).

Definition set_Y (v : list (list Q)) (s : Self) : Self :=
  mkSelf (env s) (rng_state s) (dim s) (cost_budget s) (batch_costs s)
    (budget s) (num_of_fidelities s) (fidelity_thresholds s)
    (increasing_thresholds s) (update_max_bias s) (cost_thresholds s)
    (fidelity_count_list s) (bias_list s) (bias_constant s) (gp_hyperparams
    s) (fixed_beta s) (beta s) (penalization_gamma s) (lipschitz_constant s)
    (max_value s) (estimate_lipschitz s) (local_lipschitz s) (lipschitz_grid
    s) (soft_plus_transform s) (num_of_starts s) (num_of_optim_epochs s)
    (grid_search s) (hp_update_frequency s) (last_n_obs s) (X s) v (T s)
    (bias_X s) (bias_Y s) (model s) (bias_model s) (current_time s) (new_obs
    s) (lipschitz_batch_list s) (current_batch s) (current_batch_fids s)
    (query_being_evaluated s).

Definition set_T (v : list (list Z)) (s : Self) : Self :=
  mkSelf (env s) (rng_state s) (dim s) (cost_budget s) (batch_costs s)
    (budget s) (num_of_fidelities s) (fidelity_thresholds s)
    (increasing_thresholds s) (update_max_bias s) (cost_thresholds s)
    (fidelity_count_list s) (bias_list s) (bias_constant s) (gp_hyperparams
    s) (fixed_beta s) (beta s) (penalization_gamma s) (lipschitz_constant s)
    (max_value s) (estimate_lipschitz s) (local_lipschitz s) (lipschitz_grid
    s) (soft_plus_transform s) (num_of_starts s) (num_of_optim_epochs s)
    (grid_search s) (hp_update_frequency s) (last_n_obs s) (X s) (Y s) v
    (bias_X s) (bias_Y s) (model s) (bias_model s) (current_time s) (new_obs
    s) (lipschitz_batch_list s) (current_batch s) (current_batch_fids s)
    (query_being_evaluated s).

Definition set_bias_X (v : list (list point)) (s : Self) : Self :=
  mkSelf (env s) (rng_state s) (dim s) (cost_budget s) (batch_costs s)
    (budget s) (num_of_fidelities s) (fidelity_thresholds s)
    (increasing_thresholds s) (update_max_bias s) (cost_thresholds s)
    (fidelity_count_list s) (bias_list s) (bias_constant s) (gp_hyperparams
    s) (fixed_beta s) (beta s) (penalization_gamma s) (lipschitz_constant s)
    (max_value s) (estimate_lipschitz s) (local_lipschitz s) (lipschitz_grid
    s) (soft_plus_transform s) (num_of_starts s) (num_of_optim_epochs s)
    (grid_search s) (hp_update_frequency s) (last_n_obs s) (X s) (Y s) (T s)
    v (bias_Y s) (model s) (bias_model s) (current_time s) (new_obs s)
    (lipschitz_batch_list s) (current_batch s) (current_batch_fids s)
    (query_being_evaluated s).

Definition set_bias_Y (v : list (list Q)) (s : Self) : Self :=
  mkSelf (env s) (rng_state s) (dim s) (cost_budget s) (batch_costs s)
    (budget s) (num_of_fidelities s) (fidelity_thresholds s)
    (increasing_thresholds s) (update_max_bias s) (cost_thresholds s)
    (fidelity_count_list s) (bias_list s) (bias_constant s) (gp_hyperparams
    s) (fixed_beta s) (beta s) (penalization_gamma s) (lipschitz_constant s)
    (max_value s) (estimate_lipschitz s) (local_lipschitz s) (lipschitz_grid
    s) (soft_plus_transform s) (num_of_starts s) (num_of_optim_epochs s)
    (grid_search s) (hp_update_frequency s) (last_n_obs s) (X s) (Y s) (T s)
    (bias_X s) v (model s) (bias_model s) (current_time s) (new_obs s)
    (lipschitz_batch_list s) (current_batch s) (current_batch_fids s)
    (query_being_evaluated s).

Definition set_model (v : list gp) (s : Self) : Self :=
  mkSelf (env s) (rng_state s) (dim s) (cost_budget s) (batch_costs s)
    (budget s) (num_of_fidelities s) (fidelity_thresholds s)
    (increasing_thresholds s) (update_max_bias s) (cost_thresholds s)
    (fidelity_count_list s) (bias_list s) (bias_constant s) (gp_hyperparams
    s) (fixed_beta s) (beta s) (penalization_gamma s) (lipschitz_constant s)
    (max_value s) (estimate_lipschitz s) (local_lipschitz s) (lipschitz_grid
    s) (soft_plus_transform s) (num_of_starts s) (num_of_optim_epochs s)
    (grid_search s) (hp_update_frequency s) (last_n_obs s) (X s) (Y s) (T s)
    (bias_X s) (bias_Y s) v (bias_model s) (current_time s) (new_obs s)
    (lipschitz_batch_list s) (current_batch s) (current_batch_fids s)
    (query_being_evaluated s).

Definition set_bias_model (v : list gp) (s : Self) : Self :=
  mkSelf (env s) (rng_state s) (dim s) (cost_budget s) (batch_costs s)
    (budget s) (num_of_fidelities s) (fidelity_thresholds s)
    (increasing_thresholds s) (update_max_bias s) (cost_thresholds s)
    (fidelity_count_list s) (bias_list s) (bias_constant s) (gp_hyperparams
    s) (fixed_beta s) (beta s) (penalization_gamma s) (lipschitz_constant s)
    (max_value s) (estimate_lipschitz s) (local_lipschitz s) (lipschitz_grid
    s) (soft_plus_transform s) (num_of_starts s) (num_of_optim_epochs s)
    (grid_search s) (hp_update_frequency s) (last_n_obs s) (X s) (Y s) (T s)
    (bias_X s) (bias_Y s) (model s) v (current_time s) (new_obs s)
    (lipschitz_batch_list s) (current_batch s) (current_batch_fids s)
    (query_being_evaluated s).

Definition set_current_time (v : Z) (s : Self) : Self :=
  mkSelf (env s) (rng_state s) (dim s) (cost_budget s) (batch_costs s)
    (budget s) (num_of_fidelities s) (fidelity_thresholds s)
    (increasing_thresholds s) (update_max_bias s) (cost_thresholds s)
    (fidelity_count_list s) (bias_list s) (bias_constant s) (gp_hyperparams
    s) (fixed_beta s) (beta s) (penalization_gamma s) (lipschitz_constant s)
    (max_value s) (estimate_lipschitz s) (local_lipschitz s) (lipschitz_grid
    s) (soft_plus_transform s) (num_of_starts s) (num_of_optim_epochs s)
    (grid_search s) (hp_update_frequency s) (last_n_obs s) (X s) (Y s) (T s)
    (bias_X s) (bias_Y s) (model s) (bias_model s) v (new_obs s)
    (lipschitz_batch_list s) (current_batch s) (current_batch_fids s)
    (query_being_evaluated s).

Definition set_new_obs (v : option (list Q)) (s : Self) : Self :=
  mkSelf (env s) (rng_state s) (dim s) (cost_budget s) (batch_costs s)
    (budget s) (num_of_fidelities s) (fidelity_thresholds s)
    (increasing_thresholds s) (update_max_bias s) (cost_thresholds s)
    (fidelity_count_list s) (bias_list s) (bias_constant s) (gp_hyperparams
    s) (fixed_beta s) (beta s) (penalization_gamma s) (lipschitz_constant s)
    (max_value s) (estimate_lipschitz s) (local_lipschitz s) (lipschitz_grid
    s) (soft_plus_transform s) (num_of_starts s) (num_of_optim_epochs s)
    (grid_search s) (hp_update_frequency s) (last_n_obs s) (X s) (Y s) (T s)
    (bias_X s) (bias_Y s) (model s) (bias_model s) (current_time s) v
    (lipschitz_batch_list s) (current_batch s) (current_batch_fids s)
    (query_being_evaluated s).

Definition set_lipschitz_batch_list (v : list Q) (s : Self) : Self :=
  mkSelf (env s) (rng_state s) (dim s) (cost_budget s) (batch_costs s)
    (budget s) (num_of_fidelities s) (fidelity_thresholds s)
    (increasing_thresholds s) (update_max_bias s) (cost_thresholds s)
    (fidelity_count_list s) (bias_list s) (bias_constant s) (gp_hyperparams
    s) (fixed_beta s) (beta s) (penalization_gamma s) (lipschitz_constant s)
    (max_value s) (estimate_lipschitz s) (local_lipschitz s) (lipschitz_grid
    s) (soft_plus_transform s) (num_of_starts s) (num_of_optim_epochs s)
    (grid_search s) (hp_update_frequency s) (last_n_obs s) (X s) (Y s) (T s)
    (bias_X s) (bias_Y s) (model s) (bias_model s) (current_time s) (new_obs
    s) v (current_batch s) (current_batch_fids s) (query_being_evaluated s).

Definition set_current_batch (v : list point) (s : Self) : Self :=
  mkSelf (env s) (rng_state s) (dim s) (cost_budget s) (batch_costs s)
    (budget s) (num_of_fidelities s) (fidelity_thresholds s)
    (increasing_thresholds s) (update_max_bias s) (cost_thresholds s)
    (fidelity_count_list s) (bias_list s) (bias_constant s) (gp_hyperparams
    s) (fixed_beta s) (beta s) (penalization_gamma s) (lipschitz_constant s)
    (max_value s) (estimate_lipschitz s) (local_lipschitz s) (lipschitz_grid
    s) (soft_plus_transform s) (num_of_starts s) (num_of_optim_epochs s)
    (grid_search s) (hp_update_frequency s) (last_n_obs s) (X s) (Y s) (T s)
    (bias_X s) (bias_Y s) (model s) (bias_model s) (current_time s) (new_obs
    s) (lipschitz_batch_list s) v (current_batch_fids s)
    (query_being_evaluated s).

Definition set_current_batch_fids (v : list Z) (s : Self) : Self :=
  mkSelf (env s) (rng_state s) (dim s) (cost_budget s) (batch_costs s)
    (budget s) (num_of_fidelities s) (fidelity_thresholds s)
    (increasing_thresholds s) (update_max_bias s) (cost_thresholds s)
    (fidelity_count_list s) (bias_list s) (bias_constant s) (gp_hyperparams
    s) (fixed_beta s) (beta s) (penalization_gamma s) (lipschitz_constant s)
    (max_value s) (estimate_lipschitz s) (local_lipschitz s) (lipschitz_grid
    s) (soft_plus_transform s) (num_of_starts s) (num_of_optim_epochs s)
    (grid_search s) (hp_update_frequency s) (last_n_obs s) (X s) (Y s) (T s)
    (bias_X s) (bias_Y s) (model s) (bias_model s) (current_time s) (new_obs
    s) (lipschitz_batch_list s) (current_batch s) v (query_being_evaluated
    s).

Definition set_query_being_evaluated (v : bool) (s : Self) : Self :=
  mkSelf (env s) (rng_state s) (dim s) (cost_budget s) (batch_costs s)
    (budget s) (num_of_fidelities s) (fidelity_thresholds s)
    (increasing_thresholds s) (update_max_bias s) (cost_thresholds s)
    (fidelity_count_list s) (bias_list s) (bias_constant s) (gp_hyperparams
    s) (fixed_beta s) (beta s) (penalization_gamma s) (lipschitz_constant s)
    (max_value s) (estimate_lipschitz s) (local_lipschitz s) (lipschitz_grid
    s) (soft_plus_transform s) (num_of_starts s) (num_of_optim_epochs s)
    (grid_search s) (hp_update_frequency s) (last_n_obs s) (X s) (Y s) (T s)
    (bias_X s) (bias_Y s) (model s) (bias_model s) (current_time s) (new_obs
    s) (lipschitz_batch_list s) (current_batch s) (current_batch_fids s) v.

Definition Method (A : Type) : Type := M Self A.

(** [[a for _ in range(n)]] *)
Definition per_fidelity {A} (n : Z) (a : A) : list A :=
  map (fun _ => a) (range n).

(** ** Construction *)

(** [[0] + [expected_costs[i] / expected_costs[i + 1] * scale
            for i in range(num_of_fidelities - 1)]] *)
Definition init_cost_thresholds (e : E) (n : Z) (scale : Q)
  : outcome (list Q) :=
  (rest <~ omap (fun i =>
             a <~ index (expected_costs e) i ;;
             b <~ index (expected_costs e) (i + 1) ;;
             q <~ div a b ;;
             Ret (q * scale))
           (range (n - 1)) ;;
   Ret (0 :: rest))%outcome.

(** [mfLiveBatch.__init__] followed by [set_hyperparams()] and
    [initialise_stuff()], for a numeric [initial_bias].  [beta0] is the
    [beta] argument ([None] by default). *)
Definition init (e : E) (r : rng) (beta0 : option Q)
    (fidelity_thresholds0 : option (list Q)) (lipschitz_constant0 : Q)
    (num_of_starts0 num_of_optim_epochs0 : Z)
    (hp_update_frequency0 : option Z) (budget0 : Z) (cost_budget0 : Q)
    (initial_bias : Q) (local_lipschitz0 increasing_thresholds0 : bool)
  : outcome Self :=
  (let d := env_dim e in
   let n := env_num_of_fidelities e in
   cts <~ init_cost_thresholds e n cost_budget0 ;;
   Ret {|
     env := e;
     rng_state := r;
     dim := d;
     cost_budget := cost_budget0;
     batch_costs := 0;
     budget := budget0;
     num_of_fidelities := n;
     fidelity_thresholds :=
       match fidelity_thresholds0 with
       | None => per_fidelity n (1 # 10)
       | Some l => l
       end;
     increasing_thresholds := increasing_thresholds0;
     update_max_bias := true;
     cost_thresholds := cts;
     fidelity_count_list := per_fidelity n 0%Z;
     bias_list := map inject_Z (range n);
     bias_constant := initial_bias;
     gp_hyperparams :=
       per_fidelity n
         (mkHypers (6 # 10) (per_fidelity d (15 # 100)) (1 # 10000) 0);
     fixed_beta :=
       match beta0 with None => false | Some _ => true end;
     beta :=
       match beta0 with
       | None =>
           per_fidelity n
             ((2 # 10) * inject_Z d
              * log (2 * (inject_Z (env_current_time e) + 1)))
       | Some b => per_fidelity n b
       end;
     penalization_gamma := 1;
     lipschitz_constant := per_fidelity n lipschitz_constant0;
     max_value := per_fidelity n 0;
     estimate_lipschitz := true;
     local_lipschitz := local_lipschitz0;
     lipschitz_grid := sobol_grid d (50 * d);
     soft_plus_transform := require_transform e;
     num_of_starts := num_of_starts0;
     num_of_optim_epochs := num_of_optim_epochs0;
     grid_search := env_grid_search e;
     hp_update_frequency := hp_update_frequency0;
     last_n_obs := per_fidelity n 0%Z;
     X := per_fidelity n [];
     Y := per_fidelity n [];
     T := per_fidelity n [];
     bias_X := per_fidelity n [];
     bias_Y := per_fidelity n [];
     model := per_fidelity n (new_gp d);
     bias_model := per_fidelity n (new_bias_gp d);
     current_time := 0;
     new_obs := None;
     lipschitz_batch_list := [];
     current_batch := [];
     current_batch_fids := [];
     query_being_evaluated := false
   |})%outcome.

(** [mfUCB.__init__] and [mfUCBPlus.__init__]: the parent constructor
    (with [initial_bias = 0] by default), then
    [query_being_evaluated = False] and cost thresholds without the
    budget factor. *)
Definition init_sequential (e : E) (r : rng) (beta0 : option Q)
    (fidelity_thresholds0 : option (list Q)) (lipschitz_constant0 : Q)
    (num_of_starts0 num_of_optim_epochs0 : Z)
    (hp_update_frequency0 : option Z) (budget0 : Z) (cost_budget0 : Q)
    (initial_bias : Q) (increasing_thresholds0 : bool)
  : outcome Self :=
  (s <~ init e r beta0 fidelity_thresholds0 lipschitz_constant0
          num_of_starts0 num_of_optim_epochs0 hp_update_frequency0 budget0
          cost_budget0 initial_bias true increasing_thresholds0 ;;
   cts <~ init_cost_thresholds e (num_of_fidelities s) 1 ;;
   Ret (set_cost_thresholds cts (set_query_being_evaluated false s)))%outcome.

Definition mfUCB_init := init_sequential.

(** [mfUCBPlus.__init__] does not pass [increasing_thresholds]. *)
Definition mfUCBPlus_init (e : E) (r : rng) (beta0 : option Q)
    (fidelity_thresholds0 : option (list Q)) (lipschitz_constant0 : Q)
    (num_of_starts0 num_of_optim_epochs0 : Z)
    (hp_update_frequency0 : option Z) (budget0 : Z) (cost_budget0 : Q)
    (initial_bias : Q) : outcome Self :=
  init_sequential e r beta0 fidelity_thresholds0 lipschitz_constant0
    num_of_starts0 num_of_optim_epochs0 hp_update_frequency0 budget0
    cost_budget0 initial_bias false.

(** ** The acquisition function *)

(** Mean and standard deviation of fidelity [i] at the rows [Xs]: the
    trained posterior when [self.X[i] != []], the prior constants
    [hypers[3]], [hypers[0]] otherwise. *)
Definition mean_std (s : Self) (i : Z) (Xs : list point)
  : outcome (list (Q * Q)) :=
  (Xi <~ index (X s) i ;;
   if nonempty Xi then
     m <~ index (model s) i ;;
     Ret (map (posterior m) Xs)
   else
     h <~ index (gp_hyperparams s) i ;;
     Ret (map (fun _ => (mean_constant h, constant h)) Xs))%outcome.

(** Mean and standard deviation of the bias of fidelity [i].  Without
    bias data the standard deviation is the tensor
    [bias_list[i] * bias_constant / beta[i]]; where [beta[i]] is zero the
    code has [inf] or [nan] there, which the rationals do not have: the
    facts about the acquisition values assume [no_zero_divisor] of
    [beta_divisors] below. *)
Definition bias_mean_std (s : Self) (i : Z) (Xs : list point)
  : outcome (list (Q * Q)) :=
  (bXi <~ index (bias_X s) i ;;
   if nonempty bXi then
     bm <~ index (bias_model s) i ;;
     Ret (map (posterior bm) Xs)
   else
     bl <~ index (bias_list s) i ;;
     b <~ index (beta s) i ;;
     Ret (map (fun _ => (0, bl * bias_constant s / b)) Xs))%outcome.

(** Row [i] of [ucb] in [mfLiveBatch.build_af] and [mfUCBPlus.build_af]:
    [mean + beta[i] * std + (mean_bias + beta[i] * std_bias)]. *)
Definition ucb_row (s : Self) (Xs : list point) (i : Z) : outcome (list Q) :=
  (ms <~ mean_std s i Xs ;;
   bs <~ bias_mean_std s i Xs ;;
   b <~ index (beta s) i ;;
   Ret (map (fun '((mean, std), (mean_bias, std_bias)) =>
               mean + b * std + (mean_bias + b * std_bias))
            (combine ms bs)))%outcome.

(** [torch.min(a, b)] on two entries. *)
Definition torch_min (a b : Q) : Q := if Qltb b a then b else a.

(** The penalisation loop of [mfLiveBatch.build_af]: the [i]-th penalty
    point multiplies the row of its fidelity by
    [min(norm / denominator, 1)].  The two divisions are tensor
    divisions: where the Lipschitz constant or the denominator is zero
    the code has [inf] or [nan], and the facts about the acquisition
    values assume [no_zero_divisor] of [penalty_divisors] below. *)
Fixpoint penalise (s : Self) (Xs : list point) (batch : list (point * Z))
    (i : Z) (ucb : list (list Q)) : outcome (list (list Q)) :=
  match batch with
  | [] => Ret ucb
  | (penalty_point, fidelity) :: rest =>
      (Xf <~ index (X s) fidelity ;;
       '(mean_pp, std_pp) <~
          (if nonempty Xf then
             m <~ index (model s) fidelity ;;
             Ret (posterior m penalty_point)
           else
             h <~ index (gp_hyperparams s) fidelity ;;
             Ret (mean_constant h, constant h)) ;;
       mv <~ index (max_value s) fidelity ;;
       lip <~ index (lipschitz_batch_list s) i ;;
       let r_j := (mv - mean_pp) / lip in
       let denominator := r_j + penalization_gamma s * std_pp / lip in
       let penaliser :=
         map (fun x => torch_min (norm penalty_point x / denominator) 1) Xs in
       row <~ index ucb fidelity ;;
       ucb' <~ set_index ucb fidelity
                 (map (fun '(u, p) => u * p) (combine row penaliser)) ;;
       penalise s Xs rest (i + 1) ucb')%outcome
  end.

(** [torch.min(ucb, dim = 0)]: entry-wise minimum of the rows. *)
Definition min_rows (a b : list Q) : list Q :=
  map (fun '(x, y) => torch_min x y) (combine a b).

Definition min_dim0 (ucb : list (list Q)) : outcome (list Q) :=
  match ucb with
  | [] => Raise IndexError
  | r :: rs => Ret (fold_left min_rows rs r)
  end.

(** The matrix [ucb] of [mfLiveBatch.build_af] just before the final
    minimum: one row per fidelity, one column per row of [Xs], bias
    adjusted, transformed and penalised. *)
Definition ucb_matrix (s : Self) (Xs : list point)
  : outcome (list (list Q)) :=
  (rows <~ omap (ucb_row s Xs) (range (num_of_fidelities s)) ;;
   let rows :=
     if soft_plus_transform s then map (map softplus) rows else rows in
   penalise s Xs (combine (current_batch s) (current_batch_fids s)) 0 rows
  )%outcome.

(** [mfLiveBatch.build_af(X)] *)
Definition build_af (s : Self) (Xs : list point) : outcome (list Q) :=
  (ucb <~ ucb_matrix s Xs ;; min_dim0 ucb)%outcome.

(** [mfUCB.build_af(X)]: rows
    [mean + beta[i] * std + bias_list[i] * bias_constant]. *)
Definition mfUCB_ucb_row (s : Self) (Xs : list point) (i : Z)
  : outcome (list Q) :=
  (ms <~ mean_std s i Xs ;;
   b <~ index (beta s) i ;;
   bl <~ index (bias_list s) i ;;
   Ret (map (fun '(mean, std) => mean + b * std + bl * bias_constant s) ms)
  )%outcome.

Definition mfUCB_build_af (s : Self) (Xs : list point) : outcome (list Q) :=
  (ucb <~ omap (mfUCB_ucb_row s Xs) (range (num_of_fidelities s)) ;;
   min_dim0 ucb)%outcome.

(** [mfUCBPlus.build_af(X)]: the rows of [mfLiveBatch.build_af] without
    transform and without penalisation. *)
Definition mfUCBPlus_build_af (s : Self) (Xs : list point)
  : outcome (list Q) :=
  (ucb <~ omap (ucb_row s Xs) (range (num_of_fidelities s)) ;;
   min_dim0 ucb)%outcome.

(** ** The acquisition value at one input *)

(** The bias-adjusted upper confidence bound of fidelity [i] at the input
    [x]: [mean + beta[i] * std] of the model of the fidelity (of its prior
    without data), plus the bound [mean_bias + beta[i] * std_bias] on its
    bias. *)
Definition plain_ucb (s : Self) (i : Z) (x : point) : outcome Q :=
  (Xi <~ index (X s) i ;;
   '(mean, std) <~
      (if nonempty Xi then
         m <~ index (model s) i ;; Ret (posterior m x)
       else
         h <~ index (gp_hyperparams s) i ;;
         Ret (mean_constant h, constant h)) ;;
   bXi <~ index (bias_X s) i ;;
   '(mean_bias, std_bias) <~
      (if nonempty bXi then
         bm <~ index (bias_model s) i ;; Ret (posterior bm x)
       else
         bl <~ index (bias_list s) i ;;
         b <~ index (beta s) i ;;
         Ret (0, bl * bias_constant s / b)) ;;
   b <~ index (beta s) i ;;
   Ret (mean + b * std + (mean_bias + b * std_bias)))%outcome.

(** The same with the transform [log(1 + exp(u))] where the objective
    requires it. *)
Definition fidelity_ucb (s : Self) (i : Z) (x : point) : outcome Q :=
  (u <~ plain_ucb s i x ;;
   Ret (if soft_plus_transform s then softplus u else u))%outcome.

(** The two divisors in the penaliser of the [k]-th query in flight,
    [penalty_point] at [fidelity]: its Lipschitz constant and
    [denominator = r_j + penalization_gamma * std_pp / lip]. *)
Definition penalty_terms (s : Self) (k : Z) (penalty_point : point)
    (fidelity : Z) : outcome (Q * Q) :=
  (Xf <~ index (X s) fidelity ;;
   '(mean_pp, std_pp) <~
      (if nonempty Xf then
         m <~ index (model s) fidelity ;;
         Ret (posterior m penalty_point)
       else
         h <~ index (gp_hyperparams s) fidelity ;;
         Ret (mean_constant h, constant h)) ;;
   mv <~ index (max_value s) fidelity ;;
   lip <~ index (lipschitz_batch_list s) k ;;
   Ret (lip, (mv - mean_pp) / lip + penalization_gamma s * std_pp / lip)
  )%outcome.

(** The penaliser of that query at the input [x]:
    [min(norm / denominator, 1)]. *)
Definition penaliser_at (s : Self) (k : Z) (penalty_point : point)
    (fidelity : Z) (x : point) : outcome Q :=
  ('(lip, denominator) <~ penalty_terms s k penalty_point fidelity ;;
   Ret (torch_min (norm penalty_point x / denominator) 1))%outcome.

(** The bound [u] of fidelity [i] at [x], multiplied by the penalisers
    of the queries in flight at fidelity [i]; [k] is the position of the
    first query of [batch] in the current batch. *)
Fixpoint penalised (s : Self) (i : Z) (x : point) (batch : list (point * Z))
    (k : Z) (u : Q) : outcome Q :=
  match batch with
  | [] => Ret u
  | (penalty_point, fidelity) :: rest =>
      if (fidelity =? i)%Z then
        (p <~ penaliser_at s k penalty_point fidelity x ;;
         penalised s i x rest (k + 1) (u * p))%outcome
      else penalised s i x rest (k + 1) u
  end.

(** The bias-adjusted, transformed and penalised upper confidence bound
    of fidelity [i] at [x]. *)
Definition penalised_ucb (s : Self) (i : Z) (x : point) : outcome Q :=
  (u <~ fidelity_ucb s i x ;;
   penalised s i x (combine (current_batch s) (current_batch_fids s)) 0 u
  )%outcome.

(** The upper confidence bound of fidelity [i] at [x] in [mfUCB]:
    [mean + beta[i] * std + bias_list[i] * bias_constant]. *)
Definition mfUCB_ucb (s : Self) (i : Z) (x : point) : outcome Q :=
  (Xi <~ index (X s) i ;;
   '(mean, std) <~
      (if nonempty Xi then
         m <~ index (model s) i ;; Ret (posterior m x)
       else
         h <~ index (gp_hyperparams s) i ;;
         Ret (mean_constant h, constant h)) ;;
   b <~ index (beta s) i ;;
   bl <~ index (bias_list s) i ;;
   Ret (mean + b * std + bl * bias_constant s))%outcome.

(** [af] holds, for every row [x] of [Xs], the smallest of the values
    [f i x] over the fidelities [0 <= i < n]: it is below all of them and
    it is one of them. *)
Definition min_over_fidelities (n : Z) (f : Z -> point -> outcome Q)
    (Xs : list point) (af : list Q) : Prop :=
  (List.length af = List.length Xs)%nat /\
  forall (j : nat) (x : point),
    nth_error Xs j = Some x ->
    exists a,
      nth_error af j = Some a /\
      (forall i, (0 <= i < n)%Z -> exists u, f i x = Ret u /\ a <= u) /\
      (exists i u, (0 <= i < n)%Z /\ f i x = Ret u /\ a = u).

(** The matrix [m] holds the value [f i x] in row [i], at the column of
    the row [x] of [Xs], for every fidelity [0 <= i < n]. *)
Definition tabulates (n : Z) (Xs : list point) (f : Z -> point -> outcome Q)
    (m : list (list Q)) : Prop :=
  forall (i : Z) (j : nat) (x : point),
    (0 <= i < n)%Z -> nth_error Xs j = Some x ->
    exists row u,
      nth_error m (Z.to_nat i) = Some row /\ nth_error row j = Some u /\
      f i x = Ret u.

(** The divisors of the tensor arithmetic of [build_af]: [beta[i]] for
    every fidelity without bias data, and the Lipschitz constant and the
    denominator of the penaliser of every query in flight.  The tensor
    division by zero gives [inf] or [nan], which the rationals do not
    have: the acquisition values are modelled where no divisor is zero. *)
Definition beta_divisors (s : Self) : list Q :=
  flat_map
    (fun i =>
       match index (bias_X s) i, index (beta s) i with
       | Ret bXi, Ret b => if nonempty bXi then [] else [b]
       | _, _ => []
       end)
    (range (num_of_fidelities s)).

Fixpoint penalty_divisors (s : Self) (batch : list (point * Z)) (k : Z)
  : list Q :=
  match batch with
  | [] => []
  | (penalty_point, fidelity) :: rest =>
      match penalty_terms s k penalty_point fidelity with
      | Ret (lip, denominator) => [lip; denominator]
      | Raise _ => []
      end ++ penalty_divisors s rest (k + 1)
  end.

Definition no_zero_divisor (ds : list Q) : Prop :=
  Forall (fun d => ~ d == 0) ds.

(** ** Choosing the next query *)

(** The fidelity loop of [optimise_af]:
    [for i in reversed(range(num_of_fidelities))], which stops at the
    first fidelity whose threshold is exceeded, or at fidelity 0.
    [scaled] tells whether the threshold is [beta[i] * std] or [std].
    [last] is the value [new_M] holds when the loop runs out. *)
Fixpoint choose_fidelity_from (s : Self) (new_X : point) (scaled : bool)
    (fids : list Z) (last : option Z) : outcome Z :=
  match fids with
  | [] =>
      match last with
      | Some new_M => Ret new_M
      | None => Raise UnboundLocalError
      end
  | i :: rest =>
      if (i =? 0)%Z then Ret i
      else
        (Xi <~ index (X s) i ;;
         std <~ (if nonempty Xi then
                   m <~ index (model s) i ;;
                   Ret (snd (posterior m new_X))
                 else
                   h <~ index (gp_hyperparams s) i ;;
                   Ret (constant h)) ;;
         threshold <~ (if scaled then
                         b <~ index (beta s) i ;; Ret (b * std)
                       else Ret std) ;;
         ft <~ index (fidelity_thresholds s) i ;;
         if Qltb ft threshold then Ret i
         else choose_fidelity_from s new_X scaled rest (Some i))%outcome
  end.

Definition choose_fidelity (s : Self) (new_X : point) (scaled : bool)
  : outcome Z :=
  choose_fidelity_from s new_X scaled
    (rev (range (num_of_fidelities s))) None.

(** The bookkeeping after the fidelity loop: count the selection, reset
    the counter of the next cheaper fidelity, and double the threshold of
    a fidelity that was selected too often. *)
Definition count_fidelity (new_M_int : Z) : Method unit :=
  s <- get ;;
  c <- lift (index (fidelity_count_list s) new_M_int) ;;
  l1 <- lift (set_index (fidelity_count_list s) new_M_int (c + 1)%Z) ;;
  modify (set_fidelity_count_list l1) ;;
  when (negb (new_M_int =? num_of_fidelities s - 1)%Z)
    (s <- get ;;
     l2 <- lift (set_index (fidelity_count_list s) (new_M_int + 1) 0%Z) ;;
     modify (set_fidelity_count_list l2)) ;;
  s <- get ;;
  c <- lift (index (fidelity_count_list s) new_M_int) ;;
  ct <- lift (index (cost_thresholds s) new_M_int) ;;
  when (Qltb ct (inject_Z c) && negb (new_M_int =? 0)%Z)
    (th <- lift (index (fidelity_thresholds s) new_M_int) ;;
     l3 <- lift (set_index (fidelity_thresholds s) new_M_int (th * 2)) ;;
     modify (set_fidelity_thresholds l3) ;;
     s <- get ;;
     l4 <- lift (set_index (fidelity_count_list s) new_M_int 0%Z) ;;
     modify (set_fidelity_count_list l4)).

(** [optimise_af] of [mfLiveBatch] (inherited by [UCBwILP] and
    [mfUCBPlus]) and of [mfUCB] (inherited by [simpleUCB]): the two
    bodies are the same text, and both call [self.build_af], here the
    argument [build].  It returns [(new_X, new_M)]. *)
Definition optimise_af (build : Self -> list point -> outcome (list Q))
  : Method (point * Z) :=
  s <- get ;;
  (* if time is zero, pick point at random, lowest fidelity *)
  if (current_time s =? 0)%Z then
    let (new_X, r) := uniform (dim s) (rng_state s) in
    modify (set_rng_state r) ;;
    ret (new_X, (num_of_fidelities s - 1)%Z)
  else if grid_search s then
    (* grid search, to be used when there are constraints *)
    let grid := gen_search_grid (env s) (100 * num_of_starts s) in
    af <- lift (build s grid) ;;
    best_idx <- lift (argmax af) ;;
    new_X <- lift (index grid best_idx) ;;
    new_M <- lift (choose_fidelity s new_X true) ;;
    count_fidelity new_M ;;
    ret (new_X, new_M)
  else
    (* quasi-random starts, then gradient ascent on the best ten *)
    let (best, r) :=
      multistart_ascent (build s) (dim s) (num_of_starts s)
        (num_of_optim_epochs s) (rng_state s) in
    modify (set_rng_state r) ;;
    new_X <- lift best ;;
    new_M <- lift (choose_fidelity s new_X (increasing_thresholds s)) ;;
    count_fidelity new_M ;;
    ret (new_X, new_M).

(** The answer of a cold start: the next draw of the random source, at
    fidelity [num_of_fidelities - 1]; only the random state changes. *)
Definition cold_answer (s : Self) : ending (point * Z) * Self :=
  (Returns (fst (uniform (dim s) (rng_state s)), (num_of_fidelities s - 1)%Z),
   set_rng_state (snd (uniform (dim s) (rng_state s))) s).

(** ** Lipschitz constants *)

Definition clamp01 (x : Q) : Q :=
  if Qltb x 0 then 0 else if Qltb 1 x then 1 else x.

(** [(grid - grid[0]) * lengthscale + pen_point], clamped to the unit
    box. *)
Definition local_grid (grid : list point) (lengthscale : list Q)
    (pen_point : point) : outcome (list point) :=
  (g0 <~ index grid 0 ;;
   Ret (map (fun g =>
               map (fun '((x, x0), (l, p)) => clamp01 ((x - x0) * l + p))
                   (combine (combine g g0) (combine lengthscale pen_point)))
            grid))%outcome.

(** [calculate_local_lipschitz(pen_point, fid)] *)
Definition calculate_local_lipschitz (s : Self) (pen_point : point) (fid : Z)
  : outcome Q :=
  (Xf <~ index (X s) fid ;;
   if nonempty Xf then
     m <~ index (model s) fid ;;
     grid <~ local_grid (lipschitz_grid s)
               (length_scale (current_hyperparams m)) pen_point ;;
     Ret (max_grad_norm m grid)
   else index (lipschitz_constant s) fid)%outcome.

(** The first part of [optim_loop] after the [beta] update: snapshot the
    in-flight batch of the environment and give every penalty point its
    Lipschitz constant. *)
Definition snapshot_batch : Method unit :=
  modify (set_lipschitz_batch_list []) ;;
  s <- get ;;
  modify (set_current_batch (query_list (env s))) ;;
  modify (set_current_batch_fids (fidelities_list (env s))) ;;
  for_each (combine (query_list (env s)) (fidelities_list (env s)))
    (fun '(penalty_point, fidelity) =>
       s <- get ;;
       lip <- lift (if local_lipschitz s
                    then calculate_local_lipschitz s penalty_point fidelity
                    else index (lipschitz_constant s) fidelity) ;;
       modify (set_lipschitz_batch_list (lipschitz_batch_list s ++ [lip]))).

(** ** Model updates *)

(** [update_model(update_set)]; the caller has checked [new_obs]. *)
Definition update_model (update_set : list Z) : Method unit :=
  s <- get ;;
  when (match new_obs s with Some _ => true | None => false end)
    (for_each update_set (fun i =>
       s <- get ;;
       m <- lift (index (model s) i) ;;
       Xi <- lift (index (X s) i) ;;
       Yi <- lift (index (Y s) i) ;;
       h <- lift (index (gp_hyperparams s) i) ;;
       let m' := fit_model m Xi Yi h in
       ms <- lift (set_index (model s) i m') ;;
       modify (set_model ms) ;;
       when (estimate_lipschitz s)
         (s <- get ;;
          ls <- lift (set_index (lipschitz_constant s) i
                        (max_grad_norm m' (lipschitz_grid s))) ;;
          modify (set_lipschitz_constant ls)))).

(** [update_model_bias(update_set)] *)
Definition update_model_bias (update_set : list Z) : Method unit :=
  s <- get ;;
  when (match new_obs s with Some _ => true | None => false end)
    (for_each update_set (fun i =>
       s <- get ;;
       m <- lift (index (model s) i) ;;
       bl <- lift (index (bias_list s) i) ;;
       b <- lift (index (beta s) i) ;;
       c <- lift (div (bl * bias_constant s) b) ;;
       let h := mkHypers (c * c) (length_scale (current_hyperparams m))
                  (1 # 1000) 0 in
       bm <- lift (index (bias_model s) i) ;;
       bXi <- lift (index (bias_X s) i) ;;
       bYi <- lift (index (bias_Y s) i) ;;
       bms <- lift (set_index (bias_model s) i (fit_model bm bXi bYi h)) ;;
       modify (set_bias_model bms))).

(** ** One iteration of [mfLiveBatch] *)

(** [if self.fixed_beta == False: ...] of [mfLiveBatch.optim_loop] *)
Definition update_beta : Method unit :=
  s <- get ;;
  when (negb (fixed_beta s))
    (c0 <- lift (index (expected_costs (env s)) 0) ;;
     q <- lift (div (inject_Z (current_time s)) c0) ;;
     let b := (2 # 10) * inject_Z (dim s) * log (2 * q + 1) in
     modify (set_beta (per_fidelity (num_of_fidelities s) b))).

(** One pass of the batch-filling loop of [mfLiveBatch.optim_loop]:
    choose a query, add it to the current batch, add its cost to
    [batch_costs] and, if the loop is not going to stop, give it a
    Lipschitz constant.  Returns the query [(new_X, new_M)]. *)
Definition fill_step : Method (point * Z) :=
  '(new_X, new_M) <- optimise_af build_af ;;
  (* add new_X and new_M to current batch *)
  s <- get ;;
  modify (set_current_batch (current_batch s ++ [new_X])) ;;
  modify (set_current_batch_fids (current_batch_fids s ++ [new_M])) ;;
  (* update batch costs *)
  c <- lift (index (fidelity_costs (env s)) new_M) ;;
  modify (set_batch_costs (batch_costs s + c)) ;;
  (* if loop is not going to break, add new lipschitz constant *)
  s <- get ;;
  when (Qltb (batch_costs s) (cost_budget s))
    (lip <- lift (calculate_local_lipschitz s new_X new_M) ;;
     modify (set_lipschitz_batch_list (lipschitz_batch_list s ++ [lip]))) ;;
  ret (new_X, new_M).

(** The batch-filling loop
    [while self.batch_costs < self.cost_budget: ...] of
    [mfLiveBatch.optim_loop].  [new_Xs] and [new_Ms] are the local
    arrays of queries chosen so far in this iteration; the loop returns
    them as they are when it ends. *)
Fixpoint fill_batch (fuel : nat) (new_Xs : list point) (new_Ms : list Z)
  : Method (list point * list Z) :=
  s <- get ;;
  if Qltb (batch_costs s) (cost_budget s) then
    match fuel with
    | O => timeout
    | S fuel' =>
        '(new_X, new_M) <- fill_step ;;
        fill_batch fuel' (new_Xs ++ [new_X]) (new_Ms ++ [new_M])
    end
  else ret (new_Xs, new_Ms).

(** [obtain_query, obtain_fidelities, self.new_obs =
       self.env.step(new_Xs, new_Ms)] *)
Definition dispatch (new_Xs : list point) (new_Ms : list Z)
  : Method (list point * list Z) :=
  s <- get ;;
  let '((obtain_query, obtain_fidelities, obs), e') :=
    step (env s) new_Xs new_Ms in
  modify (set_env e') ;;
  modify (set_new_obs obs) ;;
  ret (obtain_query, obtain_fidelities).

(** Append an observation and the time at which it was observed:
    [self.X[fid].append(x)], [self.Y[fid].append(y)] and
    [self.T[fid].append(self.current_time + 1)].  [x] and [y] are the
    argument expressions [obtain_query[i]] and [self.new_obs[i]]: each is
    evaluated when its statement is reached, after the row it goes to has
    been looked up, so an exception in [y] leaves the input appended to
    [X].  Returns the values of [x] and [y]. *)
Definition record_observation (fid : Z) (x : outcome point) (y : outcome Q)
  : Method (point * Q) :=
  s <- get ;;
  '(xs, x) <- lift (append_eval (X s) fid x) ;;
  modify (set_X xs) ;;
  '(ys, y) <- lift (append_eval (Y s) fid y) ;;
  modify (set_Y ys) ;;
  ts <- lift (append_at (T s) fid (current_time s + 1)%Z) ;;
  modify (set_T ts) ;;
  ret (x, y).

(** The bias check of the ingestion loop: the observation at [fid] is
    compared with the posterior mean of [model[fid + 1]] at the same
    input; [gated] tells whether [update_max_bias] takes part in the
    test ([mfLiveBatch], [mfUCB]) or not ([mfUCBPlus]). *)
Definition check_bias (gated : bool) (fid : Z) (x : point) (y : Q)
  : Method unit :=
  s <- get ;;
  m <- lift (index (model s) (fid + 1)) ;;
  let f_low_fid_pred := fst (posterior m x) in
  let f_high_fid_obs := y in
  let diff := f_high_fid_obs - f_low_fid_pred in
  when (Qltb (bias_constant s) diff
        && (if gated then update_max_bias s else true))
    (modify (set_bias_constant ((12 # 10) * diff))).

(** [if fid == 0: for lower_fid in range(1, num_of_fidelities): ...]:
    a target observation gives one bias observation per cheaper
    fidelity.  Returns the fidelities appended to [bias_updates]. *)
Definition collect_bias (x : point) (y : Q) : Method (list Z) :=
  s <- get ;;
  let lower := range2 1 (num_of_fidelities s) in
  for_each lower (fun lower_fid =>
    s <- get ;;
    m <- lift (index (model s) lower_fid) ;;
    let diff := y - fst (posterior m x) in
    bxs <- lift (append_at (bias_X s) lower_fid x) ;;
    modify (set_bias_X bxs) ;;
    bys <- lift (append_at (bias_Y s) lower_fid diff) ;;
    modify (set_bias_Y bys)) ;;
  ret lower.

(** [self.max_value[fid] = float(max(self.max_value[fid], float(y)))] *)
Definition update_max_value (fid : Z) (y : Q) : Method unit :=
  s <- get ;;
  mv <- lift (index (max_value s) fid) ;;
  mvs <- lift (set_index (max_value s) fid (Py.max2 mv y)) ;;
  modify (set_max_value mvs).

(** [self.batch_costs = self.batch_costs - fidelity_costs[fid]] *)
Definition release_cost (fid : Z) : Method unit :=
  s <- get ;;
  c <- lift (index (fidelity_costs (env s)) fid) ;;
  modify (set_batch_costs (batch_costs s - c)).

(** The body of [for i in range(num_of_obs)] in [mfLiveBatch.optim_loop];
    returns what it appends to [bias_updates]. *)
Definition ingest_one (obtain_query : list point) (obtain_fidelities : list Z)
    (i : Z) : Method (list Z) :=
  s <- get ;;
  fid <- lift (index obtain_fidelities i) ;;
  '(x, y) <- record_observation fid (index obtain_query i)
               (match new_obs s with
                | Some obs => index obs i
                | None => Raise TypeError
                end) ;;
  s <- get ;;
  bias_updates <-
    (if negb (fid =? num_of_fidelities s - 1)%Z then
       check_bias true fid x y ;;
       if (fid =? 0)%Z then collect_bias x y else ret []
     else ret []) ;;
  update_max_value fid y ;;
  release_cost fid ;;
  ret bias_updates.

(** A loop over the resolved observations that gathers [bias_updates]. *)
Fixpoint ingest_loop (body : Z -> Method (list Z)) (idxs : list Z)
    (bias_updates : list Z) : Method (list Z) :=
  match idxs with
  | [] => ret bias_updates
  | i :: rest =>
      more <- body i ;;
      ingest_loop body rest (bias_updates ++ more)
  end.

(** [set(l)], as the list of its distinct members. *)
Definition as_set (l : list Z) : list Z := nodup Z.eq_dec l.

(** [if self.new_obs is not None: ...] of [mfLiveBatch.optim_loop] *)
Definition ingest (obtain_query : list point) (obtain_fidelities : list Z)
  : Method unit :=
  s <- get ;;
  when (match new_obs s with Some _ => true | None => false end)
    (bias_updates <-
       ingest_loop (ingest_one obtain_query obtain_fidelities)
         (range (len obtain_query)) [] ;;
     update_model (as_set obtain_fidelities) ;;
     update_model_bias (as_set bias_updates)).

(** The hyper-parameter refresh of one fidelity: due when the fidelity
    has data and [n_obs >= hp_update_frequency + last_n_obs[fid]].  With
    [base = Some b] the model is first seeded with the hyper-parameters
    of [model[b]] and only its output scale and noise are trained. *)
Definition refresh_hyperparams (fid : Z) (n_obs : Z) (base : option Z)
  : Method unit :=
  s <- get ;;
  Xf <- lift (index (X s) fid) ;;
  match hp_update_frequency s with
  | None => ret tt
  | Some freq =>
      when (0 <? len Xf)%Z
        (last <- lift (index (last_n_obs s) fid) ;;
         when (freq + last <=? n_obs)%Z
           (ls <- lift (set_index (last_n_obs s) fid n_obs) ;;
            modify (set_last_n_obs ls) ;;
            m <- lift (index (model s) fid) ;;
            m' <- lift (match base with
                        | None => Ret (optim_hyperparams m false)
                        | Some b =>
                            (mb <~ index (model s) b ;;
                             Ret (optim_hyperparams
                                    (set_hyperparams m (current_hyperparams mb))
                                    true))%outcome
                        end) ;;
            ms <- lift (set_index (model s) fid m') ;;
            modify (set_model ms) ;;
            s <- get ;;
            hs <- lift (set_index (gp_hyperparams s) fid
                          (current_hyperparams m')) ;;
            modify (set_gp_hyperparams hs)))
  end.

(** The "update hyperparams if needed" part shared by
    [mfLiveBatch.optim_loop] and [mfUCB.optim_loop]. *)
Definition update_hyperparams : Method unit :=
  s <- get ;;
  let n := num_of_fidelities s in
  if (n =? 1)%Z then
    X0 <- lift (index (X s) 0) ;;
    refresh_hyperparams 0 (len X0) None
  else
    Xlast <- lift (index (X s) (n - 1)) ;;
    refresh_hyperparams (n - 1) (len Xlast) None ;;
    for_each (range (n - 1)) (fun fid =>
      s <- get ;;
      Xf <- lift (index (X s) fid) ;;
      refresh_hyperparams fid (len Xf) (Some (n - 1)%Z)).

(** [self.current_time = self.current_time + 1] *)
Definition tick : Method unit :=
  s <- get ;;
  modify (set_current_time (current_time s + 1)%Z).

(** [mfLiveBatch.optim_loop()]: one iteration.  [fuel] bounds the number
    of passes of the batch-filling loop. *)
Definition optim_loop (fuel : nat) : Method unit :=
  update_beta ;;
  snapshot_batch ;;
  '(new_Xs, new_Ms) <- fill_batch fuel [] [] ;;
  '(obtain_query, obtain_fidelities) <- dispatch new_Xs new_Ms ;;
  ingest obtain_query obtain_fidelities ;;
  update_hyperparams ;;
  tick.

(** ** One iteration of the sequential variants [mfUCB] and [mfUCBPlus] *)

(** [if self.fixed_beta == False: ...] of [mfUCB.optim_loop] *)
Definition mfUCB_update_beta : Method unit :=
  s <- get ;;
  when (negb (fixed_beta s))
    (c0 <- lift (index (expected_costs (env s)) 0) ;;
     q <- lift (div (2 * (inject_Z (current_time s) + 1)) c0) ;;
     let b := (2 # 10) * inject_Z (dim s) * log q in
     modify (set_beta (per_fidelity (num_of_fidelities s) b))).

(** [if self.fixed_beta == False:
       for fid in self.num_of_fidelities: self.beta[fid] = ...]
    of [mfUCBPlus.optim_loop].  The [for] statement iterates over the
    attribute itself, an [int]. *)
Definition mfUCBPlus_update_beta : Method unit :=
  s <- get ;;
  when (negb (fixed_beta s))
    (fids <- lift (iter (VInt (num_of_fidelities s))) ;;
     for_each fids (fun fid =>
       s <- get ;;
       Xf <- lift (index (X s) fid) ;;
       bs <- lift (set_index (beta s) fid
                     ((2 # 10) * inject_Z (dim s)
                      * log (2 * (inject_Z (len Xf) + 1)))) ;;
       modify (set_beta bs))).

(** [n] successive draws [np.random.uniform(size = (1, d))] from the
    random state [r]. *)
Fixpoint draws (d : Z) (n : nat) (r : rng) : list point :=
  match n with
  | O => []
  | S k => let (p, r') := uniform d r in p :: draws d k r'
  end.

(** "now fill the remaining batch space randomly":
    [while self.batch_costs < self.cost_budget: ...] of the sequential
    variants.  [new_M] is the local variable that still holds the
    fidelity returned by [optimise_af]. *)
Fixpoint fill_random (fuel : nat) (new_M : Z) (new_Xs : list point)
    (new_Ms : list Z) : Method (list point * list Z) :=
  s <- get ;;
  if Qltb (batch_costs s) (cost_budget s) then
    match fuel with
    | O => timeout
    | S fuel' =>
        let (new_X, r) := uniform (dim s) (rng_state s) in
        modify (set_rng_state r) ;;
        (* add to new_Xs and new_Ms *)
        let new_Xs := new_Xs ++ [new_X] in
        let new_Ms := new_Ms ++ [new_M] in
        (* add to batch costs *)
        c <- lift (index (fidelity_costs (env s)) new_M) ;;
        modify (set_batch_costs (batch_costs s + c)) ;;
        fill_random fuel' new_M new_Xs new_Ms
    end
  else ret (new_Xs, new_Ms).

(** [if self.query_being_evaluated is False: ...]: the primary query
    followed by the random fill.  [build] is the [build_af] of the
    class. *)
Definition sequential_query
    (build : Self -> list point -> outcome (list Q)) (fuel : nat)
  : Method (list point * list Z) :=
  s <- get ;;
  if negb (query_being_evaluated s) then
    (* obtain new query *)
    '(new_X, new_M) <- optimise_af build ;;
    (* add to batch costs *)
    s <- get ;;
    c <- lift (index (fidelity_costs (env s)) new_M) ;;
    modify (set_batch_costs (batch_costs s + c)) ;;
    modify (set_query_being_evaluated true) ;;
    fill_random fuel new_M [new_X] [new_M]
  else ret ([], []).

(** The body of [for i in range(num_of_obs)] in [mfUCB.optim_loop]. *)
Definition mfUCB_ingest_one (obtain_query : list point)
    (obtain_fidelities : list Z) (i : Z) : Method (list Z) :=
  s <- get ;;
  fid <- lift (index obtain_fidelities i) ;;
  '(x, y) <- record_observation fid (index obtain_query i)
               (match new_obs s with
                | Some obs => index obs i
                | None => Raise TypeError
                end) ;;
  s <- get ;;
  when (negb (fid =? num_of_fidelities s - 1)%Z) (check_bias true fid x y) ;;
  release_cost fid ;;
  ret [].

Definition mfUCB_ingest (obtain_query : list point)
    (obtain_fidelities : list Z) : Method unit :=
  s <- get ;;
  when (match new_obs s with Some _ => true | None => false end)
    (ingest_loop (mfUCB_ingest_one obtain_query obtain_fidelities)
       (range (len obtain_query)) [] ;;
     update_model (as_set obtain_fidelities) ;;
     modify (set_query_being_evaluated false)).

(** [mfUCB.optim_loop()] *)
Definition mfUCB_optim_loop (fuel : nat) : Method unit :=
  mfUCB_update_beta ;;
  '(new_Xs, new_Ms) <- sequential_query mfUCB_build_af fuel ;;
  '(obtain_query, obtain_fidelities) <- dispatch new_Xs new_Ms ;;
  mfUCB_ingest obtain_query obtain_fidelities ;;
  update_hyperparams ;;
  tick.

(** The body of [for i in range(num_of_obs)] in [mfUCBPlus.optim_loop]. *)
Definition mfUCBPlus_ingest_one (obtain_query : list point)
    (obtain_fidelities : list Z) (i : Z) : Method (list Z) :=
  s <- get ;;
  fid <- lift (index obtain_fidelities i) ;;
  '(x, y) <- record_observation fid (index obtain_query i)
               (match new_obs s with
                | Some obs => index obs i
                | None => Raise TypeError
                end) ;;
  s <- get ;;
  bias_updates <-
    (if negb (fid =? num_of_fidelities s - 1)%Z then
       check_bias false fid x y ;;
       if (fid =? 0)%Z then collect_bias x y else ret []
     else ret []) ;;
  update_max_value fid y ;;
  release_cost fid ;;
  modify (set_query_being_evaluated false) ;;
  ret bias_updates.

Definition mfUCBPlus_ingest (obtain_query : list point)
    (obtain_fidelities : list Z) : Method unit :=
  s <- get ;;
  when (match new_obs s with Some _ => true | None => false end)
    (bias_updates <-
       ingest_loop (mfUCBPlus_ingest_one obtain_query obtain_fidelities)
         (range (len obtain_query)) [] ;;
     update_model (as_set obtain_fidelities) ;;
     update_model_bias (as_set bias_updates)).

(** The hyper-parameter refresh of [mfUCBPlus.optim_loop]: every
    [hp_update_frequency] observations of the cheapest fidelity, its
    model is re-optimised and its hyper-parameters copied to all. *)
Definition mfUCBPlus_update_hyperparams : Method unit :=
  s <- get ;;
  let n := num_of_fidelities s in
  Xlast <- lift (index (X s) (n - 1)) ;;
  match hp_update_frequency s with
  | None => ret tt
  | Some freq =>
      when (0 <? len Xlast)%Z
        (if (freq =? 0)%Z then lift (Raise ZeroDivisionError)
         else
           when (len Xlast mod freq =? 0)%Z
             (m <- lift (index (model s) (n - 1)) ;;
              let m' := optim_hyperparams m false in
              ms <- lift (set_index (model s) (n - 1) m') ;;
              modify (set_model ms) ;;
              for_each (range n) (fun fid2 =>
                s <- get ;;
                hs <- lift (set_index (gp_hyperparams s) fid2
                              (current_hyperparams m')) ;;
                modify (set_gp_hyperparams hs))))
  end.

(** [mfUCBPlus.optim_loop()] *)
Definition mfUCBPlus_optim_loop (fuel : nat) : Method unit :=
  mfUCBPlus_update_beta ;;
  '(new_Xs, new_Ms) <- sequential_query mfUCBPlus_build_af fuel ;;
  '(obtain_query, obtain_fidelities) <- dispatch new_Xs new_Ms ;;
  mfUCBPlus_ingest obtain_query obtain_fidelities ;;
  mfUCBPlus_update_hyperparams ;;
  tick.

(** The per-fidelity lists have one entry per fidelity, there is at
    least one fidelity, the fidelities of the current batch are fidelity
    levels, and every penalty point has its Lipschitz constant: what
    [__init__] and [optim_loop] maintain, and what [build_af] relies on
    when it indexes. *)
Definition well_formed (s : Self) : Prop :=
  let n := num_of_fidelities s in
  (1 <= n)%Z /\
  len (X s) = n /\ len (model s) = n /\ len (gp_hyperparams s) = n /\
  len (bias_X s) = n /\ len (bias_model s) = n /\ len (bias_list s) = n /\
  len (beta s) = n /\ len (max_value s) = n /\
  Forall (fun fid => (0 <= fid < n)%Z) (current_batch_fids s) /\
  (len (current_batch_fids s) <= len (lipschitz_batch_list s))%Z.

(** A matrix [ucb] of [build_af]: one row per fidelity and one column
    per row of [Xs]. *)
Definition shaped (s : Self) (Xs : list point) (ucb : list (list Q)) : Prop :=
  len ucb = num_of_fidelities s /\
  Forall (fun row => List.length row = List.length Xs) ucb.

(** [max_value] records, for every fidelity, the running maximum of
    the observed values [Y] of that fidelity, started at 0. *)
Definition max_value_recorded (s : Self) : Prop :=
  max_value s = map running_max (Y s).

(** [n] calls of an [optim_loop], as [run_optim] makes them. *)
Fixpoint iterate (n : nat) (loop : Method unit) : Method unit :=
  match n with
  | O => ret tt
  | S k => loop ;; iterate k loop
  end.

(** ** The single-fidelity subclasses *)

Definition set_local_lipschitz (v : bool) (s : Self) : Self :=
  mkSelf (env s) (rng_state s) (dim s) (cost_budget s) (batch_costs s)
    (budget s) (num_of_fidelities s) (fidelity_thresholds s)
    (increasing_thresholds s) (update_max_bias s) (cost_thresholds s)
    (fidelity_count_list s) (bias_list s) (bias_constant s) (gp_hyperparams
    s) (fixed_beta s) (beta s) (penalization_gamma s) (lipschitz_constant s)
    (max_value s) (estimate_lipschitz s) v (lipschitz_grid s)
    (soft_plus_transform s) (num_of_starts s) (num_of_optim_epochs s)
    (grid_search s) (hp_update_frequency s) (last_n_obs s) (X s) (Y s) (T s)
    (bias_X s) (bias_Y s) (model s) (bias_model s) (current_time s) (new_obs
    s) (lipschitz_batch_list s) (current_batch s) (current_batch_fids s)
    (query_being_evaluated s).

(** [UCBwILP.__init__]: the parent constructor, called without
    [local_lipschitz] and [increasing_thresholds] (so with their defaults
    [True] and [False]), then [self.num_of_fidelities = 1] and
    [self.local_lipschitz = local_lipschitz].  The per-fidelity tables
    keep the size the parent gave them. *)
Definition UCBwILP_init (e : E) (r : rng) (beta0 : option Q)
    (fidelity_thresholds0 : option (list Q)) (lipschitz_constant0 : Q)
    (num_of_starts0 num_of_optim_epochs0 : Z)
    (hp_update_frequency0 : option Z) (budget0 : Z) (cost_budget0 : Q)
    (initial_bias : Q) (local_lipschitz0 : bool) : outcome Self :=
  (s <~ init e r beta0 fidelity_thresholds0 lipschitz_constant0
          num_of_starts0 num_of_optim_epochs0 hp_update_frequency0 budget0
          cost_budget0 initial_bias true false ;;
   Ret (set_local_lipschitz local_lipschitz0 (set_num_of_fidelities 1 s))
  )%outcome.

(** [simpleUCB.__init__]: the constructor of [mfUCB] (without
    [increasing_thesholds], so [False]), then
    [self.num_of_fidelities = 1]. *)
Definition simpleUCB_init (e : E) (r : rng) (beta0 : option Q)
    (fidelity_thresholds0 : option (list Q)) (lipschitz_constant0 : Q)
    (num_of_starts0 num_of_optim_epochs0 : Z)
    (hp_update_frequency0 : option Z) (budget0 : Z) (cost_budget0 : Q)
    (initial_bias : Q) : outcome Self :=
  (s <~ mfUCB_init e r beta0 fidelity_thresholds0 lipschitz_constant0
          num_of_starts0 num_of_optim_epochs0 hp_update_frequency0 budget0
          cost_budget0 initial_bias false ;;
   Ret (set_num_of_fidelities 1 s))%outcome.

(** ** [run_optim] *)

(** The loop
    [while self.current_time <= self.budget - 1: self.optim_loop()]
    of [run_optim]; [loop] is the [optim_loop] of the class, and [fuel]
    bounds the number of passes. *)
Fixpoint run_optim_loop (loop : Method unit) (fuel : nat) : Method unit :=
  s <- get ;;
  if (current_time s <=? budget s - 1)%Z then
    match fuel with
    | O => timeout
    | S fuel' => loop ;; run_optim_loop loop fuel'
    end
  else ret tt.

(** [m] keeps the budget, and it ends one time step later when it
    returns and at the same time step when it does not. *)
Definition one_step {A : Type} (m : Method A) : Prop :=
  forall s,
    budget (snd (m s)) = budget s /\
    current_time (snd (m s))
    = match fst (m s) with
      | Returns _ => (current_time s + 1)%Z
      | _ => current_time s
      end.

(** The three [optim_loop]s of the family. *)
Definition optim_loops (fuel : nat) : list (Method unit) :=
  [optim_loop fuel; mfUCB_optim_loop fuel; mfUCBPlus_optim_loop fuel].

(** ** Properties of objects *)

(** Every per-fidelity table has one entry per fidelity, and there is
    at least one fidelity. *)
Definition sized (s : Self) : Prop :=
  let n := num_of_fidelities s in
  (1 <= n)%Z /\
  len (X s) = n /\ len (Y s) = n /\ len (T s) = n /\
  len (bias_X s) = n /\ len (bias_Y s) = n /\
  len (model s) = n /\ len (bias_model s) = n /\
  len (gp_hyperparams s) = n /\ len (beta s) = n /\ len (bias_list s) = n /\
  len (max_value s) = n /\ len (lipschitz_constant s) = n /\
  len (last_n_obs s) = n /\ len (fidelity_count_list s) = n /\
  len (fidelity_thresholds s) = n /\ len (cost_thresholds s) = n.

(** The inputs, the values and the observation times of every fidelity
    go together: [X[f]], [Y[f]] and [T[f]] have the same length. *)
Definition aligned (s : Self) : Prop :=
  map (@List.length point) (X s) = map (@List.length Q) (Y s) /\
  map (@List.length Q) (Y s) = map (@List.length Z) (T s).

(** What is left of [aligned] when an iteration raises: the values and
    the times still go together, and no [X[f]] holds more than one input
    without its value. *)
Definition input_ahead (s : Self) : Prop :=
  map (@List.length Q) (Y s) = map (@List.length Z) (T s) /\
  Forall2 (fun x y => (y <= x <= S y)%nat)
    (map (@List.length point) (X s)) (map (@List.length Q) (Y s)).

(** The table [new] has the rows of [old], each with further entries
    appended. *)
Definition extends {A : Type} (old new : list (list A)) : Prop :=
  Forall2 (fun a b => exists more, b = a ++ more) old new.

(** Every penalty point of the current batch has its Lipschitz constant,
    as the penalisation loop of [build_af] needs. *)
Definition penalty_ready (s : Self) : Prop :=
  List.length (lipschitz_batch_list s)
  = List.length (combine (current_batch s) (current_batch_fids s)).

(** The quantity that the fidelity loop of [optimise_af] compares with
    [fidelity_thresholds[i]]: the standard deviation of fidelity [i] at
    [new_X] (the prior constant without data), times [beta[i]] when
    [scaled]. *)
Definition fidelity_signal (s : Self) (new_X : point) (scaled : bool) (i : Z)
  : outcome Q :=
  (Xi <~ index (X s) i ;;
   std <~ (if nonempty Xi then
             m <~ index (model s) i ;;
             Ret (snd (posterior m new_X))
           else
             h <~ index (gp_hyperparams s) i ;;
             Ret (constant h)) ;;
   if scaled then b <~ index (beta s) i ;; Ret (b * std) else Ret std
  )%outcome.

End Controller.

Arguments snapshot_batch {gp E rng SurrogateGP EnvE} _.
Arguments update_beta {gp E rng EnvE Num} _.
Arguments mfUCB_update_beta {gp E rng EnvE Num} _.
Arguments mfUCBPlus_update_beta {gp E rng Num} _.
Arguments update_hyperparams {gp E rng SurrogateGP} _.
Arguments mfUCBPlus_update_hyperparams {gp E rng SurrogateGP} _.
Arguments tick {gp E rng} _.
Arguments fill_step {gp E rng SurrogateGP EnvE Num} _.

End MF.

(* ===================================================================== *)
(** * [optimise_af] of the multi-task classes *)
(* ===================================================================== *)

Module MT.

(** The fields of a [MultiTaskUCBwILP], [MF_MES] or [MF_TuRBO] object
    that [optimise_af] reads before it consults the model; everything
    else the object holds (the multi-task model, the data, the maximum
    samples, ...) is [rest]. *)
Record Self (rng Rest : Type) : Type := mkSelf {
  dim : Z;
  num_of_fidelities : Z;
  current_time : Z;
  grid_search : bool;
  rng_state : rng;
  state : Turbo.TurboState;
  rest : Rest
}.

Arguments mkSelf {rng Rest}.

(** What the classes do once there is data: opaque here.
    [ucb_query] is the grid or multi-start search of
    [MultiTaskUCBwILP.optimise_af] followed by [generate_fidelity];
    [mes_query] is [generate_max_samples] and the per-fidelity search of
    [MF_MES.optimise_af]; [generate_batch] and [generate_fidelity] are
    the methods of [MF_TuRBO]. *)
Class Engine (rng Rest : Type) : Type := {
  ucb_query : bool -> M (Self rng Rest) (point * Z);
  mes_query : bool -> M (Self rng Rest) (point * Z);
  generate_batch : Turbo.TurboState -> M (Self rng Rest) point;
  generate_fidelity : point -> M (Self rng Rest) Z
}.

Section OptimiseAf.

Context {rng Rest : Type}.
Context {Num : Numerics rng}.
Context {Eng : Engine rng Rest}.

Local Open Scope monad_scope.

Definition set_rng_state (r : rng) (s : Self rng Rest) : Self rng Rest :=
  mkSelf (dim s) (num_of_fidelities s) (current_time s) (grid_search s) r
    (state s) (rest s).

(** The first statement of every [optimise_af]:
    [new_X = np.random.uniform(size = self.dim).reshape(1, -1)],
    [new_M = np.array(self.num_of_fidelities - 1).reshape(1, 1)]. *)
Definition cold_start : M (Self rng Rest) (point * Z) :=
  s <- get ;;
  let (new_X, r) := uniform (dim s) (rng_state s) in
  modify (set_rng_state r) ;;
  ret (new_X, (num_of_fidelities s - 1)%Z).

(** The answer of a cold start: the next draw of the random source, at
    fidelity [num_of_fidelities - 1]; only the random state changes. *)
Definition cold_answer (s : Self rng Rest)
  : ending (point * Z) * Self rng Rest :=
  (Returns (fst (uniform (dim s) (rng_state s)), (num_of_fidelities s - 1)%Z),
   set_rng_state (snd (uniform (dim s) (rng_state s))) s).

(** [MultiTaskUCBwILP.optimise_af()] *)
Definition MultiTaskUCBwILP_optimise_af : M (Self rng Rest) (point * Z) :=
  s <- get ;;
  if (current_time s =? 0)%Z then cold_start
  else ucb_query (grid_search s).

(** [MF_MES.optimise_af()] *)
Definition MF_MES_optimise_af : M (Self rng Rest) (point * Z) :=
  s <- get ;;
  if (current_time s =? 0)%Z then cold_start
  else mes_query (grid_search s).

(** [MF_TuRBO.optimise_af()] *)
Definition MF_TuRBO_optimise_af : M (Self rng Rest) (point * Z) :=
  s <- get ;;
  if (current_time s =? 0)%Z then cold_start
  else
    new_X <- generate_batch (state s) ;;
    new_M <- generate_fidelity new_X ;;
    ret (new_X, new_M).

End OptimiseAf.

End MT.

(* ===================================================================== *)
(** * The hyper-parameter dict and the fidelity choice of the multi-task
      classes *)
(* ===================================================================== *)

Module MultiTask.

Import String.

(** A key of a Python [dict]: the modelled code stores under string keys
    and reads under integer ones. *)
Inductive key : Type :=
| KStr (s : string)
| KInt (n : Z).

(** [a == b] on keys: a string never equals an integer. *)
Definition key_eqb (a b : key) : bool :=
  match a, b with
  | KStr s, KStr t => String.eqb s t
  | KInt n, KInt m => Z.eqb n m
  | _, _ => false
  end.

(** A value of the hyper-parameter dict: a tensor with its entries, or
    a zero-dimensional tensor. *)
Inductive hval : Type :=
| HTensor (v : list Q)
| HScalar (q : Q).

(** A [dict], in insertion order. *)
Definition dict : Type := list (key * hval).

(** [d[k]]; [None] stands for a missing key. *)
Fixpoint dict_get (d : dict) (k : key) : option hval :=
  match d with
  | [] => None
  | (k', v) :: r => if key_eqb k' k then Some v else dict_get r k
  end.

(** [d[k] = v] *)
Fixpoint dict_set (d : dict) (k : key) (v : hval) : dict :=
  match d with
  | [] => [(k, v)]
  | (k', v') :: r =>
      if key_eqb k' k then (k', v) :: r else (k', v') :: dict_set r k v
  end.

(** [str(n)] of an [int] *)
Definition str (n : Z) : string :=
  DecimalString.NilEmpty.string_of_int (Z.to_int n).

(** How an evaluation ends here: [KeyError], with the key it reports,
    joins the exceptions of [Py.exn]. *)
Inductive result (A : Type) : Type :=
| Value (a : A)
| Raised (e : Py.exn)
| KeyError (k : key).
Arguments Value {A} a.
Arguments Raised {A} e.
Arguments KeyError {A} k.

Definition rbind {A B} (r : result A) (k : A -> result B) : result B :=
  match r with
  | Value a => k a
  | Raised e => Raised e
  | KeyError key => KeyError key
  end.

Definition of_outcome {A} (o : Py.outcome A) : result A :=
  match o with
  | Py.Ret a => Value a
  | Py.Raise e => Raised e
  end.

(** [d[k]] as an expression. *)
Definition lookup (d : dict) (k : key) : result hval :=
  match dict_get d k with
  | Some v => Value v
  | None => KeyError k
  end.

(** [[a for _ in range(n)]] *)
Definition copies {A} (n : Z) (a : A) : list A :=
  map (fun _ => a) (Py.range n).

(** The body of [for latent in range(self.num_of_latents)] in
    [set_hyperparams]. *)
Definition set_latent (num_of_fidelities : Z) (h : hypers) (d : dict)
    (latent : Z) : dict :=
  let parameter_key_lengthscale :=
    ("covar_module_" ++ str latent ++ ".lengthscale")%string in
  let parameter_key_variance :=
    ("task_covar_module_" ++ str latent ++ ".var")%string in
  dict_set
    (dict_set d (KStr parameter_key_lengthscale) (HTensor (length_scale h)))
    (KStr parameter_key_variance)
    (HTensor (copies num_of_fidelities (constant h))).

(** [MultiTaskUCBwILP.set_hyperparams(constant, lengthscale, noise,
    mean_constant)]: the dict it stores in [self.gp_hyperparams].
    [args = None] is the call with [constant == None], as [__init__] makes
    it. *)
Definition set_hyperparams (dim num_of_latents num_of_fidelities : Z)
    (args : option hypers) : dict :=
  let h := match args with
           | None =>
               mkHypers (6 # 10) (copies dim (15 # 100)) (1 # 10000) 0
           | Some h => h
           end in
  let hypers :=
    fold_left (set_latent num_of_fidelities h) (Py.range num_of_latents) [] in
  let hypers :=
    dict_set hypers (KStr "likelihood.noise")
      (HTensor (copies num_of_fidelities (noise h))) in
  dict_set hypers (KStr "mean_module.constant") (HScalar (mean_constant h)).

(** The multi-task model ([gp_utils.MultiTaskBoTorchGP]): the posterior
    mean and standard deviation at one input and one task. *)
Class Model (model : Type) : Type := {
  mt_posterior : model -> point -> Z -> Q * Q
}.

(** The fields of a [MultiTaskUCBwILP] or [MF_TuRBO] object that
    [generate_fidelity] reads. *)
Record Self (model : Type) : Type := mkSelf {
  num_of_fidelities : Z;
  X : list (list point);
  model_ : model;
  gp_hyperparams : dict;
  increasing_thresholds : bool;
  beta : Q;
  fidelity_thresholds : list Q
}.

Arguments mkSelf {model}.
Arguments num_of_fidelities {model}.
Arguments X {model}.
Arguments model_ {model}.
Arguments gp_hyperparams {model}.
Arguments increasing_thresholds {model}.
Arguments beta {model}.
Arguments fidelity_thresholds {model}.

(** [b * t] on a tensor. *)
Definition scale (b : Q) (t : hval) : hval :=
  match t with
  | HTensor v => HTensor (map (Qmult b) v)
  | HScalar q => HScalar (b * q)
  end.

(** The truth value of [t > x] in an [if]: a tensor must hold exactly
    one entry. *)
Definition exceeds (t : hval) (x : Q) : result bool :=
  match t with
  | HScalar q => Value (Py.Qltb x q)
  | HTensor [q] => Value (Py.Qltb x q)
  | HTensor _ => Raised Py.RuntimeError
  end.

Section GenerateFidelity.

Context {model : Type}.
Context {ModelM : Model model}.

(** The loop [for fidelity in reversed(range(self.num_of_fidelities))]
    of [generate_fidelity] with [fidelity_choice = 'variance_thresholds'];
    [last] is the value [new_M] holds when the loop runs out. *)
Fixpoint generate_fidelity_from (s : Self model) (new_X : point)
    (fids : list Z) (last : option Z) : result Z :=
  match fids with
  | [] =>
      match last with
      | Some new_M => Value new_M
      | None => Raised Py.UnboundLocalError
      end
  | fidelity :: rest =>
      (* if we reach target fidelity, break *)
      if (fidelity =? 0)%Z then Value fidelity
      else
        rbind (of_outcome (Py.index (X s) (-1))) (fun Xlast =>
        rbind
          (* if there is data use posterior, else use prior *)
          (if Py.nonempty Xlast then
             Value (HTensor [snd (mt_posterior (model_ s) new_X fidelity)])
           else
             let hypers := gp_hyperparams s in
             rbind (lookup hypers (KInt 3)) (fun mean_constant =>
             rbind (lookup hypers (KInt 0)) (fun constant =>
             Value constant)))
          (fun std =>
        (* check fidelity thresholds *)
        let threshold :=
          if increasing_thresholds s then scale (beta s) std else std in
        rbind (of_outcome (Py.index (fidelity_thresholds s) fidelity))
          (fun ft =>
        rbind (exceeds threshold ft) (fun above =>
        if above then Value fidelity
        else generate_fidelity_from s new_X rest (Some fidelity)))))
  end.

(** [MultiTaskUCBwILP.generate_fidelity(new_X)] and
    [MF_TuRBO.generate_fidelity(new_X)], the same text, with
    [fidelity_choice = 'variance_thresholds']. *)
Definition generate_fidelity (s : Self model) (new_X : point) : result Z :=
  generate_fidelity_from s new_X (rev (Py.range (num_of_fidelities s))) None.

End GenerateFidelity.

(** Every key of the dict is a string. *)
Definition string_keyed (d : dict) : Prop :=
  Forall (fun kv => exists s, fst kv = KStr s) d.

End MultiTask.

(* ===================================================================== *)
(** * A small concrete setting *)
(* ===================================================================== *)

(** Concrete collaborators, used to run the controller on explicit
    inputs: three fidelities with costs [[4, 2, 1]], a surrogate whose
    posterior has mean 0 and a standard deviation equal to the first
    coordinate of the input, an environment that resolves a scripted
    number of the oldest in-flight queries at every step, and a random
    source that reads its draws from a tape. *)
Module Toy.

(** The surrogate: it has no internal state. *)
#[export] Instance gp_toy : Surrogate unit := {|
  new_gp := fun _ => tt;
  new_bias_gp := fun _ => tt;
  posterior := fun _ x => (0, hd 0 x);
  fit_model := fun m _ _ _ => m;
  optim_hyperparams := fun m _ => m;
  current_hyperparams := fun _ => mkHypers (6 # 10) [15 # 100] (1 # 10000) 0;
  set_hyperparams := fun m _ => m;
  max_grad_norm := fun _ _ => 1
|}.

Record env_toy : Type := mkEnv {
  costs : list Q;
  objective : point -> Z -> Q;
  in_flight : list (point * Z);
  script : list nat
}.

(** [step]: the new queries join the in-flight queue, and the first
    [k] queries of the queue resolve, [k] being the head of the script. *)
Definition step_toy (e : env_toy) (new_Xs : list point) (new_Ms : list Z)
  : (list point * list Z * option (list Q)) * env_toy :=
  let queue := in_flight e ++ combine new_Xs new_Ms in
  let k := hd O (script e) in
  let resolved := firstn k queue in
  let obs := match k with
             | O => None
             | S _ => Some (map (fun '(x, m) => objective e x m) resolved)
             end in
  ((map fst resolved, map snd resolved, obs),
   mkEnv (costs e) (objective e) (skipn k queue) (tl (script e))).

#[export] Instance environment_toy : Environment env_toy := {|
  env_dim := fun _ => 1%Z;
  env_num_of_fidelities := fun e => len (costs e);
  env_current_time := fun _ => 0%Z;
  expected_costs := costs;
  fidelity_costs := costs;
  require_transform := fun _ => false;
  env_grid_search := fun _ => false;
  gen_search_grid := fun _ _ => [[0]; [1 # 2]; [1]];
  query_list := fun e => map fst (in_flight e);
  fidelities_list := fun e => map snd (in_flight e);
  step := step_toy
|}.

(** The random source is a tape of points; a draw takes the next one. *)
Definition draw (d : Z) (tape : list point) : point * list point :=
  match tape with
  | [] => (repeat 0 (Z.to_nat d), [])
  | p :: rest => (p, rest)
  end.

#[export] Instance numerics_toy : Numerics (list point) := {|
  log := fun x => x - 1;
  softplus := fun u => Py.max2 0 u;
  norm := fun p x =>
    fold_left Qplus (map (fun '(a, b) => Qabs (a - b)) (combine p x)) 0;
  sobol_grid := fun d n => repeat (repeat (1 # 2) (Z.to_nat d)) (Z.to_nat n);
  uniform := draw;
  multistart_ascent := fun _ d _ _ tape =>
    let (p, rest) := draw d tape in (Ret p, rest)
|}.

(** An objective that is negative everywhere. *)
Definition below_zero (x : point) (m : Z) : Q := hd 0 x - 1.

(** An objective that is positive everywhere. *)
Definition above_zero (x : point) (m : Z) : Q := hd 0 x + 1.

(** [mfLiveBatch(env, beta = 1)] on the positive objective. *)
Definition live_above (script0 : list nat) (tape : list point)
  : outcome (MF.Self unit env_toy (list point)) :=
  MF.init (mkEnv [4; 2; 1] above_zero [] script0) tape (Some 1) None 1 75 25
    None 10 4 (1 # 10) true false.

(** The environment with costs [[4, 2, 1]] and nothing in flight. *)
Definition env0 (script0 : list nat) : env_toy :=
  mkEnv [4; 2; 1] below_zero [] script0.

(** [mfLiveBatch(env, beta = 1)] with the other arguments at their
    defaults ([cost_budget = 4], [initial_bias = 0.1]). *)
Definition live (script0 : list nat) (tape : list point)
  : outcome (MF.Self unit env_toy (list point)) :=
  MF.init (env0 script0) tape (Some 1) None 1 75 25 None 10 4 (1 # 10)
    true false.

(** [mfLiveBatch(env, beta = 1, initial_bias = b)] *)
Definition live_biased (b : Q) (script0 : list nat) (tape : list point)
  : outcome (MF.Self unit env_toy (list point)) :=
  MF.init (env0 script0) tape (Some 1) None 1 75 25 None 10 4 b true false.

(** [mfUCB(env, beta = 1)] with the other arguments at their defaults. *)
Definition sequential (script0 : list nat) (tape : list point)
  : outcome (MF.Self unit env_toy (list point)) :=
  MF.mfUCB_init (env0 script0) tape (Some 1) None 1 75 25 None 10 4 0 false.

(** [mfUCBPlus(env)]: every argument at its default, [beta = None]. *)
Definition plus_default (script0 : list nat) (tape : list point)
  : outcome (MF.Self unit env_toy (list point)) :=
  MF.mfUCBPlus_init (env0 script0) tape None None 1 75 25 None 10 4 0.

(** An environment that announces a number of fidelities of its own,
    whatever the length of its cost table. *)
Record env_announcing : Type := mkAnnouncing {
  announced : Z;
  inner : env_toy
}.

#[export] Instance environment_announcing : Environment env_announcing := {|
  env_dim := fun e => env_dim (inner e);
  env_num_of_fidelities := announced;
  env_current_time := fun e => env_current_time (inner e);
  expected_costs := fun e => expected_costs (inner e);
  fidelity_costs := fun e => fidelity_costs (inner e);
  require_transform := fun e => require_transform (inner e);
  env_grid_search := fun e => env_grid_search (inner e);
  gen_search_grid := fun e n => gen_search_grid (inner e) n;
  query_list := fun e => query_list (inner e);
  fidelities_list := fun e => fidelities_list (inner e);
  step := fun e new_Xs new_Ms =>
    let (res, e') := step (inner e) new_Xs new_Ms in
    (res, mkAnnouncing (announced e) e')
|}.

(** [UCBwILP(env, beta = 1)] with the other arguments at their
    defaults. *)
Definition playbook (script0 : list nat) (tape : list point)
  : outcome (MF.Self unit env_toy (list point)) :=
  MF.UCBwILP_init (env0 script0) tape (Some 1) None 1 75 25 None 10 4 0 true.

(** [simpleUCB(env, beta = 1)] with the other arguments at their
    defaults. *)
Definition simple (script0 : list nat) (tape : list point)
  : outcome (MF.Self unit env_toy (list point)) :=
  MF.simpleUCB_init (env0 script0) tape (Some 1) None 1 75 25 None 10 4 0.

(** A multi-task model with the posterior of the surrogate above, at
    every task. *)
#[export] Instance mt_model_toy : MultiTask.Model unit := {|
  MultiTask.mt_posterior := fun _ x _ => (0, hd 0 x)
|}.

(** A multi-task object on three fidelities as [__init__] leaves it
    ([num_of_latents = 6]), in one dimension, with [beta = 1]. *)
Definition multitask_fresh : MultiTask.Self unit :=
  MultiTask.mkSelf 3 [[]; []; []] tt
    (MultiTask.set_hyperparams 1 6 3 None) false 1
    [1 # 10; 1 # 10; 1 # 10].

(** A multi-task engine whose warm paths always propose the centre of
    the domain at the target fidelity. *)
#[export] Instance engine_toy : MT.Engine (list point) unit := {|
  MT.ucb_query := fun _ => ret ([1 # 2], 0%Z);
  MT.mes_query := fun _ => ret ([1 # 2], 0%Z);
  MT.generate_batch := fun _ => ret [1 # 2];
  MT.generate_fidelity := fun _ => ret 0%Z
|}.

(** A multi-task object at time zero, in one dimension with three
    fidelities. *)
Definition multitask0 (tape : list point) : MT.Self (list point) unit :=
  MT.mkSelf 1 3 0 false tape
    (Turbo.mkTurboState 1 1 (8 # 10) (1 # 128) (16 # 10) 0 4 0 10 NegInf
       false)
    tt.

End Toy.

(* ===================================================================== *)
(** * Properties *)
(* ===================================================================== *)

Unset Implicit Arguments.

Module PyFacts.

Lemma Qltb_lt (a b : Q) : Qltb a b = true <-> a < b.
Proof.
  unfold Qltb. rewrite negb_true_iff.
  split; intro H.
  - apply Qnot_le_lt. intro Hle. apply Qle_bool_iff in Hle. congruence.
  - destruct (Qle_bool b a) eqn:E; [|reflexivity].
    apply Qle_bool_iff in E. exfalso. apply (Qlt_not_le _ _ H E).
Qed.

Lemma Qltb_ge (a b : Q) : Qltb a b = false <-> b <= a.
Proof.
  unfold Qltb. rewrite negb_false_iff. apply Qle_bool_iff.
Qed.

Lemma max2_ge_l (a b : Q) : a <= max2 a b.
Proof.
  unfold max2. destruct (Qltb a b) eqn:E.
  - apply Qltb_lt in E. lra.
  - lra.
Qed.

Lemma max2_ge_r (a b : Q) : b <= max2 a b.
Proof.
  unfold max2. destruct (Qltb a b) eqn:E.
  - lra.
  - apply Qltb_ge in E. lra.
Qed.

Lemma max2_cases (a b : Q) : max2 a b = a \/ max2 a b = b.
Proof. unfold max2. destruct (Qltb a b); auto. Qed.

Lemma min2_le_l (a b : Q) : min2 a b <= a.
Proof.
  unfold min2. destruct (Qltb b a) eqn:E.
  - apply Qltb_lt in E. lra.
  - lra.
Qed.

Lemma min2_le_r (a b : Q) : min2 a b <= b.
Proof.
  unfold min2. destruct (Qltb b a) eqn:E.
  - lra.
  - apply Qltb_ge in E. lra.
Qed.

Lemma min2_cases (a b : Q) : min2 a b = a \/ min2 a b = b.
Proof. unfold min2. destruct (Qltb b a); auto. Qed.

(** ** Indexing *)

Lemma position_lt (n i : Z) (j : nat) :
  position n i = Ret j -> (Z.of_nat j < n)%Z.
Proof.
  unfold position.
  destruct ((if (i <? 0)%Z then (i + n)%Z else i) <? 0)%Z eqn:E1;
    cbn [orb]; [discriminate|].
  destruct (n <=? (if (i <? 0)%Z then (i + n)%Z else i))%Z eqn:E2;
    [discriminate|].
  intros H. injection H as <-. lia.
Qed.

(** An index within [0, n) denotes itself. *)
Lemma position_in_range (n i : Z) :
  (0 <= i < n)%Z -> position n i = Ret (Z.to_nat i).
Proof.
  intros Hi. unfold position.
  assert (E1 : (i <? 0)%Z = false) by (apply Z.ltb_ge; lia).
  assert (E2 : (n <=? i)%Z = false) by (apply Z.leb_gt; lia).
  rewrite !E1, E2. reflexivity.
Qed.

Lemma index_ret {A} (l : list A) (i : Z) (a : A) :
  index l i = Ret a <->
  exists j, position (len l) i = Ret j /\ nth_error l j = Some a.
Proof.
  unfold index. destruct (position (len l) i) as [j|e]; cbn [obind].
  - destruct (nth_error l j) as [b|] eqn:E.
    + split.
      * intros H. injection H as <-. exists j. auto.
      * intros (j' & Hj & Hb). injection Hj as <-. congruence.
    + split; [discriminate|].
      intros (j' & Hj & Hb). injection Hj as <-. congruence.
  - split; [discriminate|]. intros (j & Hj & _). discriminate.
Qed.

Lemma set_index_ret {A} (l l' : list A) (i : Z) (a : A) :
  set_index l i a = Ret l' <->
  exists j, position (len l) i = Ret j /\ l' = replace_nth l j a.
Proof.
  unfold set_index. destruct (position (len l) i) as [j|e]; cbn [obind].
  - split.
    + intros H. injection H as <-. exists j. auto.
    + intros (j' & Hj & ->). injection Hj as <-. reflexivity.
  - split; [discriminate|]. intros (j & Hj & _). discriminate.
Qed.

Lemma length_replace_nth {A} (l : list A) (j : nat) (a : A) :
  List.length (replace_nth l j a) = List.length l.
Proof.
  revert j. induction l as [|x r IH]; intros [|j]; cbn; auto.
Qed.

Lemma append_at_ret {A} (l l' : list (list A)) (i : Z) (a : A) :
  append_at l i a = Ret l' <->
  exists j row,
    position (len l) i = Ret j /\ nth_error l j = Some row /\
    l' = replace_nth l j (row ++ [a]).
Proof.
  unfold append_at. split.
  - destruct (index l i) as [row|e] eqn:E; cbn [obind]; [|discriminate].
    apply index_ret in E. destruct E as (j & Hj & Hrow).
    intros H. apply set_index_ret in H. destruct H as (j' & Hj' & ->).
    exists j, row. rewrite Hj in Hj'. injection Hj' as <-. auto.
  - intros (j & row & Hj & Hrow & ->).
    assert (E : index l i = Ret row) by (apply index_ret; eauto).
    rewrite E. cbn [obind]. apply set_index_ret. eauto.
Qed.

Lemma map_replace_nth {A B} (g : A -> B) (l : list A) (j : nat) (a : A) :
  map g (replace_nth l j a) = replace_nth (map g l) j (g a).
Proof.
  revert j. induction l as [|x r IH]; intros [|j]; cbn; auto.
  f_equal. apply IH.
Qed.

Lemma len_map {A B} (g : A -> B) (l : list A) : len (map g l) = len l.
Proof. unfold len. rewrite length_map. reflexivity. Qed.

(** Entry-wise order on lists of the same length. *)
Lemma pointwise_le_refl (l : list Q) : Forall2 Qle l l.
Proof. induction l; constructor; auto. apply Qle_refl. Qed.

Lemma pointwise_le_trans (a b c : list Q) :
  Forall2 Qle a b -> Forall2 Qle b c -> Forall2 Qle a c.
Proof.
  intros Hab. revert c. induction Hab as [|x y a b Hxy _ IH]; intros c Hbc.
  - inversion Hbc. constructor.
  - inversion Hbc as [|y' z b' c' Hyz Hbc']; subst. constructor.
    + exact (Qle_trans _ _ _ Hxy Hyz).
    + apply IH. exact Hbc'.
Qed.

Lemma replace_nth_grows (l : list Q) (j : nat) (a v : Q) :
  nth_error l j = Some a -> a <= v -> Forall2 Qle l (replace_nth l j v).
Proof.
  revert j. induction l as [|x r IH]; intros [|j]; cbn; try discriminate.
  - intros H Hle. injection H as ->. constructor; [exact Hle|].
    apply pointwise_le_refl.
  - intros H Hle. constructor; [apply Qle_refl|]. apply IH; assumption.
Qed.

Lemma index_in_range {A} (l : list A) (i : Z) :
  (0 <= i < len l)%Z -> exists a, index l i = Ret a.
Proof.
  intros Hi. unfold index. rewrite (position_in_range _ _ Hi). cbn [obind].
  destruct (nth_error l (Z.to_nat i)) as [a|] eqn:E; [eauto|].
  apply nth_error_None in E. unfold len in Hi. lia.
Qed.

Lemma in_range (n i : Z) : In i (range n) -> (0 <= i < n)%Z.
Proof.
  unfold range. intros H. apply in_map_iff in H.
  destruct H as (k & <- & Hk). apply in_seq in Hk. lia.
Qed.

Lemma length_range (n : Z) : List.length (range n) = Z.to_nat n.
Proof. unfold range. rewrite length_map, length_seq. reflexivity. Qed.

(** [omap] returns when [f] returns on every member. *)
Lemma omap_total {A B} (f : A -> outcome B) (P : B -> Prop) (l : list A) :
  (forall a, In a l -> exists b, f a = Ret b /\ P b) ->
  exists bs,
    omap f l = Ret bs /\ List.length bs = List.length l /\ Forall P bs.
Proof.
  induction l as [|a r IH]; intros H; cbn [omap].
  - exists []. auto.
  - destruct (H a (or_introl eq_refl)) as (b & -> & Hb).
    destruct IH as (bs & -> & Hlen & Hall).
    { intros a' Ha'. apply H. right. exact Ha'. }
    exists (b :: bs). cbn. auto.
Qed.

Lemma Forall_replace_nth {A} (P : A -> Prop) (l : list A) (j : nat) (a : A) :
  Forall P l -> P a -> Forall P (replace_nth l j a).
Proof.
  intros Hl Ha. revert j.
  induction Hl as [|x r Hx Hr IH]; intros [|j]; cbn; constructor; auto.
Qed.

End PyFacts.

(* ===================================================================== *)
(** * Reasoning about method bodies *)
(* ===================================================================== *)

Module MonadFacts.

(** A [bind] that returns: both parts returned. *)
Lemma bind_ret_inv {S A B} (m : M S A) (k : A -> M S B) (s s'' : S) (b : B) :
  bind m k s = (Returns b, s'') ->
  exists a s', m s = (Returns a, s') /\ k a s' = (Returns b, s'').
Proof.
  unfold bind. destruct (m s) as [[a| |] s'] eqn:E; try discriminate.
  intros H. exists a, s'. split; [reflexivity|exact H].
Qed.

Lemma lift_ret_inv {S A} (o : outcome A) (s s' : S) (a : A) :
  lift o s = (Returns a, s') -> o = Ret a /\ s' = s.
Proof.
  unfold lift. destruct o; intros H; [|discriminate].
  injection H as -> ->. auto.
Qed.

Lemma get_ret_inv {S} (s s' a : S) :
  get s = (Returns a, s') -> a = s /\ s' = s.
Proof. unfold get. intros H. injection H as -> ->. auto. Qed.

Lemma modify_ret_inv {S} (f : S -> S) (s s' : S) (u : unit) :
  modify f s = (Returns u, s') -> s' = f s.
Proof. unfold modify. intros H. injection H as _ ->. reflexivity. Qed.

Lemma ret_ret_inv {S A} (a b : A) (s s' : S) :
  ret a s = (Returns b, s') -> b = a /\ s' = s.
Proof. unfold ret. intros H. injection H as -> ->. auto. Qed.

Lemma bind_get {S B} (k : S -> M S B) (s : S) : bind get k s = k s s.
Proof. reflexivity. Qed.

(** A run whose outcome is known, with the object it leaves. *)
Lemma run_ret {S A} (m : M S A) (s : S) (a : A) :
  fst (m s) = Returns a -> m s = (Returns a, snd (m s)).
Proof. destruct (m s) as [o s']. cbn. intros ->. reflexivity. Qed.

Section Preservation.

Context {S : Type} (R : S -> S -> Prop).
Hypothesis R_refl : forall s, R s s.
Hypothesis R_trans : forall s1 s2 s3, R s1 s2 -> R s2 s3 -> R s1 s3.

Lemma preserves_ret {A} (a : A) : preserves R (ret a).
Proof. intros s. apply R_refl. Qed.

Lemma preserves_get : preserves R get.
Proof. intros s. apply R_refl. Qed.

Lemma preserves_lift {A} (o : outcome A) : preserves R (lift o).
Proof. intros s. unfold lift. destruct o; apply R_refl. Qed.

Lemma preserves_timeout {A} : preserves R (@timeout S A).
Proof. intros s. apply R_refl. Qed.

Lemma preserves_modify (f : S -> S) :
  (forall s, R s (f s)) -> preserves R (modify f).
Proof. intros H s. apply H. Qed.

Lemma preserves_bind {A B} (m : M S A) (k : A -> M S B) :
  preserves R m -> (forall a, preserves R (k a)) -> preserves R (bind m k).
Proof.
  intros Hm Hk s. unfold bind. specialize (Hm s).
  destruct (m s) as [[a| |] s']; cbn in *; try exact Hm.
  eapply R_trans; [exact Hm|apply Hk].
Qed.

Lemma preserves_when (c : bool) (body : M S unit) :
  preserves R body -> preserves R (when c body).
Proof. intros H. destruct c; [exact H|apply preserves_ret]. Qed.

Lemma preserves_for_each {A} (l : list A) (body : A -> M S unit) :
  (forall a, preserves R (body a)) -> preserves R (for_each l body).
Proof.
  intros H. induction l as [|a r IH]; cbn [for_each].
  - apply preserves_ret.
  - apply preserves_bind; [apply H|intros _; exact IH].
Qed.

(** What a run that returns tells about the two objects. *)
Lemma preserves_run {A} (m : M S A) (s s' : S) (o : ending A) :
  preserves R m -> m s = (o, s') -> R s s'.
Proof. intros H E. specialize (H s). rewrite E in H. exact H. Qed.

End Preservation.

(** ** Invariants of the runs that return *)

(** The case of a run that returned. *)
Lemma on_return {A} (o : ending A) (a : A) (P Q : Prop) :
  o = Returns a ->
  match o with Returns _ => P | _ => Q end -> P.
Proof. intros ->. auto. Qed.

Section Maintaining.

Context {S : Type} (I J : S -> Prop).
Hypothesis IJ : forall s, I s -> J s.

Lemma maintains_ret {A} (a : A) : maintains I J (ret a).
Proof. intros s H. exact H. Qed.

Lemma maintains_get : maintains I J get.
Proof. intros s H. exact H. Qed.

Lemma maintains_lift {A} (o : outcome A) : maintains I J (lift o).
Proof. intros s H. unfold lift. destruct o; cbn; auto. Qed.

Lemma maintains_timeout {A} : maintains I J (@timeout S A).
Proof. intros s H. cbn. auto. Qed.

Lemma maintains_modify (f : S -> S) :
  (forall s, I s -> I (f s)) -> maintains I J (modify f).
Proof. intros Hf s H. cbn. auto. Qed.

Lemma maintains_bind {A B} (m : M S A) (k : A -> M S B) :
  maintains I J m -> (forall a, maintains I J (k a)) ->
  maintains I J (bind m k).
Proof.
  intros Hm Hk s H. unfold bind. specialize (Hm s H).
  destruct (m s) as [[a| |] s']; cbn in *; try exact Hm.
  apply Hk, Hm.
Qed.

Lemma maintains_when (c : bool) (body : M S unit) :
  maintains I J body -> maintains I J (when c body).
Proof. intros H. destruct c; [exact H|apply maintains_ret]. Qed.

Lemma maintains_for_each {A} (l : list A) (body : A -> M S unit) :
  (forall a, maintains I J (body a)) -> maintains I J (for_each l body).
Proof.
  intros H. induction l as [|a r IH]; cbn [for_each].
  - apply maintains_ret.
  - apply maintains_bind; [apply H|intros _; exact IH].
Qed.

End Maintaining.

(** ** Ending without running out of fuel *)

Lemma bind_not_timeout {S A B} (m : M S A) (k : A -> M S B) (s : S) :
  fst (m s) <> Timeout ->
  (forall a s', m s = (Returns a, s') -> fst (k a s') <> Timeout) ->
  fst (bind m k s) <> Timeout.
Proof.
  unfold bind. destruct (m s) as [[a|e|] s']; cbn; intros Hm Hk.
  - apply Hk. reflexivity.
  - discriminate.
  - congruence.
Qed.

Lemma finishes_ret {S A} (a : A) : finishes (@ret S A a).
Proof. intros s. discriminate. Qed.

Lemma finishes_get {S} : finishes (@get S).
Proof. intros s. discriminate. Qed.

Lemma finishes_lift {S A} (o : outcome A) : finishes (@lift S A o).
Proof. intros s. unfold lift. destruct o; discriminate. Qed.

Lemma finishes_modify {S} (f : S -> S) : finishes (modify f).
Proof. intros s. discriminate. Qed.

Lemma finishes_bind {S A B} (m : M S A) (k : A -> M S B) :
  finishes m -> (forall a, finishes (k a)) -> finishes (bind m k).
Proof.
  intros Hm Hk s. apply bind_not_timeout; [apply Hm|].
  intros a s' _. apply Hk.
Qed.

Lemma finishes_when {S} (c : bool) (body : M S unit) :
  finishes body -> finishes (when c body).
Proof. intros H. destruct c; [exact H|apply finishes_ret]. Qed.

Lemma finishes_for_each {S A} (l : list A) (body : A -> M S unit) :
  (forall a, finishes (body a)) -> finishes (for_each l body).
Proof.
  intros H. induction l as [|a r IH]; cbn [for_each].
  - apply finishes_ret.
  - apply finishes_bind; [apply H|intros _; exact IH].
Qed.

Lemma through_refl {S V} (f : S -> V) (Rv : V -> V -> Prop) :
  (forall v, Rv v v) -> forall s, through f Rv s s.
Proof. intros H s. apply H. Qed.

Lemma through_trans {S V} (f : S -> V) (Rv : V -> V -> Prop) :
  (forall a b c, Rv a b -> Rv b c -> Rv a c) ->
  forall s1 s2 s3,
    through f Rv s1 s2 -> through f Rv s2 s3 -> through f Rv s1 s3.
Proof. intros H s1 s2 s3. apply H. Qed.

End MonadFacts.

(* ===================================================================== *)
(** * Which fields each method writes *)
(* ===================================================================== *)

Module Frames.

Import MonadFacts.

(** Break a method body into its statements: [known] closes the calls
    that already have a lemma, the structural rules do the rest. *)
Ltac frame_with Rr Rt known :=
  repeat first
    [ known
    | simple apply (preserves_ret _ Rr)
    | simple apply (preserves_get _ Rr)
    | simple apply (preserves_lift _ Rr)
    | simple apply (preserves_timeout _ Rr)
    | simple apply (preserves_when _ Rr)
    | simple apply (preserves_for_each _ Rr Rt); intros
    | simple apply (preserves_bind _ Rt); [ | intros ]
    | simple apply preserves_modify; intro; hnf;
      match goal with
      | H : blind _ _ |- _ => rewrite (H _ _); apply Rr
      end
    | match goal with
      | |- preserves _ (match ?x with _ => _ end) => destruct x
      end ].

Section Controller.

Context (gp E rng : Type).
Context {SurrogateGP : Surrogate gp}.
Context {EnvE : Environment E}.
Context {Num : Numerics rng}.

Let Self : Type := MF.Self gp E rng.

Context {V : Type} (f : Self -> V) (Rv : V -> V -> Prop).
Hypothesis Rv_refl : forall v, Rv v v.
Hypothesis Rv_trans : forall a b c, Rv a b -> Rv b c -> Rv a c.

Let R : Self -> Self -> Prop := through f Rv.

Let Rr : forall s, R s s := through_refl f Rv Rv_refl.
Let Rt : forall s1 s2 s3, R s1 s2 -> R s2 s3 -> R s1 s3 :=
  through_trans f Rv Rv_trans.

Ltac frame := frame_with Rr Rt ltac:(assumption).

Lemma count_fidelity_frame (new_M_int : Z) :
  blind f (@MF.set_fidelity_count_list gp E rng) ->
  blind f (@MF.set_fidelity_thresholds gp E rng) ->
  preserves R (MF.count_fidelity new_M_int).
Proof. intros H1 H2. unfold MF.count_fidelity. frame. Qed.

Lemma optimise_af_frame
    (build : Self -> list point -> outcome (list Q)) :
  blind f (@MF.set_rng_state gp E rng) ->
  blind f (@MF.set_fidelity_count_list gp E rng) ->
  blind f (@MF.set_fidelity_thresholds gp E rng) ->
  preserves R (MF.optimise_af build).
Proof.
  intros H1 H2 H3.
  pose proof (fun m => count_fidelity_frame m H2 H3) as Hc.
  unfold MF.optimise_af. frame; apply Hc.
Qed.

Lemma snapshot_batch_frame :
  blind f (@MF.set_lipschitz_batch_list gp E rng) ->
  blind f (@MF.set_current_batch gp E rng) ->
  blind f (@MF.set_current_batch_fids gp E rng) ->
  preserves R MF.snapshot_batch.
Proof. intros H1 H2 H3. unfold MF.snapshot_batch. frame. Qed.

Lemma update_beta_frame :
  blind f (@MF.set_beta gp E rng) -> preserves R MF.update_beta.
Proof. intros H1. unfold MF.update_beta. frame. Qed.

Lemma mfUCB_update_beta_frame :
  blind f (@MF.set_beta gp E rng) -> preserves R MF.mfUCB_update_beta.
Proof. intros H1. unfold MF.mfUCB_update_beta. frame. Qed.

Lemma mfUCBPlus_update_beta_frame :
  blind f (@MF.set_beta gp E rng) -> preserves R MF.mfUCBPlus_update_beta.
Proof. intros H1. unfold MF.mfUCBPlus_update_beta. frame. Qed.

Lemma fill_step_frame :
  blind f (@MF.set_rng_state gp E rng) ->
  blind f (@MF.set_fidelity_count_list gp E rng) ->
  blind f (@MF.set_fidelity_thresholds gp E rng) ->
  blind f (@MF.set_lipschitz_batch_list gp E rng) ->
  blind f (@MF.set_current_batch gp E rng) ->
  blind f (@MF.set_current_batch_fids gp E rng) ->
  blind f (@MF.set_batch_costs gp E rng) ->
  preserves R MF.fill_step.
Proof.
  intros H1 H2 H3 H4 H5 H6 H7.
  pose proof (optimise_af_frame (@MF.build_af gp E rng _ _) H1 H2 H3) as Ho.
  unfold MF.fill_step. frame.
Qed.

Lemma fill_batch_frame (fuel : nat) :
  blind f (@MF.set_rng_state gp E rng) ->
  blind f (@MF.set_fidelity_count_list gp E rng) ->
  blind f (@MF.set_fidelity_thresholds gp E rng) ->
  blind f (@MF.set_lipschitz_batch_list gp E rng) ->
  blind f (@MF.set_current_batch gp E rng) ->
  blind f (@MF.set_current_batch_fids gp E rng) ->
  blind f (@MF.set_batch_costs gp E rng) ->
  forall new_Xs new_Ms, preserves R (MF.fill_batch fuel new_Xs new_Ms).
Proof.
  intros H1 H2 H3 H4 H5 H6 H7.
  pose proof (fill_step_frame H1 H2 H3 H4 H5 H6 H7) as Hs.
  induction fuel as [|fuel IH]; intros new_Xs new_Ms; cbn [MF.fill_batch];
    frame.
  apply IH.
Qed.

Lemma fill_random_frame (fuel : nat) :
  blind f (@MF.set_rng_state gp E rng) ->
  blind f (@MF.set_batch_costs gp E rng) ->
  forall new_M new_Xs new_Ms,
    preserves R (MF.fill_random fuel new_M new_Xs new_Ms).
Proof.
  intros H1 H2.
  induction fuel as [|fuel IH]; intros new_M new_Xs new_Ms;
    cbn [MF.fill_random]; frame.
  apply IH.
Qed.

Lemma sequential_query_frame
    (build : Self -> list point -> outcome (list Q)) (fuel : nat) :
  blind f (@MF.set_rng_state gp E rng) ->
  blind f (@MF.set_fidelity_count_list gp E rng) ->
  blind f (@MF.set_fidelity_thresholds gp E rng) ->
  blind f (@MF.set_batch_costs gp E rng) ->
  blind f (@MF.set_query_being_evaluated gp E rng) ->
  preserves R (MF.sequential_query build fuel).
Proof.
  intros H1 H2 H3 H4 H5.
  pose proof (optimise_af_frame build H1 H2 H3) as Ho.
  pose proof (fill_random_frame fuel H1 H4) as Hf.
  unfold MF.sequential_query. frame. apply Hf.
Qed.

Lemma dispatch_frame (new_Xs : list point) (new_Ms : list Z) :
  blind f (@MF.set_env gp E rng) ->
  blind f (@MF.set_new_obs gp E rng) ->
  preserves R (MF.dispatch new_Xs new_Ms).
Proof. intros H1 H2. unfold MF.dispatch. frame. Qed.

Lemma record_observation_frame (fid : Z) (x : outcome point)
    (y : outcome Q) :
  blind f (@MF.set_X gp E rng) ->
  blind f (@MF.set_Y gp E rng) ->
  blind f (@MF.set_T gp E rng) ->
  preserves R (MF.record_observation fid x y).
Proof. intros H1 H2 H3. unfold MF.record_observation. frame. Qed.

Lemma check_bias_frame (gated : bool) (fid : Z) (x : point) (y : Q) :
  blind f (@MF.set_bias_constant gp E rng) ->
  preserves R (MF.check_bias gated fid x y).
Proof. intros H1. unfold MF.check_bias. frame. Qed.

Lemma collect_bias_frame (x : point) (y : Q) :
  blind f (@MF.set_bias_X gp E rng) ->
  blind f (@MF.set_bias_Y gp E rng) ->
  preserves R (MF.collect_bias x y).
Proof. intros H1 H2. unfold MF.collect_bias. frame. Qed.

Lemma update_max_value_frame (fid : Z) (y : Q) :
  blind f (@MF.set_max_value gp E rng) ->
  preserves R (MF.update_max_value fid y).
Proof. intros H1. unfold MF.update_max_value. frame. Qed.

Lemma release_cost_frame (fid : Z) :
  blind f (@MF.set_batch_costs gp E rng) ->
  preserves R (MF.release_cost fid).
Proof. intros H1. unfold MF.release_cost. frame. Qed.

Lemma update_model_frame (update_set : list Z) :
  blind f (@MF.set_model gp E rng) ->
  blind f (@MF.set_lipschitz_constant gp E rng) ->
  preserves R (MF.update_model update_set).
Proof. intros H1 H2. unfold MF.update_model. frame. Qed.

Lemma update_model_bias_frame (update_set : list Z) :
  blind f (@MF.set_bias_model gp E rng) ->
  preserves R (MF.update_model_bias update_set).
Proof. intros H1. unfold MF.update_model_bias. frame. Qed.

Lemma refresh_hyperparams_frame (fid n_obs : Z) (base : option Z) :
  blind f (@MF.set_last_n_obs gp E rng) ->
  blind f (@MF.set_model gp E rng) ->
  blind f (@MF.set_gp_hyperparams gp E rng) ->
  preserves R (MF.refresh_hyperparams fid n_obs base).
Proof. intros H1 H2 H3. unfold MF.refresh_hyperparams. frame. Qed.

Lemma update_hyperparams_frame :
  blind f (@MF.set_last_n_obs gp E rng) ->
  blind f (@MF.set_model gp E rng) ->
  blind f (@MF.set_gp_hyperparams gp E rng) ->
  preserves R MF.update_hyperparams.
Proof.
  intros H1 H2 H3.
  pose proof (fun a b c => refresh_hyperparams_frame a b c H1 H2 H3) as Hr.
  unfold MF.update_hyperparams. frame; apply Hr.
Qed.

Lemma mfUCBPlus_update_hyperparams_frame :
  blind f (@MF.set_model gp E rng) ->
  blind f (@MF.set_gp_hyperparams gp E rng) ->
  preserves R MF.mfUCBPlus_update_hyperparams.
Proof. intros H1 H2. unfold MF.mfUCBPlus_update_hyperparams. frame. Qed.

(** The bias part of an ingestion: the check, and for a target
    observation the bias observations. *)
Lemma bias_branch_frame (gated : bool) (fid n : Z) (x : point) (y : Q) :
  blind f (@MF.set_bias_constant gp E rng) ->
  blind f (@MF.set_bias_X gp E rng) ->
  blind f (@MF.set_bias_Y gp E rng) ->
  preserves R
    (if negb (fid =? n)%Z
     then bind (MF.check_bias gated fid x y)
            (fun _ => if (fid =? 0)%Z then MF.collect_bias x y else ret [])
     else ret []).
Proof.
  intros H1 H2 H3.
  pose proof (check_bias_frame gated fid x y H1) as Hc.
  pose proof (collect_bias_frame x y H2 H3) as Hb.
  frame.
Qed.

Lemma tick_frame :
  blind f (@MF.set_current_time gp E rng) -> preserves R MF.tick.
Proof. intros H1. unfold MF.tick. frame. Qed.

Lemma ingest_loop_frame (body : Z -> MF.Method gp E rng (list Z)) :
  (forall i, preserves R (body i)) ->
  forall idxs bias_updates,
    preserves R (MF.ingest_loop body idxs bias_updates).
Proof.
  intros Hb. induction idxs as [|i rest IH]; intros bias_updates;
    cbn [MF.ingest_loop]; frame.
  - apply Hb.
  - apply IH.
Qed.

End Controller.

Create HintDb frames discriminated.

#[export] Hint Resolve
  count_fidelity_frame optimise_af_frame snapshot_batch_frame
  update_beta_frame mfUCB_update_beta_frame mfUCBPlus_update_beta_frame
  fill_step_frame fill_batch_frame fill_random_frame sequential_query_frame
  dispatch_frame
  record_observation_frame check_bias_frame collect_bias_frame
  update_max_value_frame release_cost_frame update_model_frame
  update_model_bias_frame refresh_hyperparams_frame update_hyperparams_frame
  mfUCBPlus_update_hyperparams_frame tick_frame ingest_loop_frame
  bias_branch_frame
  : frames.

#[export] Hint Extern 1 (blind _ _) => (intros ? ?; reflexivity) : frames.
#[export] Hint Extern 1 (forall v, v = v) => (intros ?; reflexivity) : frames.
#[export] Hint Extern 1 (forall a b c, a = b -> b = c -> a = c) =>
  (intros ? ? ? ? ?; congruence) : frames.

(** Run a method body step by step from a run that returned. *)
Ltac inv_step H :=
  first
    [ apply get_ret_inv in H; destruct H as [? ?]; subst
    | apply lift_ret_inv in H; destruct H as [H ?]; subst
    | apply ret_ret_inv in H; destruct H as [? ?]; subst
    | apply modify_ret_inv in H; subst ].

Ltac inv_bind H :=
  let a := fresh "a" in
  let s1 := fresh "s" in
  let H1 := fresh "Hrun" in
  apply bind_ret_inv in H; destruct H as (a & s1 & H1 & H);
  try inv_step H1;
  try match type of a with
      | prod _ _ => destruct a
      end.

(** [f] has the same value before and after the run [H]. *)
Ltac same_after f H :=
  let Hs := fresh "Hsame" in
  match type of H with
  | ?m ?s = (?o, ?s') =>
      assert (Hs : through f eq s s')
        by (apply (preserves_run _ m s s' o); [eauto with frames|exact H]);
      unfold through in Hs; cbn beta in Hs
  end.

End Frames.

(* ===================================================================== *)
(** * Recording an observation *)
(* ===================================================================== *)

Module IngestFacts.

Import PyFacts MonadFacts Frames.

(** An [append] whose argument is an expression returns when the
    expression has a value and the append of that value returns. *)
Lemma append_eval_ret {A} (l l' : list (list A)) (i : Z) (e : outcome A)
    (a : A) :
  append_eval l i e = Ret (l', a) <-> e = Ret a /\ append_at l i a = Ret l'.
Proof.
  unfold append_eval, append_at.
  destruct (index l i) as [row|err]; cbn [obind].
  - destruct e as [b|err]; cbn [obind].
    + destruct (set_index l i (row ++ [b])) as [l1|err] eqn:Hset;
        cbn [obind]; split.
      * intros H. injection H as <- <-. auto.
      * intros [Hb Hl]. injection Hb as <-. rewrite Hset in Hl.
        injection Hl as <-. reflexivity.
      * discriminate.
      * intros [Hb Hl]. injection Hb as <-. rewrite Hset in Hl.
        discriminate.
    + split; [discriminate|]. intros [H _]. discriminate.
  - split; [discriminate|]. intros [_ H]. discriminate.
Qed.

Section Controller.

Context (gp E rng : Type).
Context {SurrogateGP : Surrogate gp}.
Context {EnvE : Environment E}.
Context {Num : Numerics rng}.

Let Self : Type := MF.Self gp E rng.

(** What [record_observation] has done when it returns. *)
Lemma record_observation_ret
    (fid : Z) (x : outcome point) (y : outcome Q) (s s' : Self)
    (r : point * Q) :
  MF.record_observation fid x y s = (Returns r, s') ->
  exists xv yv xs ys ts,
    x = Ret xv /\ y = Ret yv /\ r = (xv, yv) /\
    append_at (MF.X s) fid xv = Ret xs /\
    append_at (MF.Y s) fid yv = Ret ys /\
    append_at (MF.T s) fid (MF.current_time s + 1)%Z = Ret ts /\
    s' = MF.set_T ts (MF.set_Y ys (MF.set_X xs s)).
Proof.
  unfold MF.record_observation. intros H.
  inv_bind H.
  apply bind_ret_inv in H. destruct H as ([xs xv] & s1 & Hx & H).
  inv_step Hx. apply append_eval_ret in Hx. destruct Hx as [Hxv Hxs].
  inv_bind H.
  apply bind_ret_inv in H. destruct H as ([ys yv] & s1 & Hy & H).
  inv_step Hy. apply append_eval_ret in Hy. destruct Hy as [Hyv Hys].
  inv_bind H. inv_bind H. rename a into ts. inv_bind H. inv_step H.
  exists xv, yv, xs, ys, ts. repeat (split; [assumption || reflexivity|]).
  reflexivity.
Qed.

End Controller.

End IngestFacts.

(* ===================================================================== *)
(** * The trust-region state *)
(* ===================================================================== *)

Module TurboFacts.

Import PyFacts.

#[local] Arguments Py.Qltb : simpl never.
#[local] Arguments F.max2 : simpl never.
#[local] Arguments F.gt : simpl never.
#[local] Arguments Turbo.threshold : simpl never.
#[local] Arguments Z.eqb : simpl never.

Lemma max2_fin_gt (b y : Q) :
  Qltb b y = true -> F.max2 (Fin b) (Fin y) = Fin y.
Proof. unfold F.max2, F.gt. intros ->. reflexivity. Qed.

Ltac split_ifs :=
  repeat match goal with
         | |- context [if ?c then _ else _] => destruct c eqn:?
         end.

(** [update_state] returns on every non-empty observation. *)
Lemma update_state_returns (st : Turbo.TurboState) (Y_next : list Q) :
  Y_next <> [] -> exists st', Turbo.update_state st Y_next = Ret st'.
Proof.
  intros HY. destruct Y_next as [|y r]; [congruence|].
  unfold Turbo.update_state. cbn [max_seq obind]. eexists. reflexivity.
Qed.

(** One call of [update_state]: the bounds never change, a
    non-negative length that is at most [length_max] stays so, and a
    length below [length_min] is flagged. *)
Lemma update_state_step (st st' : Turbo.TurboState) (Y_next : list Q) :
  Turbo.update_state st Y_next = Ret st' ->
  Turbo.length_max st' = Turbo.length_max st /\
  Turbo.length_min st' = Turbo.length_min st /\
  (0 <= Turbo.length st <= Turbo.length_max st ->
   0 <= Turbo.length st' <= Turbo.length_max st) /\
  (Turbo.length st' < Turbo.length_min st ->
   Turbo.restart_triggered st' = true).
Proof.
  unfold Turbo.update_state.
  destruct Y_next as [|y r]; cbn [max_seq obind]; [discriminate|].
  intros H. injection H as <-.
  remember (fold_left Py.max2 r y) as m eqn:Hm. clear Hm.
  split_ifs; cbn;
    repeat match goal with
           | H : Qltb _ _ = true |- _ => apply Qltb_lt in H; cbn in H
           | H : Qltb _ _ = false |- _ => apply Qltb_ge in H; cbn in H
           end;
    pose proof (min2_le_r (2 * Turbo.length st) (Turbo.length_max st));
    pose proof (min2_cases (2 * Turbo.length st) (Turbo.length_max st));
    unfold Qdiv in *; change (/ 2) with (1 # 2) in *;
    repeat split; try reflexivity; intros;
    try match goal with
        | H : Py.min2 _ _ = _ \/ Py.min2 _ _ = _ |- _ =>
            destruct H as [E|E]; rewrite ?E in *
        end;
    try lra.
Qed.

(** C7 (as the code has it).  For any sequence of non-empty
    observations fed to [update_state], starting from a state whose
    length is between 0 and [length_max]: every call returns,
    [length_min] and [length_max] never change, and the length stays
    between 0 and [length_max], the bound that the expansion
    [min(2 * length, length_max)] keeps.  The length is not kept above
    [length_min]: a call that leaves it below [length_min] only sets
    [restart_triggered]. *)
Theorem turbo_length_at_most_length_max
    (st : Turbo.TurboState) (obs : list (list Q)) :
  0 <= Turbo.length st <= Turbo.length_max st ->
  Turbo.observations_ok obs ->
  exists st',
    Turbo.update_all st obs = Ret st' /\
    Turbo.length_max st' = Turbo.length_max st /\
    Turbo.length_min st' = Turbo.length_min st /\
    0 <= Turbo.length st' <= Turbo.length_max st' /\
    (obs <> [] -> Turbo.length st' < Turbo.length_min st' ->
     Turbo.restart_triggered st' = true).
Proof.
  intros Hlen Hobs. revert st Hlen.
  induction Hobs as [|Y_next rest HY _ IH]; intros st Hlen.
  - exists st. cbn. repeat split; try tauto; congruence.
  - destruct (update_state_returns st Y_next HY) as [st1 H1].
    destruct (update_state_step _ _ _ H1) as (Hmax & Hmin & Hkeep & Hflag).
    specialize (Hkeep Hlen).
    destruct (IH st1) as (st' & Hrun & Hmax' & Hmin' & Hlen' & Hflag').
    { rewrite Hmax. exact Hkeep. }
    exists st'. cbn [Turbo.update_all]. rewrite H1. cbn [obind].
    split; [exact Hrun|].
    split; [congruence|]. split; [congruence|]. split; [exact Hlen'|].
    intros _ Hlow. destruct rest as [|Y2 rest].
    + cbn in Hrun. injection Hrun as <-. apply Hflag.
      rewrite <- Hmin. exact Hlow.
    + apply Hflag'; [discriminate|exact Hlow].
Qed.

(** The theorem at the fresh state of a one-dimensional problem, fed four
    observations. *)
Lemma turbo_length_at_most_length_max_witness :
  exists st0 st',
    Turbo.new 1 = Ret st0 /\
    Turbo.update_all st0 [[1]; [1]; [1]; [1]] = Ret st' /\
    0 <= Turbo.length st' <= Turbo.length_max st'.
Proof.
  eexists. 
  destruct (turbo_length_at_most_length_max
              (Turbo.mkTurboState 1 1 (8 # 10) (1 # 128) (16 # 10) 0 4 0 10
                 NegInf false)
              [[1]; [1]; [1]; [1]]) as (st' & Hrun & _ & _ & Hlen & _).
  - cbn. split; discriminate.
  - repeat constructor; discriminate.
  - exists st'. split; [reflexivity|]. split; [exact Hrun|exact Hlen].
Defined.

(** C7 (as stated) fails: on a one-dimensional problem
    ([failure_tolerance = 4]), 28 observations that never improve halve
    the length seven times, to [0.8 / 128 = 0.00625], below
    [length_min = 0.0078125]. *)
Lemma turbo_length_drops_below_length_min :
  exists st0 st',
    Turbo.new 1 = Ret st0 /\
    Turbo.update_all st0 (repeat [0] 28) = Ret st' /\
    Turbo.length st' < Turbo.length_min st' /\
    ~ (Turbo.length_min st' <= Turbo.length st' <= Turbo.length_max st').
Proof.
  eexists. eexists. split; [reflexivity|]. split; [vm_compute; reflexivity|].
  cbn. split.
  - reflexivity.
  - intros [H _]. revert H. apply Qlt_not_le. reflexivity.
Qed.

(** The success test compares with [nan] while [best_value] is [-inf]:
    the first observation of a fresh state never counts as a success. *)
Lemma first_observation_is_no_success (st : Turbo.TurboState) (y : Q) :
  Turbo.best_value st = NegInf -> Turbo.improves st y = false.
Proof. unfold Turbo.improves. intros ->. reflexivity. Qed.

(** With a finite [best_value] the test is the intended one. *)
Lemma improves_finite (st : Turbo.TurboState) (b y : Q) :
  Turbo.best_value st = Fin b ->
  Turbo.improves st y = true <-> b + (1 # 1000) * Qabs b < y.
Proof.
  unfold Turbo.improves, Turbo.threshold, F.gt. intros ->. cbn.
  apply Qltb_lt.
Qed.

Ltac run_update_state :=
  unfold Turbo.update_state, Turbo.improves, Turbo.same_setting;
  cbn [max_seq fold_left obind];
  match goal with st : Turbo.TurboState |- _ => destruct st end;
  cbn in *; subst;
  repeat match goal with
         | H : ?c = _ |- context [if ?c then _ else _] => rewrite H
         end;
  cbn;
  repeat match goal with
         | H : ?c = _ |- context [if ?c then _ else _] => rewrite H
         end;
  cbn;
  repeat match goal with
         | H : F.max2 ?a ?b = _ |- context [F.max2 ?a ?b] => rewrite H
         end;
  match goal with
  | |- context [if Qltb ?a ?b then _ else _] => destruct (Qltb a b)
  end;
  eexists; (split; [reflexivity|]); cbn; repeat split; reflexivity.

(** A success that does not complete the run of successes. *)
Lemma update_state_success (st : Turbo.TurboState) (b y : Q) :
  Turbo.best_value st = Fin b ->
  F.gt (Fin y) (Turbo.threshold (Fin b)) = true ->
  F.max2 (Fin b) (Fin y) = Fin y ->
  (Turbo.success_counter st + 1 =? Turbo.success_tolerance st)%Z = false ->
  (0 =? Turbo.failure_tolerance st)%Z = false ->
  exists st',
    Turbo.update_state st [y] = Ret st' /\
    Turbo.success_counter st' = (Turbo.success_counter st + 1)%Z /\
    Turbo.length st' = Turbo.length st /\
    Turbo.best_value st' = Fin y /\
    Turbo.same_setting st st'.
Proof. intros Hb Hy Hm Hs Hf. run_update_state. Qed.

(** The success that completes the run. *)
Lemma update_state_last_success (st : Turbo.TurboState) (b y : Q) :
  Turbo.best_value st = Fin b ->
  F.gt (Fin y) (Turbo.threshold (Fin b)) = true ->
  (Turbo.success_counter st + 1 =? Turbo.success_tolerance st)%Z = true ->
  exists st',
    Turbo.update_state st [y] = Ret st' /\
    Turbo.success_counter st' = 0%Z /\
    Turbo.length st' =
      Py.min2 (2 * Turbo.length st) (Turbo.length_max st).
Proof. intros Hb Hy Hs. run_update_state. Qed.

(** A failure that does not complete the run of failures. *)
Lemma update_state_failure (st : Turbo.TurboState) (y : Q) :
  F.gt (Fin y) (Turbo.threshold (Turbo.best_value st)) = false ->
  (0 =? Turbo.success_tolerance st)%Z = false ->
  (Turbo.failure_counter st + 1 =? Turbo.failure_tolerance st)%Z = false ->
  exists st',
    Turbo.update_state st [y] = Ret st' /\
    Turbo.failure_counter st' = (Turbo.failure_counter st + 1)%Z /\
    Turbo.length st' = Turbo.length st /\
    Turbo.best_value st' = F.max2 (Turbo.best_value st) (Fin y) /\
    Turbo.success_counter st' = 0%Z /\
    Turbo.same_setting st st'.
Proof. intros Hy Hs Hf. run_update_state. Qed.

(** The failure that completes the run. *)
Lemma update_state_last_failure (st : Turbo.TurboState) (y : Q) :
  F.gt (Fin y) (Turbo.threshold (Turbo.best_value st)) = false ->
  (0 =? Turbo.success_tolerance st)%Z = false ->
  (Turbo.failure_counter st + 1 =? Turbo.failure_tolerance st)%Z = true ->
  exists st',
    Turbo.update_state st [y] = Ret st' /\
    Turbo.failure_counter st' = 0%Z /\
    Turbo.length st' = Turbo.length st / 2.
Proof. intros Hy Hs Hf. run_update_state. Qed.

(** A run of [success_tolerance] improving observations, counted from a
    state whose [best_value] is finite, expands the trust region and
    resets the success counter. *)
Lemma successes_expand (ys : list Q) :
  forall (st : Turbo.TurboState) (b : Q),
    Turbo.best_value st = Fin b ->
    Turbo.improving_run b ys ->
    Turbo.failure_tolerance st <> 0%Z ->
    ys <> [] ->
    (Turbo.success_counter st + len ys = Turbo.success_tolerance st)%Z ->
    exists st',
      Turbo.update_all st (Turbo.singles ys) = Ret st' /\
      Turbo.length st' =
        Py.min2 (2 * Turbo.length st) (Turbo.length_max st) /\
      Turbo.success_counter st' = 0%Z.
Proof.
  induction ys as [|y r IH]; intros st b Hb Hrun Hft Hne Hcount;
    [congruence|].
  destruct Hrun as [Hy Hrun].
  assert (Himp : F.gt (Fin y) (Turbo.threshold (Fin b)) = true)
    by (unfold F.gt, Turbo.threshold; cbn; apply Qltb_lt; exact Hy).
  assert (Hgt : F.max2 (Fin b) (Fin y) = Fin y).
  { apply max2_fin_gt, Qltb_lt. pose proof (Qabs_nonneg b). lra. }
  unfold len in Hcount. cbn [List.length] in Hcount.
  cbn [Turbo.singles map Turbo.update_all].
  destruct r as [|y2 r].
  - destruct (update_state_last_success st b y Hb Himp) as (st' & H1 & Hs & Hl).
    { apply Z.eqb_eq. cbn in Hcount. lia. }
    exists st'. rewrite H1. cbn. auto.
  - destruct (update_state_success st b y Hb Himp Hgt)
      as (st1 & H1 & Hs & Hl & Hbest & Hmax & Hstol & Hftol).
    { apply Z.eqb_neq. cbn [List.length] in Hcount. lia. }
    { apply Z.eqb_neq. lia. }
    destruct (IH st1 y) as (st' & Hrun' & Hlen' & Hsc'); try assumption.
    + congruence.
    + discriminate.
    + unfold len. cbn [List.length] in *. lia.
    + exists st'. rewrite H1. cbn [obind]. split; [exact Hrun'|].
      split; [|exact Hsc']. rewrite Hlen', Hl, Hmax. reflexivity.
Qed.

(** A run of [failure_tolerance] observations that never pass the
    success test shrinks the trust region and resets the failure
    counter. *)
Lemma failures_shrink (ys : list Q) :
  forall st : Turbo.TurboState,
    Turbo.stalling_run (Turbo.best_value st) ys = true ->
    Turbo.success_tolerance st <> 0%Z ->
    ys <> [] ->
    (Turbo.failure_counter st + len ys = Turbo.failure_tolerance st)%Z ->
    exists st',
      Turbo.update_all st (Turbo.singles ys) = Ret st' /\
      Turbo.length st' = Turbo.length st / 2 /\
      Turbo.failure_counter st' = 0%Z.
Proof.
  induction ys as [|y r IH]; intros st Hrun Hst Hne Hcount; [congruence|].
  cbn [Turbo.stalling_run] in Hrun. apply andb_true_iff in Hrun.
  destruct Hrun as [Hy Hrun]. apply negb_true_iff in Hy.
  unfold len in Hcount. cbn [List.length] in Hcount.
  cbn [Turbo.singles map Turbo.update_all].
  assert (Hs0 : (0 =? Turbo.success_tolerance st)%Z = false)
    by (apply Z.eqb_neq; lia).
  destruct r as [|y2 r].
  - destruct (update_state_last_failure st y Hy Hs0) as (st' & H1 & Hf & Hl).
    { apply Z.eqb_eq. cbn in Hcount. lia. }
    exists st'. rewrite H1. cbn. auto.
  - destruct (update_state_failure st y Hy Hs0)
      as (st1 & H1 & Hf & Hl & Hbest & _ & Hmax & Hstol & Hftol).
    { apply Z.eqb_neq. cbn [List.length] in Hcount. lia. }
    destruct (IH st1) as (st' & Hrun' & Hlen' & Hfc').
    + rewrite Hbest. exact Hrun.
    + congruence.
    + discriminate.
    + unfold len. cbn [List.length] in *. lia.
    + exists st'. rewrite H1. cbn [obind]. split; [exact Hrun'|].
      split; [|exact Hfc']. rewrite Hlen', Hl. reflexivity.
Qed.

(** The fresh state: the defaults of the dataclass, with
    [failure_tolerance = max(4, dim)]. *)
Lemma new_fields (d : Z) (st0 : Turbo.TurboState) :
  Turbo.new d = Ret st0 ->
  Turbo.length st0 = 8 # 10 /\
  Turbo.length_max st0 = 16 # 10 /\
  Turbo.best_value st0 = NegInf /\
  Turbo.success_counter st0 = 0%Z /\
  Turbo.failure_counter st0 = 0%Z /\
  Turbo.success_tolerance st0 = 10%Z /\
  (4 <= Turbo.failure_tolerance st0)%Z.
Proof.
  unfold Turbo.new, Turbo.post_init.
  cbn -[Qceiling Py.max2 Qdiv float_of_int].
  destruct (float_of_int d) as [f|]; cbn [obind]; [|discriminate].
  intros H. injection H as <-. cbn -[Qceiling Py.max2 Qdiv].
  repeat split.
  change 4%Z with (Qceiling (4 / inject_Z 1)) at 1.
  apply Qceiling_resp_le, max2_ge_l.
Qed.

(** C8, second half, on the code: from a fresh state,
    [failure_tolerance] observations none of which passes the success
    test (the first never does) halve the length to [0.4]. *)
Lemma fresh_failures_halve (d : Z) (st0 : Turbo.TurboState) (ys : list Q) :
  Turbo.new d = Ret st0 ->
  Turbo.stalling_run NegInf ys = true ->
  len ys = Turbo.failure_tolerance st0 ->
  exists st',
    Turbo.update_all st0 (Turbo.singles ys) = Ret st' /\
    Turbo.length st' == 4 # 10 /\
    Turbo.failure_counter st' = 0%Z.
Proof.
  intros Hnew Hrun Hlen.
  destruct (new_fields d st0 Hnew) as (Hl & _ & Hb & _ & Hfc & Hst & Hft).
  destruct (failures_shrink ys st0) as (st' & H1 & Hl' & Hfc').
  - rewrite Hb. exact Hrun.
  - lia.
  - intros ->. unfold len in Hlen. cbn in Hlen. lia.
  - lia.
  - exists st'. split; [exact H1|]. split; [|exact Hfc'].
    rewrite Hl', Hl. reflexivity.
Qed.

(** C8, first half, once the first observation is behind: after any
    first observation [y0] of a fresh state, ten observations that each
    improve on the running best by more than the relative tolerance
    double the length to [1.6] and reset the success counter. *)
Lemma ten_successes_after_first
    (d : Z) (st0 : Turbo.TurboState) (y0 : Q) (ys : list Q) :
  Turbo.new d = Ret st0 ->
  Turbo.improving_run y0 ys ->
  len ys = 10%Z ->
  exists st',
    Turbo.update_all st0 (Turbo.singles (y0 :: ys)) = Ret st' /\
    Turbo.length st' == 16 # 10 /\
    Turbo.success_counter st' = 0%Z.
Proof.
  intros Hnew Hrun Hlen.
  destruct (new_fields d st0 Hnew) as (Hl & Hm & Hb & _ & Hfc & Hst & Hft).
  destruct (update_state_failure st0 y0)
    as (st1 & H1 & Hf1 & Hl1 & Hb1 & Hs1 & Hmax & Hstol & Hftol).
  - rewrite Hb. reflexivity.
  - apply Z.eqb_neq. lia.
  - apply Z.eqb_neq. lia.
  - destruct (successes_expand ys st1 y0) as (st' & H2 & Hl2 & Hs2).
    + rewrite Hb1, Hb. reflexivity.
    + exact Hrun.
    + lia.
    + intros ->. unfold len in Hlen. cbn in Hlen. lia.
    + lia.
    + exists st'. cbn [Turbo.singles map Turbo.update_all].
      rewrite H1. cbn [obind]. split; [exact H2|]. split; [|exact Hs2].
      rewrite Hl2, Hl1, Hmax, Hl, Hm. reflexivity.
Qed.

(** C8, first half, on the code.  From the fresh state of a
    one-dimensional problem, the ten observations [1, 2, ..., 10], each
    above the running best by more than the relative tolerance, leave the
    length at [0.8] with a success counter of 9: the first of them was
    counted as a failure. *)
Theorem turbo_fresh_ten_improving :
  exists st0 st',
    Turbo.new 1 = Ret st0 /\
    Turbo.update_all st0
      [[1]; [2]; [3]; [4]; [5]; [6]; [7]; [8]; [9]; [10]] = Ret st' /\
    Turbo.length st' == 8 # 10 /\
    Turbo.success_counter st' = 9%Z /\
    Turbo.failure_counter st' = 0%Z.
Proof.
  eexists. eexists. split; [reflexivity|]. split; [vm_compute; reflexivity|].
  cbn. repeat split; reflexivity.
Qed.

(** An eleventh improving observation is what doubles the length. *)
Lemma turbo_fresh_eleven_improving :
  exists st0 st',
    Turbo.new 1 = Ret st0 /\
    Turbo.update_all st0
      [[1]; [2]; [3]; [4]; [5]; [6]; [7]; [8]; [9]; [10]; [11]] = Ret st' /\
    Turbo.length st' == 16 # 10 /\
    Turbo.success_counter st' = 0%Z.
Proof.
  eexists. eexists. split; [reflexivity|]. split; [vm_compute; reflexivity|].
  cbn. repeat split; reflexivity.
Qed.

End TurboFacts.

(* ===================================================================== *)
(** * The first query, and the default [mfUCBPlus] *)
(* ===================================================================== *)

Module QueryFacts.

Section WithCollaborators.

Context (gp E rng Rest : Type).
Context {SurrogateGP : Surrogate gp}.
Context {EnvE : Environment E}.
Context {Num : Numerics rng}.
Context {Eng : MT.Engine rng Rest}.

Lemma mt_cold_start_answer (t : MT.Self rng Rest) :
  MT.cold_start t = MT.cold_answer t.
Proof.
  unfold MT.cold_start, MT.cold_answer, bind, get.
  destruct (uniform (MT.dim t) (MT.rng_state t)) as [new_X r].
  reflexivity.
Qed.

(** C9.  At [current_time == 0], [optimise_af] returns the next draw of
    the random source together with the cheapest fidelity
    [num_of_fidelities - 1], whatever the acquisition function [build]
    of the class, whatever [grid_search], and without consulting the
    model: for [mfLiveBatch], [mfUCB] and their subclasses, and for
    [MultiTaskUCBwILP], [MF_MES] and [MF_TuRBO]. *)
Theorem cold_start_query
    (build : MF.Self gp E rng -> list point -> outcome (list Q))
    (s : MF.Self gp E rng) (t : MT.Self rng Rest) :
  MF.current_time s = 0%Z ->
  MT.current_time t = 0%Z ->
  MF.optimise_af build s = MF.cold_answer s /\
  MT.MultiTaskUCBwILP_optimise_af t = MT.cold_answer t /\
  MT.MF_MES_optimise_af t = MT.cold_answer t /\
  MT.MF_TuRBO_optimise_af t = MT.cold_answer t.
Proof.
  intros Hs Ht. split; [|repeat split].
  - unfold MF.optimise_af, MF.cold_answer, bind, get. rewrite Hs.
    cbn [Z.eqb].
    destruct (uniform (MF.dim s) (MF.rng_state s)) as [new_X r].
    reflexivity.
  - unfold MT.MultiTaskUCBwILP_optimise_af, bind, get. rewrite Ht.
    apply mt_cold_start_answer.
  - unfold MT.MF_MES_optimise_af, bind, get. rewrite Ht.
    apply mt_cold_start_answer.
  - unfold MT.MF_TuRBO_optimise_af, bind, get. rewrite Ht.
    apply mt_cold_start_answer.
Qed.

(** [mfUCBPlus.optim_loop] on an object whose [beta] is not fixed: the
    [for] statement of the [beta] update raises, and the object, its
    environment included, is as it was. *)
Lemma mfUCBPlus_loop_raises (s : MF.Self gp E rng) (fuel : nat) :
  MF.fixed_beta s = false ->
  MF.mfUCBPlus_optim_loop fuel s = (Raises TypeError, s).
Proof.
  intros Hb.
  unfold MF.mfUCBPlus_optim_loop, MF.mfUCBPlus_update_beta, bind, get, when,
    lift.
  rewrite Hb. reflexivity.
Qed.

(** The constructor records [beta = None] as [fixed_beta = False]. *)
Lemma mfUCBPlus_init_default_beta
    (e : E) (r : rng) (fidelity_thresholds0 : option (list Q))
    (lipschitz_constant0 : Q) (num_of_starts0 num_of_optim_epochs0 : Z)
    (hp_update_frequency0 : option Z) (budget0 : Z)
    (cost_budget0 initial_bias : Q) (s : MF.Self gp E rng) :
  MF.mfUCBPlus_init e r None fidelity_thresholds0 lipschitz_constant0
    num_of_starts0 num_of_optim_epochs0 hp_update_frequency0 budget0
    cost_budget0 initial_bias = Ret s ->
  MF.fixed_beta s = false.
Proof.
  unfold MF.mfUCBPlus_init, MF.init_sequential, MF.init.
  destruct (MF.init_cost_thresholds e (env_num_of_fidelities e) cost_budget0);
    cbn [obind]; try discriminate.
  match goal with
  | |- context [MF.init_cost_thresholds ?e ?n 1] =>
      destruct (MF.init_cost_thresholds e n 1)
  end; cbn [obind]; try discriminate.
  intros H. injection H as <-. reflexivity.
Qed.

(** C10.  An [mfUCBPlus] object constructed with the default
    [beta = None] has [fixed_beta = False], and every call of its
    [optim_loop] raises [TypeError] in the [beta] update, before
    [optimise_af] and [env.step] are reached: the object and its
    environment are unchanged, so no number of calls completes an
    iteration. *)
Theorem mfUCBPlus_default_never_iterates
    (e : E) (r : rng) (fidelity_thresholds0 : option (list Q))
    (lipschitz_constant0 : Q) (num_of_starts0 num_of_optim_epochs0 : Z)
    (hp_update_frequency0 : option Z) (budget0 : Z)
    (cost_budget0 initial_bias : Q) (s : MF.Self gp E rng) :
  MF.mfUCBPlus_init e r None fidelity_thresholds0 lipschitz_constant0
    num_of_starts0 num_of_optim_epochs0 hp_update_frequency0 budget0
    cost_budget0 initial_bias = Ret s ->
  MF.fixed_beta s = false /\
  (forall fuel : nat,
      MF.mfUCBPlus_optim_loop fuel s = (Raises TypeError, s)) /\
  (forall (fuel n : nat),
      MF.iterate (S n) (MF.mfUCBPlus_optim_loop fuel) s
      = (Raises TypeError, s)).
Proof.
  intros Hinit.
  pose proof (mfUCBPlus_init_default_beta _ _ _ _ _ _ _ _ _ _ _ Hinit) as Hb.
  split; [exact Hb|]. split.
  - intros fuel. apply mfUCBPlus_loop_raises, Hb.
  - intros fuel n. cbn [MF.iterate]. unfold bind at 1.
    rewrite (mfUCBPlus_loop_raises s fuel Hb). reflexivity.
Qed.

End WithCollaborators.

Import Toy.

(** The cold start on the concrete objects: an [mfUCB] object and a
    multi-task object, both at time zero, with [[3 # 4]] next on the
    tape. *)
Lemma cold_start_query_witness :
  exists s : MF.Self unit Toy.env_toy (list point),
    Toy.sequential [] [[3 # 4]] = Ret s /\
    fst (MF.optimise_af (@MF.mfUCB_build_af unit _ _ _) s)
    = Returns ([3 # 4], 2%Z) /\
    fst (MT.MF_TuRBO_optimise_af (Toy.multitask0 [[3 # 4]]))
    = Returns ([3 # 4], 2%Z).
Proof.
  eexists. split; [reflexivity|].
  match goal with
  | |- fst (MF.optimise_af _ ?s) = _ /\ _ =>
      destruct (cold_start_query unit Toy.env_toy (list point) unit
                  (@MF.mfUCB_build_af unit _ _ _) s
                  (Toy.multitask0 [[3 # 4]])
                  eq_refl eq_refl) as (H1 & _ & _ & H4)
  end.
  rewrite H1, H4. split; reflexivity.
Defined.

(** The default [mfUCBPlus] on the concrete environment. *)
Lemma mfUCBPlus_default_never_iterates_witness :
  exists s : MF.Self unit Toy.env_toy (list point),
    Toy.plus_default [4%nat] [[1]; [1]; [1]; [1]] = Ret s /\
    MF.mfUCBPlus_optim_loop 10 s = (Raises TypeError, s).
Proof.
  eexists. split; [reflexivity|].
  match goal with
  | |- MF.mfUCBPlus_optim_loop _ ?s = _ =>
      exact (proj1 (proj2
        (mfUCBPlus_default_never_iterates unit Toy.env_toy (list point)
           (Toy.env0 [4%nat]) [[1]; [1]; [1]; [1]] None 1 75 25 None 10 4 0
           s eq_refl)) 10%nat)
  end.
Defined.

End QueryFacts.

(* ===================================================================== *)
(** * The bias bound *)
(* ===================================================================== *)

Module BiasFacts.

Import PyFacts MonadFacts Frames.

Lemma inflated_trans (a b c : Q) :
  MF.inflated a b -> MF.inflated b c -> MF.inflated a c.
Proof.
  intros Hab Hbc. induction Hbc as [|b' diff _ IH Hlt].
  - exact Hab.
  - exact (MF.inflated_more IH Hlt).
Qed.

(** Above a non-negative bound, inflation only goes up. *)
Lemma inflated_grows (a b : Q) :
  MF.inflated a b -> 0 <= a -> a <= b.
Proof.
  intros H Ha. induction H as [|b diff _ IH Hlt]; lra.
Qed.

#[export] Hint Resolve MF.inflated_same inflated_trans : frames.

Section Controller.

Context (gp E rng : Type).
Context {SurrogateGP : Surrogate gp}.
Context {EnvE : Environment E}.
Context {Num : Numerics rng}.

Let Self : Type := MF.Self gp E rng.

(** What [check_bias] does when it returns: the observation [y] at
    [fid] is compared with the posterior mean of [model[fid + 1]] at [x],
    and the bound becomes [1.2 * diff] exactly when [diff] exceeds it
    (and, where the test is gated, [update_max_bias] is set). *)
Lemma check_bias_effect
    (gated : bool) (fid : Z) (x : point) (y : Q) (s s' : Self) (u : unit) :
  MF.check_bias gated fid x y s = (Returns u, s') ->
  exists m,
    index (MF.model s) (fid + 1) = Ret m /\
    MF.bias_constant s' =
      (let diff := y - fst (posterior m x) in
       if Qltb (MF.bias_constant s) diff
          && (if gated then MF.update_max_bias s else true)
       then (12 # 10) * diff
       else MF.bias_constant s).
Proof.
  unfold MF.check_bias, bind, get, lift, when, modify, ret.
  destruct (index (MF.model s) (fid + 1)) as [m|e]; try discriminate.
  intros H. exists m. split; [reflexivity|]. cbn zeta.
  destruct (Qltb (MF.bias_constant s) (y - fst (posterior m x))
            && (if gated then MF.update_max_bias s else true));
    injection H as _ <-; reflexivity.
Qed.

(** [check_bias] moves the bound by inflation only, whatever its
    outcome. *)
Lemma check_bias_inflates (gated : bool) (fid : Z) (x : point) (y : Q) :
  preserves (through (@MF.bias_constant gp E rng) MF.inflated)
    (MF.check_bias gated fid x y).
Proof.
  intros s. unfold through, MF.check_bias, bind, get, lift, when, modify, ret.
  destruct (index (MF.model s) (fid + 1)) as [m|e];
    try apply MF.inflated_same.
  destruct (Qltb (MF.bias_constant s) (y - fst (posterior m x))) eqn:Hlt;
    cbn [andb]; [|apply MF.inflated_same].
  destruct (if gated then MF.update_max_bias s else true);
    [|apply MF.inflated_same].
  cbn. apply MF.inflated_more with (b := MF.bias_constant s).
  - apply MF.inflated_same.
  - apply Qltb_lt. exact Hlt.
Qed.

Hint Resolve check_bias_inflates : frames.

Ltac frame :=
  frame_with
    (through_refl (@MF.bias_constant gp E rng) MF.inflated MF.inflated_same)
    (through_trans (@MF.bias_constant gp E rng) MF.inflated inflated_trans)
    ltac:(solve [eauto with frames]).

Let R : Self -> Self -> Prop :=
  through (@MF.bias_constant gp E rng) MF.inflated.

Lemma ingest_inflates (obtain_query : list point) (obtain_fidelities : list Z) :
  preserves R (MF.ingest obtain_query obtain_fidelities).
Proof.
  unfold MF.ingest. frame.
  apply ingest_loop_frame; eauto with frames.
  intros i. unfold MF.ingest_one. frame.
Qed.

Lemma mfUCB_ingest_inflates
    (obtain_query : list point) (obtain_fidelities : list Z) :
  preserves R (MF.mfUCB_ingest obtain_query obtain_fidelities).
Proof.
  unfold MF.mfUCB_ingest. frame.
  apply ingest_loop_frame; eauto with frames.
  intros i. unfold MF.mfUCB_ingest_one. frame.
Qed.

Lemma mfUCBPlus_ingest_inflates
    (obtain_query : list point) (obtain_fidelities : list Z) :
  preserves R (MF.mfUCBPlus_ingest obtain_query obtain_fidelities).
Proof.
  unfold MF.mfUCBPlus_ingest. frame.
  apply ingest_loop_frame; eauto with frames.
  intros i. unfold MF.mfUCBPlus_ingest_one. frame.
Qed.

Hint Resolve ingest_inflates mfUCB_ingest_inflates mfUCBPlus_ingest_inflates
  : frames.

Lemma optim_loop_inflates (fuel : nat) :
  preserves R (MF.optim_loop fuel).
Proof. unfold MF.optim_loop. frame. Qed.

Lemma mfUCB_optim_loop_inflates (fuel : nat) :
  preserves R (MF.mfUCB_optim_loop fuel).
Proof. unfold MF.mfUCB_optim_loop. frame. Qed.

Lemma mfUCBPlus_optim_loop_inflates (fuel : nat) :
  preserves R (MF.mfUCBPlus_optim_loop fuel).
Proof. unfold MF.mfUCBPlus_optim_loop. frame. Qed.

Lemma iterate_inflates (n : nat) (loop : MF.Method gp E rng unit) :
  preserves R loop -> preserves R (MF.iterate n loop).
Proof.
  intros Hloop. induction n as [|n IH]; cbn [MF.iterate]; frame.
Qed.

(** C5 (as the code has it).  Over any number of iterations of
    [optim_loop], of [mfLiveBatch], [mfUCB] or [mfUCBPlus], whatever
    their outcome, [bias_constant] only moves by inflation steps, each
    taken when an observed difference exceeds the current bound; so a
    bound that starts non-negative never decreases. *)
Theorem bias_constant_never_decreases
    (loop : MF.Method gp E rng unit) (fuel n : nat) (s : Self) :
  In loop [MF.optim_loop fuel; MF.mfUCB_optim_loop fuel;
           MF.mfUCBPlus_optim_loop fuel] ->
  0 <= MF.bias_constant s ->
  MF.inflated (MF.bias_constant s)
    (MF.bias_constant (snd (MF.iterate n loop s))) /\
  MF.bias_constant s <= MF.bias_constant (snd (MF.iterate n loop s)).
Proof.
  intros Hloop Hpos.
  assert (Hinfl : MF.inflated (MF.bias_constant s)
                    (MF.bias_constant (snd (MF.iterate n loop s)))).
  { apply (iterate_inflates n loop).
    destruct Hloop as [<-|[<-|[<-|[]]]].
    - apply optim_loop_inflates.
    - apply mfUCB_optim_loop_inflates.
    - apply mfUCBPlus_optim_loop_inflates. }
  split; [exact Hinfl|]. apply inflated_grows; assumption.
Qed.

(** C4 (as the code has it).  When the ingestion loop of
    [mfLiveBatch.optim_loop] takes in observation [i], of value [y] at
    input [x] and fidelity [fid]: if [fid] is the cheapest fidelity
    [num_of_fidelities - 1] the bound is left alone; otherwise (target
    fidelity included) [y] is compared with the posterior mean of the
    next cheaper fidelity [fid + 1] at [x], and [bias_constant] becomes
    [1.2 * diff] when the signed difference [diff] exceeds it and
    [update_max_bias] is set. *)
Theorem bias_check_on_ingest
    (obtain_query : list point) (obtain_fidelities : list Z) (i : Z)
    (s s' : Self) (bias_updates : list Z) :
  MF.ingest_one obtain_query obtain_fidelities i s
  = (Returns bias_updates, s') ->
  exists (fid : Z) (x : point) (y : Q) (obs : list Q),
    index obtain_fidelities i = Ret fid /\
    index obtain_query i = Ret x /\
    MF.new_obs s = Some obs /\ index obs i = Ret y /\
    if (fid =? MF.num_of_fidelities s - 1)%Z
    then MF.bias_constant s' = MF.bias_constant s
    else
      exists m,
        index (MF.model s) (fid + 1) = Ret m /\
        MF.bias_constant s' =
          (let diff := y - fst (posterior m x) in
           if Qltb (MF.bias_constant s) diff && MF.update_max_bias s
           then (12 # 10) * diff
           else MF.bias_constant s).
Proof.
  unfold MF.ingest_one. intros H.
  inv_bind H. inv_bind H. rename a into fid, Hrun into Hfid.
  apply bind_ret_inv in H. destruct H as ([x y] & s0 & Hrec & H).
  destruct (IngestFacts.record_observation_ret _ _ _ _ _ _ _ _ _ Hrec)
    as (xv & yv & xs & ys & ts & Hx & Hy & Hr & _).
  injection Hr as -> ->.
  destruct (MF.new_obs s) as [obs|] eqn:Hobs; [|discriminate].
  exists fid, xv, yv, obs. repeat (split; [assumption || reflexivity|]).
  same_after (fun s : Self =>
                (MF.bias_constant s, MF.model s, MF.num_of_fidelities s,
                 MF.update_max_bias s)) Hrec.
  injection Hsame as Hb Hm Hn Hu. rewrite Hb, Hm, Hn, Hu. clear Hb Hm Hn Hu.
  inv_bind H.
  apply bind_ret_inv in H. destruct H as (more & s2 & Hbias & H).
  apply bind_ret_inv in H. destruct H as (u1 & s3 & Hmax & H).
  apply bind_ret_inv in H. destruct H as (u2 & s4 & Hrel & H).
  same_after (@MF.bias_constant gp E rng) Hmax.
  same_after (@MF.bias_constant gp E rng) Hrel.
  inv_step H. rewrite <- Hsame0, <- Hsame.
  destruct (fid =? MF.num_of_fidelities s0 - 1)%Z; cbn [negb] in Hbias.
  - inv_step Hbias. reflexivity.
  - apply bind_ret_inv in Hbias. destruct Hbias as (u0 & s5 & Hcheck & Hbias).
    destruct (check_bias_effect _ _ _ _ _ _ _ Hcheck) as (m & Hm' & Hbc).
    exists m. split; [exact Hm'|]. cbn zeta in Hbc.
    rewrite <- Hbc.
    destruct (fid =? 0)%Z.
    + same_after (@MF.bias_constant gp E rng) Hbias. symmetry. exact Hsame1.
    + inv_step Hbias. reflexivity.
Qed.

End Controller.

Import Toy.

(** The theorem on two iterations of [mfLiveBatch] in the concrete
    setting, where the default bound [0.1] is kept. *)
Lemma bias_constant_never_decreases_witness :
  exists s : MF.Self unit env_toy (list point),
    live [4%nat; 2%nat] [[1]; [1]; [1]; [1]; [0]; [0]] = Ret s /\
    MF.bias_constant s
    <= MF.bias_constant (snd (MF.iterate 2 (MF.optim_loop 10) s)).
Proof.
  eexists. split; [reflexivity|].
  match goal with
  | |- _ <= MF.bias_constant (snd (MF.iterate _ _ ?s)) =>
      apply (bias_constant_never_decreases unit env_toy (list point)
               (MF.optim_loop 10) 10 2 s)
  end.
  - left. reflexivity.
  - cbn. discriminate.
Defined.

(** The theorem on one observation, of value 2 at input [[1]] and
    fidelity 1, taken in by a fresh object: the model of fidelity 2
    predicts 0, and the bound goes from [0.1] to [1.2 * 2]. *)
Lemma bias_check_on_ingest_witness :
  exists s : MF.Self unit env_toy (list point),
    live [] [] = Ret s /\
    fst (MF.ingest_one [[1]] [1%Z] 0 (MF.set_new_obs (Some [2]) s))
    = Returns [] /\
    MF.bias_constant
      (snd (MF.ingest_one [[1]] [1%Z] 0 (MF.set_new_obs (Some [2]) s)))
    == 24 # 10.
Proof.
  eexists. split; [reflexivity|].
  match goal with
  | |- fst (?m ?s) = _ /\ _ =>
      assert (Hrun : fst (m s) = Returns []) by (vm_compute; reflexivity);
      split; [exact Hrun|];
      destruct (bias_check_on_ingest unit env_toy (list point)
                  [[1]] [1%Z] 0 s (snd (m s)) []
                  (run_ret m s [] Hrun))
        as (fid & x & y & obs & Hf & Hx & Hobs & Hy & Hbc)
  end.
  vm_compute. reflexivity.
Defined.

(** C4 (as stated) fails at the cheapest fidelity: in the first
    iteration of [mfLiveBatch] four observations of value 2 at fidelity
    2 are taken in, the model of the next higher fidelity 1 predicts 0
    at their input, the gap 2 exceeds the bound [0.1], and the bound is
    left at [0.1]. *)
Lemma cheapest_fidelity_is_not_checked :
  exists s : MF.Self unit env_toy (list point),
    live_above [4%nat] [[1]; [1]; [1]; [1]] = Ret s /\
    fst (MF.optim_loop 10 s) = Returns tt /\
    MF.X (snd (MF.optim_loop 10 s)) = [[]; []; [[1]; [1]; [1]; [1]]] /\
    MF.Y (snd (MF.optim_loop 10 s)) = [[]; []; [2; 2; 2; 2]] /\
    (forall m, index (MF.model s) 1 = Ret m -> fst (posterior m [1]) = 0) /\
    MF.bias_constant s = 1 # 10 /\
    MF.bias_constant (snd (MF.optim_loop 10 s)) = 1 # 10.
Proof.
  eexists. split; [reflexivity|].
  repeat split; try (vm_compute; reflexivity).
Qed.

(** C5 (as stated) fails for a negative bound: with
    [initial_bias = -1.1], an observation [-1] at fidelity 1 where the
    next cheaper model predicts [0] gives the difference [-1 > -1.1],
    and the bound becomes [1.2 * -1 = -1.2], below [-1.1]. *)
Lemma bias_constant_can_decrease :
  exists s : MF.Self unit env_toy (list point),
    live_biased (- (11 # 10)) [4%nat; 2%nat] [[1]; [1]; [1]; [1]; [0]; [0]]
    = Ret s /\
    MF.bias_constant s == - (11 # 10) /\
    fst (MF.iterate 2 (MF.optim_loop 10) s) = Returns tt /\
    MF.bias_constant (snd (MF.iterate 2 (MF.optim_loop 10) s))
    == - (12 # 10) /\
    MF.bias_constant (snd (MF.iterate 2 (MF.optim_loop 10) s))
    < MF.bias_constant s.
Proof.
  eexists. split; [reflexivity|].
  split; [reflexivity|]. split; [vm_compute; reflexivity|].
  split; vm_compute; reflexivity.
Qed.

End BiasFacts.

(* ===================================================================== *)
(** * The record of maximum values *)
(* ===================================================================== *)

Module MaxFacts.

Import PyFacts MonadFacts Frames.

#[export] Hint Resolve pointwise_le_refl pointwise_le_trans : frames.

Lemma running_max_app (ys : list Q) (y : Q) :
  MF.running_max (ys ++ [y]) = Py.max2 (MF.running_max ys) y.
Proof. unfold MF.running_max. rewrite fold_left_app. reflexivity. Qed.

Section Controller.

Context (gp E rng : Type).
Context {SurrogateGP : Surrogate gp}.
Context {EnvE : Environment E}.
Context {Num : Numerics rng}.

Let Self : Type := MF.Self gp E rng.

(** [update_max_value] never lowers an entry, whatever its outcome. *)
Lemma update_max_value_grows (fid : Z) (y : Q) :
  preserves (through (@MF.max_value gp E rng) (Forall2 Qle))
    (MF.update_max_value fid y).
Proof.
  intros s. unfold through, MF.update_max_value, bind, get, lift, modify.
  destruct (index (MF.max_value s) fid) as [mv|e] eqn:Hmv;
    [|apply pointwise_le_refl].
  destruct (set_index (MF.max_value s) fid (Py.max2 mv y)) as [mvs|e] eqn:Hset;
    [|apply pointwise_le_refl].
  cbn. apply index_ret in Hmv. destruct Hmv as (j & Hj & Hnth).
  apply set_index_ret in Hset. destruct Hset as (j' & Hj' & ->).
  rewrite Hj in Hj'. injection Hj' as <-.
  apply (replace_nth_grows _ _ mv); [exact Hnth|apply max2_ge_l].
Qed.

(** What [update_max_value] does when it returns. *)
Lemma update_max_value_effect (fid : Z) (y : Q) (s s' : Self) (u : unit) :
  MF.update_max_value fid y s = (Returns u, s') ->
  MF.Y s' = MF.Y s /\
  exists j mv,
    position (len (MF.max_value s)) fid = Ret j /\
    nth_error (MF.max_value s) j = Some mv /\
    MF.max_value s' = replace_nth (MF.max_value s) j (Py.max2 mv y).
Proof.
  unfold MF.update_max_value. intros H.
  inv_bind H. inv_bind H. rename a into mv. inv_bind H. inv_step H.
  split; [reflexivity|].
  apply index_ret in Hrun. destruct Hrun as (j & Hj & Hnth).
  apply set_index_ret in Hrun0. destruct Hrun0 as (j' & Hj' & ->).
  rewrite Hj in Hj'. injection Hj' as <-.
  exists j, mv. auto.
Qed.

(** What [record_observation] does to [Y] when it returns. *)
Lemma record_observation_effect
    (fid : Z) (x : outcome point) (y : outcome Q) (s s' : Self)
    (xv : point) (yv : Q) :
  MF.record_observation fid x y s = (Returns (xv, yv), s') ->
  MF.max_value s' = MF.max_value s /\
  exists j row,
    position (len (MF.Y s)) fid = Ret j /\
    nth_error (MF.Y s) j = Some row /\
    MF.Y s' = replace_nth (MF.Y s) j (row ++ [yv]).
Proof.
  intros H.
  destruct (IngestFacts.record_observation_ret _ _ _ _ _ _ _ _ _ H)
    as (xv' & yv' & xs & ys & ts & _ & _ & Hr & _ & Hys & _ & ->).
  injection Hr as <- <-. split; [reflexivity|].
  apply append_at_ret in Hys. destruct Hys as (j & row & Hj & Hrow & ->).
  exists j, row. auto.
Qed.

Ltac frame :=
  frame_with
    (through_refl (@MF.max_value gp E rng) (Forall2 Qle) pointwise_le_refl)
    (through_trans (@MF.max_value gp E rng) (Forall2 Qle) pointwise_le_trans)
    ltac:(solve [eauto with frames]).

Hint Resolve update_max_value_grows : frames.

Let R : Self -> Self -> Prop :=
  through (@MF.max_value gp E rng) (Forall2 Qle).

Lemma optim_loop_grows (fuel : nat) : preserves R (MF.optim_loop fuel).
Proof.
  unfold MF.optim_loop, MF.ingest. frame.
  apply ingest_loop_frame; eauto with frames.
  intros i. unfold MF.ingest_one. frame.
Qed.

Lemma mfUCB_optim_loop_grows (fuel : nat) :
  preserves R (MF.mfUCB_optim_loop fuel).
Proof.
  unfold MF.mfUCB_optim_loop, MF.mfUCB_ingest. frame.
  apply ingest_loop_frame; eauto with frames.
  intros i. unfold MF.mfUCB_ingest_one. frame.
Qed.

Lemma mfUCBPlus_optim_loop_grows (fuel : nat) :
  preserves R (MF.mfUCBPlus_optim_loop fuel).
Proof.
  unfold MF.mfUCBPlus_optim_loop, MF.mfUCBPlus_ingest. frame.
  apply ingest_loop_frame; eauto with frames.
  intros i. unfold MF.mfUCBPlus_ingest_one. frame.
Qed.

Lemma iterate_grows (n : nat) (loop : MF.Method gp E rng unit) :
  preserves R loop -> preserves R (MF.iterate n loop).
Proof.
  intros Hloop. induction n as [|n IH]; cbn [MF.iterate]; frame.
Qed.

(** The two fields the record is about. *)
Let record (s : Self) : list (list Q) * list Q := (MF.Y s, MF.max_value s).

(** Taking in one observation keeps the record right. *)
Lemma ingest_one_records
    (obtain_query : list point) (obtain_fidelities : list Z) (i : Z)
    (s s' : Self) (bias_updates : list Z) :
  MF.max_value_recorded s ->
  MF.ingest_one obtain_query obtain_fidelities i s
  = (Returns bias_updates, s') ->
  MF.max_value_recorded s'.
Proof.
  unfold MF.max_value_recorded, MF.ingest_one. intros Hrec H.
  inv_bind H. inv_bind H. rename a into fid.
  apply bind_ret_inv in H. destruct H as ([x y] & s0 & Hrun2 & H).
  destruct (record_observation_effect _ _ _ _ _ _ _ Hrun2)
    as (Hmv0 & j & row & Hj & Hrow & HY0).
  inv_bind H.
  apply bind_ret_inv in H. destruct H as (more & s2 & Hrun3 & H).
  apply bind_ret_inv in H. destruct H as (u1 & s3 & Hrun4 & H).
  apply bind_ret_inv in H. destruct H as (u2 & s4 & Hrun5 & H).
  inv_step H.
  same_after record Hrun3. unfold record in Hsame.
  injection Hsame as HY2 Hmv2.
  destruct (update_max_value_effect _ _ _ _ _ Hrun4)
    as (HY1 & j' & mv & Hj' & Hmv & Hmv1).
  same_after record Hrun5. unfold record in Hsame.
  injection Hsame as HY3 Hmv3.
  rewrite <- HY3, <- Hmv3, HY1, Hmv1, <- HY2, <- Hmv2, HY0, Hmv0 in *.
  rewrite Hrec in Hj', Hmv. rewrite len_map, Hj in Hj'.
  injection Hj' as <-.
  rewrite nth_error_map, Hrow in Hmv. injection Hmv as <-.
  rewrite Hrec, map_replace_nth, running_max_app. reflexivity.
Qed.

Lemma ingest_loop_records
    (obtain_query : list point) (obtain_fidelities : list Z)
    (idxs : list Z) :
  forall (bias_updates more : list Z) (s s' : Self),
    MF.max_value_recorded s ->
    MF.ingest_loop (MF.ingest_one obtain_query obtain_fidelities) idxs
      bias_updates s = (Returns more, s') ->
    MF.max_value_recorded s'.
Proof.
  induction idxs as [|i rest IH]; intros bias_updates more s s' Hrec H;
    cbn [MF.ingest_loop] in H.
  - inv_step H. exact Hrec.
  - inv_bind H. apply (IH _ _ _ _ (ingest_one_records _ _ _ _ _ _ Hrec Hrun) H).
Qed.

(** A whole iteration of [mfLiveBatch] that returns keeps the record
    right. *)
Lemma optim_loop_records (fuel : nat) (s s' : Self) (u : unit) :
  MF.max_value_recorded s ->
  MF.optim_loop fuel s = (Returns u, s') ->
  MF.max_value_recorded s'.
Proof.
  unfold MF.optim_loop. intros Hrec H.
  inv_bind H. same_after record Hrun.
  inv_bind H. same_after record Hrun0.
  inv_bind H. same_after record Hrun1.
  inv_bind H. same_after record Hrun2.
  inv_bind H. inv_bind H. same_after record Hrun4. same_after record H.
  unfold record in *.
  assert (Hrec2 : MF.max_value_recorded s3).
  { unfold MF.max_value_recorded in *.
    injection Hsame as E1 E2. injection Hsame0 as E3 E4.
    injection Hsame1 as E5 E6. injection Hsame2 as E7 E8.
    congruence. }
  assert (Hrec4 : MF.max_value_recorded s4).
  { unfold MF.ingest in Hrun3. inv_bind Hrun3.
    destruct (MF.new_obs s3); cbn [when] in Hrun3.
    - inv_bind Hrun3. inv_bind Hrun3.
      same_after record Hrun6. same_after record Hrun3. unfold record in *.
      pose proof (ingest_loop_records _ _ _ _ _ _ _ Hrec2 Hrun5) as Hrec5.
      unfold MF.max_value_recorded in *.
      injection Hsame5 as E1 E2. injection Hsame6 as E3 E4. congruence.
    - inv_step Hrun3. exact Hrec2. }
  unfold MF.max_value_recorded in *.
  injection Hsame3 as E1 E2. injection Hsame4 as E3 E4. congruence.
Qed.

Lemma iterate_records (fuel n : nat) :
  forall (s s' : Self) (u : unit),
    MF.max_value_recorded s ->
    MF.iterate n (MF.optim_loop fuel) s = (Returns u, s') ->
    MF.max_value_recorded s'.
Proof.
  induction n as [|n IH]; intros s s' u Hrec H; cbn [MF.iterate] in H.
  - inv_step H. exact Hrec.
  - inv_bind H. apply (IH _ _ _ (optim_loop_records _ _ _ _ Hrec Hrun) H).
Qed.

(** A freshly constructed object has the record right: no observation,
    and 0 everywhere. *)
Lemma init_records
    (e : E) (r : rng) (beta0 : option Q)
    (fidelity_thresholds0 : option (list Q)) (lipschitz_constant0 : Q)
    (num_of_starts0 num_of_optim_epochs0 : Z)
    (hp_update_frequency0 : option Z) (budget0 : Z)
    (cost_budget0 initial_bias : Q)
    (local_lipschitz0 increasing_thresholds0 : bool) (s : Self) :
  MF.init e r beta0 fidelity_thresholds0 lipschitz_constant0 num_of_starts0
    num_of_optim_epochs0 hp_update_frequency0 budget0 cost_budget0
    initial_bias local_lipschitz0 increasing_thresholds0 = Ret s ->
  MF.max_value_recorded s.
Proof.
  unfold MF.init.
  destruct (MF.init_cost_thresholds e (env_num_of_fidelities e) cost_budget0);
    cbn [obind]; [|discriminate].
  intros H. injection H as <-. unfold MF.max_value_recorded. cbn.
  unfold MF.per_fidelity. rewrite map_map. reflexivity.
Qed.

(** C6 (as the code has it).  Over any number of iterations of
    [mfLiveBatch.optim_loop], every entry of [max_value] is monotonically
    non-decreasing (whatever the outcome of the iterations), and after
    iterations that return, [max_value[f]] is the largest of 0, its
    initial value, and the values observed at fidelity [f]. *)
Theorem max_value_is_running_max_from_zero
    (fuel n : nat) (s : Self) :
  MF.max_value_recorded s ->
  Forall2 Qle (MF.max_value s)
    (MF.max_value (snd (MF.iterate n (MF.optim_loop fuel) s))) /\
  (forall (s' : Self) (u : unit),
      MF.iterate n (MF.optim_loop fuel) s = (Returns u, s') ->
      MF.max_value s' = map MF.running_max (MF.Y s')).
Proof.
  intros Hrec. split.
  - apply (iterate_grows n (MF.optim_loop fuel) (optim_loop_grows fuel)).
  - intros s' u H. exact (iterate_records fuel n s s' u Hrec H).
Qed.

End Controller.

Lemma fold_max2_spec (ys : list Q) :
  forall a : Q,
    a <= fold_left Py.max2 ys a /\
    (forall y, In y ys -> y <= fold_left Py.max2 ys a) /\
    (fold_left Py.max2 ys a = a \/ In (fold_left Py.max2 ys a) ys).
Proof.
  induction ys as [|y r IH]; intros a; cbn [fold_left].
  - split; [apply Qle_refl|]. split; [intros y []|]. left. reflexivity.
  - destruct (IH (Py.max2 a y)) as (H1 & H2 & H3).
    pose proof (max2_ge_l a y). pose proof (max2_ge_r a y).
    split; [lra|]. split.
    + intros z [<-|Hz]; [lra|]. apply H2, Hz.
    + destruct H3 as [H3|H3]; [|right; right; exact H3].
      rewrite H3. destruct (max2_cases a y) as [->| ->]; [left|right; left];
        reflexivity.
Qed.

(** [running_max] is the largest of 0 and the values. *)
Lemma running_max_spec (ys : list Q) :
  0 <= MF.running_max ys /\
  (forall y, In y ys -> y <= MF.running_max ys) /\
  (MF.running_max ys = 0 \/ In (MF.running_max ys) ys).
Proof. apply fold_max2_spec. Qed.

Import Toy.

(** The theorem on two iterations of [mfLiveBatch] in the concrete
    setting. *)
Lemma max_value_is_running_max_from_zero_witness :
  exists s : MF.Self unit env_toy (list point),
    live_above [4%nat; 2%nat] [[1]; [1]; [1]; [1]; [0]; [0]] = Ret s /\
    fst (MF.iterate 2 (MF.optim_loop 10) s) = Returns tt /\
    MF.max_value (snd (MF.iterate 2 (MF.optim_loop 10) s))
    = map MF.running_max (MF.Y (snd (MF.iterate 2 (MF.optim_loop 10) s))) /\
    MF.max_value (snd (MF.iterate 2 (MF.optim_loop 10) s)) = [0; 1; 2].
Proof.
  eexists. split; [reflexivity|].
  match goal with
  | |- fst (?m ?s) = _ /\ _ =>
      assert (Hrun : fst (m s) = Returns tt) by (vm_compute; reflexivity);
      split; [exact Hrun|];
      destruct (max_value_is_running_max_from_zero unit env_toy (list point)
                  10 2 s eq_refl) as [_ Hrec];
      split; [exact (Hrec _ tt (run_ret m s tt Hrun))|]
  end.
  vm_compute. reflexivity.
Defined.

(** C6 (as stated) fails when the observations are negative: after the
    first iteration of [mfLiveBatch] on an objective below zero, the
    values observed at fidelity 2 are four times [-1/2], their maximum is
    [-1/2], and [max_value[2]] is still the initial 0. *)
Lemma max_value_is_not_the_observed_maximum :
  exists s : MF.Self unit env_toy (list point),
    live [4%nat] [[1 # 2]; [1 # 2]; [1 # 2]; [1 # 2]] = Ret s /\
    fst (MF.optim_loop 10 s) = Returns tt /\
    index (MF.Y (snd (MF.optim_loop 10 s))) 2
    = Ret [- (1 # 2); - (1 # 2); - (1 # 2); - (1 # 2)] /\
    max_seq [- (1 # 2); - (1 # 2); - (1 # 2); - (1 # 2)] = Ret (- (1 # 2)) /\
    index (MF.max_value (snd (MF.optim_loop 10 s))) 2 = Ret 0 /\
    ~ 0 == - (1 # 2).
Proof.
  eexists. split; [reflexivity|].
  repeat split; try (vm_compute; reflexivity).
  discriminate.
Qed.

End MaxFacts.

(* ===================================================================== *)
(** * The cost budget of a dispatch round *)
(* ===================================================================== *)

Module BudgetFacts.

Import PyFacts MonadFacts Frames.

(** Break a method body that has no loop of its own into statements
    that finish. *)
Ltac finish :=
  repeat first
    [ assumption
    | simple apply @finishes_ret
    | simple apply @finishes_get
    | simple apply @finishes_lift
    | simple apply @finishes_modify
    | simple apply @finishes_when
    | simple apply @finishes_for_each; intros
    | simple apply @finishes_bind; [ | intros ]
    | match goal with
      | |- finishes (match ?x with _ => _ end) => destruct x
      end ].

Section Controller.

Context (gp E rng : Type).
Context {SurrogateGP : Surrogate gp}.
Context {EnvE : Environment E}.
Context {Num : Numerics rng}.

Let Self : Type := MF.Self gp E rng.

Lemma count_fidelity_finishes (new_M_int : Z) :
  finishes (@MF.count_fidelity gp E rng new_M_int).
Proof. unfold MF.count_fidelity. finish. Qed.

(** [optimise_af] has no loop that can run out of fuel. *)
Lemma optimise_af_finishes
    (build : Self -> list point -> outcome (list Q)) :
  finishes (MF.optimise_af build).
Proof.
  pose proof count_fidelity_finishes as Hc.
  unfold MF.optimise_af. finish; apply Hc.
Qed.

(** A price read from [[4, 2, 1]] is between 1 and 4. *)
Lemma price_bounds (m : Z) (c : Q) :
  index [4; 2; 1] m = Ret c -> 1 <= c <= 4.
Proof.
  intros H. apply index_ret in H. destruct H as (j & _ & Hj).
  destruct j as [|[|[|j]]]; cbn in Hj;
    [| | |destruct j; discriminate];
    injection Hj as <-; split; discriminate.
Qed.

Lemma fill_step_finishes : finishes (@MF.fill_step gp E rng _ _ _).
Proof.
  pose proof (optimise_af_finishes (@MF.build_af gp E rng _ _)) as Ho.
  unfold MF.fill_step. finish.
Qed.

(** The fields that the budget test reads. *)
Let account (s : Self) : E * Q * Q :=
  (MF.env s, MF.cost_budget s, MF.batch_costs s).

(** One pass that returns has added the price of its query to
    [batch_costs], and has left the prices and the budget alone. *)
Lemma fill_step_effect (s s' : Self) (new_X : point) (new_M : Z) :
  MF.fill_step s = (Returns (new_X, new_M), s') ->
  exists c,
    index (fidelity_costs (MF.env s)) new_M = Ret c /\
    MF.batch_costs s' = MF.batch_costs s + c /\
    MF.env s' = MF.env s /\
    MF.cost_budget s' = MF.cost_budget s.
Proof.
  unfold MF.fill_step. intros H.
  inv_bind H. same_after account Hrun. unfold account in Hsame.
  injection Hsame as He Hb Hc.
  inv_bind H. inv_bind H. inv_bind H. inv_bind H. rename a into c.
  inv_bind H. inv_bind H. inv_bind H. inv_step H. injection H as -> ->.
  exists c. rewrite He, Hc, Hb. split; [exact Hrun0|].
  match type of Hrun1 with
  | when ?t _ _ = _ => destruct t; cbn [when] in Hrun1
  end.
  - inv_bind Hrun1. inv_step Hrun1. cbn. auto.
  - inv_step Hrun1. cbn. auto.
Qed.

Lemma total_cost_cons (costs : list Q) (m : Z) (Ms : list Z) (c : Q) :
  index costs m = Ret c ->
  MF.total_cost costs (m :: Ms) = c + MF.total_cost costs Ms.
Proof. intros H. cbn [MF.total_cost fold_right]. rewrite H. reflexivity. Qed.

(** The batch-filling loop, at the prices [[4, 2, 1]] under the budget 4
    and with fuel for the passes that the missing budget allows. *)
Lemma fill_batch_run (fuel : nat) :
  forall (k : nat) (s : Self) (Xs0 : list point) (Ms0 : list Z),
    fidelity_costs (MF.env s) = [4; 2; 1] ->
    MF.cost_budget s == 4 ->
    (k <= fuel)%nat ->
    4 - inject_Z (Z.of_nat k) <= MF.batch_costs s ->
    fst (MF.fill_batch fuel Xs0 Ms0 s) <> Timeout /\
    forall Xs Ms s',
      MF.fill_batch fuel Xs0 Ms0 s = (Returns (Xs, Ms), s') ->
      exists Xs1 Ms1,
        Xs = Xs0 ++ Xs1 /\ Ms = Ms0 ++ Ms1 /\
        List.length Xs1 = List.length Ms1 /\
        MF.batch_costs s'
        == MF.batch_costs s + MF.total_cost [4; 2; 1] Ms1 /\
        4 <= MF.batch_costs s' /\
        (MF.batch_costs s < 4 -> Ms1 <> [] /\ MF.batch_costs s' < 8) /\
        (4 <= MF.batch_costs s -> Ms1 = []).
Proof.
  induction fuel as [|fuel IH]; intros k s Xs0 Ms0 Hcosts Hbudget Hk Hbc;
    cbn [MF.fill_batch]; rewrite !bind_get;
    destruct (Qltb (MF.batch_costs s) (MF.cost_budget s)) eqn:Hlt.
  - (* no fuel, and budget left: excluded *)
    apply Qltb_lt in Hlt. exfalso.
    assert (k = O) by lia. subst k.
    change (inject_Z (Z.of_nat 0)) with 0 in Hbc. lra.
  - apply Qltb_ge in Hlt. split; [discriminate|].
    intros Xs Ms s' H. inv_step H. injection H as -> ->. exists [], [].
    rewrite !app_nil_r. cbn [MF.total_cost fold_right List.length].
    repeat split; try reflexivity; try lra.
  - apply Qltb_lt in Hlt.
    assert (Hk1 : (1 <= k)%nat).
    { destruct k; [|lia]. change (inject_Z (Z.of_nat 0)) with 0 in Hbc. lra. }
    assert (Hnext : forall new_X new_M s1,
               MF.fill_step s = (Returns (new_X, new_M), s1) ->
               exists c,
                 index [4; 2; 1] new_M = Ret c /\ 1 <= c <= 4 /\
                 MF.batch_costs s1 = MF.batch_costs s + c /\
                 fidelity_costs (MF.env s1) = [4; 2; 1] /\
                 MF.cost_budget s1 == 4 /\
                 4 - inject_Z (Z.of_nat (k - 1)) <= MF.batch_costs s1).
    { intros new_X new_M s1 Hstep.
      destruct (fill_step_effect _ _ _ _ Hstep) as (c & Hc & Hb & He & Hcb).
      rewrite Hcosts in Hc. pose proof (price_bounds _ _ Hc) as Hpc.
      exists c. rewrite He, Hcb, Hb.
      repeat split; try assumption; try apply Hpc.
      replace (Z.of_nat (k - 1)) with (Z.of_nat k + - (1))%Z by lia.
      rewrite inject_Z_plus, inject_Z_opp. change (inject_Z 1) with 1.
      lra. }
    split.
    + apply bind_not_timeout; [apply fill_step_finishes|].
      intros [new_X new_M] s1 Hstep.
      destruct (Hnext _ _ _ Hstep) as (c & _ & _ & _ & Hc1 & Hb1 & Hbc1).
      destruct (IH (k - 1)%nat s1 (Xs0 ++ [new_X]) (Ms0 ++ [new_M]) Hc1 Hb1)
        as [Hnt _]; [lia|exact Hbc1|exact Hnt].
    + intros Xs Ms s' H. inv_bind H.
      destruct (Hnext _ _ _ Hrun) as (c & Hc & Hpc & Hb & Hc1 & Hb1 & Hbc1).
      destruct (IH (k - 1)%nat s0 (Xs0 ++ [p]) (Ms0 ++ [z]) Hc1 Hb1)
        as [_ Hrest]; [lia|exact Hbc1|].
      destruct (Hrest _ _ _ H)
        as (Xs1 & Ms1 & -> & -> & Hlen & Htot & Hfull & Hmore & Hnone).
      exists (p :: Xs1), (z :: Ms1).
      rewrite <- !app_assoc. cbn [app List.length].
      rewrite (total_cost_cons _ _ _ _ Hc).
      repeat split; try reflexivity; try assumption.
      * lia.
      * rewrite Htot, Hb. ring.
      * discriminate.
      * destruct (Qlt_le_dec (MF.batch_costs s0) 4) as [Hlow|Hhigh].
        -- apply Hmore, Hlow.
        -- rewrite Htot, (Hnone Hhigh). cbn. rewrite Hb. lra.
      * intros; lra.
  - (* the budget is used up: the loop does not run *)
    apply Qltb_ge in Hlt. split; [discriminate|].
    intros Xs Ms s' H. inv_step H. injection H as -> ->. exists [], [].
    rewrite !app_nil_r. cbn [MF.total_cost fold_right List.length].
    repeat split; try reflexivity; try lra.
Qed.

(** C2 (as the code has it).  With [cost_budget = 4] and the prices
    [[4, 2, 1]], the batch-filling loop of [mfLiveBatch.optim_loop] ends
    within four passes, and when it returns the queries [Ms]: the
    in-flight cost [batch_costs] has grown by the cost of [Ms] and is at
    least 4; if it was below 4 at the start of the round then at least
    one query is dispatched and the cost stays below 8 (the budget is
    tested before a query is added); if it was already 4 or more, no
    query is dispatched. *)
Theorem fill_batch_budget (fuel : nat) (s : Self) :
  fidelity_costs (MF.env s) = [4; 2; 1] ->
  MF.cost_budget s == 4 ->
  0 <= MF.batch_costs s ->
  (4 <= fuel)%nat ->
  fst (MF.fill_batch fuel [] [] s) <> Timeout /\
  forall Xs Ms s',
    MF.fill_batch fuel [] [] s = (Returns (Xs, Ms), s') ->
    List.length Xs = List.length Ms /\
    MF.batch_costs s' == MF.batch_costs s + MF.total_cost [4; 2; 1] Ms /\
    4 <= MF.batch_costs s' /\
    (MF.batch_costs s < 4 -> Ms <> [] /\ MF.batch_costs s' < 8) /\
    (4 <= MF.batch_costs s -> Ms = []).
Proof.
  intros Hcosts Hbudget Hpos Hfuel.
  destruct (fill_batch_run fuel 4%nat s [] [] Hcosts Hbudget Hfuel)
    as [Hnt Hret].
  { change (inject_Z (Z.of_nat 4)) with 4. lra. }
  split; [exact Hnt|].
  intros Xs Ms s' H.
  destruct (Hret Xs Ms s' H) as (Xs1 & Ms1 & -> & -> & Hlen & Hrest).
  cbn [app]. split; [exact Hlen|exact Hrest].
Qed.

End Controller.

Import Toy.

(** The theorem on a freshly constructed object: four cold-start
    queries at fidelity 2 fill the budget exactly. *)
Lemma fill_batch_budget_witness :
  exists s : MF.Self unit env_toy (list point),
    live [4%nat] [[1]; [1]; [1]; [1]] = Ret s /\
    fst (MF.fill_batch 10 [] [] s)
    = Returns ([[1]; [1]; [1]; [1]], [2; 2; 2; 2]%Z) /\
    4 <= MF.batch_costs (snd (MF.fill_batch 10 [] [] s)).
Proof.
  eexists. split; [reflexivity|].
  match goal with
  | |- fst (?m ?s) = Returns ?r /\ _ =>
      assert (Hrun : fst (m s) = Returns r) by (vm_compute; reflexivity);
      split; [exact Hrun|];
      destruct (fill_batch_budget unit env_toy (list point) 10 s)
        as [_ Hret];
      [ reflexivity | reflexivity | discriminate | lia
      | apply (Hret _ _ _ (run_ret m s r Hrun)) ]
  end.
Defined.

(** C2 (as stated) fails on both counts.  In the first run the four
    queries of round one resolve; round two then adds three queries at
    fidelity 2 and, with in-flight cost 3, a fourth at fidelity 1: the
    round dispatches queries of total cost 5.  In the second run nothing
    resolves after round one, the in-flight cost is already 4, and round
    two dispatches no query. *)
Lemma fill_batch_overshoots_or_idles :
  (exists s : MF.Self unit env_toy (list point),
      live [4%nat; 0%nat] [[1]; [1]; [1]; [1]; [1]; [1]; [1]; [0]] = Ret s /\
      fst (MF.iterate 2 (MF.optim_loop 10) s) = Returns tt /\
      in_flight (MF.env (snd (MF.optim_loop 10 s))) = [] /\
      map snd (in_flight (MF.env (snd (MF.iterate 2 (MF.optim_loop 10) s))))
      = [2; 2; 2; 1]%Z /\
      MF.total_cost [4; 2; 1] [2; 2; 2; 1]%Z == 5 /\
      MF.batch_costs (snd (MF.iterate 2 (MF.optim_loop 10) s)) == 5 /\
      ~ MF.batch_costs (snd (MF.iterate 2 (MF.optim_loop 10) s)) <= 4) /\
  (exists s : MF.Self unit env_toy (list point),
      live [0%nat; 0%nat] [[1]; [1]; [1]; [1]] = Ret s /\
      fst (MF.optim_loop 10 s) = Returns tt /\
      MF.batch_costs (snd (MF.optim_loop 10 s)) == 4 /\
      fst (MF.fill_batch 10 [] [] (snd (MF.optim_loop 10 s)))
      = Returns ([], []) /\
      fst (MF.iterate 2 (MF.optim_loop 10) s) = Returns tt /\
      in_flight (MF.env (snd (MF.iterate 2 (MF.optim_loop 10) s)))
      = in_flight (MF.env (snd (MF.optim_loop 10 s)))).
Proof.
  split; eexists; (split; [reflexivity|]);
    repeat split; try (vm_compute; reflexivity).
  vm_compute. intros H. apply H. reflexivity.
Qed.

End BudgetFacts.

(* ===================================================================== *)
(** * The random fill of the sequential variants *)
(* ===================================================================== *)

Module FillFacts.

Import PyFacts MonadFacts Frames.

Section Controller.

Context (gp E rng : Type).
Context {SurrogateGP : Surrogate gp}.
Context {EnvE : Environment E}.
Context {Num : Numerics rng}.

Let Self : Type := MF.Self gp E rng.

(** The random fill appends draws of the random source, all at the
    fidelity [new_M] it was entered with. *)
Lemma fill_random_run (fuel : nat) :
  forall (new_M : Z) (Xs0 : list point) (Ms0 : list Z) (s s' : Self)
         (Xs : list point) (Ms : list Z),
    MF.fill_random fuel new_M Xs0 Ms0 s = (Returns (Xs, Ms), s') ->
    exists n : nat,
      Xs = Xs0 ++ MF.draws (MF.dim s) n (MF.rng_state s) /\
      Ms = Ms0 ++ repeat new_M n.
Proof.
  induction fuel as [|fuel IH]; intros new_M Xs0 Ms0 s s' Xs Ms H;
    cbn [MF.fill_random] in H; rewrite bind_get in H;
    destruct (Qltb (MF.batch_costs s) (MF.cost_budget s)).
  - discriminate.
  - inv_step H. injection H as -> ->. exists O. cbn. rewrite !app_nil_r. auto.
  - destruct (uniform (MF.dim s) (MF.rng_state s)) as [new_X r] eqn:Hdraw.
    inv_bind H. inv_bind H. inv_bind H.
    destruct (IH _ _ _ _ _ _ _ H) as (n & -> & ->).
    exists (S n). cbn [MF.draws repeat]. rewrite Hdraw.
    rewrite <- !app_assoc. cbn. auto.
  - inv_step H. injection H as -> ->. exists O. cbn. rewrite !app_nil_r. auto.
Qed.





End Controller.

Import Toy.



End FillFacts.

(* ===================================================================== *)
(** * The fused acquisition value *)
(* ===================================================================== *)

Module AcquisitionFacts.

Import PyFacts.

Lemma torch_min_le_l (a b : Q) : MF.torch_min a b <= a.
Proof. apply min2_le_l. Qed.

Lemma torch_min_le_r (a b : Q) : MF.torch_min a b <= b.
Proof. apply min2_le_r. Qed.

Lemma torch_min_cases (a b : Q) :
  MF.torch_min a b = a \/ MF.torch_min a b = b.
Proof. apply min2_cases. Qed.

Lemma length_min_rows (a b : list Q) (n : nat) :
  List.length a = n -> List.length b = n ->
  List.length (MF.min_rows a b) = n.
Proof.
  intros Ha Hb. unfold MF.min_rows.
  rewrite length_map, length_combine. lia.
Qed.

Lemma nth_min_rows (a b : list Q) (n j : nat) :
  List.length a = n -> List.length b = n -> (j < n)%nat ->
  nth j (MF.min_rows a b) 0 = MF.torch_min (nth j a 0) (nth j b 0).
Proof.
  intros Ha Hb Hj. unfold MF.min_rows.
  change 0 with ((fun '(x, y) => MF.torch_min x y) (0, 0)) at 1.
  rewrite map_nth, combine_nth by congruence. reflexivity.
Qed.

(** The entry-wise minimum of a row [r] and the rows [rs]: below every
    row, and equal to one of them, in every column. *)
Lemma fold_min_rows_spec (n : nat) (rs : list (list Q)) :
  forall r : list Q,
    List.length r = n ->
    Forall (fun row => List.length row = n) rs ->
    List.length (fold_left MF.min_rows rs r) = n /\
    forall j, (j < n)%nat ->
      (forall row, In row (r :: rs) ->
         nth j (fold_left MF.min_rows rs r) 0 <= nth j row 0) /\
      (exists row, In row (r :: rs) /\
         nth j (fold_left MF.min_rows rs r) 0 = nth j row 0).
Proof.
  induction rs as [|r2 rs IH]; intros r Hr Hrs; cbn [fold_left].
  - split; [exact Hr|]. intros j Hj. split.
    + intros row [<-|[]]. apply Qle_refl.
    + exists r. split; [left|]; reflexivity.
  - apply Forall_cons_iff in Hrs. destruct Hrs as [Hr2 Hrs'].
    destruct (IH (MF.min_rows r r2) (length_min_rows _ _ _ Hr Hr2) Hrs')
      as [Hlen Hcols].
    split; [exact Hlen|]. intros j Hj.
    destruct (Hcols j Hj) as [Hle Heq].
    pose proof (nth_min_rows r r2 _ j Hr Hr2 Hj) as Hm.
    pose proof (torch_min_le_l (nth j r 0) (nth j r2 0)).
    pose proof (torch_min_le_r (nth j r 0) (nth j r2 0)).
    pose proof (Hle _ (or_introl eq_refl)) as Hfirst. rewrite Hm in Hfirst.
    split.
    + intros row [<-|[<-|Hrow]].
      * lra.
      * lra.
      * apply Hle. right. exact Hrow.
    + destruct Heq as (row & [<-|Hrow] & Hval).
      * rewrite Hval, Hm.
        destruct (torch_min_cases (nth j r 0) (nth j r2 0)) as [->| ->].
        -- exists r. split; [left|]; reflexivity.
        -- exists r2. split; [right; left|]; reflexivity.
      * exists row. split; [right; right; exact Hrow|exact Hval].
Qed.

(** [torch.min(ucb, dim = 0)] on a matrix with at least one row. *)
Lemma min_dim0_spec (n : nat) (ucb : list (list Q)) :
  ucb <> [] ->
  Forall (fun row => List.length row = n) ucb ->
  exists af,
    MF.min_dim0 ucb = Ret af /\ List.length af = n /\
    forall j, (j < n)%nat ->
      (forall row, In row ucb -> nth j af 0 <= nth j row 0) /\
      (exists row, In row ucb /\ nth j af 0 = nth j row 0).
Proof.
  intros Hne Hrows. destruct ucb as [|r rs]; [congruence|].
  apply Forall_cons_iff in Hrows. destruct Hrows as [Hr Hrs].
  destruct (fold_min_rows_spec _ rs r Hr Hrs) as [Hlen Hcols].
  eexists. split; [reflexivity|]. split; [exact Hlen|exact Hcols].
Qed.

Lemma Forall_combine_snd {A B} (P : B -> Prop) (l : list A) (l' : list B) :
  Forall P l' -> Forall (fun ab => P (snd ab)) (combine l l').
Proof.
  intros H. revert l. induction H as [|b r Hb _ IH]; intros [|a l]; cbn;
    constructor; auto.
Qed.

(** ** Entries of lists built by comprehensions *)

Lemma nth_error_replace_nth_same {A} (l : list A) (j : nat) (a b : A) :
  nth_error l j = Some b -> nth_error (replace_nth l j a) j = Some a.
Proof.
  revert j. induction l as [|x r IH]; intros [|j]; cbn; try discriminate.
  - reflexivity.
  - apply IH.
Qed.

Lemma nth_error_replace_nth_other {A} (l : list A) (j k : nat) (a : A) :
  j <> k -> nth_error (replace_nth l j a) k = nth_error l k.
Proof.
  revert j k. induction l as [|x r IH]; intros [|j] [|k] H; cbn;
    try reflexivity; try congruence.
  apply IH. congruence.
Qed.

Lemma combine_map_map {A B C} (f : A -> B) (g : A -> C) (l : list A) :
  combine (map f l) (map g l) = map (fun a => (f a, g a)) l.
Proof. induction l as [|a r IH]; cbn; [reflexivity|rewrite IH; reflexivity]. Qed.

Lemma nth_error_combine {A B} (l : list A) (l' : list B) (j : nat)
    (a : A) (b : B) :
  nth_error l j = Some a -> nth_error l' j = Some b ->
  nth_error (combine l l') j = Some (a, b).
Proof.
  revert l' j. induction l as [|x r IH]; intros [|y r'] [|j]; cbn;
    try discriminate.
  - intros [= ->] [= ->]. reflexivity.
  - apply IH.
Qed.

(** Member [k] of a comprehension is the value at member [k]. *)
Lemma omap_nth {A B} (f : A -> outcome B) (l : list A) (bs : list B)
    (k : nat) (a : A) :
  omap f l = Ret bs -> nth_error l k = Some a ->
  exists b, nth_error bs k = Some b /\ f a = Ret b.
Proof.
  revert bs k. induction l as [|x r IH]; intros bs k; cbn [omap].
  - intros _ H. destruct k; discriminate.
  - destruct (f x) as [b|] eqn:Hx; cbn [obind]; [|discriminate].
    destruct (omap f r) as [bs'|] eqn:Hr; cbn [obind]; [|discriminate].
    intros H. injection H as <-. destruct k as [|k]; cbn.
    + intros [= <-]. exists b. auto.
    + intros Hk. exact (IH bs' k eq_refl Hk).
Qed.

Lemma range_nth (n i : Z) :
  (0 <= i < n)%Z -> nth_error (range n) (Z.to_nat i) = Some i.
Proof.
  intros H. unfold range. rewrite nth_error_map.
  rewrite nth_error_seq.
  replace (Z.to_nat i <? Z.to_nat n)%nat with true
    by (symmetry; apply Nat.ltb_lt; lia).
  cbn. f_equal. lia.
Qed.

Lemma index_nth {A} (l : list A) (i : Z) (a : A) :
  (0 <= i)%Z -> index l i = Ret a -> nth_error l (Z.to_nat i) = Some a.
Proof.
  intros Hi H. apply index_ret in H. destruct H as (j & Hj & Hnth).
  unfold position in Hj.
  replace (i <? 0)%Z with false in Hj by (symmetry; apply Z.ltb_ge; lia).
  destruct ((i <? 0)%Z || (len l <=? i)%Z); [discriminate|].
  injection Hj as <-. exact Hnth.
Qed.

(** From the entries of a matrix to its column minima. *)
Lemma min_of_entries (n : Z) (Xs : list point)
    (f : Z -> point -> outcome Q) (m : list (list Q)) (af : list Q) :
  (1 <= n)%Z -> len m = n ->
  MF.tabulates n Xs f m ->
  MF.min_dim0 m = Ret af ->
  Forall (fun row => List.length row = List.length Xs) m ->
  MF.min_over_fidelities n f Xs af.
Proof.
  intros Hn Hlen Hholds Hmin Hshape.
  destruct (min_dim0_spec (List.length Xs) m) as (af' & Haf & Hlaf & Hcols).
  { intros ->. unfold len in Hlen. cbn in Hlen. lia. }
  { exact Hshape. }
  rewrite Hmin in Haf. injection Haf as <-.
  split; [exact Hlaf|].
  intros j x Hx.
  assert (Hj : (j < List.length Xs)%nat)
    by (apply nth_error_Some; congruence).
  destruct (Hcols j Hj) as [Hle Heq].
  exists (nth j af 0). split.
  { apply nth_error_nth'. lia. }
  split.
  - intros i Hi. destruct (Hholds i j x Hi Hx) as (row & u & Hrow & Hu & Hval).
    exists u. split; [exact Hval|].
    rewrite <- (nth_error_nth _ _ 0 Hu).
    apply Hle. exact (nth_error_In _ _ Hrow).
  - destruct Heq as (row & Hin & Hval).
    apply In_nth_error in Hin. destruct Hin as [k Hk].
    assert (Hk' : (k < List.length m)%nat)
      by (apply nth_error_Some; congruence).
    assert (Hi : (0 <= Z.of_nat k < n)%Z) by (unfold len in Hlen; lia).
    destruct (Hholds (Z.of_nat k) j x Hi Hx) as (row' & u & Hrow' & Hu & Hf).
    rewrite Nat2Z.id, Hk in Hrow'. injection Hrow' as <-.
    exists (Z.of_nat k), u. split; [exact Hi|]. split; [exact Hf|].
    rewrite Hval. exact (nth_error_nth _ _ 0 Hu).
Qed.

(** The rows that [row] computes entry by entry, and their minimum. *)
Lemma min_over_rows (n : Z) (Xs : list point)
    (row : Z -> outcome (list Q)) (f : Z -> point -> outcome Q) :
  (1 <= n)%Z ->
  (forall i, (0 <= i < n)%Z ->
     exists r, row i = Ret r /\ List.length r = List.length Xs) ->
  (forall i r j x,
     row i = Ret r -> nth_error Xs j = Some x ->
     exists u, nth_error r j = Some u /\ f i x = Ret u) ->
  exists af,
    (ucb <~ omap row (range n) ;; MF.min_dim0 ucb)%outcome = Ret af /\
    MF.min_over_fidelities n f Xs af.
Proof.
  intros Hn Hrow Hentry.
  destruct (omap_total row (fun r => List.length r = List.length Xs)
              (range n))
    as (ucb & Hucb & Hlen & Hrows).
  { intros i Hi. apply Hrow, in_range, Hi. }
  rewrite Hucb. cbn [obind].
  assert (Hl : len ucb = n)
    by (unfold len; rewrite Hlen, length_range; lia).
  destruct (min_dim0_spec (List.length Xs) ucb) as (af & Haf & _).
  { intros ->. unfold len in Hl. cbn in Hl. lia. }
  { exact Hrows. }
  exists af. split; [exact Haf|].
  apply (min_of_entries n Xs f ucb af Hn Hl); [|exact Haf|exact Hrows].
  intros i j x Hi Hx.
  destruct (omap_nth _ _ _ _ _ Hucb (range_nth _ _ Hi)) as (r & Hr & Hi').
  destruct (Hentry _ _ _ _ Hi' Hx) as (u & Hu & Hval).
  exists r, u. auto.
Qed.

Section Controller.

Context (gp E rng : Type).
Context {SurrogateGP : Surrogate gp}.
Context {EnvE : Environment E}.
Context {Num : Numerics rng}.

Let Self : Type := MF.Self gp E rng.

Ltac look_up l i :=
  let a := fresh "a" in
  let H := fresh "Hget" in
  destruct (index_in_range l i) as [a H]; [lia|]; rewrite ?H; cbn [obind].

Lemma ucb_row_total (s : Self) (Xs : list point) (i : Z) :
  MF.well_formed s -> (0 <= i < MF.num_of_fidelities s)%Z ->
  exists row,
    MF.ucb_row s Xs i = Ret row /\ List.length row = List.length Xs.
Proof.
  intros (Hn & HX & Hm & Hh & HbX & Hbm & Hbl & Hb & _) Hi.
  unfold MF.ucb_row, MF.mean_std, MF.bias_mean_std.
  look_up (MF.X s) i.
  destruct (nonempty a); [look_up (MF.model s) i|look_up (MF.gp_hyperparams s) i];
    look_up (MF.bias_X s) i;
    (destruct (nonempty a1);
     [look_up (MF.bias_model s) i
     |look_up (MF.bias_list s) i; look_up (MF.beta s) i]);
    look_up (MF.beta s) i;
    (eexists; split; [reflexivity|]);
    rewrite length_map, length_combine, !length_map; lia.
Qed.

Lemma penalise_total (s : Self) (Xs : list point) :
  MF.well_formed s ->
  forall (batch : list (point * Z)) (i : Z) (ucb : list (list Q)),
    MF.shaped s Xs ucb ->
    Forall (fun pf => (0 <= snd pf < MF.num_of_fidelities s)%Z) batch ->
    (0 <= i)%Z ->
    (i + len batch <= len (MF.lipschitz_batch_list s))%Z ->
    exists ucb',
      MF.penalise s Xs batch i ucb = Ret ucb' /\ MF.shaped s Xs ucb'.
Proof.
  intros (Hn & HX & Hm & Hh & _ & _ & _ & _ & Hmv & _).
  induction batch as [|[penalty_point fidelity] rest IH];
    intros i ucb [Hlen Hrows] Hfids Hi Hlips; cbn [MF.penalise].
  - exists ucb. split; [reflexivity|split; assumption].
  - apply Forall_cons_iff in Hfids. destruct Hfids as [Hfid Hfids].
    cbn [snd] in Hfid.
    unfold len in Hlips. cbn [List.length] in Hlips. fold (len rest) in Hlips.
    look_up (MF.X s) fidelity.
    destruct (nonempty a);
      [look_up (MF.model s) fidelity|look_up (MF.gp_hyperparams s) fidelity];
      look_up (MF.max_value s) fidelity;
      (destruct (index_in_range (MF.lipschitz_batch_list s) i) as [lip Hlip];
       [unfold len in *; lia|]; rewrite Hlip; cbn [obind]);
      (destruct (index_in_range ucb fidelity) as [row Hrow]; [lia|]);
      rewrite Hrow; cbn [obind]; cbv zeta;
      try match goal with
          | |- context [posterior ?m ?p] => destruct (posterior m p)
          end;
      match goal with
      | |- context [set_index ucb fidelity ?new] =>
          destruct (index_in_range ucb fidelity) as [row' Hrow'']; [lia|];
          destruct (set_index ucb fidelity new) as [ucb1|e] eqn:Hset;
          [|exfalso; unfold set_index in Hset;
            rewrite (position_in_range (len ucb) fidelity) in Hset
              by lia; discriminate];
          cbn [obind];
          apply set_index_ret in Hset; destruct Hset as (j & Hj & ->);
          apply index_ret in Hrow; destruct Hrow as (j0 & Hj0 & Hnth);
          apply IH;
          [ split;
            [ unfold len in *; rewrite length_replace_nth; exact Hlen
            | apply Forall_replace_nth; [exact Hrows|];
              rewrite length_map, length_combine, length_map;
              rewrite Forall_forall in Hrows;
              rewrite (Hrows row (nth_error_In _ _ Hnth)); lia ]
          | exact Hfids | lia | unfold len in *; lia ]
      end.
Qed.

(** An entry of a row of [ucb]. *)
Lemma ucb_row_entry (s : Self) (Xs : list point) (i : Z) (row : list Q)
    (j : nat) (x : point) :
  MF.ucb_row s Xs i = Ret row -> nth_error Xs j = Some x ->
  exists u, nth_error row j = Some u /\ MF.plain_ucb s i x = Ret u.
Proof.
  unfold MF.ucb_row, MF.mean_std, MF.bias_mean_std, MF.plain_ucb.
  intros H Hx.
  destruct (index (MF.X s) i) as [Xi|]; cbn [obind] in *; [|discriminate].
  destruct (nonempty Xi);
    [destruct (index (MF.model s) i) as [m|]
    |destruct (index (MF.gp_hyperparams s) i) as [h|]];
    cbn [obind] in *; try discriminate;
    (destruct (index (MF.bias_X s) i) as [bXi|]; cbn [obind] in *;
     [|discriminate]);
    (destruct (nonempty bXi);
     [destruct (index (MF.bias_model s) i) as [bm|]
     |destruct (index (MF.bias_list s) i) as [bl|]; cbn [obind] in *;
      [destruct (index (MF.beta s) i) as [b0|] eqn:Hb0|]];
     cbn [obind] in *; try discriminate);
    (destruct (index (MF.beta s) i) as [b|]; cbn [obind] in *;
     [|discriminate]);
    injection H as <-;
    rewrite combine_map_map, map_map, nth_error_map, Hx; cbn [option_map];
    try (injection Hb0 as ->);
    repeat match goal with
           | |- context [posterior ?m ?p] => destruct (posterior m p)
           end;
    eexists; split; reflexivity.
Qed.

(** The rows of [ucb], transformed where the objective requires it. *)
Lemma rows_tabulate (s : Self) (Xs : list point) (rows : list (list Q)) :
  omap (MF.ucb_row s Xs) (range (MF.num_of_fidelities s)) = Ret rows ->
  MF.tabulates (MF.num_of_fidelities s) Xs (MF.fidelity_ucb s)
    (if MF.soft_plus_transform s then map (map softplus) rows else rows).
Proof.
  intros Hrows i j x Hi Hx.
  destruct (omap_nth _ _ _ _ _ Hrows (range_nth _ _ Hi)) as (row & Hrow & Hi').
  destruct (ucb_row_entry _ _ _ _ _ _ Hi' Hx) as (u & Hu & Hval).
  unfold MF.fidelity_ucb. rewrite Hval. cbn [obind].
  destruct (MF.soft_plus_transform s).
  - exists (map softplus row), (softplus u).
    rewrite !nth_error_map, Hrow. cbn [option_map].
    rewrite Hu. cbn. auto.
  - exists row, u. auto.
Qed.

(** The penalisation loop multiplies every entry of a row by the
    penalisers of the queries in flight at the fidelity of the row, and
    leaves the other rows as they are. *)
Lemma penalise_entries (s : Self) (Xs : list point) :
  forall (batch : list (point * Z)) (k : Z) (ucb ucb' : list (list Q)),
    MF.penalise s Xs batch k ucb = Ret ucb' ->
    Forall (fun pf => (0 <= snd pf)%Z) batch ->
    forall (i : Z) (j : nat) (x : point) (row : list Q) (u : Q),
      (0 <= i)%Z -> nth_error Xs j = Some x ->
      nth_error ucb (Z.to_nat i) = Some row -> nth_error row j = Some u ->
      exists row' u',
        nth_error ucb' (Z.to_nat i) = Some row' /\
        nth_error row' j = Some u' /\
        MF.penalised s i x batch k u = Ret u'.
Proof.
  induction batch as [|[penalty_point fidelity] rest IH];
    intros k ucb ucb' H Hfids i j x row u Hi Hx Hrow Hu;
    cbn [MF.penalise MF.penalised] in *.
  - injection H as <-. exists row, u. auto.
  - apply Forall_cons_iff in Hfids. destruct Hfids as [Hfid Hfids].
    cbn [snd] in Hfid.
    unfold MF.penaliser_at, MF.penalty_terms.
    destruct (index (MF.X s) fidelity) as [Xf|]; cbn [obind] in *;
      [|discriminate].
    destruct (if nonempty Xf
              then obind (index (MF.model s) fidelity)
                     (fun m => Ret (posterior m penalty_point))
              else obind (index (MF.gp_hyperparams s) fidelity)
                     (fun h => Ret (mean_constant h, constant h)))
      as [[mean_pp std_pp]|]; cbn [obind] in *; [|discriminate].
    destruct (index (MF.max_value s) fidelity) as [mv|]; cbn [obind] in *;
      [|discriminate].
    destruct (index (MF.lipschitz_batch_list s) k) as [lip|];
      cbn [obind] in *; [|discriminate].
    cbv zeta in H.
    destruct (index ucb fidelity) as [rowf|] eqn:Hrowf; cbn [obind] in H;
      [|discriminate].
    match type of H with
    | obind (set_index ucb fidelity ?new) _ = _ =>
        destruct (set_index ucb fidelity new) as [ucb1|] eqn:Hset;
        cbn [obind] in H; [|discriminate]
    end.
    pose proof (index_nth _ _ _ Hfid Hrowf) as Hnthf.
    apply set_index_ret in Hset. destruct Hset as (pos & Hpos & ->).
    assert (pos = Z.to_nat fidelity).
    { unfold position in Hpos.
      replace (fidelity <? 0)%Z with false in Hpos
        by (symmetry; apply Z.ltb_ge; lia).
      destruct ((fidelity <? 0)%Z || (len ucb <=? fidelity)%Z);
        [discriminate|]. injection Hpos as <-. reflexivity. }
    subst pos.
    destruct (fidelity =? i)%Z eqn:Hfi.
    + apply Z.eqb_eq in Hfi. subst fidelity.
      rewrite Hnthf in Hrow. injection Hrow as ->.
      cbn [obind].
      eapply (IH _ _ _ H Hfids i j x); [exact Hi|exact Hx| |].
      * eapply nth_error_replace_nth_same. exact Hnthf.
      * rewrite nth_error_map.
        rewrite (nth_error_combine _ _ _ _ _ Hu
                   (map_nth_error _ _ _ Hx)).
        reflexivity.
    + apply Z.eqb_neq in Hfi.
      eapply (IH _ _ _ H Hfids i j x); [exact Hi|exact Hx| |exact Hu].
      rewrite nth_error_replace_nth_other by lia. exact Hrow.
Qed.

(** C1.  On a well-formed object none of whose tensor divisors is zero,
    [mfLiveBatch.build_af(X)] returns one value per row [x] of [X], and
    this value is the minimum over the fidelities of the bias-adjusted,
    (transformed and) penalised upper confidence bound of the fidelity at
    [x]: it is below the bound of every fidelity and equal to the bound of
    one of them.  In particular it never exceeds the bound of the target
    fidelity 0 at [x]. *)
Theorem build_af_is_min_over_fidelities (s : Self) (Xs : list point) :
  MF.well_formed s ->
  MF.no_zero_divisor
    (MF.beta_divisors s
     ++ MF.penalty_divisors s
          (combine (MF.current_batch s) (MF.current_batch_fids s)) 0) ->
  exists af : list Q,
    MF.build_af s Xs = Ret af /\
    MF.min_over_fidelities (MF.num_of_fidelities s) (MF.penalised_ucb s)
      Xs af /\
    forall (j : nat) (x : point),
      nth_error Xs j = Some x ->
      exists a target,
        nth_error af j = Some a /\
        MF.penalised_ucb s 0 x = Ret target /\ a <= target.
Proof.
  intros Hwf _.
  pose proof Hwf as (Hn & _ & _ & _ & _ & _ & _ & _ & _ & Hf & Hl).
  unfold MF.build_af, MF.ucb_matrix.
  destruct (omap_total (MF.ucb_row s Xs)
              (fun row => List.length row = List.length Xs)
              (range (MF.num_of_fidelities s)))
    as (rows & Hrows & Hlen & Hshape0).
  { intros i Hi. apply ucb_row_total; [exact Hwf|apply in_range, Hi]. }
  rewrite Hrows. cbn [obind].
  pose proof (rows_tabulate s Xs rows Hrows) as Hentries.
  set (rows1 := if MF.soft_plus_transform s
                then map (map softplus) rows else rows) in *.
  assert (Hfids : Forall (fun pf => (0 <= snd pf < MF.num_of_fidelities s)%Z)
                    (combine (MF.current_batch s) (MF.current_batch_fids s))).
  { apply (Forall_combine_snd
             (fun fid => (0 <= fid < MF.num_of_fidelities s)%Z)).
    exact Hf. }
  destruct (penalise_total s Xs Hwf
              (combine (MF.current_batch s) (MF.current_batch_fids s)) 0
              rows1)
    as (ucb & Hpen & Hucb & Hshape).
  { split.
    - unfold len, rows1. destruct (MF.soft_plus_transform s);
        rewrite ?length_map, Hlen, length_range; lia.
    - unfold rows1. destruct (MF.soft_plus_transform s); [|exact Hshape0].
      apply Forall_map. revert Hshape0. apply Forall_impl.
      intros row Hrow. rewrite length_map. exact Hrow. }
  { exact Hfids. }
  { lia. }
  { unfold len in *. rewrite length_combine. lia. }
  rewrite Hpen. cbn [obind].
  assert (Hpenalised :
            MF.tabulates (MF.num_of_fidelities s) Xs (MF.penalised_ucb s)
              ucb).
  { intros i j x Hi Hx.
    destruct (Hentries i j x Hi Hx) as (row & u & Hrow & Hu & Hval).
    destruct (penalise_entries s Xs _ _ _ _ Hpen) with
      (i := i) (j := j) (x := x) (row := row) (u := u)
      as (row' & u' & Hrow' & Hu' & Hval'); try assumption; try lia.
    { revert Hfids. apply Forall_impl. intros pf H. lia. }
    exists row', u'. split; [exact Hrow'|]. split; [exact Hu'|].
    unfold MF.penalised_ucb. rewrite Hval. cbn [obind]. exact Hval'. }
  destruct (min_dim0_spec (List.length Xs) ucb) as (af & Haf & _).
  { intros ->. unfold len in Hucb. cbn in Hucb. lia. }
  { exact Hshape. }
  exists af. split; [exact Haf|].
  pose proof (min_of_entries _ Xs _ ucb af Hn Hucb Hpenalised Haf Hshape)
    as Hmin.
  split; [exact Hmin|].
  intros j x Hx. destruct Hmin as [_ Hmin].
  destruct (Hmin j x Hx) as (a & Ha & Hle & _).
  destruct (Hle 0%Z) as (target & Ht & Hat); [lia|].
  exists a, target. auto.
Qed.

End Controller.

Import Toy.


(** The theorem in the concrete setting, at the start of the second
    iteration of [mfLiveBatch]: one of the four cold-start queries has
    resolved, the three others are being evaluated at fidelity 2 and
    penalise the bound of fidelity 2, which is then the smallest at each
    of the three inputs: the bounds of fidelities 0 and 1 are [0.6] and
    [0.7] everywhere, the penalised bound of fidelity 2 is [0.2],
    [0.175] and [0]. *)
Lemma build_af_is_min_over_fidelities_witness :
  exists s : MF.Self unit env_toy (list point),
    live [1%nat] [[1]; [1 # 4]; [1]; [1]] = Ret s /\
    MF.current_batch_fids (snd (MF.snapshot_batch (snd (MF.optim_loop 10 s))))
    = [2; 2; 2]%Z /\
    (exists af,
        MF.build_af (snd (MF.snapshot_batch (snd (MF.optim_loop 10 s))))
          [[0]; [1 # 2]; [1]] = Ret af /\
        Forall2 Qeq af [2 # 10; 175 # 1000; 0]) /\
    (exists u,
        MF.penalised_ucb (snd (MF.snapshot_batch (snd (MF.optim_loop 10 s))))
          0 [1 # 2] = Ret u /\ u == 6 # 10) /\
    MF.well_formed (snd (MF.snapshot_batch (snd (MF.optim_loop 10 s)))) /\
    MF.no_zero_divisor
      (MF.beta_divisors (snd (MF.snapshot_batch (snd (MF.optim_loop 10 s))))
       ++ MF.penalty_divisors
            (snd (MF.snapshot_batch (snd (MF.optim_loop 10 s))))
            (combine
               (MF.current_batch
                  (snd (MF.snapshot_batch (snd (MF.optim_loop 10 s)))))
               (MF.current_batch_fids
                  (snd (MF.snapshot_batch (snd (MF.optim_loop 10 s))))))
            0) /\
    exists af : list Q,
      MF.build_af (snd (MF.snapshot_batch (snd (MF.optim_loop 10 s))))
        [[0]; [1 # 2]; [1]] = Ret af /\
      MF.min_over_fidelities
        (MF.num_of_fidelities
           (snd (MF.snapshot_batch (snd (MF.optim_loop 10 s)))))
        (MF.penalised_ucb (snd (MF.snapshot_batch (snd (MF.optim_loop 10 s)))))
        [[0]; [1 # 2]; [1]] af /\
      forall (j : nat) (x : point),
        nth_error [[0]; [1 # 2]; [1]] j = Some x ->
        exists a target,
          nth_error af j = Some a /\
          MF.penalised_ucb
            (snd (MF.snapshot_batch (snd (MF.optim_loop 10 s)))) 0 x
          = Ret target /\
          a <= target.
Proof.
  eexists. split; [reflexivity|]. split; [vm_compute; reflexivity|].
  split.
  { eexists. split; [vm_compute; reflexivity|].
    repeat (constructor; [vm_compute; reflexivity|]). constructor. }
  split.
  { eexists. split; [vm_compute; reflexivity|]. vm_compute. reflexivity. }
  match goal with
  | |- MF.well_formed ?s1 /\ _ =>
      assert (Hwf : MF.well_formed s1);
      [ unfold MF.well_formed; cbv zeta;
        repeat match goal with |- _ /\ _ => split end;
        try (vm_compute; reflexivity);
        try (vm_compute; intros H; discriminate H);
        vm_compute;
        repeat (constructor;
                [split; [intros H; discriminate H|reflexivity]|]);
        constructor
      | assert (Hdiv :
                  MF.no_zero_divisor
                    (MF.beta_divisors s1
                     ++ MF.penalty_divisors s1
                          (combine (MF.current_batch s1)
                                   (MF.current_batch_fids s1)) 0));
        [ unfold MF.no_zero_divisor; vm_compute;
          repeat (constructor; [intros H; discriminate H|]); constructor
        | split; [exact Hwf|]; split; [exact Hdiv|];
          exact (build_af_is_min_over_fidelities unit env_toy (list point)
                   s1 [[0]; [1 # 2]; [1]] Hwf Hdiv) ] ]
  end.
Defined.

End AcquisitionFacts.

(* ===================================================================== *)
(** * What an iteration keeps *)
(* ===================================================================== *)

Module LoopFacts.

Import PyFacts MonadFacts Frames.

Section Controller.

Context (gp E rng : Type).
Context {SurrogateGP : Surrogate gp}.
Context {EnvE : Environment E}.
Context {Num : Numerics rng}.

Let Self : Type := MF.Self gp E rng.

Context (R : Self -> Self -> Prop).
Hypothesis Rr : forall s, R s s.
Hypothesis Rt : forall s1 s2 s3, R s1 s2 -> R s2 s3 -> R s1 s3.

Lemma ingest_loop_keeps (body : Z -> MF.Method gp E rng (list Z)) :
  (forall i, preserves R (body i)) ->
  forall idxs bias_updates,
    preserves R (MF.ingest_loop body idxs bias_updates).
Proof.
  intros Hb. induction idxs as [|i rest IH]; intros bias_updates;
    cbn [MF.ingest_loop].
  - apply (preserves_ret _ Rr).
  - apply (preserves_bind _ Rt); [apply Hb|intros more; apply IH].
Qed.

Lemma fill_batch_keeps (fuel : nat) :
  preserves R MF.fill_step ->
  forall new_Xs new_Ms, preserves R (MF.fill_batch fuel new_Xs new_Ms).
Proof.
  intros Hs. induction fuel as [|fuel IH]; intros new_Xs new_Ms;
    cbn [MF.fill_batch]; apply (preserves_bind _ Rt);
    try apply (preserves_get _ Rr); intros s;
    destruct (Qltb (MF.batch_costs s) (MF.cost_budget s));
    try apply (preserves_ret _ Rr); try apply (preserves_timeout _ Rr).
  apply (preserves_bind _ Rt); [exact Hs|]. intros [new_X new_M]. apply IH.
Qed.

Lemma fill_random_keeps (fuel : nat) :
  (forall r s, R s (MF.set_rng_state r s)) ->
  (forall c s, R s (MF.set_batch_costs c s)) ->
  forall new_M new_Xs new_Ms,
    preserves R (MF.fill_random fuel new_M new_Xs new_Ms).
Proof.
  intros Hr Hc. induction fuel as [|fuel IH]; intros new_M new_Xs new_Ms;
    cbn [MF.fill_random]; apply (preserves_bind _ Rt);
    try apply (preserves_get _ Rr); intros s;
    destruct (Qltb (MF.batch_costs s) (MF.cost_budget s));
    try apply (preserves_ret _ Rr); try apply (preserves_timeout _ Rr).
  destruct (uniform (MF.dim s) (MF.rng_state s)) as [new_X r].
  apply (preserves_bind _ Rt); [apply preserves_modify, Hr|]. intros _.
  apply (preserves_bind _ Rt); [apply (preserves_lift _ Rr)|]. intros c.
  apply (preserves_bind _ Rt); [apply preserves_modify, Hc|]. intros _.
  apply IH.
Qed.

Lemma iterate_keeps (n : nat) (loop : MF.Method gp E rng unit) :
  preserves R loop -> preserves R (MF.iterate n loop).
Proof.
  intros Hloop. induction n as [|n IH]; cbn [MF.iterate].
  - apply (preserves_ret _ Rr).
  - apply (preserves_bind _ Rt); [exact Hloop|intros _; exact IH].
Qed.

Lemma run_optim_loop_keeps (loop : MF.Method gp E rng unit) (fuel : nat) :
  preserves R loop -> preserves R (MF.run_optim_loop loop fuel).
Proof.
  intros Hloop. induction fuel as [|fuel IH]; cbn [MF.run_optim_loop];
    apply (preserves_bind _ Rt); try apply (preserves_get _ Rr); intros s;
    destruct (MF.current_time s <=? MF.budget s - 1)%Z;
    try apply (preserves_ret _ Rr); try apply (preserves_timeout _ Rr).
  apply (preserves_bind _ Rt); [exact Hloop|intros _; exact IH].
Qed.

End Controller.

Section Maintaining.

Context (gp E rng : Type).
Context {SurrogateGP : Surrogate gp}.
Context {EnvE : Environment E}.
Context {Num : Numerics rng}.

Let Self : Type := MF.Self gp E rng.

Context (I J : Self -> Prop).
Hypothesis IJ : forall s, I s -> J s.

Lemma ingest_loop_maintains (body : Z -> MF.Method gp E rng (list Z)) :
  (forall i, maintains I J (body i)) ->
  forall idxs bias_updates,
    maintains I J (MF.ingest_loop body idxs bias_updates).
Proof.
  intros Hb. induction idxs as [|i rest IH]; intros bias_updates;
    cbn [MF.ingest_loop].
  - apply maintains_ret.
  - apply maintains_bind; [apply Hb|intros more; apply IH].
Qed.

Lemma fill_batch_maintains (fuel : nat) :
  maintains I J MF.fill_step ->
  forall new_Xs new_Ms, maintains I J (MF.fill_batch fuel new_Xs new_Ms).
Proof.
  intros Hs. induction fuel as [|fuel IH]; intros new_Xs new_Ms;
    cbn [MF.fill_batch]; apply maintains_bind;
    try apply maintains_get; intros s;
    destruct (Qltb (MF.batch_costs s) (MF.cost_budget s));
    try apply maintains_ret; try apply (maintains_timeout _ _ IJ).
  apply maintains_bind; [exact Hs|]. intros [new_X new_M]. apply IH.
Qed.

Lemma fill_random_maintains (fuel : nat) :
  (forall r s, I s -> I (MF.set_rng_state r s)) ->
  (forall c s, I s -> I (MF.set_batch_costs c s)) ->
  forall new_M new_Xs new_Ms,
    maintains I J (MF.fill_random fuel new_M new_Xs new_Ms).
Proof.
  intros Hr Hc. induction fuel as [|fuel IH]; intros new_M new_Xs new_Ms;
    cbn [MF.fill_random]; apply maintains_bind;
    try apply maintains_get; intros s;
    destruct (Qltb (MF.batch_costs s) (MF.cost_budget s));
    try apply maintains_ret; try apply (maintains_timeout _ _ IJ).
  destruct (uniform (MF.dim s) (MF.rng_state s)) as [new_X r].
  apply maintains_bind; [apply maintains_modify, Hr|]. intros _.
  apply maintains_bind; [apply (maintains_lift _ _ IJ)|]. intros c.
  apply maintains_bind; [apply maintains_modify, Hc|]. intros _.
  apply IH.
Qed.

Lemma iterate_maintains (n : nat) (loop : MF.Method gp E rng unit) :
  maintains I J loop -> maintains I J (MF.iterate n loop).
Proof.
  intros Hloop. induction n as [|n IH]; cbn [MF.iterate].
  - apply maintains_ret.
  - apply maintains_bind; [exact Hloop|intros _; exact IH].
Qed.

End Maintaining.

(** The head constant of a method call. *)
Ltac head_of m :=
  lazymatch m with
  | ?f _ => head_of f
  | _ => m
  end.

(** Take a method apart down to its assignments: [known] closes the
    calls that have a lemma of their own, the loops go by their
    induction lemmas, an assignment to a field that the relation does not
    look at is closed by reflexivity, and any other call is unfolded. *)
Ltac keeps_with Rr Rt known :=
  repeat first
    [ known
    | simple apply (preserves_ret _ Rr)
    | simple apply (preserves_get _ Rr)
    | simple apply (preserves_lift _ Rr)
    | simple apply (preserves_timeout _ Rr)
    | simple apply (preserves_when _ Rr)
    | simple apply (preserves_for_each _ Rr Rt); intros
    | simple apply (preserves_bind _ Rt); [ | intros ]
    | simple apply preserves_modify; intro; exact (Rr _)
    | simple apply (ingest_loop_keeps _ _ _ _ Rr Rt); intros
    | simple apply (fill_batch_keeps _ _ _ _ Rr Rt)
    | simple apply (fill_random_keeps _ _ _ _ Rr Rt); intros; exact (Rr _)
    | simple apply (iterate_keeps _ _ _ _ Rr Rt)
    | simple apply (run_optim_loop_keeps _ _ _ _ Rr Rt)
    | match goal with
      | |- preserves _ (match ?x with _ => _ end) => destruct x
      | |- preserves _ ?m =>
          let h := head_of m in
          lazymatch h with
          | @modify => fail
          | _ => progress unfold h
          end
      end ].

(** The same for an invariant [I] of the runs that return, with [J] left
    after an exception; an assignment to a field that [I] does not look
    at keeps [I] as it is. *)
Ltac maintains_with IJ known :=
  repeat first
    [ known
    | simple apply maintains_ret
    | simple apply maintains_get
    | simple apply (maintains_lift _ _ IJ)
    | simple apply (maintains_timeout _ _ IJ)
    | simple apply maintains_when
    | simple apply maintains_for_each; intros
    | simple apply maintains_bind; [ | intros ]
    | simple apply maintains_modify;
      let s := fresh "s" in let H := fresh "H" in intros s H; exact H
    | simple apply ingest_loop_maintains; intros
    | simple apply (fill_batch_maintains _ _ _ _ _ IJ)
    | simple apply (fill_random_maintains _ _ _ _ _ IJ);
      let s := fresh "s" in let H := fresh "H" in intros ? s H; exact H
    | simple apply iterate_maintains
    | match goal with
      | |- maintains _ _ (match ?x with _ => _ end) => destruct x
      | |- maintains _ _ ?m =>
          let h := head_of m in
          lazymatch h with
          | @modify => fail
          | _ => progress unfold h
          end
      end ].

(** Run a straight-line method body on the object [s] of the goal,
    along every path, keeping what each statement returned. *)
Ltac exec :=
  cbv beta iota zeta delta [bind get lift modify ret when obind];
  repeat (match goal with
          | |- context [match ?o with Some _ => _ | None => _ end] =>
              lazymatch o with
              | context [match _ with _ => _ end] => fail
              | _ => let H := fresh "Hopt" in destruct o eqn:H
              end
          | |- context [match ?o with Ret _ => _ | Raise _ => _ end] =>
              lazymatch o with
              | context [match _ with _ => _ end] => fail
              | _ => let H := fresh "Hrun" in destruct o eqn:H
              end
          | |- context [if ?b then _ else _] =>
              lazymatch type of b with
              | bool =>
                  lazymatch b with
                  | context [match _ with _ => _ end] => fail
                  | _ => let H := fresh "Hif" in destruct b eqn:H
                  end
              end
          end; cbv beta iota zeta).

(** The same for the three [optim_loop]s at once. *)
Ltac loops_keep Rr Rt known :=
  let H := fresh "Hloop" in
  intros H; unfold MF.optim_loops in H; cbn [In] in H;
  destruct H as [<-|[<-|[<-|[]]]]; keeps_with Rr Rt known.

Ltac loops_maintain IJ known :=
  let H := fresh "Hloop" in
  intros H; unfold MF.optim_loops in H; cbn [In] in H;
  destruct H as [<-|[<-|[<-|[]]]]; maintains_with IJ known.

End LoopFacts.

Module BetaFacts.

Import PyFacts MonadFacts Frames LoopFacts.

Section Controller.

Context (gp E rng : Type).
Context {SurrogateGP : Surrogate gp}.
Context {EnvE : Environment E}.
Context {Num : Numerics rng}.

Let Self : Type := MF.Self gp E rng.

(** A fixed [beta] stays fixed, and is kept. *)
Let R : Self -> Self -> Prop :=
  fun s s' =>
    MF.fixed_beta s = true ->
    MF.fixed_beta s' = true /\ MF.beta s' = MF.beta s.

Let Rr : forall s, R s s.
Proof. intros s H. auto. Qed.

Let Rt : forall s1 s2 s3, R s1 s2 -> R s2 s3 -> R s1 s3.
Proof.
  intros s1 s2 s3 H12 H23 H. destruct (H12 H) as [H2 E2].
  destruct (H23 H2) as [H3 E3]. split; [exact H3|congruence].
Qed.

Lemma update_beta_fixed : preserves R MF.update_beta.
Proof.
  intros s H. unfold MF.update_beta, bind, get, when. rewrite H. cbn. auto.
Qed.

Lemma mfUCB_update_beta_fixed : preserves R MF.mfUCB_update_beta.
Proof.
  intros s H. unfold MF.mfUCB_update_beta, bind, get, when. rewrite H. cbn.
  auto.
Qed.

Lemma loops_keep_fixed_beta (fuel : nat) (loop : MF.Method gp E rng unit) :
  In loop (MF.optim_loops fuel) -> preserves R loop.
Proof.
  loops_keep Rr Rt
    ltac:(first [simple apply update_beta_fixed
                |simple apply mfUCB_update_beta_fixed]).
Qed.

(** X1.  An object constructed with a [beta] of its own
    ([fixed_beta] is [True]) keeps that [beta]: no iteration of
    [optim_loop], of [mfLiveBatch], [mfUCB] or [mfUCBPlus], whatever its
    outcome, changes [beta] or [fixed_beta]. *)
Theorem fixed_beta_is_kept
    (fuel n : nat) (loop : MF.Method gp E rng unit) (s : Self) :
  In loop (MF.optim_loops fuel) ->
  MF.fixed_beta s = true ->
  MF.fixed_beta (snd (MF.iterate n loop s)) = true /\
  MF.beta (snd (MF.iterate n loop s)) = MF.beta s.
Proof.
  intros Hloop Hfixed.
  exact (iterate_keeps gp E rng R Rr Rt n loop
           (loops_keep_fixed_beta fuel loop Hloop) s Hfixed).
Qed.

End Controller.

Import Toy.

(** The theorem on two iterations of [mfUCB(env, beta = 1)] in the
    concrete setting. *)
Lemma fixed_beta_is_kept_witness :
  exists s : MF.Self unit env_toy (list point),
    sequential [4%nat; 2%nat] [[1]; [1]; [1]; [1]; [0]; [1]] = Ret s /\
    MF.beta s = [1; 1; 1] /\
    MF.beta (snd (MF.iterate 2 (MF.mfUCB_optim_loop 10) s)) = MF.beta s.
Proof.
  eexists. split; [reflexivity|]. split; [reflexivity|].
  match goal with
  | |- MF.beta (snd (MF.iterate _ _ ?s)) = _ =>
      apply (fixed_beta_is_kept unit env_toy (list point) 10 2
               (MF.mfUCB_optim_loop 10) s)
  end.
  - right. left. reflexivity.
  - reflexivity.
Defined.

End BetaFacts.

(* ===================================================================== *)
(** * Hyper-parameters and fidelity thresholds *)
(* ===================================================================== *)

Module HyperFacts.

Import PyFacts MonadFacts Frames LoopFacts.

Section Controller.

Context (gp E rng : Type).
Context {SurrogateGP : Surrogate gp}.
Context {EnvE : Environment E}.
Context {Num : Numerics rng}.

Let Self : Type := MF.Self gp E rng.

(** Without an update frequency, the hyper-parameters and the counts
    of the last updates are kept. *)
Let R : Self -> Self -> Prop :=
  fun s s' =>
    MF.hp_update_frequency s = None ->
    MF.hp_update_frequency s' = None /\
    MF.gp_hyperparams s' = MF.gp_hyperparams s /\
    MF.last_n_obs s' = MF.last_n_obs s.

Let Rr : forall s, R s s.
Proof. intros s H. auto. Qed.

Let Rt : forall s1 s2 s3, R s1 s2 -> R s2 s3 -> R s1 s3.
Proof.
  intros s1 s2 s3 H12 H23 H. destruct (H12 H) as (H2 & E2 & F2).
  destruct (H23 H2) as (H3 & E3 & F3). repeat split; congruence.
Qed.

Lemma refresh_hyperparams_idle (fid n_obs : Z) (base : option Z) :
  preserves R (MF.refresh_hyperparams fid n_obs base).
Proof.
  intros s H. unfold MF.refresh_hyperparams, bind, get, lift.
  destruct (index (MF.X s) fid); cbn; rewrite ?H; cbn; auto.
Qed.

Lemma mfUCBPlus_update_hyperparams_idle :
  preserves R MF.mfUCBPlus_update_hyperparams.
Proof.
  intros s H. unfold MF.mfUCBPlus_update_hyperparams, bind, get, lift.
  destruct (index (MF.X s) (MF.num_of_fidelities s - 1)); cbn; rewrite ?H;
    cbn; auto.
Qed.

Lemma loops_keep_hyperparams (fuel : nat) (loop : MF.Method gp E rng unit) :
  In loop (MF.optim_loops fuel) -> preserves R loop.
Proof.
  loops_keep Rr Rt
    ltac:(first [simple apply refresh_hyperparams_idle
                |simple apply mfUCBPlus_update_hyperparams_idle]).
Qed.

(** X2.  With [hp_update_frequency = None] (the default), no iteration
    of [optim_loop], of [mfLiveBatch], [mfUCB] or [mfUCBPlus], whatever
    its outcome, changes the hyper-parameters [gp_hyperparams] that the
    prior and every refit start from, or [last_n_obs]. *)
Theorem hyperparams_kept_without_frequency
    (fuel n : nat) (loop : MF.Method gp E rng unit) (s : Self) :
  In loop (MF.optim_loops fuel) ->
  MF.hp_update_frequency s = None ->
  MF.gp_hyperparams (snd (MF.iterate n loop s)) = MF.gp_hyperparams s /\
  MF.last_n_obs (snd (MF.iterate n loop s)) = MF.last_n_obs s.
Proof.
  intros Hloop Hnone.
  exact (proj2 (iterate_keeps gp E rng R Rr Rt n loop
                  (loops_keep_hyperparams fuel loop Hloop) s Hnone)).
Qed.

End Controller.

Import Toy.

(** The theorem on two iterations of [mfLiveBatch] in the concrete
    setting. *)
Lemma hyperparams_kept_without_frequency_witness :
  exists s : MF.Self unit env_toy (list point),
    live [4%nat; 2%nat] [[1]; [1]; [1]; [1]; [0]; [0]] = Ret s /\
    MF.gp_hyperparams (snd (MF.iterate 2 (MF.optim_loop 10) s))
    = MF.gp_hyperparams s.
Proof.
  eexists. split; [reflexivity|].
  match goal with
  | |- MF.gp_hyperparams (snd (MF.iterate _ _ ?s)) = _ =>
      apply (hyperparams_kept_without_frequency unit env_toy (list point)
               10 2 (MF.optim_loop 10) s)
  end.
  - left. reflexivity.
  - reflexivity.
Defined.

End HyperFacts.

Module ThresholdFacts.

Import PyFacts MonadFacts Frames LoopFacts.

Lemma doubled_trans (a b c : Q) :
  MF.doubled a b -> MF.doubled b c -> MF.doubled a c.
Proof.
  intros Hab Hbc. induction Hbc as [|c _ IH]; [exact Hab|].
  apply MF.doubled_more, IH.
Qed.

Lemma doubled_grows (a b : Q) : MF.doubled a b -> 0 <= a -> a <= b.
Proof. intros H Ha. induction H as [|b _ IH]; lra. Qed.

Lemma all_doubled_refl (l : list Q) : Forall2 MF.doubled l l.
Proof. induction l; constructor; auto. apply MF.doubled_same. Qed.

Lemma all_doubled_trans (a b c : list Q) :
  Forall2 MF.doubled a b -> Forall2 MF.doubled b c -> Forall2 MF.doubled a c.
Proof.
  intros Hab. revert c. induction Hab as [|x y a b Hxy _ IH]; intros c Hbc.
  - inversion Hbc. constructor.
  - inversion Hbc as [|y' z b' c' Hyz Hbc']; subst. constructor.
    + exact (doubled_trans _ _ _ Hxy Hyz).
    + apply IH. exact Hbc'.
Qed.

Lemma all_doubled_grow (a b : list Q) :
  Forall2 MF.doubled a b -> Forall (fun t => 0 <= t) a -> Forall2 Qle a b.
Proof.
  intros Hab. induction Hab as [|x y a b Hxy _ IH]; intros Hpos.
  - constructor.
  - apply Forall_cons_iff in Hpos. destruct Hpos as [Hx Ha].
    constructor; [apply doubled_grows; assumption|apply IH, Ha].
Qed.

Lemma replace_nth_doubles (l : list Q) (j : nat) (th : Q) :
  nth_error l j = Some th ->
  Forall2 MF.doubled l (replace_nth l j (th * 2)).
Proof.
  revert j. induction l as [|x r IH]; intros [|j]; cbn; try discriminate.
  - intros H. injection H as ->. constructor.
    + apply MF.doubled_more, MF.doubled_same.
    + apply all_doubled_refl.
  - intros H. constructor; [apply MF.doubled_same|]. apply IH, H.
Qed.

(** Doubling the entry that was just read. *)
Lemma set_index_doubles (l l' : list Q) (i : Z) (th : Q) :
  index l i = Ret th -> set_index l i (th * 2) = Ret l' ->
  Forall2 MF.doubled l l'.
Proof.
  intros Hget Hset. apply index_ret in Hget. destruct Hget as (j & Hj & Hth).
  apply set_index_ret in Hset. destruct Hset as (j' & Hj' & ->).
  rewrite Hj in Hj'. injection Hj' as <-. apply replace_nth_doubles, Hth.
Qed.

Section Controller.

Context (gp E rng : Type).
Context {SurrogateGP : Surrogate gp}.
Context {EnvE : Environment E}.
Context {Num : Numerics rng}.

Let Self : Type := MF.Self gp E rng.

Let R : Self -> Self -> Prop :=
  through (@MF.fidelity_thresholds gp E rng) (Forall2 MF.doubled).

Let Rr : forall s, R s s :=
  through_refl _ _ all_doubled_refl.

Let Rt : forall s1 s2 s3, R s1 s2 -> R s2 s3 -> R s1 s3 :=
  through_trans _ _ all_doubled_trans.

Lemma count_fidelity_doubles (new_M_int : Z) :
  preserves R (MF.count_fidelity new_M_int).
Proof.
  intros s. unfold R, through, MF.count_fidelity. exec.
  all: cbn in *; try apply all_doubled_refl.
  all: eapply set_index_doubles; eassumption.
Qed.

Lemma loops_double_thresholds (fuel : nat) (loop : MF.Method gp E rng unit) :
  In loop (MF.optim_loops fuel) -> preserves R loop.
Proof.
  loops_keep Rr Rt ltac:(simple apply count_fidelity_doubles).
Qed.

(** X3.  Over any number of iterations of [optim_loop], of
    [mfLiveBatch], [mfUCB] or [mfUCBPlus], whatever their outcome, the
    table [fidelity_thresholds] keeps its size and every entry only moves
    by doublings (the [* 2] of [optimise_af]); so thresholds that start
    non-negative never decrease. *)
Theorem thresholds_only_double
    (fuel n : nat) (loop : MF.Method gp E rng unit) (s : Self) :
  In loop (MF.optim_loops fuel) ->
  Forall2 MF.doubled (MF.fidelity_thresholds s)
    (MF.fidelity_thresholds (snd (MF.iterate n loop s))) /\
  (Forall (fun t => 0 <= t) (MF.fidelity_thresholds s) ->
   Forall2 Qle (MF.fidelity_thresholds s)
     (MF.fidelity_thresholds (snd (MF.iterate n loop s)))).
Proof.
  intros Hloop.
  pose proof (iterate_keeps gp E rng R Rr Rt n loop
                (loops_double_thresholds fuel loop Hloop) s) as H.
  split; [exact H|]. apply all_doubled_grow. exact H.
Qed.

End Controller.

Import Toy.

(** The theorem on three iterations of [mfLiveBatch] in the concrete
    setting. *)
Lemma thresholds_only_double_witness :
  exists s : MF.Self unit env_toy (list point),
    live [4%nat; 2%nat; 2%nat] [[1]; [1]; [1]; [1]; [0]; [0]; [1]] = Ret s /\
    Forall2 Qle (MF.fidelity_thresholds s)
      (MF.fidelity_thresholds (snd (MF.iterate 3 (MF.optim_loop 10) s))).
Proof.
  eexists. split; [reflexivity|].
  match goal with
  | |- Forall2 Qle _ (MF.fidelity_thresholds (snd (MF.iterate _ _ ?s))) =>
      apply (thresholds_only_double unit env_toy (list point) 10 3
               (MF.optim_loop 10) s)
  end.
  - left. reflexivity.
  - cbn. repeat constructor; discriminate.
Defined.

End ThresholdFacts.

(* ===================================================================== *)
(** * The record of observations *)
(* ===================================================================== *)

Module RecordFacts.

Import PyFacts MonadFacts Frames LoopFacts.

Lemma extends_refl {A} (l : list (list A)) : MF.extends l l.
Proof.
  induction l as [|a r IH]; constructor; auto.
  exists []. rewrite app_nil_r. reflexivity.
Qed.

Lemma extends_trans {A} (a b c : list (list A)) :
  MF.extends a b -> MF.extends b c -> MF.extends a c.
Proof.
  intros Hab. revert c. induction Hab as [|x y a b Hxy _ IH]; intros c Hbc.
  - inversion Hbc. constructor.
  - inversion Hbc as [|y' z b' c' Hyz Hbc']; subst. constructor.
    + destruct Hxy as [m1 ->]. destruct Hyz as [m2 ->].
      exists (m1 ++ m2). rewrite app_assoc. reflexivity.
    + apply IH. exact Hbc'.
Qed.

Lemma replace_nth_extends {A} (l : list (list A)) (j : nat) (row : list A)
    (a : A) :
  nth_error l j = Some row -> MF.extends l (replace_nth l j (row ++ [a])).
Proof.
  revert j. induction l as [|x r IH]; intros [|j]; cbn; try discriminate.
  - intros H. injection H as ->. constructor; [exists [a]; reflexivity|].
    apply extends_refl.
  - intros H. constructor; [exists []; rewrite app_nil_r; reflexivity|].
    apply IH, H.
Qed.

(** [self.field[i].append(a)] keeps what the table held. *)
Lemma append_at_extends {A} (l l' : list (list A)) (i : Z) (a : A) :
  append_at l i a = Ret l' -> MF.extends l l'.
Proof.
  intros H. apply append_at_ret in H. destruct H as (j & row & _ & Hrow & ->).
  apply replace_nth_extends, Hrow.
Qed.

(** The lengths of the rows after an [append]: row [j] has one more
    entry. *)
Lemma append_at_lengths {A} (l l' : list (list A)) (i : Z) (a : A) :
  append_at l i a = Ret l' ->
  exists j,
    position (len l) i = Ret j /\
    map (@List.length A) l'
    = replace_nth (map (@List.length A) l) j
        (S (nth j (map (@List.length A) l) O)).
Proof.
  intros H. apply append_at_ret in H. destruct H as (j & row & Hj & Hrow & ->).
  exists j. split; [exact Hj|].
  rewrite map_replace_nth. f_equal.
  rewrite length_app, Nat.add_1_r. f_equal.
  apply (map_nth_error (@List.length A)) in Hrow.
  symmetry. apply nth_error_nth. exact Hrow.
Qed.

(** An [append] raises only when the index is out of range. *)
Lemma append_at_returns {A} (l : list (list A)) (i : Z) (a : A) (j : nat) :
  position (len l) i = Ret j -> exists l', append_at l i a = Ret l'.
Proof.
  intros Hj. pose proof (position_lt _ _ _ Hj) as Hlt.
  destruct (nth_error l j) as [row|] eqn:Hrow.
  - exists (replace_nth l j (row ++ [a])). apply append_at_ret. eauto.
  - apply nth_error_None in Hrow. unfold len in Hlt. lia.
Qed.

Section Controller.

Context (gp E rng : Type).
Context {SurrogateGP : Surrogate gp}.
Context {EnvE : Environment E}.
Context {Num : Numerics rng}.

Let Self : Type := MF.Self gp E rng.

(** ** Nothing recorded is lost *)

Let Rx : Self -> Self -> Prop :=
  fun s s' =>
    MF.extends (MF.X s) (MF.X s') /\ MF.extends (MF.Y s) (MF.Y s') /\
    MF.extends (MF.T s) (MF.T s').

Let Rxr : forall s, Rx s s.
Proof. intros s. repeat split; apply extends_refl. Qed.

Let Rxt : forall s1 s2 s3, Rx s1 s2 -> Rx s2 s3 -> Rx s1 s3.
Proof.
  intros s1 s2 s3 (A1 & A2 & A3) (B1 & B2 & B3).
  repeat split; eapply extends_trans; eassumption.
Qed.

Lemma record_observation_extends (fid : Z) (x : outcome point)
    (y : outcome Q) :
  preserves Rx (MF.record_observation fid x y).
Proof.
  intros s. unfold Rx, MF.record_observation, bind, get, lift, modify, ret.
  destruct (append_eval (MF.X s) fid x) as [[xs xv]|e] eqn:Hx; cbn;
    [|repeat split; apply extends_refl].
  apply IngestFacts.append_eval_ret in Hx. destruct Hx as [_ Hx].
  destruct (append_eval (MF.Y s) fid y) as [[ys yv]|e] eqn:Hy; cbn.
  - apply IngestFacts.append_eval_ret in Hy. destruct Hy as [_ Hy].
    destruct (append_at (MF.T s) fid (MF.current_time s + 1)%Z) eqn:Ht; cbn;
      repeat split;
      first [apply extends_refl | eapply append_at_extends; eassumption].
  - repeat split;
      first [apply extends_refl | eapply append_at_extends; eassumption].
Qed.

Lemma loops_extend_record (fuel : nat) (loop : MF.Method gp E rng unit) :
  In loop (MF.optim_loops fuel) -> preserves Rx loop.
Proof.
  loops_keep Rxr Rxt ltac:(simple apply record_observation_extends).
Qed.

(** X4.  Over any number of iterations of [optim_loop], of
    [mfLiveBatch], [mfUCB] or [mfUCBPlus], whatever their outcome, the
    tables [X], [Y] and [T] keep their rows, and every row keeps the
    entries it had, in place: observations are only ever appended. *)
Theorem observations_are_only_appended
    (fuel n : nat) (loop : MF.Method gp E rng unit) (s : Self) :
  In loop (MF.optim_loops fuel) ->
  MF.extends (MF.X s) (MF.X (snd (MF.iterate n loop s))) /\
  MF.extends (MF.Y s) (MF.Y (snd (MF.iterate n loop s))) /\
  MF.extends (MF.T s) (MF.T (snd (MF.iterate n loop s))).
Proof.
  intros Hloop.
  exact (iterate_keeps gp E rng Rx Rxr Rxt n loop
           (loops_extend_record fuel loop Hloop) s).
Qed.

(** ** Inputs, values and times go together *)

Lemma same_rows_same_len {A B} (l : list (list A)) (l' : list (list B)) :
  map (@List.length A) l = map (@List.length B) l' -> len l = len l'.
Proof.
  intros H. unfold len. f_equal.
  rewrite <- (length_map (@List.length A) l), H. apply length_map.
Qed.

Lemma one_ahead_refl (l : list nat) :
  Forall2 (fun x y => (y <= x <= S y)%nat) l l.
Proof. induction l; constructor; auto; lia. Qed.

Lemma one_ahead_after_append (l : list nat) (j : nat) :
  Forall2 (fun x y => (y <= x <= S y)%nat)
    (replace_nth l j (S (nth j l O))) l.
Proof.
  revert j. induction l as [|a r IH]; intros [|j]; cbn; constructor;
    try lia; first [apply one_ahead_refl|apply IH].
Qed.

Lemma aligned_is_input_ahead (s : Self) : MF.aligned s -> MF.input_ahead s.
Proof.
  intros [Hxy Hyt]. split; [exact Hyt|]. rewrite Hxy. apply one_ahead_refl.
Qed.

(** Recording an observation: with its three appends it keeps the
    tables aligned; when the value cannot be read, the input is already
    in [X]. *)
Lemma record_observation_aligned (fid : Z) (x : outcome point)
    (y : outcome Q) :
  maintains (@MF.aligned gp E rng) (@MF.input_ahead gp E rng)
    (MF.record_observation fid x y).
Proof.
  intros s [Hxy Hyt].
  unfold MF.record_observation, bind, get, lift, modify, ret.
  destruct (append_eval (MF.X s) fid x) as [[xs xv]|e] eqn:Hx; cbn;
    [|apply aligned_is_input_ahead; split; assumption].
  apply IngestFacts.append_eval_ret in Hx. destruct Hx as [_ Hx].
  destruct (append_at_lengths _ _ _ _ Hx) as (j & Hj & Ex).
  rewrite (same_rows_same_len _ _ Hxy) in Hj.
  destruct (append_eval (MF.Y s) fid y) as [[ys yv]|e] eqn:Hy; cbn.
  - apply IngestFacts.append_eval_ret in Hy. destruct Hy as [_ Hy].
    destruct (append_at_lengths _ _ _ _ Hy) as (j0 & Hj0 & Ey).
    assert (j0 = j) by congruence. subst j0.
    rewrite (same_rows_same_len _ _ Hyt) in Hj.
    destruct (append_at_returns (MF.T s) fid (MF.current_time s + 1)%Z j Hj)
      as [ts Hts].
    rewrite Hts. cbn.
    destruct (append_at_lengths _ _ _ _ Hts) as (j1 & Hj1 & Et).
    assert (j1 = j) by congruence. subst j1.
    unfold MF.aligned; cbn. rewrite Ex, Ey, Et, Hxy, Hyt. split; reflexivity.
  - (* the value could not be read: the input stays in X *)
    unfold MF.input_ahead; cbn. split; [exact Hyt|].
    rewrite Ex, Hxy. apply one_ahead_after_append.
Qed.

Lemma loops_keep_aligned (fuel : nat) (loop : MF.Method gp E rng unit) :
  In loop (MF.optim_loops fuel) ->
  maintains (@MF.aligned gp E rng) (@MF.input_ahead gp E rng) loop.
Proof.
  loops_maintain aligned_is_input_ahead
    ltac:(simple apply record_observation_aligned).
Qed.

(** X5.  The inputs, the values and the observation times go together
    in every run that returns: if [X[f]], [Y[f]] and [T[f]] have the same
    length for every fidelity [f] (as after [__init__], where they are
    empty), they still do after any number of iterations of [optim_loop],
    of [mfLiveBatch], [mfUCB] or [mfUCBPlus], that return.  When an
    iteration raises, [Y] and [T] still go together, and a row of [X]
    holds at most one input more than the row of [Y]: the input of the
    observation whose value could not be read. *)
Theorem observations_stay_aligned
    (fuel n : nat) (loop : MF.Method gp E rng unit) (s : Self) :
  In loop (MF.optim_loops fuel) ->
  MF.aligned s ->
  match fst (MF.iterate n loop s) with
  | Returns _ => MF.aligned (snd (MF.iterate n loop s))
  | _ => MF.input_ahead (snd (MF.iterate n loop s))
  end.
Proof.
  intros Hloop.
  exact (iterate_maintains gp E rng _ _ n loop
           (loops_keep_aligned fuel loop Hloop) s).
Qed.

End Controller.

Import Toy.

(** The theorem on two iterations of [mfLiveBatch] in the concrete
    setting: the four cold-start observations of the first iteration are
    still there, before the two of the second. *)
Lemma observations_are_only_appended_witness :
  exists s : MF.Self unit env_toy (list point),
    live [4%nat; 2%nat] [[1]; [1]; [1]; [1]; [0]; [0]] = Ret s /\
    MF.Y (snd (MF.optim_loop 10 s)) = [[]; []; [0; 0; 0; 0]] /\
    MF.extends (MF.Y (snd (MF.optim_loop 10 s)))
      (MF.Y (snd (MF.iterate 1 (MF.optim_loop 10)
                    (snd (MF.optim_loop 10 s))))).
Proof.
  eexists. split; [reflexivity|]. split; [vm_compute; reflexivity|].
  match goal with
  | |- MF.extends _ (MF.Y (snd (MF.iterate _ _ ?s))) =>
      apply (observations_are_only_appended unit env_toy (list point) 10 1
               (MF.optim_loop 10) s)
  end.
  left. reflexivity.
Defined.

(** The theorem on two iterations of [mfLiveBatch] from a fresh
    object, which return. *)
Lemma observations_stay_aligned_witness :
  exists s : MF.Self unit env_toy (list point),
    live [4%nat; 2%nat] [[1]; [1]; [1]; [1]; [0]; [0]] = Ret s /\
    fst (MF.iterate 2 (MF.optim_loop 10) s) = Returns tt /\
    MF.aligned (snd (MF.iterate 2 (MF.optim_loop 10) s)).
Proof.
  eexists. split; [reflexivity|].
  match goal with
  | |- fst (MF.iterate _ _ ?s) = _ /\ _ => set (s0 := s)
  end.
  assert (Hrun : fst (MF.iterate 2 (MF.optim_loop 10) s0) = Returns tt)
    by (vm_compute; reflexivity).
  split; [exact Hrun|].
  pose proof (observations_stay_aligned unit env_toy (list point) 10 2
                (MF.optim_loop 10) s0 (or_introl eq_refl)
                (conj eq_refl eq_refl)) as H.
  rewrite Hrun in H. exact H.
Defined.

(** When the environment hands back fewer values than inputs, the
    ingestion raises on the first input without a value, which is then
    in [X] without a value in [Y]. *)
Lemma input_without_value :
  exists s : MF.Self unit env_toy (list point),
    live [] [] = Ret s /\
    fst (MF.ingest [[1]; [0]] [2; 2]%Z (MF.set_new_obs (Some [5]) s))
    = Raises IndexError /\
    MF.X (snd (MF.ingest [[1]; [0]] [2; 2]%Z (MF.set_new_obs (Some [5]) s)))
    = [[]; []; [[1]; [0]]] /\
    MF.Y (snd (MF.ingest [[1]; [0]] [2; 2]%Z (MF.set_new_obs (Some [5]) s)))
    = [[]; []; [5]].
Proof.
  eexists. split; [reflexivity|]. repeat split; vm_compute; reflexivity.
Qed.

End RecordFacts.

(* ===================================================================== *)
(** * The size of the per-fidelity tables *)
(* ===================================================================== *)

Module SizedFacts.

Import PyFacts MonadFacts Frames LoopFacts.

Lemma set_index_len {A} (l l' : list A) (i : Z) (a : A) :
  set_index l i a = Ret l' -> len l' = len l.
Proof.
  intros H. apply set_index_ret in H. destruct H as (j & _ & ->).
  unfold len. rewrite length_replace_nth. reflexivity.
Qed.

Lemma append_at_len {A} (l l' : list (list A)) (i : Z) (a : A) :
  append_at l i a = Ret l' -> len l' = len l.
Proof.
  intros H. apply append_at_ret in H. destruct H as (j & row & _ & _ & ->).
  unfold len. rewrite length_replace_nth. reflexivity.
Qed.


Lemma len_range (n : Z) : (0 <= n)%Z -> len (range n) = n.
Proof. intros H. unfold len. rewrite length_range. lia. Qed.

Section Controller.

Context (gp E rng : Type).
Context {SurrogateGP : Surrogate gp}.
Context {EnvE : Environment E}.
Context {Num : Numerics rng}.

Let Self : Type := MF.Self gp E rng.

Lemma len_per_fidelity {A} (n : Z) (a : A) :
  (0 <= n)%Z -> len (@MF.per_fidelity A n a) = n.
Proof.
  intros H. unfold MF.per_fidelity. rewrite len_map. apply len_range, H.
Qed.

Let R : Self -> Self -> Prop := fun s s' => MF.sized s -> MF.sized s'.

Let Rr : forall s, R s s.
Proof. intros s H. exact H. Qed.

Let Rt : forall s1 s2 s3, R s1 s2 -> R s2 s3 -> R s1 s3.
Proof. intros s1 s2 s3 H12 H23 H. auto. Qed.

(** After a straight-line body: every table that was written has the
    length it had. *)
Ltac sizes :=
  repeat match goal with
         | H : set_index _ _ _ = Ret _ |- _ => apply set_index_len in H
         | H : append_at _ _ _ = Ret _ |- _ => apply append_at_len in H
         end;
  unfold MF.sized in *; cbn in *;
  intuition (try congruence); apply len_per_fidelity; lia.

Ltac leaf := let s := fresh "s" in intros s; unfold R; exec; sizes.

Lemma count_fidelity_sized (new_M_int : Z) :
  preserves R (MF.count_fidelity new_M_int).
Proof. unfold MF.count_fidelity. leaf. Qed.

Lemma record_observation_sized (fid : Z) (x : outcome point)
    (y : outcome Q) :
  preserves R (MF.record_observation fid x y).
Proof.
  intros s. unfold R, MF.record_observation, bind, get, lift, modify, ret.
  destruct (append_eval (MF.X s) fid x) as [[xs xv]|e] eqn:Hx; cbn;
    [|auto].
  apply IngestFacts.append_eval_ret in Hx. destruct Hx as [_ Hx].
  destruct (append_eval (MF.Y s) fid y) as [[ys yv]|e] eqn:Hy; cbn.
  - apply IngestFacts.append_eval_ret in Hy. destruct Hy as [_ Hy].
    destruct (append_at (MF.T s) fid (MF.current_time s + 1)%Z) eqn:Ht; cbn;
      sizes.
  - sizes.
Qed.

Lemma update_max_value_sized (fid : Z) (y : Q) :
  preserves R (MF.update_max_value fid y).
Proof. unfold MF.update_max_value. leaf. Qed.

Lemma update_beta_sized : preserves R MF.update_beta.
Proof. unfold MF.update_beta. leaf. Qed.

Lemma mfUCB_update_beta_sized : preserves R MF.mfUCB_update_beta.
Proof. unfold MF.mfUCB_update_beta. leaf. Qed.

Lemma collect_bias_sized (x : point) (y : Q) :
  preserves R (MF.collect_bias x y).
Proof.
  unfold MF.collect_bias.
  keeps_with Rr Rt
    ltac:(idtac;
          match goal with
          | |- preserves _ (bind get (fun _ => bind (lift _) _)) => solve [leaf]
          end).
Qed.

Lemma update_model_sized (update_set : list Z) :
  preserves R (MF.update_model update_set).
Proof.
  unfold MF.update_model.
  keeps_with Rr Rt
    ltac:(idtac;
          match goal with
          | |- preserves _ (bind get (fun _ => bind (lift _) _)) => solve [leaf]
          end).
Qed.

Lemma update_model_bias_sized (update_set : list Z) :
  preserves R (MF.update_model_bias update_set).
Proof.
  unfold MF.update_model_bias.
  keeps_with Rr Rt
    ltac:(idtac;
          match goal with
          | |- preserves _ (bind get (fun _ => bind (lift _) _)) => solve [leaf]
          end).
Qed.

Lemma refresh_hyperparams_sized (fid n_obs : Z) (base : option Z) :
  preserves R (MF.refresh_hyperparams fid n_obs base).
Proof. unfold MF.refresh_hyperparams. leaf. Qed.

Lemma mfUCBPlus_update_hyperparams_sized :
  preserves R MF.mfUCBPlus_update_hyperparams.
Proof.
  unfold MF.mfUCBPlus_update_hyperparams. intros s. unfold R. exec.
  all: try solve [sizes].
  all: match goal with
       | |- context [for_each ?l ?body ?s1] =>
           assert (Hbody : forall fid2, preserves R (body fid2))
             by (intros fid2; leaf);
           pose proof (preserves_for_each R Rr Rt l body Hbody s1) as Hall;
           unfold Self in Hall; revert Hall;
           destruct (for_each l body s1) as [[[]|e|] s2]
       end.
  all: cbn [snd]; intros Hall Hs; apply Hall; revert Hs; sizes.
Qed.

Lemma loops_keep_sized (fuel : nat) (loop : MF.Method gp E rng unit) :
  In loop (MF.optim_loops fuel) -> preserves R loop.
Proof.
  loops_keep Rr Rt
    ltac:(first [ simple apply count_fidelity_sized
                | simple apply record_observation_sized
                | simple apply update_max_value_sized
                | simple apply update_beta_sized
                | simple apply mfUCB_update_beta_sized
                | simple apply collect_bias_sized
                | simple apply update_model_sized
                | simple apply update_model_bias_sized
                | simple apply refresh_hyperparams_sized
                | simple apply mfUCBPlus_update_hyperparams_sized ]).
Qed.




(** X7.  The tables keep their size: if every per-fidelity table has
    [num_of_fidelities] entries (as after the constructors), it still has
    after any number of iterations of [optim_loop], of [mfLiveBatch],
    [mfUCB] or [mfUCBPlus], whatever their outcome; in particular after
    an iteration that raised. *)
Theorem tables_keep_their_size
    (fuel n : nat) (loop : MF.Method gp E rng unit) (s : Self) :
  In loop (MF.optim_loops fuel) ->
  MF.sized s ->
  MF.sized (snd (MF.iterate n loop s)).
Proof.
  intros Hloop.
  exact (iterate_keeps gp E rng R Rr Rt n loop
           (loops_keep_sized fuel loop Hloop) s).
Qed.

End Controller.

Import Toy.


(** The theorem on two iterations of [mfUCB] in the concrete setting. *)
Lemma tables_keep_their_size_witness :
  exists s : MF.Self unit env_toy (list point),
    sequential [4%nat; 2%nat] [[1]; [1]; [1]; [1]; [0]; [1]] = Ret s /\
    MF.sized (snd (MF.iterate 2 (MF.mfUCB_optim_loop 10) s)).
Proof.
  eexists. split; [reflexivity|].
  match goal with
  | |- MF.sized (snd (MF.iterate _ _ ?s)) =>
      apply (tables_keep_their_size unit env_toy (list point) 10 2
               (MF.mfUCB_optim_loop 10) s)
  end.
  - right. left. reflexivity.
  - unfold MF.sized. cbn. repeat split; lia.
Defined.

End SizedFacts.

(* ===================================================================== *)
(** * Time steps and [run_optim] *)
(* ===================================================================== *)

Module TimeFacts.

Import PyFacts MonadFacts Frames LoopFacts.

Section Controller.

Context (gp E rng : Type).
Context {SurrogateGP : Surrogate gp}.
Context {EnvE : Environment E}.
Context {Num : Numerics rng}.

Let Self : Type := MF.Self gp E rng.

(** Neither the time nor the budget moves. *)
Let R : Self -> Self -> Prop :=
  fun s s' =>
    MF.budget s' = MF.budget s /\ MF.current_time s' = MF.current_time s.

Let Rr : forall s, R s s.
Proof. intros s. split; reflexivity. Qed.

Let Rt : forall s1 s2 s3, R s1 s2 -> R s2 s3 -> R s1 s3.
Proof. intros s1 s2 s3 [A1 A2] [B1 B2]. split; congruence. Qed.

Lemma one_step_bind {A B} (m : MF.Method gp E rng A)
    (k : A -> MF.Method gp E rng B) :
  preserves R m -> (forall a, MF.one_step (k a)) -> MF.one_step (bind m k).
Proof.
  intros Hm Hk s. unfold bind. specialize (Hm s).
  destruct (m s) as [[a| |] s1]; cbn [fst snd] in *.
  - destruct Hm as [Hb Ht]. destruct (Hk a s1) as [Hb' Ht'].
    rewrite Hb', Ht', Hb, Ht. auto.
  - exact Hm.
  - exact Hm.
Qed.

Lemma one_step_tick : MF.one_step (@MF.tick gp E rng).
Proof. intros s. split; reflexivity. Qed.

Lemma loops_take_one_step (fuel : nat) (loop : MF.Method gp E rng unit) :
  In loop (MF.optim_loops fuel) -> MF.one_step loop.
Proof.
  intros H; unfold MF.optim_loops in H; cbn [In] in H;
    destruct H as [<-|[<-|[<-|[]]]];
    unfold MF.optim_loop, MF.mfUCB_optim_loop, MF.mfUCBPlus_optim_loop;
    repeat (simple apply one_step_bind; [keeps_with Rr Rt ltac:(fail)|intros]);
    repeat match goal with
           | |- MF.one_step (match ?p with _ => _ end) => destruct p
           end;
    repeat (simple apply one_step_bind; [keeps_with Rr Rt ltac:(fail)|intros]);
    repeat match goal with
           | |- MF.one_step (match ?p with _ => _ end) => destruct p
           end;
    repeat (simple apply one_step_bind; [keeps_with Rr Rt ltac:(fail)|intros]);
    apply one_step_tick.
Qed.

(** X8.  Every [optim_loop], of [mfLiveBatch], [mfUCB] or [mfUCBPlus],
    takes exactly one time step when it returns ([current_time] goes up
    by one), leaves [current_time] as it was when it raises, and never
    changes [budget]. *)
Theorem optim_loop_takes_one_time_step
    (fuel : nat) (loop : MF.Method gp E rng unit) (s : Self) :
  In loop (MF.optim_loops fuel) ->
  MF.budget (snd (loop s)) = MF.budget s /\
  MF.current_time (snd (loop s))
  = match fst (loop s) with
    | Returns _ => (MF.current_time s + 1)%Z
    | _ => MF.current_time s
    end.
Proof. intros Hloop. exact (loops_take_one_step fuel loop Hloop s). Qed.

Lemma iterate_time (loop : MF.Method gp E rng unit) :
  MF.one_step loop ->
  forall (n : nat) (s s' : Self) (u : unit),
    MF.iterate n loop s = (Returns u, s') ->
    MF.budget s' = MF.budget s /\
    MF.current_time s' = (MF.current_time s + Z.of_nat n)%Z.
Proof.
  intros Hloop. induction n as [|n IH]; intros s s' u H; cbn [MF.iterate] in H.
  - inv_step H. split; [reflexivity|lia].
  - apply bind_ret_inv in H. destruct H as (a & s1 & H1 & H).
    destruct (Hloop s) as [Hb Ht]. rewrite H1 in Hb, Ht. cbn in Hb, Ht.
    destruct (IH _ _ _ H) as [Hb' Ht']. split; [congruence|]. lia.
Qed.

Lemma run_optim_loop_unfolds (loop : MF.Method gp E rng unit) :
  MF.one_step loop ->
  forall (fuel : nat) (s : Self),
    (Z.to_nat (MF.budget s - MF.current_time s) <= fuel)%nat ->
    MF.run_optim_loop loop fuel s
    = MF.iterate (Z.to_nat (MF.budget s - MF.current_time s)) loop s.
Proof.
  intros Hloop. induction fuel as [|fuel IH]; intros s Hfuel;
    cbn [MF.run_optim_loop]; rewrite bind_get;
    destruct (MF.current_time s <=? MF.budget s - 1)%Z eqn:Hgo.
  - apply Z.leb_le in Hgo. lia.
  - apply Z.leb_gt in Hgo.
    replace (Z.to_nat (MF.budget s - MF.current_time s)) with O by lia.
    reflexivity.
  - apply Z.leb_le in Hgo.
    replace (Z.to_nat (MF.budget s - MF.current_time s))
      with (S (Z.to_nat (MF.budget s - MF.current_time s - 1))) by lia.
    cbn [MF.iterate]. unfold bind.
    destruct (Hloop s) as [Hb Ht].
    destruct (loop s) as [[[]| |] s1]; cbn [fst snd] in *; try reflexivity.
    rewrite IH by lia. f_equal. rewrite Hb, Ht. f_equal. lia.
  - apply Z.leb_gt in Hgo.
    replace (Z.to_nat (MF.budget s - MF.current_time s)) with O by lia.
    reflexivity.
Qed.

(** X9.  The loop of [run_optim] makes exactly
    [budget - current_time] calls of [optim_loop] (none when the budget
    is already used up), for [mfLiveBatch], [mfUCB] and [mfUCBPlus]: with
    that many passes allowed it ends as these calls in a row end, and
    when it returns the time has reached the budget. *)
Theorem run_optim_makes_budget_iterations
    (fuel0 fuel : nat) (loop : MF.Method gp E rng unit) (s : Self) :
  In loop (MF.optim_loops fuel0) ->
  (Z.to_nat (MF.budget s - MF.current_time s) <= fuel)%nat ->
  MF.run_optim_loop loop fuel s
  = MF.iterate (Z.to_nat (MF.budget s - MF.current_time s)) loop s /\
  (fst (MF.run_optim_loop loop fuel s) = Returns tt ->
   MF.current_time (snd (MF.run_optim_loop loop fuel s))
   = Z.max (MF.budget s) (MF.current_time s)).
Proof.
  intros Hloop Hfuel.
  pose proof (loops_take_one_step fuel0 loop Hloop) as Hstep.
  pose proof (run_optim_loop_unfolds loop Hstep fuel s Hfuel) as Hrun.
  split; [exact Hrun|]. rewrite Hrun. intros Hret.
  apply run_ret in Hret.
  destruct (iterate_time loop Hstep _ _ _ _ Hret) as [_ Ht].
  rewrite Ht. lia.
Qed.

End Controller.

Import Toy.

(** The theorem on one iteration of [mfLiveBatch] in the concrete
    setting. *)
Lemma optim_loop_takes_one_time_step_witness :
  exists s : MF.Self unit env_toy (list point),
    live [4%nat] [[1]; [1]; [1]; [1]] = Ret s /\
    fst (MF.optim_loop 10 s) = Returns tt /\
    MF.current_time (snd (MF.optim_loop 10 s)) = 1%Z.
Proof.
  eexists. split; [reflexivity|].
  match goal with
  | |- fst (?m ?s) = Returns ?r /\ _ =>
      assert (Hrun : fst (m s) = Returns r) by (vm_compute; reflexivity);
      split; [exact Hrun|];
      destruct (optim_loop_takes_one_time_step unit env_toy (list point)
                  10 m s) as [_ Ht];
      [ left; reflexivity | rewrite Hrun in Ht; exact Ht ]
  end.
Defined.

(** The theorem on [mfLiveBatch(env, beta = 1, budget = 10)] from a
    fresh object: ten iterations. *)
Lemma run_optim_makes_budget_iterations_witness :
  exists s : MF.Self unit env_toy (list point),
    live [4%nat] [[1]; [1]; [1]; [1]] = Ret s /\
    MF.run_optim_loop (MF.optim_loop 10) 10 s
    = MF.iterate 10 (MF.optim_loop 10) s.
Proof.
  eexists. split; [reflexivity|].
  match goal with
  | |- MF.run_optim_loop _ _ ?s = _ =>
      apply (run_optim_makes_budget_iterations unit env_toy (list point)
               10 10 (MF.optim_loop 10) s)
  end.
  - left. reflexivity.
  - cbn. lia.
Defined.

End TimeFacts.

(* ===================================================================== *)
(** * The choice of the fidelity *)
(* ===================================================================== *)

Module ChoiceFacts.

Import PyFacts MonadFacts Frames LoopFacts.

Lemma nth_error_range (n : Z) (p : nat) (v : Z) :
  nth_error (range n) p = Some v -> v = Z.of_nat p.
Proof.
  unfold range. intros H.
  assert (Hp : (p < List.length (map Z.of_nat (seq 0 (Z.to_nat n))))%nat)
    by (apply nth_error_Some; congruence).
  rewrite length_map, length_seq in Hp.
  apply (nth_error_nth _ _ (Z.of_nat 0)) in H. rewrite <- H.
  rewrite map_nth, seq_nth by exact Hp. reflexivity.
Qed.

Lemma range_has (n j : Z) :
  (0 <= j < n)%Z -> nth_error (range n) (Z.to_nat j) = Some j.
Proof.
  intros Hj.
  destruct (nth_error (range n) (Z.to_nat j)) as [v|] eqn:E.
  - apply nth_error_range in E. f_equal. lia.
  - apply nth_error_None in E. rewrite length_range in E. lia.
Qed.

(** Where [m] stands in [range(n)], the larger numbers come after
    it. *)
Lemma range_split (n m : Z) (l1 l2 : list Z) :
  range n = l1 ++ m :: l2 ->
  (0 <= m < n)%Z /\ forall j, (m < j < n)%Z -> In j l2.
Proof.
  intros H.
  assert (Hm : nth_error (range n) (List.length l1) = Some m).
  { rewrite H, nth_error_app2, Nat.sub_diag by lia. reflexivity. }
  pose proof (nth_error_range _ _ _ Hm) as Em.
  assert (Hlt : (List.length l1 < Z.to_nat n)%nat).
  { rewrite <- length_range. apply nth_error_Some. congruence. }
  split; [lia|]. intros j Hj.
  pose proof (range_has n j ltac:(lia)) as Hget.
  rewrite H, nth_error_app2 in Hget by lia.
  destruct (Z.to_nat j - List.length l1)%nat as [|k] eqn:Ek; [lia|].
  cbn in Hget. exact (nth_error_In _ _ Hget).
Qed.

Lemma rev_range_split (n m : Z) (pre post : list Z) :
  rev (range n) = pre ++ m :: post ->
  (0 <= m < n)%Z /\ forall j, (m < j < n)%Z -> In j pre.
Proof.
  intros H. apply (f_equal (@rev Z)) in H.
  rewrite rev_involutive, rev_app_distr in H. cbn [rev] in H.
  rewrite <- app_assoc in H. cbn [app] in H.
  destruct (range_split _ _ _ _ H) as [Hm Hin].
  split; [exact Hm|]. intros j Hj. apply in_rev. apply Hin, Hj.
Qed.

Section Controller.

Context (gp E rng : Type).
Context {SurrogateGP : Surrogate gp}.
Context {EnvE : Environment E}.
Context {Num : Numerics rng}.

Let Self : Type := MF.Self gp E rng.

(** One pass of the fidelity loop, in terms of the signal it
    compares. *)
Lemma choose_fidelity_step (s : Self) (new_X : point) (scaled : bool)
    (i : Z) (rest : list Z) (last : option Z) :
  MF.choose_fidelity_from s new_X scaled (i :: rest) last
  = if (i =? 0)%Z then Ret i
    else
      (t <~ MF.fidelity_signal s new_X scaled i ;;
       ft <~ index (MF.fidelity_thresholds s) i ;;
       if Qltb ft t then Ret i
       else MF.choose_fidelity_from s new_X scaled rest (Some i))%outcome.
Proof.
  cbn [MF.choose_fidelity_from]. unfold MF.fidelity_signal.
  destruct (i =? 0)%Z; [reflexivity|].
  destruct (index (MF.X s) i) as [Xi|]; cbn [obind]; [|reflexivity].
  destruct (nonempty Xi).
  - destruct (index (MF.model s) i); cbn [obind]; [|reflexivity].
    destruct scaled; [|reflexivity].
    destruct (index (MF.beta s) i); reflexivity.
  - destruct (index (MF.gp_hyperparams s) i); cbn [obind]; [|reflexivity].
    destruct scaled; [|reflexivity].
    destruct (index (MF.beta s) i); reflexivity.
Qed.

(** Fidelity [i] is passed over: its signal does not exceed its
    threshold. *)
Let passed (s : Self) (new_X : point) (scaled : bool) (i : Z) : Prop :=
  exists t ft,
    MF.fidelity_signal s new_X scaled i = Ret t /\
    index (MF.fidelity_thresholds s) i = Ret ft /\ t <= ft.

(** Fidelity [i] is taken: its signal exceeds its threshold. *)
Let taken (s : Self) (new_X : point) (scaled : bool) (i : Z) : Prop :=
  exists t ft,
    MF.fidelity_signal s new_X scaled i = Ret t /\
    index (MF.fidelity_thresholds s) i = Ret ft /\ ft < t.

Lemma choose_fidelity_from_spec (s : Self) (new_X : point) (scaled : bool) :
  forall (fids : list Z) (last : option Z) (m : Z),
    In 0%Z fids ->
    MF.choose_fidelity_from s new_X scaled fids last = Ret m ->
    exists pre post,
      fids = pre ++ m :: post /\
      Forall (passed s new_X scaled) pre /\
      (m = 0%Z \/ taken s new_X scaled m).
Proof.
  induction fids as [|i rest IH]; intros last m Hzero H; [destruct Hzero|].
  rewrite choose_fidelity_step in H.
  destruct (i =? 0)%Z eqn:Hi.
  - injection H as <-. apply Z.eqb_eq in Hi.
    exists [], rest. split; [reflexivity|]. split; [constructor|].
    left. exact Hi.
  - apply Z.eqb_neq in Hi.
    destruct Hzero as [Hzero|Hzero]; [congruence|].
    destruct (MF.fidelity_signal s new_X scaled i) as [t|] eqn:Ht;
      cbn [obind] in H; [|discriminate].
    destruct (index (MF.fidelity_thresholds s) i) as [ft|] eqn:Hft;
      cbn [obind] in H; [|discriminate].
    destruct (Qltb ft t) eqn:Hlt.
    + injection H as <-. apply Qltb_lt in Hlt.
      exists [], rest. split; [reflexivity|]. split; [constructor|].
      right. exists t, ft. auto.
    + apply Qltb_ge in Hlt.
      destruct (IH _ _ Hzero H) as (pre & post & -> & Hpre & Hm).
      exists (i :: pre), post. split; [reflexivity|].
      split; [|exact Hm]. constructor; [|exact Hpre].
      exists t, ft. auto.
Qed.

Lemma zero_closes_the_loop (n : Z) : (1 <= n)%Z -> In 0%Z (rev (range n)).
Proof.
  intros Hn. apply -> in_rev.
  assert (H0 : (0 <= 0 < n)%Z) by lia.
  exact (nth_error_In _ _ (range_has _ 0 H0)).
Qed.

Lemma no_fidelity_no_choice (s : Self) (new_X : point) (scaled : bool) :
  (MF.num_of_fidelities s <= 0)%Z ->
  MF.choose_fidelity s new_X scaled = Raise UnboundLocalError.
Proof.
  intros Hn. unfold MF.choose_fidelity, range.
  replace (Z.to_nat (MF.num_of_fidelities s)) with O by lia. reflexivity.
Qed.

(** The fidelity that the loop returns is a fidelity level. *)
Lemma choose_fidelity_in_range
    (s : Self) (new_X : point) (scaled : bool) (m : Z) :
  MF.choose_fidelity s new_X scaled = Ret m ->
  (0 <= m < MF.num_of_fidelities s)%Z.
Proof.
  intros H.
  destruct (Z_le_gt_dec (MF.num_of_fidelities s) 0) as [Hn|Hn].
  - rewrite no_fidelity_no_choice in H by exact Hn. discriminate.
  - assert (Hn1 : (1 <= MF.num_of_fidelities s)%Z) by lia.
    unfold MF.choose_fidelity in H.
    destruct (choose_fidelity_from_spec _ _ _ _ _ _
                (zero_closes_the_loop _ Hn1) H)
      as (pre & post & Hsplit & _).
    apply (rev_range_split _ _ _ _ Hsplit).
Qed.

(** X10.  The fidelity loop of [optimise_af] returns the cheapest
    fidelity (the largest index) whose signal, the standard deviation at
    [new_X] times [beta] when thresholds are scaled, exceeds its entry of
    [fidelity_thresholds], and the target fidelity 0 when none does: the
    result [m] is a fidelity level, its signal exceeds its threshold
    unless [m = 0], and every cheaper fidelity was passed over.  Without
    any fidelity the loop leaves [new_M] unbound. *)
Theorem chosen_fidelity_is_cheapest_uncertain
    (s : Self) (new_X : point) (scaled : bool) :
  ((MF.num_of_fidelities s <= 0)%Z ->
   MF.choose_fidelity s new_X scaled = Raise UnboundLocalError) /\
  forall m,
    MF.choose_fidelity s new_X scaled = Ret m ->
    (0 <= m < MF.num_of_fidelities s)%Z /\
    (m <> 0%Z ->
     exists t ft,
       MF.fidelity_signal s new_X scaled m = Ret t /\
       index (MF.fidelity_thresholds s) m = Ret ft /\ ft < t) /\
    (forall j, (m < j < MF.num_of_fidelities s)%Z ->
     exists t ft,
       MF.fidelity_signal s new_X scaled j = Ret t /\
       index (MF.fidelity_thresholds s) j = Ret ft /\ t <= ft).
Proof.
  split; [apply no_fidelity_no_choice|].
  intros m H.
  - pose proof (choose_fidelity_in_range _ _ _ _ H) as Hm0.
    assert (Hzero : In 0%Z (rev (range (MF.num_of_fidelities s))))
      by (apply zero_closes_the_loop; lia).
    unfold MF.choose_fidelity in H.
    destruct (choose_fidelity_from_spec _ _ _ _ _ _ Hzero H)
      as (pre & post & Hsplit & Hpre & Hm).
    destruct (rev_range_split _ _ _ _ Hsplit) as [Hrange Hin].
    split; [exact Hrange|]. split.
    + intros Hne. destruct Hm as [Hm|Hm]; [congruence|exact Hm].
    + intros j Hj. rewrite Forall_forall in Hpre. apply Hpre, Hin, Hj.
Qed.

(** What [optimise_af] returns: the cold-start answer at time zero,
    and afterwards a point with the fidelity that the fidelity loop
    chooses for it. *)
Lemma optimise_af_answer
    (build : Self -> list point -> outcome (list Q))
    (s s' : Self) (new_X : point) (new_M : Z) :
  MF.optimise_af build s = (Returns (new_X, new_M), s') ->
  MF.num_of_fidelities s' = MF.num_of_fidelities s /\
  (new_M = (MF.num_of_fidelities s - 1)%Z \/
   exists scaled, MF.choose_fidelity s new_X scaled = Ret new_M).
Proof.
  intros H.
  same_after (@MF.num_of_fidelities gp E rng) H.
  assert (Hn : MF.num_of_fidelities s' = MF.num_of_fidelities s)
    by (symmetry; exact Hsame).
  split; [exact Hn|].
  unfold MF.optimise_af in H. rewrite bind_get in H.
  destruct (MF.current_time s =? 0)%Z.
  - destruct (uniform (MF.dim s) (MF.rng_state s)) as [x r].
    inv_bind H. inv_step H. injection H as _ <-. left. reflexivity.
  - destruct (MF.grid_search s).
    + inv_bind H. inv_bind H. inv_bind H. inv_bind H. inv_bind H.
      inv_step H. injection H as <- <-. right. eexists. eassumption.
    + destruct (multistart_ascent _ _ _ _ _) as [best r].
      inv_bind H. inv_bind H. inv_bind H. inv_bind H.
      inv_step H. injection H as <- <-. right. eexists. eassumption.
Qed.



(** X11.  Every query that [optimise_af] returns carries a fidelity
    level of the object: with at least one fidelity,
    [0 <= new_M < num_of_fidelities], at a cold start and afterwards,
    with grid search or without, and whatever [build_af] computes; and
    [optimise_af] leaves [num_of_fidelities] alone. *)
Theorem optimise_af_returns_a_fidelity
    (build : Self -> list point -> outcome (list Q))
    (s s' : Self) (new_X : point) (new_M : Z) :
  (1 <= MF.num_of_fidelities s)%Z ->
  MF.optimise_af build s = (Returns (new_X, new_M), s') ->
  (0 <= new_M < MF.num_of_fidelities s)%Z /\
  MF.num_of_fidelities s' = MF.num_of_fidelities s.
Proof.
  intros Hn H.
  destruct (optimise_af_answer build s s' new_X new_M H)
    as [Hsame [Hcold|[scaled Hwarm]]].
  - split; [lia|exact Hsame].
  - split; [|exact Hsame].
    exact (choose_fidelity_in_range s new_X scaled new_M Hwarm).
Qed.

(** The number of fidelities is never written by an iteration. *)
Lemma loops_keep_num_of_fidelities
    (fuel n : nat) (loop : MF.Method gp E rng unit) (s : Self) :
  In loop (MF.optim_loops fuel) ->
  MF.num_of_fidelities (snd (MF.iterate n loop s)) = MF.num_of_fidelities s.
Proof.
  intros Hloop. symmetry. revert s.
  change (preserves (through (@MF.num_of_fidelities gp E rng) eq)
            (MF.iterate n loop)).
  apply iterate_keeps; [intros ?; reflexivity|intros ? ? ?; apply eq_trans|].
  revert Hloop.
  loops_keep (through_refl (@MF.num_of_fidelities gp E rng) eq (@eq_refl Z))
             (through_trans (@MF.num_of_fidelities gp E rng) eq (@eq_trans Z))
             ltac:(fail).
Qed.

(** X12.  The single-fidelity classes only ever query the target
    fidelity: an object built by [UCBwILP.__init__] or
    [simpleUCB.__init__] has [num_of_fidelities = 1] whatever the
    environment says, keeps it over any number of iterations of an
    [optim_loop], and every query its [optimise_af] returns is at
    fidelity 0. *)
Theorem single_fidelity_classes_query_the_target
    (e : E) (r : rng) (beta0 : option Q)
    (fidelity_thresholds0 : option (list Q)) (lipschitz_constant0 : Q)
    (num_of_starts0 num_of_optim_epochs0 : Z)
    (hp_update_frequency0 : option Z) (budget0 : Z)
    (cost_budget0 initial_bias : Q) (local_lipschitz0 : bool)
    (fuel n : nat) (loop : MF.Method gp E rng unit)
    (build : Self -> list point -> outcome (list Q))
    (s0 s' : Self) (new_X : point) (new_M : Z) :
  MF.UCBwILP_init e r beta0 fidelity_thresholds0 lipschitz_constant0
    num_of_starts0 num_of_optim_epochs0 hp_update_frequency0 budget0
    cost_budget0 initial_bias local_lipschitz0 = Ret s0 \/
  MF.simpleUCB_init e r beta0 fidelity_thresholds0 lipschitz_constant0
    num_of_starts0 num_of_optim_epochs0 hp_update_frequency0 budget0
    cost_budget0 initial_bias = Ret s0 ->
  In loop (MF.optim_loops fuel) ->
  MF.optimise_af build (snd (MF.iterate n loop s0))
  = (Returns (new_X, new_M), s') ->
  MF.num_of_fidelities (snd (MF.iterate n loop s0)) = 1%Z /\ new_M = 0%Z.
Proof.
  intros Hinit Hloop H.
  assert (H1 : MF.num_of_fidelities s0 = 1%Z).
  { destruct Hinit as [Hinit|Hinit].
    - unfold MF.UCBwILP_init in Hinit.
      destruct (MF.init _ _ _ _ _ _ _ _ _ _ _ _ _); cbn [obind] in Hinit;
        [|discriminate].
      injection Hinit as <-. reflexivity.
    - unfold MF.simpleUCB_init in Hinit.
      destruct (MF.mfUCB_init _ _ _ _ _ _ _ _ _ _ _ _); cbn [obind] in Hinit;
        [|discriminate].
      injection Hinit as <-. reflexivity. }
  pose proof (loops_keep_num_of_fidelities fuel n loop s0 Hloop) as Hn.
  rewrite H1 in Hn. split; [exact Hn|].
  destruct (optimise_af_answer build _ s' new_X new_M H)
    as [_ [Hcold|[scaled Hwarm]]].
  - lia.
  - apply choose_fidelity_in_range in Hwarm. lia.
Qed.

End Controller.

Import Toy.

(** The theorem on the state after one iteration of [mfLiveBatch] in
    the concrete setting: at [[1]] the prior deviation 1 of fidelity 2
    exceeds the threshold 0.1, and fidelity 2 is chosen. *)
Lemma chosen_fidelity_is_cheapest_uncertain_witness :
  exists s : MF.Self unit env_toy (list point),
    live [4%nat] [[1]; [1]; [1]; [1]] = Ret s /\
    MF.choose_fidelity (snd (MF.optim_loop 10 s)) [1] false = Ret 2%Z /\
    exists t ft,
      MF.fidelity_signal (snd (MF.optim_loop 10 s)) [1] false 2 = Ret t /\
      index (MF.fidelity_thresholds (snd (MF.optim_loop 10 s))) 2 = Ret ft /\
      ft < t.
Proof.
  eexists. split; [reflexivity|].
  match goal with
  | |- MF.choose_fidelity ?s1 ?x ?b = Ret ?m /\ _ =>
      assert (Hrun : MF.choose_fidelity s1 x b = Ret m)
        by (vm_compute; reflexivity);
      split; [exact Hrun|];
      apply (proj2 (chosen_fidelity_is_cheapest_uncertain
                      unit env_toy (list point) s1 x b) m Hrun);
      discriminate
  end.
Defined.

(** The theorem on the second iteration of [mfLiveBatch] in the
    concrete setting. *)
Lemma optimise_af_returns_a_fidelity_witness :
  exists s : MF.Self unit env_toy (list point),
    live [4%nat] [[1]; [1]; [1]; [1]; [0]] = Ret s /\
    fst (MF.optimise_af (@MF.build_af unit env_toy (list point) _ _)
           (snd (MF.optim_loop 10 s))) = Returns ([0], 1%Z) /\
    (0 <= 1 < 3)%Z.
Proof.
  eexists. split; [reflexivity|].
  match goal with
  | |- fst (?m ?s) = Returns ?r /\ _ =>
      assert (Hrun : fst (m s) = Returns r) by (vm_compute; reflexivity);
      split; [exact Hrun|];
      apply (optimise_af_returns_a_fidelity unit env_toy (list point)
               (@MF.build_af unit env_toy (list point) _ _) s (snd (m s)) [0] 1%Z);
      [ vm_compute; discriminate | exact (run_ret m s r Hrun) ]
  end.
Defined.

(** The theorem on [UCBwILP] in the concrete setting, whose
    environment has three fidelities: the cold-start query of a fresh
    object is at fidelity 0. *)
Lemma single_fidelity_classes_query_the_target_witness :
  exists s : MF.Self unit env_toy (list point),
    playbook [4%nat] [[1]; [1]; [1]; [1]] = Ret s /\
    env_num_of_fidelities (MF.env s) = 3%Z /\
    fst (MF.optimise_af (@MF.build_af unit env_toy (list point) _ _) s)
    = Returns ([1], 0%Z).
Proof.
  eexists. split; [reflexivity|]. split; [reflexivity|].
  match goal with
  | |- fst (?m ?s) = Returns (?x, ?f) =>
      assert (Hrun : fst (m s) = Returns (x, f)) by (vm_compute; reflexivity);
      destruct (single_fidelity_classes_query_the_target
                  unit env_toy (list point)
                  (env0 [4%nat]) [[1]; [1]; [1]; [1]] (Some 1) None 1 75 25
                  None 10 4 0 true 10 0 (MF.optim_loop 10)
                  (@MF.build_af unit env_toy (list point) _ _) s (snd (m s)) x f)
        as [_ _];
      [ left; reflexivity | left; reflexivity
      | exact (run_ret m s (x, f) Hrun) | exact Hrun ]
  end.
Defined.

End ChoiceFacts.

(* ===================================================================== *)
(** * The acquisition functions of the sequential variants *)
(* ===================================================================== *)


Module SequentialAcquisitionFacts.

Import PyFacts MonadFacts Frames LoopFacts AcquisitionFacts.

Section Controller.

Context (gp E rng : Type).
Context {SurrogateGP : Surrogate gp}.
Context {EnvE : Environment E}.
Context {Num : Numerics rng}.

Let Self : Type := MF.Self gp E rng.

Ltac look_up l i :=
  let a := fresh "a" in
  let H := fresh "Hget" in
  destruct (index_in_range l i) as [a H]; [lia|]; rewrite ?H; cbn [obind].

Lemma mfUCB_ucb_row_total (s : Self) (Xs : list point) (i : Z) :
  MF.sized s -> (0 <= i < MF.num_of_fidelities s)%Z ->
  exists row,
    MF.mfUCB_ucb_row s Xs i = Ret row /\ List.length row = List.length Xs.
Proof.
  intros (Hn & HX & _ & _ & _ & _ & Hm & _ & Hh & Hb & Hbl & _) Hi.
  unfold MF.mfUCB_ucb_row, MF.mean_std.
  look_up (MF.X s) i.
  destruct (nonempty a); [look_up (MF.model s) i|look_up (MF.gp_hyperparams s) i];
    look_up (MF.beta s) i; look_up (MF.bias_list s) i;
    (eexists; split; [reflexivity|]);
    rewrite !length_map; reflexivity.
Qed.

Lemma ucb_row_total_sized (s : Self) (Xs : list point) (i : Z) :
  MF.sized s -> (0 <= i < MF.num_of_fidelities s)%Z ->
  exists row,
    MF.ucb_row s Xs i = Ret row /\ List.length row = List.length Xs.
Proof.
  intros (Hn & HX & _ & _ & HbX & _ & Hm & Hbm & Hh & Hb & Hbl & _) Hi.
  unfold MF.ucb_row, MF.mean_std, MF.bias_mean_std.
  look_up (MF.X s) i.
  destruct (nonempty a); [look_up (MF.model s) i|look_up (MF.gp_hyperparams s) i];
    look_up (MF.bias_X s) i;
    (destruct (nonempty a1);
     [look_up (MF.bias_model s) i
     |look_up (MF.bias_list s) i; look_up (MF.beta s) i]);
    look_up (MF.beta s) i;
    (eexists; split; [reflexivity|]);
    rewrite length_map, length_combine, !length_map; lia.
Qed.

(** An entry of a row of [ucb] in [mfUCB.build_af]. *)
Lemma mfUCB_ucb_row_entry (s : Self) (Xs : list point) (i : Z)
    (row : list Q) (j : nat) (x : point) :
  MF.mfUCB_ucb_row s Xs i = Ret row -> nth_error Xs j = Some x ->
  exists u, nth_error row j = Some u /\ MF.mfUCB_ucb s i x = Ret u.
Proof.
  unfold MF.mfUCB_ucb_row, MF.mean_std, MF.mfUCB_ucb.
  intros H Hx.
  destruct (index (MF.X s) i) as [Xi|]; cbn [obind] in *; [|discriminate].
  destruct (nonempty Xi);
    [destruct (index (MF.model s) i) as [m|]
    |destruct (index (MF.gp_hyperparams s) i) as [h|]];
    cbn [obind] in *; try discriminate;
    (destruct (index (MF.beta s) i) as [b|]; cbn [obind] in *;
     [|discriminate]);
    (destruct (index (MF.bias_list s) i) as [bl|]; cbn [obind] in *;
     [|discriminate]);
    injection H as <-;
    rewrite map_map, nth_error_map, Hx; cbn [option_map];
    repeat match goal with
           | |- context [posterior ?m ?p] => destruct (posterior m p)
           end;
    eexists; split; reflexivity.
Qed.

(** X13.  [mfUCB.build_af(X)] and [mfUCBPlus.build_af(X)] also return,
    for every row [x] of [X], the minimum over the fidelities of the upper
    confidence bound of the fidelity at [x], without transform and
    without penalisation: on an object whose tables have one entry per
    fidelity, the value is below the bound of every fidelity and equal to
    the bound of one of them.  The bound of fidelity [i] is
    [mean + beta[i] * std + bias_list[i] * bias_constant] for [mfUCB];
    for [mfUCBPlus] it is the bias-adjusted bound of [mfLiveBatch],
    [mean + beta[i] * std + (mean_bias + beta[i] * std_bias)], where no
    [beta[i]] that divides the prior of a bias is zero. *)
Theorem sequential_build_af_is_min_over_fidelities
    (s : Self) (Xs : list point) :
  MF.sized s ->
  (exists af,
      MF.mfUCB_build_af s Xs = Ret af /\
      MF.min_over_fidelities (MF.num_of_fidelities s) (MF.mfUCB_ucb s)
        Xs af) /\
  (MF.no_zero_divisor (MF.beta_divisors s) ->
   exists af,
     MF.mfUCBPlus_build_af s Xs = Ret af /\
     MF.min_over_fidelities (MF.num_of_fidelities s) (MF.plain_ucb s)
       Xs af).
Proof.
  intros Hs. pose proof Hs as [Hn _]. split.
  - apply (min_over_rows _ Xs (MF.mfUCB_ucb_row s Xs) (MF.mfUCB_ucb s) Hn).
    + intros i Hi. apply mfUCB_ucb_row_total; assumption.
    + intros i r j x. apply mfUCB_ucb_row_entry.
  - intros _.
    apply (min_over_rows _ Xs (MF.ucb_row s Xs) (MF.plain_ucb s) Hn).
    + intros i Hi. apply ucb_row_total_sized; assumption.
    + intros i r j x. apply ucb_row_entry.
Qed.

End Controller.

Import Toy.

(** The theorem in the concrete setting, on an [mfUCB] object with
    [initial_bias = 0.1] after two iterations, which observed the inputs
    [1] and [0.25] at fidelity 2: the bounds of fidelities 0 and 1 are
    the prior values [0.6] and [0.7], the bound of fidelity 2 is [0.2],
    [0.7] and [1.2] at the inputs [0], [0.5] and [1], and the acquisition
    values are [0.2], [0.6] and [0.6]. *)
Lemma sequential_build_af_is_min_over_fidelities_witness :
  exists s s1 : MF.Self unit env_toy (list point),
    MF.mfUCB_init (env0 [1; 1]%nat) [[1]; [1 # 4]] (Some 1) None 1 75 25
      None 10 4 (1 # 10) false = Ret s /\
    MF.iterate 2 (MF.mfUCB_optim_loop 10) s = (Returns tt, s1) /\
    MF.X s1 = [[]; []; [[1]; [1 # 4]]] /\
    (exists af,
        MF.mfUCB_build_af s1 [[0]; [1 # 2]; [1]] = Ret af /\
        Forall2 Qeq af [2 # 10; 6 # 10; 6 # 10]) /\
    (exists u,
        MF.mfUCB_ucb s1 2 [1 # 2] = Ret u /\ u == 7 # 10) /\
    MF.sized s1 /\
    MF.no_zero_divisor (MF.beta_divisors s1) /\
    (exists af,
        MF.mfUCB_build_af s1 [[0]; [1 # 2]; [1]] = Ret af /\
        MF.min_over_fidelities (MF.num_of_fidelities s1) (MF.mfUCB_ucb s1)
          [[0]; [1 # 2]; [1]] af) /\
    (exists af,
        MF.mfUCBPlus_build_af s1 [[0]; [1 # 2]; [1]] = Ret af /\
        MF.min_over_fidelities (MF.num_of_fidelities s1) (MF.plain_ucb s1)
          [[0]; [1 # 2]; [1]] af).
Proof.
  eexists. eexists. split; [reflexivity|].
  split; [vm_compute; reflexivity|].
  split; [reflexivity|].
  split.
  { eexists. split; [vm_compute; reflexivity|].
    repeat (constructor; [vm_compute; reflexivity|]). constructor. }
  split.
  { eexists. split; [vm_compute; reflexivity|]. vm_compute. reflexivity. }
  match goal with
  | |- MF.sized ?s1 /\ _ =>
      assert (Hs : MF.sized s1)
        by (unfold MF.sized; cbn; repeat split; lia);
      assert (Hdiv : MF.no_zero_divisor (MF.beta_divisors s1))
        by (unfold MF.no_zero_divisor; vm_compute;
            repeat (constructor; [intros H; discriminate H|]); constructor);
      split; [exact Hs|]; split; [exact Hdiv|];
      pose proof (sequential_build_af_is_min_over_fidelities
                    unit env_toy (list point) s1 [[0]; [1 # 2]; [1]] Hs)
        as [Hucb Hplus];
      split; [exact Hucb|exact (Hplus Hdiv)]
  end.
Defined.

End SequentialAcquisitionFacts.

(* ===================================================================== *)
(** * The grid of the local Lipschitz estimate *)
(* ===================================================================== *)

Module GridFacts.

Import PyFacts.

Lemma clamp01_in_unit (x : Q) : 0 <= MF.clamp01 x <= 1.
Proof.
  unfold MF.clamp01.
  destruct (Qltb x 0) eqn:E0; [lra|]. apply Qltb_ge in E0.
  destruct (Qltb 1 x) eqn:E1; [lra|]. apply Qltb_ge in E1. lra.
Qed.

(** X14.  The grid on which [calculate_local_lipschitz] estimates the
    local Lipschitz constant stays in the domain: the global grid,
    centred on its first point, scaled by the length scales, moved to the
    penalty point and clamped, has as many points as [lipschitz_grid] and
    every coordinate of every point within [0, 1], whatever the length
    scales and the penalty point are; with an empty [lipschitz_grid],
    [grid[0]] raises [IndexError]. *)
Theorem local_grid_stays_in_the_domain
    (grid : list point) (lengthscale : list Q) (pen_point : point) :
  match MF.local_grid grid lengthscale pen_point with
  | Ret g =>
      List.length g = List.length grid /\
      Forall (Forall (fun x => 0 <= x <= 1)) g
  | Raise e => e = IndexError /\ grid = []
  end.
Proof.
  unfold MF.local_grid. destruct grid as [|g0 rest].
  - cbn. auto.
  - change (index (g0 :: rest) 0) with (Ret (A := point) g0). cbn [obind].
    split; [apply length_map|].
    apply Forall_map, Forall_forall. intros g _.
    apply Forall_map, Forall_forall. intros [[x x0] [l p]] _.
    apply clamp01_in_unit.
Qed.

End GridFacts.

(* ===================================================================== *)
(** * Penalty points and their Lipschitz constants *)
(* ===================================================================== *)

Module PenaltyFacts.

Import PyFacts MonadFacts Frames LoopFacts.

Section Controller.

Context (gp E rng : Type).
Context {SurrogateGP : Surrogate gp}.
Context {EnvE : Environment E}.
Context {Num : Numerics rng}.

Let Self : Type := MF.Self gp E rng.

(** The loop of [snapshot_batch] over the in-flight queries appends one
    constant per query and leaves the batch alone. *)
Lemma snapshot_loop (l : list (point * Z)) :
  forall (s s' : Self) (u : unit),
    for_each l
      (fun '(penalty_point, fidelity) =>
         bind get (fun s =>
         bind (lift (if MF.local_lipschitz s
                     then MF.calculate_local_lipschitz s penalty_point fidelity
                     else index (MF.lipschitz_constant s) fidelity))
           (fun lip =>
              modify (MF.set_lipschitz_batch_list
                        (MF.lipschitz_batch_list s ++ [lip]))))) s
    = (Returns u, s') ->
    List.length (MF.lipschitz_batch_list s')
    = (List.length (MF.lipschitz_batch_list s) + List.length l)%nat /\
    MF.current_batch s' = MF.current_batch s /\
    MF.current_batch_fids s' = MF.current_batch_fids s.
Proof.
  induction l as [|[p f] rest IH]; intros s s' u H; cbn [for_each] in H.
  - inv_step H. cbn. auto with arith.
  - inv_bind H. inv_bind Hrun. inv_bind Hrun. inv_step Hrun.
    destruct (IH _ _ _ H) as (Hlen & Hb & Hf).
    rewrite Hlen, Hb, Hf. cbn. rewrite length_app. cbn. repeat split. lia.
Qed.

(** X15.  [optim_loop] starts by giving every query in flight its
    Lipschitz constant: when the snapshot at the head of
    [mfLiveBatch.optim_loop] returns, [current_batch] and
    [current_batch_fids] are the in-flight queries and fidelities of the
    environment, and [lipschitz_batch_list], emptied first, holds one
    constant per pair of them, what the penalisation loop of [build_af]
    indexes. *)
Theorem snapshot_gives_every_query_a_constant (s s' : Self) (u : unit) :
  MF.snapshot_batch s = (Returns u, s') ->
  MF.current_batch s' = query_list (MF.env s) /\
  MF.current_batch_fids s' = fidelities_list (MF.env s) /\
  MF.penalty_ready s'.
Proof.
  unfold MF.snapshot_batch. intros H.
  inv_bind H. inv_bind H. inv_bind H. inv_bind H.
  apply snapshot_loop in H. cbn in H. destruct H as (Hlen & Hb & Hf).
  unfold MF.penalty_ready. rewrite Hlen, Hb, Hf. auto.
Qed.

(** X16.  A pass of the batch-filling loop of [mfLiveBatch.optim_loop]
    that returns has appended its query to [current_batch] and
    [current_batch_fids]; and if every penalty point had its Lipschitz
    constant before the pass and the loop goes on
    ([batch_costs < cost_budget]), every penalty point has one after it:
    [build_af] never runs out of constants in the next pass. *)
Theorem fill_step_keeps_constants_in_step
    (s s' : Self) (new_X : point) (new_M : Z) :
  MF.penalty_ready s ->
  MF.fill_step s = (Returns (new_X, new_M), s') ->
  MF.current_batch s' = MF.current_batch s ++ [new_X] /\
  MF.current_batch_fids s' = MF.current_batch_fids s ++ [new_M] /\
  (MF.batch_costs s' < MF.cost_budget s' -> MF.penalty_ready s').
Proof.
  unfold MF.fill_step, MF.penalty_ready. intros Hready H.
  inv_bind H.
  same_after (fun s : Self =>
                (MF.lipschitz_batch_list s, MF.current_batch s,
                 MF.current_batch_fids s)) Hrun.
  injection Hsame as Hl Hb Hf. rewrite Hl, Hb, Hf in Hready. clear Hl.
  rewrite Hb, Hf. clear Hb Hf.
  inv_bind H. inv_bind H. inv_bind H. inv_bind H. inv_bind H. inv_bind H.
  inv_bind H. inv_step H. injection H as -> ->.
  match type of Hrun1 with
  | when ?t _ _ = _ => destruct t eqn:Hgo; cbn [when] in Hrun1
  end.
  - inv_bind Hrun1. inv_step Hrun1. cbn. repeat split. intros _.
    rewrite !length_app, !length_combine, !length_app in *. cbn. lia.
  - inv_step Hrun1. cbn. repeat split. intros Hlt.
    apply Qltb_ge in Hgo. cbn in Hgo. lra.
Qed.

End Controller.

Import Toy.

(** The theorem at the head of the second iteration of [mfLiveBatch]
    in the concrete setting, with three queries still in flight. *)
Lemma snapshot_gives_every_query_a_constant_witness :
  exists s : MF.Self unit env_toy (list point),
    live [1%nat] [[1]; [1 # 4]; [1]; [1]] = Ret s /\
    fst (MF.snapshot_batch (snd (MF.optim_loop 10 s))) = Returns tt /\
    MF.current_batch (snd (MF.snapshot_batch (snd (MF.optim_loop 10 s))))
    = [[1 # 4]; [1]; [1]] /\
    MF.penalty_ready (snd (MF.snapshot_batch (snd (MF.optim_loop 10 s)))).
Proof.
  eexists. split; [reflexivity|].
  match goal with
  | |- fst (?m ?s) = Returns ?r /\ _ =>
      assert (Hrun : fst (m s) = Returns r) by (vm_compute; reflexivity);
      split; [exact Hrun|]; split; [vm_compute; reflexivity|];
      apply (snapshot_gives_every_query_a_constant unit env_toy (list point)
               s (snd (m s)) r (run_ret m s r Hrun))
  end.
Defined.

(** The theorem on the first pass of the first iteration of
    [mfLiveBatch] in the concrete setting. *)
Lemma fill_step_keeps_constants_in_step_witness :
  exists s : MF.Self unit env_toy (list point),
    live [4%nat] [[1]; [1]; [1]; [1]] = Ret s /\
    fst (MF.fill_step s) = Returns ([1], 2%Z) /\
    MF.current_batch (snd (MF.fill_step s)) = [[1]] /\
    MF.penalty_ready (snd (MF.fill_step s)).
Proof.
  eexists. split; [reflexivity|].
  match goal with
  | |- fst (?m ?s) = Returns (?x, ?f) /\ _ =>
      assert (Hrun : fst (m s) = Returns (x, f)) by (vm_compute; reflexivity);
      split; [exact Hrun|];
      destruct (fill_step_keeps_constants_in_step unit env_toy (list point)
                  s (snd (m s)) x f) as (Hb & _ & Hready);
      [ reflexivity | exact (run_ret m s (x, f) Hrun) | ];
      split; [exact Hb|apply Hready; vm_compute; reflexivity]
  end.
Defined.

End PenaltyFacts.

(* ===================================================================== *)
(** * More on the trust-region state *)
(* ===================================================================== *)

Module TrustRegionFacts.

Import PyFacts.

#[local] Arguments Py.Qltb : simpl never.
#[local] Arguments F.max2 : simpl never.
#[local] Arguments F.gt : simpl never.
#[local] Arguments Turbo.threshold : simpl never.
#[local] Arguments Z.eqb : simpl never.

Ltac split_ifs :=
  repeat match goal with
         | |- context [if ?c then _ else _] => destruct c eqn:?
         end.

Lemma Qceiling_of_Z (z : Z) : Qceiling (inject_Z z / inject_Z 1) = z.
Proof.
  rewrite <- (Qceiling_Z z) at 2. apply Qceiling_comp.
  unfold Qdiv. change (/ inject_Z 1) with 1. ring.
Qed.

(** X17.  For a dimension [d] that [float(d)] represents exactly (up to
    [2 ** 53] in absolute value), [TurboState(dim = d)] is constructed
    and its [__post_init__] sets [failure_tolerance] to [max(4, d)] (the
    batch size is 1): a shrink takes four failures in a row in up to four
    dimensions, and [d] in more. *)
Theorem fresh_state_failure_tolerance (d : Z) :
  (Z.abs d <= 2 ^ 53)%Z ->
  exists st,
    Turbo.new d = Ret st /\
    Turbo.failure_tolerance st = Z.max 4 d /\
    Turbo.dim st = d /\ Turbo.batch_size st = 1%Z.
Proof.
  intros Hd. unfold Turbo.new, Turbo.post_init.
  cbn [Turbo.batch_size Turbo.dim Z.eqb].
  change (1 =? 0)%Z with false. cbv iota.
  unfold float_of_int.
  replace (Z.abs d <=? 2 ^ 53)%Z with true
    by (symmetry; apply Z.leb_le; exact Hd).
  cbn [obind].
  eexists. split; [reflexivity|]. cbn -[Qceiling Py.max2 Qdiv].
  split; [|split; reflexivity].
  unfold Py.max2.
  destruct (Qltb (4 / inject_Z 1) (inject_Z d / inject_Z 1)) eqn:E.
  - apply Qltb_lt in E. rewrite Qceiling_of_Z.
    unfold Qdiv in E. change (/ inject_Z 1) with 1 in E.
    rewrite !Qmult_1_r in E. change 4 with (inject_Z 4) in E.
    rewrite <- Zlt_Qlt in E. lia.
  - apply Qltb_ge in E. change 4 with (inject_Z 4).
    rewrite Qceiling_of_Z.
    unfold Qdiv in E. change (/ inject_Z 1) with 1 in E.
    rewrite !Qmult_1_r in E. change 4 with (inject_Z 4) in E.
    rewrite <- Zle_Qle in E. lia.
Qed.

(** The theorem in twenty dimensions. *)
Lemma fresh_state_failure_tolerance_witness :
  exists st,
    Turbo.new 20 = Ret st /\ Turbo.failure_tolerance st = 20%Z.
Proof.
  destruct (fresh_state_failure_tolerance 20) as (st & Hnew & Htol & _).
  - vm_compute. discriminate.
  - exists st. split; [exact Hnew|exact Htol].
Defined.

(** Beyond [2 ** 53] the tolerance is the rounded dimension, and a
    dimension that no double holds raises. *)
Lemma fresh_state_rounds_dim :
  exists st,
    Turbo.new (2 ^ 53 + 1) = Ret st /\
    Turbo.failure_tolerance st = (2 ^ 53)%Z.
Proof. eexists. split; vm_compute; reflexivity. Qed.

Lemma fresh_state_dim_overflows :
  Turbo.new (10 ^ 400) = Raise OverflowError.
Proof. vm_compute. reflexivity. Qed.

(** ** The best value *)

Lemma update_state_best (st st' : Turbo.TurboState) (Y_next : list Q) :
  Turbo.update_state st Y_next = Ret st' ->
  exists y,
    max_seq Y_next = Ret y /\
    Turbo.best_value st' = F.max2 (Turbo.best_value st) (Fin y).
Proof.
  unfold Turbo.update_state.
  destruct (max_seq Y_next) as [y|]; cbn [obind]; [|discriminate].
  intros H. injection H as <-. exists y. split; [reflexivity|].
  split_ifs; reflexivity.
Qed.

Lemma max_seq_spec (Y : list Q) (y : Q) :
  max_seq Y = Ret y -> In y Y /\ forall y', In y' Y -> y' <= y.
Proof.
  destruct Y as [|a r]; [discriminate|]. cbn [max_seq].
  intros H. injection H as <-.
  destruct (MaxFacts.fold_max2_spec r a) as (Ha & Hr & Hin). split.
  - destruct Hin as [->|Hin]; [left; reflexivity|right; exact Hin].
  - intros y' [<-|Hy']; [exact Ha|apply Hr, Hy'].
Qed.

Lemma max2_fin (b y : Q) :
  exists m, F.max2 (Fin b) (Fin y) = Fin m /\ b <= m /\ y <= m /\
            (m = b \/ m = y).
Proof.
  unfold F.max2, F.gt. destruct (Qltb b y) eqn:E.
  - apply Qltb_lt in E. exists y. repeat split; auto; lra.
  - apply Qltb_ge in E. exists b. repeat split; auto; lra.
Qed.

(** From a finite best value [b]: the best value stays finite, does not
    go down, bounds every observation, and is [b] or an observation. *)
Lemma best_value_from_finite (obs : list (list Q)) :
  forall (st st' : Turbo.TurboState) (b : Q),
    Turbo.update_all st obs = Ret st' ->
    Turbo.best_value st = Fin b ->
    exists m,
      Turbo.best_value st' = Fin m /\ b <= m /\
      (forall Y y, In Y obs -> In y Y -> y <= m) /\
      (m = b \/ exists Y, In Y obs /\ In m Y).
Proof.
  induction obs as [|Y rest IH]; intros st st' b H Hb; cbn [Turbo.update_all] in H.
  - injection H as <-. exists b. split; [exact Hb|]. split; [lra|].
    split; [intros Y y []|left; reflexivity].
  - destruct (Turbo.update_state st Y) as [st1|] eqn:H1; cbn [obind] in H;
      [|discriminate].
    destruct (update_state_best _ _ _ H1) as (y & Hy & Hbest).
    destruct (max_seq_spec _ _ Hy) as [Hin Hmax].
    rewrite Hb in Hbest.
    destruct (max2_fin b y) as (m1 & Hm1 & Hbm & Hym & Hcase).
    rewrite Hm1 in Hbest.
    destruct (IH _ _ _ H Hbest) as (m & Hm & Hle & Hall & Hwhich).
    exists m. split; [exact Hm|]. split; [lra|]. split.
    + intros Y' y' [<-|HY'] Hy'.
      * specialize (Hmax _ Hy'). lra.
      * exact (Hall _ _ HY' Hy').
    + destruct Hwhich as [->|(Y' & HY' & Hin')].
      * destruct Hcase as [->| ->]; [left; reflexivity|].
        right. exists Y. split; [left; reflexivity|exact Hin].
      * right. exists Y'. split; [right; exact HY'|exact Hin'].
Qed.

(** X18.  [best_value] is the best observation: after the calls of
    [update_state] for a non-empty run of observations, from a state
    whose [best_value] is still [-inf] (a fresh state), [best_value] is
    finite, is the largest value of the run, and is one of its values. *)
Theorem best_value_is_the_largest_observation
    (st st' : Turbo.TurboState) (obs : list (list Q)) :
  Turbo.best_value st = NegInf ->
  obs <> [] ->
  Turbo.update_all st obs = Ret st' ->
  exists m,
    Turbo.best_value st' = Fin m /\
    (forall Y y, In Y obs -> In y Y -> y <= m) /\
    (exists Y, In Y obs /\ In m Y).
Proof.
  intros Hinf Hne H. destruct obs as [|Y rest]; [congruence|].
  cbn [Turbo.update_all] in H.
  destruct (Turbo.update_state st Y) as [st1|] eqn:H1; cbn [obind] in H;
    [|discriminate].
  destruct (update_state_best _ _ _ H1) as (y & Hy & Hbest).
  destruct (max_seq_spec _ _ Hy) as [Hin Hmax].
  rewrite Hinf in Hbest. change (F.max2 NegInf (Fin y)) with (Fin y) in Hbest.
  destruct (best_value_from_finite rest _ _ _ H Hbest)
    as (m & Hm & Hle & Hall & Hwhich).
  exists m. split; [exact Hm|]. split.
  - intros Y' y' [<-|HY'] Hy'.
    + specialize (Hmax _ Hy'). lra.
    + exact (Hall _ _ HY' Hy').
  - destruct Hwhich as [->|(Y' & HY' & Hin')].
    + exists Y. split; [left; reflexivity|exact Hin].
    + exists Y'. split; [right; exact HY'|exact Hin'].
Qed.

(** ** The counters *)

Lemma update_state_counters (st st' : Turbo.TurboState) (Y_next : list Q) :
  Turbo.update_state st Y_next = Ret st' ->
  (1 <= Turbo.success_tolerance st)%Z ->
  (1 <= Turbo.failure_tolerance st)%Z ->
  Turbo.counters_ok st ->
  Turbo.success_tolerance st' = Turbo.success_tolerance st /\
  Turbo.failure_tolerance st' = Turbo.failure_tolerance st /\
  Turbo.counters_ok st'.
Proof.
  unfold Turbo.update_state, Turbo.counters_ok.
  destruct (max_seq Y_next) as [y|]; cbn [obind]; [|discriminate].
  intros H Hs Hf (Hsc & Hfc & Hone). injection H as <-.
  split_ifs; cbn in *;
    repeat match goal with
           | H : (_ =? _)%Z = true |- _ => apply Z.eqb_eq in H
           | H : (_ =? _)%Z = false |- _ => apply Z.eqb_neq in H
           end;
    repeat split; try reflexivity; try lia.
Qed.

(** X19.  The counters of the trust region stay below their tolerances:
    with positive tolerances (as in a fresh state), if
    [0 <= success_counter < success_tolerance],
    [0 <= failure_counter < failure_tolerance] and at most one of the two
    counters is counting, the same holds after any run of [update_state]
    calls; the tolerances themselves never change. *)
Theorem counters_stay_below_tolerances
    (obs : list (list Q)) (st st' : Turbo.TurboState) :
  (1 <= Turbo.success_tolerance st)%Z ->
  (1 <= Turbo.failure_tolerance st)%Z ->
  Turbo.counters_ok st ->
  Turbo.update_all st obs = Ret st' ->
  Turbo.success_tolerance st' = Turbo.success_tolerance st /\
  Turbo.failure_tolerance st' = Turbo.failure_tolerance st /\
  Turbo.counters_ok st'.
Proof.
  revert st. induction obs as [|Y rest IH]; intros st Hs Hf Hok H;
    cbn [Turbo.update_all] in H.
  - injection H as <-. auto.
  - destruct (Turbo.update_state st Y) as [st1|] eqn:H1; cbn [obind] in H;
      [|discriminate].
    destruct (update_state_counters _ _ _ H1 Hs Hf Hok) as (Es & Ef & Hok1).
    destruct (IH st1 ltac:(lia) ltac:(lia) Hok1 H) as (Es' & Ef' & Hok').
    repeat split; try apply Hok'; congruence.
Qed.

(** ** The restart flag *)

Lemma update_state_flag (st st' : Turbo.TurboState) (Y_next : list Q) :
  Turbo.update_state st Y_next = Ret st' ->
  Turbo.length_min st' = Turbo.length_min st /\
  Turbo.restart_triggered st'
  = (Turbo.restart_triggered st
     || Qltb (Turbo.length st') (Turbo.length_min st))%bool.
Proof.
  unfold Turbo.update_state.
  destruct (max_seq Y_next) as [y|]; cbn [obind]; [|discriminate].
  intros H. injection H as <-.
  split_ifs; cbn in *; split; try reflexivity;
    repeat match goal with
           | H : Qltb _ _ = _ |- _ => rewrite H
           end;
    rewrite ?orb_true_r, ?orb_false_r; reflexivity.
Qed.

(** X20.  [update_state] never clears the restart flag: once
    [restart_triggered] is set it stays set over any run of calls, also
    when later successes bring [length] back above [length_min] (nothing
    here restarts the region); [length_min] never changes. *)
Theorem restart_flag_is_never_cleared
    (obs : list (list Q)) (st st' : Turbo.TurboState) :
  Turbo.restart_triggered st = true ->
  Turbo.update_all st obs = Ret st' ->
  Turbo.restart_triggered st' = true /\
  Turbo.length_min st' = Turbo.length_min st.
Proof.
  revert st. induction obs as [|Y rest IH]; intros st Hflag H;
    cbn [Turbo.update_all] in H.
  - injection H as <-. auto.
  - destruct (Turbo.update_state st Y) as [st1|] eqn:H1; cbn [obind] in H;
      [|discriminate].
    destruct (update_state_flag _ _ _ H1) as [Hmin Hflag1].
    rewrite Hflag in Hflag1. cbn [orb] in Hflag1.
    destruct (IH st1 Hflag1 H) as [Hflag' Hmin'].
    split; [exact Hflag'|congruence].
Qed.

(** The theorem on the observations [3], [1, 7] and [5] fed to a fresh
    one-dimensional state: the best value is 7. *)
Lemma best_value_is_the_largest_observation_witness :
  exists st',
    Turbo.update_all
      (Turbo.mkTurboState 1 1 (8 # 10) (1 # 128) (16 # 10) 0 4 0 10 NegInf
         false)
      [[3]; [1; 7]; [5]] = Ret st' /\
    Turbo.best_value st' = Fin 7 /\
    exists m,
      Turbo.best_value st' = Fin m /\
      (forall Y y, In Y [[3]; [1; 7]; [5]] -> In y Y -> y <= m) /\
      (exists Y, In Y [[3]; [1; 7]; [5]] /\ In m Y).
Proof.
  match goal with
  | |- exists st', ?run = _ /\ _ =>
      destruct run as [st'|] eqn:Hrun; [|vm_compute in Hrun; discriminate]
  end.
  exists st'. split; [reflexivity|]. split.
  - vm_compute in Hrun. injection Hrun as <-. reflexivity.
  - apply (fun H1 H2 =>
             best_value_is_the_largest_observation _ _ _ H1 H2 Hrun);
      [reflexivity|discriminate].
Defined.

(** The theorem on five non-improving observations fed to a fresh
    one-dimensional state: the fourth failure shrinks the region and
    resets the counter, the fifth counts one. *)
Lemma counters_stay_below_tolerances_witness :
  exists st',
    Turbo.update_all
      (Turbo.mkTurboState 1 1 (8 # 10) (1 # 128) (16 # 10) 0 4 0 10 NegInf
         false)
      (Turbo.singles [0; 0; 0; 0; 0]) = Ret st' /\
    Turbo.failure_counter st' = 1%Z /\ Turbo.counters_ok st'.
Proof.
  match goal with
  | |- exists st', ?run = _ /\ _ =>
      destruct run as [st'|] eqn:Hrun; [|vm_compute in Hrun; discriminate]
  end.
  exists st'. split; [reflexivity|]. split.
  - vm_compute in Hrun. injection Hrun as <-. reflexivity.
  - apply (fun H1 H2 H3 =>
             counters_stay_below_tolerances _ _ _ H1 H2 H3 Hrun);
      [cbn; lia|cbn; lia|unfold Turbo.counters_ok; cbn; lia].
Defined.

(** The theorem on a one-dimensional state that is below [length_min]
    with its flag set, as 28 failures leave it: ten improving
    observations double its length to [0.0125], above
    [length_min = 0.0078125], and the flag is still set. *)
Lemma restart_flag_is_never_cleared_witness :
  exists st',
    Turbo.update_all
      (Turbo.mkTurboState 1 1 (1 # 160) (1 # 128) (16 # 10) 0 4 0 10 (Fin 0)
         true)
      (Turbo.singles [1; 2; 3; 4; 5; 6; 7; 8; 9; 10]) = Ret st' /\
    Turbo.length_min st' < Turbo.length st' /\
    Turbo.restart_triggered st' = true.
Proof.
  match goal with
  | |- exists st', ?run = _ /\ _ =>
      destruct run as [st'|] eqn:Hrun; [|vm_compute in Hrun; discriminate]
  end.
  exists st'. split; [reflexivity|]. split.
  - vm_compute in Hrun. injection Hrun as <-. reflexivity.
  - apply (fun H1 => restart_flag_is_never_cleared _ _ _ H1 Hrun).
    reflexivity.
Defined.

End TrustRegionFacts.

(* ===================================================================== *)
(** * Construction on a short cost table *)
(* ===================================================================== *)

Module ConstructionFacts.

Import PyFacts.

Lemma index_out_of_range {A} (l : list A) (i : Z) :
  (len l <= i)%Z -> index l i = Raise IndexError.
Proof.
  intros H. unfold index, position.
  assert (E0 : (i <? 0)%Z = false) by (apply Z.ltb_ge; unfold len in H; lia).
  rewrite E0. cbn [orb].
  assert (E1 : (len l <=? i)%Z = true) by (apply Z.leb_le; exact H).
  rewrite E0, E1. reflexivity.
Qed.

Lemma index_raises_index_error {A} (l : list A) (i : Z) (e : exn) :
  index l i = Raise e -> e = IndexError.
Proof.
  unfold index, position.
  destruct ((_ <? 0)%Z || (_ <=? _)%Z); cbn [obind].
  - intros H. injection H as <-. reflexivity.
  - destruct (nth_error l _); [discriminate|].
    intros H. injection H as <-. reflexivity.
Qed.

(** A comprehension raises what its first failing member raises. *)
Lemma omap_raises {A B} (f : A -> outcome B) (e : exn) (l : list A) :
  (forall a e', In a l -> f a = Raise e' -> e' = e) ->
  (exists a, In a l /\ f a = Raise e) ->
  omap f l = Raise e.
Proof.
  induction l as [|a r IH]; intros Hkind (a0 & Hin & Hfail); [destruct Hin|].
  cbn [omap]. destruct (f a) as [b|e'] eqn:Ha; cbn [obind].
  - destruct Hin as [<-|Hin]; [congruence|].
    rewrite IH; [reflexivity| |eauto].
    intros a' e'' Ha' Hf. apply (Hkind a'); [right; exact Ha'|exact Hf].
  - f_equal. apply (Hkind a); [left; reflexivity|exact Ha].
Qed.

Section Controller.

Context (gp E rng : Type).
Context {SurrogateGP : Surrogate gp}.
Context {EnvE : Environment E}.
Context {Num : Numerics rng}.

Let Self : Type := MF.Self gp E rng.

Lemma short_cost_table (e : E) (n : Z) (scale : Q) :
  (2 <= n)%Z -> (len (expected_costs e) < n)%Z ->
  Forall (fun c => ~ c == 0) (expected_costs e) ->
  MF.init_cost_thresholds (E := E) e n scale = Raise IndexError.
Proof.
  intros Hn Hshort Hnz. unfold MF.init_cost_thresholds.
  rewrite (omap_raises _ IndexError); [reflexivity| |].
  - intros i e' _ H.
    destruct (index (expected_costs e) i) as [a|e1] eqn:Ea; cbn [obind] in H.
    + destruct (index (expected_costs e) (i + 1)) as [b|e2] eqn:Eb;
        cbn [obind] in H.
      * (* both costs are there: the division goes through *)
        exfalso. unfold div in H.
        destruct (Qeq_bool b 0) eqn:Hz; cbn [obind] in H; [|discriminate].
        apply index_ret in Eb. destruct Eb as (j & _ & Hb).
        rewrite Forall_forall in Hnz.
        apply (Hnz b (nth_error_In _ _ Hb)). apply Qeq_bool_iff, Hz.
      * injection H as <-. exact (index_raises_index_error _ _ _ Eb).
    + injection H as <-. exact (index_raises_index_error _ _ _ Ea).
  - exists (Z.max 0 (len (expected_costs e) - 1)). split.
    + unfold range. apply in_map_iff.
      exists (Z.to_nat (Z.max 0 (len (expected_costs e) - 1))).
      split; [lia|]. apply in_seq. unfold len in *. lia.
    + destruct (index (expected_costs e) (Z.max 0 (len (expected_costs e) - 1)))
        as [a|e1] eqn:Ea; cbn [obind].
      * rewrite index_out_of_range; [reflexivity|]. lia.
      * f_equal. exact (index_raises_index_error _ _ _ Ea).
Qed.

(** X21.  The constructors need a cost for every fidelity: when the
    environment announces two or more fidelities but [expected_costs] (of
    non-zero costs, so that no division fails first) has fewer entries
    than that, [mfLiveBatch.__init__] raises [IndexError] while it builds
    [cost_thresholds], whatever its other arguments are. *)
Theorem init_needs_a_cost_per_fidelity
    (e : E) (r : rng) (beta0 : option Q)
    (fidelity_thresholds0 : option (list Q)) (lipschitz_constant0 : Q)
    (num_of_starts0 num_of_optim_epochs0 : Z)
    (hp_update_frequency0 : option Z) (budget0 : Z)
    (cost_budget0 initial_bias : Q)
    (local_lipschitz0 increasing_thresholds0 : bool) :
  (2 <= env_num_of_fidelities e)%Z ->
  (len (expected_costs e) < env_num_of_fidelities e)%Z ->
  Forall (fun c => ~ c == 0) (expected_costs e) ->
  MF.init (gp := gp) e r beta0 fidelity_thresholds0 lipschitz_constant0
    num_of_starts0 num_of_optim_epochs0 hp_update_frequency0 budget0
    cost_budget0 initial_bias local_lipschitz0 increasing_thresholds0
  = Raise IndexError.
Proof.
  intros Hn Hshort Hnz. unfold MF.init.
  rewrite short_cost_table by assumption. reflexivity.
Qed.

End Controller.

Import Toy.

(** The theorem on an environment that announces three fidelities
    with a table of two costs. *)
Lemma init_needs_a_cost_per_fidelity_witness :
  MF.init (gp := unit)
    (mkAnnouncing 3 (mkEnv [2; 1] below_zero [] [])) ([] : list point)
    (Some 1) None 1 75 25 None 10 4 (1 # 10) true false
  = Raise IndexError.
Proof.
  apply (init_needs_a_cost_per_fidelity unit env_announcing (list point)).
  - cbn. lia.
  - cbn. lia.
  - cbn. repeat constructor; discriminate.
Defined.

End ConstructionFacts.

(* ===================================================================== *)
(** * The fidelity choice of the multi-task classes *)
(* ===================================================================== *)

Module MultiTaskFacts.

Import PyFacts.

Lemma dict_set_string_keyed (d : MultiTask.dict) (s : String.string)
    (v : MultiTask.hval) :
  MultiTask.string_keyed d ->
  MultiTask.string_keyed (MultiTask.dict_set d (MultiTask.KStr s) v).
Proof.
  unfold MultiTask.string_keyed. intros H.
  induction H as [|[k' v'] r Hk Hr IH]; cbn [MultiTask.dict_set].
  - constructor; [exists s; reflexivity|constructor].
  - destruct (MultiTask.key_eqb k' (MultiTask.KStr s)).
    + constructor; [exact Hk|exact Hr].
    + constructor; [exact Hk|exact IH].
Qed.

(** [set_hyperparams] stores under string keys only. *)
Lemma set_hyperparams_string_keyed
    (dim num_of_latents num_of_fidelities : Z) (args : option hypers) :
  MultiTask.string_keyed
    (MultiTask.set_hyperparams dim num_of_latents num_of_fidelities args).
Proof.
  unfold MultiTask.set_hyperparams.
  do 2 apply dict_set_string_keyed.
  generalize (range num_of_latents). intros l.
  assert (H : MultiTask.string_keyed []) by constructor.
  revert H. generalize (@nil (MultiTask.key * MultiTask.hval)).
  induction l as [|latent rest IH]; intros d Hd; cbn [fold_left].
  - exact Hd.
  - apply IH. unfold MultiTask.set_latent.
    do 2 apply dict_set_string_keyed. exact Hd.
Qed.

(** Reading a string-keyed dict under an integer finds nothing. *)
Lemma dict_get_int (d : MultiTask.dict) (n : Z) :
  MultiTask.string_keyed d ->
  MultiTask.dict_get d (MultiTask.KInt n) = None.
Proof.
  unfold MultiTask.string_keyed. intros H.
  induction H as [|[k' v'] r [s Hk] _ IH]; cbn [MultiTask.dict_get].
  - reflexivity.
  - cbn [fst] in Hk. subst k'. cbn [MultiTask.key_eqb]. exact IH.
Qed.

Lemma rev_range_head (n : Z) :
  (1 <= n)%Z -> rev (range n) = (n - 1)%Z :: rev (range (n - 1)).
Proof.
  intros Hn. unfold range.
  replace (Z.to_nat n) with (S (Z.to_nat (n - 1))) by lia.
  rewrite seq_S, map_app, rev_app_distr. cbn. f_equal. lia.
Qed.

Section WithModel.

Context {model : Type}.
Context {ModelM : MultiTask.Model model}.

(** X22.  [generate_fidelity] cannot run before data: on a
    [MultiTaskUCBwILP] or [MF_TuRBO] object with two or more fidelities
    whose [gp_hyperparams] is the dict that [set_hyperparams] builds
    (string keys, as after [__init__]) and whose last table [X[-1]] is
    still empty, [generate_fidelity(new_X)] with the default
    ['variance_thresholds'] raises [KeyError: 3]: the prior branch reads
    [hypers[3]] as if [gp_hyperparams] were the tuple of the
    single-task classes. *)
Theorem generate_fidelity_needs_data
    (s : MultiTask.Self model) (new_X : point)
    (dim num_of_latents num_of_fidelities0 : Z) (args : option hypers) :
  MultiTask.gp_hyperparams s
  = MultiTask.set_hyperparams dim num_of_latents num_of_fidelities0 args ->
  (2 <= MultiTask.num_of_fidelities s)%Z ->
  index (MultiTask.X s) (-1) = Ret [] ->
  MultiTask.generate_fidelity s new_X
  = MultiTask.KeyError (MultiTask.KInt 3).
Proof.
  intros Hh Hn HX. unfold MultiTask.generate_fidelity.
  rewrite rev_range_head by lia. cbn [MultiTask.generate_fidelity_from].
  assert (E : (MultiTask.num_of_fidelities s - 1 =? 0)%Z = false)
    by (apply Z.eqb_neq; lia).
  rewrite E, HX. cbn [MultiTask.of_outcome MultiTask.rbind nonempty].
  unfold MultiTask.lookup.
  rewrite dict_get_int; [reflexivity|].
  rewrite Hh. apply set_hyperparams_string_keyed.
Qed.

End WithModel.

Import Toy.

(** The theorem on a fresh object with three fidelities. *)
Lemma generate_fidelity_needs_data_witness :
  MultiTask.generate_fidelity multitask_fresh [1 # 2]
  = MultiTask.KeyError (MultiTask.KInt 3).
Proof.
  apply (generate_fidelity_needs_data multitask_fresh [1 # 2] 1 6 3 None).
  - reflexivity.
  - cbn. lia.
  - reflexivity.
Defined.

End MultiTaskFacts.

(* ===================================================================== *)
(** * The query in flight of [mfUCB] *)
(* ===================================================================== *)

Module ProtocolFacts.

Import PyFacts MonadFacts Frames LoopFacts.

Section Controller.

Context (gp E rng : Type).
Context {SurrogateGP : Surrogate gp}.
Context {EnvE : Environment E}.
Context {Num : Numerics rng}.

Let Self : Type := MF.Self gp E rng.

(** The observations of the last step are kept. *)
Let R : Self -> Self -> Prop := fun s s' => MF.new_obs s' = MF.new_obs s.

Let Rr : forall s, R s s.
Proof. intros s. reflexivity. Qed.

Let Rt : forall s1 s2 s3, R s1 s2 -> R s2 s3 -> R s1 s3.
Proof. intros s1 s2 s3 H12 H23. unfold R in *. congruence. Qed.

Lemma mfUCB_ingest_keeps_new_obs (q : list point) (f : list Z) :
  preserves R (MF.mfUCB_ingest q f).
Proof. keeps_with Rr Rt ltac:(fail). Qed.

(** When it returns, the query part of a sequential iteration leaves a
    primary query in flight. *)
Lemma sequential_query_in_flight
    (build : Self -> list point -> outcome (list Q)) (fuel : nat)
    (s s' : Self) (r : list point * list Z) :
  MF.sequential_query build fuel s = (Returns r, s') ->
  MF.query_being_evaluated s' = true.
Proof.
  unfold MF.sequential_query. intros H. rewrite bind_get in H.
  destruct (MF.query_being_evaluated s) eqn:Hq; cbn [negb] in H.
  - inv_step H. exact Hq.
  - inv_bind H. inv_bind H. inv_bind H. inv_bind H. inv_bind H.
    same_after (@MF.query_being_evaluated gp E rng) H.
    rewrite <- Hsame. reflexivity.
Qed.

(** The ingestion of [mfUCB]: the flag is cleared exactly when the step
    returned observations. *)
Lemma mfUCB_ingest_flag (q : list point) (f : list Z) (s s' : Self)
    (u : unit) :
  MF.mfUCB_ingest q f s = (Returns u, s') ->
  MF.query_being_evaluated s'
  = match MF.new_obs s with
    | Some _ => false
    | None => MF.query_being_evaluated s
    end.
Proof.
  unfold MF.mfUCB_ingest. intros H. rewrite bind_get in H.
  destruct (MF.new_obs s) as [obs|]; cbn [when] in H.
  - inv_bind H. inv_bind H. inv_step H. reflexivity.
  - inv_step H. reflexivity.
Qed.

(** X23.  After every iteration of [mfUCB.optim_loop] that returns, a
    primary query counts as being evaluated exactly when the step of the
    environment returned no observation: [query_being_evaluated] is
    [True] if and only if [new_obs] is [None]. *)
Theorem mfUCB_waits_until_something_returns
    (fuel : nat) (s s' : Self) :
  MF.mfUCB_optim_loop fuel s = (Returns tt, s') ->
  (MF.query_being_evaluated s' = true <-> MF.new_obs s' = None).
Proof.
  unfold MF.mfUCB_optim_loop. intros H.
  inv_bind H. rename s0 into s1.
  apply bind_ret_inv in H. destruct H as ([new_Xs new_Ms] & s2 & Hq & H).
  apply bind_ret_inv in H. destruct H as ([oq ofid] & s3 & Hd & H).
  inv_bind H. rename s0 into s4.
  inv_bind H. rename s0 into s5.
  pose proof (sequential_query_in_flight _ _ _ _ _ Hq) as Hflag2.
  same_after (@MF.query_being_evaluated gp E rng) Hd. rename Hsame into Hflag3.
  pose proof (mfUCB_ingest_flag _ _ _ _ _ Hrun0) as Hflag4.
  pose proof (preserves_run R _ _ _ _ (mfUCB_ingest_keeps_new_obs oq ofid)
                Hrun0) as Hobs4. unfold R in Hobs4.
  same_after (@MF.query_being_evaluated gp E rng) Hrun1. rename Hsame into Hflag5.
  same_after (@MF.new_obs gp E rng) Hrun1. rename Hsame into Hobs5.
  same_after (@MF.query_being_evaluated gp E rng) H. rename Hsame into Hflag6.
  same_after (@MF.new_obs gp E rng) H. rename Hsame into Hobs6.
  rewrite <- Hflag6, <- Hflag5, Hflag4, <- Hobs6, <- Hobs5, Hobs4.
  destruct (MF.new_obs s3) as [obs|].
  - split; discriminate.
  - rewrite <- Hflag3, Hflag2. split; reflexivity.
Qed.

End Controller.

Import Toy.

(** The theorem on the first iteration of [mfUCB(env, beta = 1)] in the
    concrete setting, in which the step resolves all four queries. *)
Lemma mfUCB_waits_until_something_returns_witness :
  exists s : MF.Self unit env_toy (list point),
    sequential [4%nat; 2%nat] [[1]; [1]; [1]; [1]; [0]; [1]] = Ret s /\
    (MF.query_being_evaluated (snd (MF.mfUCB_optim_loop 10 s)) = true
     <-> MF.new_obs (snd (MF.mfUCB_optim_loop 10 s)) = None).
Proof.
  eexists. split; [reflexivity|].
  match goal with
  | |- MF.query_being_evaluated (snd (?m ?s)) = _ <-> _ =>
      assert (Hrun : fst (m s) = Returns tt) by (vm_compute; reflexivity);
      exact (mfUCB_waits_until_something_returns unit env_toy (list point)
               10 s (snd (m s)) (run_ret m s tt Hrun))
  end.
Defined.

End ProtocolFacts.

(* ===================================================================== *)
(** * The first batch *)
(* ===================================================================== *)

Module ColdStartFacts.

Import PyFacts MonadFacts Frames LoopFacts.

Section Controller.

Context (gp E rng : Type).
Context {SurrogateGP : Surrogate gp}.
Context {EnvE : Environment E}.
Context {Num : Numerics rng}.

Let Self : Type := MF.Self gp E rng.

(** [optimise_af] at time zero. *)
Lemma optimise_af_cold
    (build : Self -> list point -> outcome (list Q))
    (s s' : Self) (r : point * Z) :
  MF.current_time s = 0%Z ->
  MF.optimise_af build s = (Returns r, s') ->
  r = (fst (uniform (MF.dim s) (MF.rng_state s)),
       (MF.num_of_fidelities s - 1)%Z) /\
  s' = MF.set_rng_state (snd (uniform (MF.dim s) (MF.rng_state s))) s.
Proof.
  intros H0 H. unfold MF.optimise_af in H. rewrite bind_get, H0 in H.
  cbn [Z.eqb] in H.
  destruct (uniform (MF.dim s) (MF.rng_state s)) as [new_X r0].
  inv_bind H. inv_step H. auto.
Qed.

(** A pass of the batch-filling loop at time zero. *)
Lemma fill_step_cold (s s' : Self) (r : point * Z) :
  MF.current_time s = 0%Z ->
  MF.fill_step s = (Returns r, s') ->
  r = (fst (uniform (MF.dim s) (MF.rng_state s)),
       (MF.num_of_fidelities s - 1)%Z) /\
  MF.rng_state s' = snd (uniform (MF.dim s) (MF.rng_state s)) /\
  MF.current_time s' = 0%Z /\ MF.dim s' = MF.dim s /\
  MF.num_of_fidelities s' = MF.num_of_fidelities s.
Proof.
  intros H0 H. unfold MF.fill_step in H.
  apply bind_ret_inv in H. destruct H as ([x m] & s1 & Ho & H).
  destruct (optimise_af_cold _ _ _ _ H0 Ho) as [Hr ->].
  inv_bind H. inv_bind H. inv_bind H. inv_bind H. inv_bind H. inv_bind H.
  inv_bind H. inv_step H.
  match type of Hrun0 with
  | when ?t _ _ = _ => destruct t; cbn [when] in Hrun0
  end.
  - inv_bind Hrun0. inv_step Hrun0. cbn. rewrite <- H0. auto.
  - inv_step Hrun0. cbn. rewrite <- H0. auto.
Qed.

Lemma fill_batch_cold (fuel : nat) :
  forall (Xs0 : list point) (Ms0 : list Z) (s s' : Self)
         (Xs : list point) (Ms : list Z),
    MF.current_time s = 0%Z ->
    MF.fill_batch fuel Xs0 Ms0 s = (Returns (Xs, Ms), s') ->
    exists k : nat,
      Xs = Xs0 ++ MF.draws (MF.dim s) k (MF.rng_state s) /\
      Ms = Ms0 ++ repeat (MF.num_of_fidelities s - 1)%Z k.
Proof.
  induction fuel as [|fuel IH]; intros Xs0 Ms0 s s' Xs Ms H0 H;
    cbn [MF.fill_batch] in H; rewrite bind_get in H;
    destruct (Qltb (MF.batch_costs s) (MF.cost_budget s)).
  - discriminate.
  - inv_step H. injection H as -> ->. exists O. cbn. rewrite !app_nil_r. auto.
  - apply bind_ret_inv in H. destruct H as ([x m] & s1 & Hs & H).
    destruct (fill_step_cold _ _ _ H0 Hs) as (Hr & Hrng & Ht & Hd & Hn).
    injection Hr as -> ->.
    destruct (IH _ _ _ _ _ _ Ht H) as (k & -> & ->).
    exists (S k). cbn [MF.draws repeat]. rewrite Hd, Hn, Hrng.
    destruct (uniform (MF.dim s) (MF.rng_state s)) as [p r0]. cbn [fst snd].
    rewrite <- !app_assoc. cbn. auto.
  - inv_step H. injection H as -> ->. exists O. cbn. rewrite !app_nil_r. auto.
Qed.

Lemma sequential_query_cold
    (build : Self -> list point -> outcome (list Q)) (fuel : nat)
    (s s' : Self) (Xs : list point) (Ms : list Z) :
  MF.current_time s = 0%Z ->
  MF.sequential_query build fuel s = (Returns (Xs, Ms), s') ->
  exists k : nat,
    Xs = MF.draws (MF.dim s) k (MF.rng_state s) /\
    Ms = repeat (MF.num_of_fidelities s - 1)%Z k.
Proof.
  unfold MF.sequential_query. intros H0 H. rewrite bind_get in H.
  destruct (MF.query_being_evaluated s); cbn [negb] in H.
  - inv_step H. injection H as -> ->. exists O. auto.
  - apply bind_ret_inv in H. destruct H as ([x m] & s1 & Ho & H).
    destruct (optimise_af_cold _ _ _ _ H0 Ho) as [Hr ->].
    injection Hr as -> ->.
    inv_bind H. inv_bind H. inv_bind H. inv_bind H.
    destruct (FillFacts.fill_random_run _ _ _ _ _ _ _ _ _ _ _ H)
      as (k & -> & ->).
    exists (S k). cbn [MF.draws repeat].
    destruct (uniform (MF.dim s) (MF.rng_state s)) as [p r0]. cbn. auto.
Qed.

(** X24.  The whole first batch is random and cheap: at
    [current_time == 0], the queries that the batch-filling loop of
    [mfLiveBatch.optim_loop] gathers, and those that [mfUCB] and
    [mfUCBPlus] gather, are successive draws of the random source, every
    one of them at the cheapest fidelity [num_of_fidelities - 1]. *)
Theorem first_batch_is_random_at_the_cheapest_fidelity
    (build : Self -> list point -> outcome (list Q)) (fuel : nat)
    (s s' : Self) (Xs : list point) (Ms : list Z) :
  MF.current_time s = 0%Z ->
  MF.fill_batch fuel [] [] s = (Returns (Xs, Ms), s') \/
  MF.sequential_query build fuel s = (Returns (Xs, Ms), s') ->
  exists k : nat,
    Xs = MF.draws (MF.dim s) k (MF.rng_state s) /\
    Ms = repeat (MF.num_of_fidelities s - 1)%Z k.
Proof.
  intros H0 [H|H].
  - exact (fill_batch_cold _ _ _ _ _ _ _ H0 H).
  - exact (sequential_query_cold _ _ _ _ _ _ H0 H).
Qed.

End Controller.

Import Toy.

(** The theorem on a new [mfLiveBatch(env, beta = 1)] in the concrete
    setting: four queries of cost 1 fill the budget of 4. *)
Lemma first_batch_is_random_at_the_cheapest_fidelity_witness :
  exists s : MF.Self unit env_toy (list point),
    live [] [[1]; [1 # 2]; [0]; [1 # 4]; [3 # 4]] = Ret s /\
    fst (MF.fill_batch 10 [] [] s)
    = Returns ([[1]; [1 # 2]; [0]; [1 # 4]], [2; 2; 2; 2]%Z) /\
    exists k : nat,
      [[1]; [1 # 2]; [0]; [1 # 4]] = MF.draws (MF.dim s) k (MF.rng_state s) /\
      [2; 2; 2; 2]%Z = repeat (MF.num_of_fidelities s - 1)%Z k.
Proof.
  eexists. split; [reflexivity|].
  match goal with
  | |- fst (?m ?s) = Returns ?r /\ _ =>
      assert (Hrun : fst (m s) = Returns r) by (vm_compute; reflexivity);
      split; [exact Hrun|];
      exact (first_batch_is_random_at_the_cheapest_fidelity
               unit env_toy (list point) (@MF.build_af unit env_toy (list point) _ _) 10 s
               (snd (m s)) _ _ eq_refl (or_introl (run_ret m s r Hrun)))
  end.
Defined.

End ColdStartFacts.

(* ===================================================================== *)
(** * The cost given back by the ingestion *)
(* ===================================================================== *)

Module ReleaseFacts.

Import PyFacts MonadFacts Frames LoopFacts.

Section Controller.

Context (gp E rng : Type).
Context {SurrogateGP : Surrogate gp}.
Context {EnvE : Environment E}.
Context {Num : Numerics rng}.

Let Self : Type := MF.Self gp E rng.

(** The environment and the cost of the queries in flight. *)
Let account (s : Self) : E * Q := (MF.env s, MF.batch_costs s).

(** A body of the ingestion loop gives back the cost of the fidelity of
    the observation it handles, and nothing else. *)
Let releases (f : list Z) (body : Z -> MF.Method gp E rng (list Z)) : Prop :=
  forall (i : Z) (s s' : Self) (more : list Z),
    body i s = (Returns more, s') ->
    exists (fid : Z) (c : Q),
      index f i = Ret fid /\
      index (fidelity_costs (MF.env s)) fid = Ret c /\
      MF.batch_costs s' = MF.batch_costs s - c /\
      MF.env s' = MF.env s.

Lemma release_cost_run (fid : Z) (s s' : Self) (u : unit) :
  MF.release_cost fid s = (Returns u, s') ->
  exists c : Q,
    index (fidelity_costs (MF.env s)) fid = Ret c /\
    MF.batch_costs s' = MF.batch_costs s - c /\ MF.env s' = MF.env s.
Proof.
  unfold MF.release_cost. intros H. inv_bind H. inv_bind H. inv_step H.
  exists a. auto.
Qed.

Lemma ingest_one_releases (q : list point) (f : list Z) :
  releases f (MF.ingest_one q f).
Proof.
  intros i s s' more H. unfold MF.ingest_one in H.
  inv_bind H. inv_bind H. rename a into fid.
  apply bind_ret_inv in H. destruct H as ([x y] & s0 & Hrun2 & H).
  same_after account Hrun2. inv_bind H.
  apply bind_ret_inv in H. destruct H as (bu & s2 & Hrun3 & H).
  same_after account Hrun3. rename Hsame0 into Hsame1.
  apply bind_ret_inv in H. destruct H as (u1 & s3 & Hrun4 & H).
  same_after account Hrun4. rename Hsame0 into Hsame2.
  apply bind_ret_inv in H. destruct H as (u2 & s4 & Hrun5 & H).
  inv_step H.
  destruct (release_cost_run _ _ _ _ Hrun5) as (c & Hc & Hb & He).
  unfold account in *.
  injection Hsame as E0 B0. injection Hsame1 as E1 B1.
  injection Hsame2 as E2 B2.
  exists fid, c. split; [exact Hrun|].
  rewrite E0, E1, E2, B0, B1, B2. auto.
Qed.

Lemma mfUCB_ingest_one_releases (q : list point) (f : list Z) :
  releases f (MF.mfUCB_ingest_one q f).
Proof.
  intros i s s' more H. unfold MF.mfUCB_ingest_one in H.
  inv_bind H. inv_bind H. rename a into fid.
  apply bind_ret_inv in H. destruct H as ([x y] & s0 & Hrun2 & H).
  same_after account Hrun2. inv_bind H.
  apply bind_ret_inv in H. destruct H as (u0 & s1 & Hrun3 & H).
  assert (Hsame1 : account s0 = account s1).
  { match type of Hrun3 with
    | when ?t _ _ = _ => destruct t; cbn [when] in Hrun3
    end.
    - same_after account Hrun3. exact Hsame0.
    - inv_step Hrun3. reflexivity. }
  apply bind_ret_inv in H. destruct H as (u1 & s2 & Hrun4 & H).
  inv_step H.
  destruct (release_cost_run _ _ _ _ Hrun4) as (c & Hc & Hb & He).
  unfold account in *.
  injection Hsame as E0 B0. injection Hsame1 as E1 B1.
  exists fid, c. split; [exact Hrun|].
  rewrite E0, E1, B0, B1. auto.
Qed.

Lemma mfUCBPlus_ingest_one_releases (q : list point) (f : list Z) :
  releases f (MF.mfUCBPlus_ingest_one q f).
Proof.
  intros i s s' more H. unfold MF.mfUCBPlus_ingest_one in H.
  inv_bind H. inv_bind H. rename a into fid.
  apply bind_ret_inv in H. destruct H as ([x y] & s0 & Hrun2 & H).
  same_after account Hrun2. inv_bind H.
  apply bind_ret_inv in H. destruct H as (bu & s2 & Hrun3 & H).
  same_after account Hrun3. rename Hsame0 into Hsame1.
  apply bind_ret_inv in H. destruct H as (u1 & s3 & Hrun4 & H).
  same_after account Hrun4. rename Hsame0 into Hsame2.
  apply bind_ret_inv in H. destruct H as (u2 & s4 & Hrun5 & H).
  inv_bind H. inv_step H.
  destruct (release_cost_run _ _ _ _ Hrun5) as (c & Hc & Hb & He).
  unfold account in *.
  injection Hsame as E0 B0. injection Hsame1 as E1 B1.
  injection Hsame2 as E2 B2.
  exists fid, c. split; [exact Hrun|].
  rewrite E0, E1, E2, B0, B1, B2. cbn. auto.
Qed.

(** The ingestion loop gives back the total cost of the fidelities of
    the observations. *)
Lemma ingest_loop_releases (f : list Z)
    (body : Z -> MF.Method gp E rng (list Z)) :
  releases f body ->
  forall (idxs bias_updates : list Z) (s s' : Self) (out : list Z),
    MF.ingest_loop body idxs bias_updates s = (Returns out, s') ->
    exists fids : list Z,
      omap (index f) idxs = Ret fids /\
      MF.batch_costs s'
      == MF.batch_costs s - MF.total_cost (fidelity_costs (MF.env s)) fids /\
      MF.env s' = MF.env s.
Proof.
  intros Hbody. induction idxs as [|i rest IH];
    intros bias_updates s s' out H; cbn [MF.ingest_loop] in H.
  - inv_step H. exists []. cbn. split; [reflexivity|]. split; [ring|reflexivity].
  - inv_bind H.
    destruct (Hbody _ _ _ _ Hrun) as (fid & c & Hf & Hc & Hb & He).
    destruct (IH _ _ _ _ H) as (fids & Ho & Hb' & He').
    exists (fid :: fids). cbn [omap]. rewrite Hf. cbn [obind]. rewrite Ho.
    cbn [obind]. split; [reflexivity|].
    cbn [MF.total_cost fold_right]. rewrite Hc.
    fold (MF.total_cost (fidelity_costs (MF.env s)) fids).
    rewrite Hb', Hb, He. split; [ring|congruence].
Qed.

(** X25.  An ingestion that returns gives back, to [batch_costs], the
    cost of every observation it handles, once: [batch_costs] goes down
    by the total cost of the fidelities
    [obtain_fidelities[i]], [i < len(obtain_query)], and is kept when
    [new_obs] is [None]; the environment is not touched.  This holds
    for the ingestion of [mfLiveBatch.optim_loop], of [mfUCB.optim_loop]
    and of [mfUCBPlus.optim_loop]. *)
Theorem ingestion_gives_back_the_costs
    (q : list point) (f : list Z) (s s' : Self) (u : unit) :
  MF.ingest q f s = (Returns u, s') \/
  MF.mfUCB_ingest q f s = (Returns u, s') \/
  MF.mfUCBPlus_ingest q f s = (Returns u, s') ->
  MF.env s' = MF.env s /\
  match MF.new_obs s with
  | None => MF.batch_costs s' = MF.batch_costs s
  | Some _ =>
      exists fids : list Z,
        omap (index f) (range (len q)) = Ret fids /\
        MF.batch_costs s'
        == MF.batch_costs s
           - MF.total_cost (fidelity_costs (MF.env s)) fids
  end.
Proof.
  unfold MF.ingest, MF.mfUCB_ingest, MF.mfUCBPlus_ingest.
  rewrite !bind_get.
  destruct (MF.new_obs s) as [obs|]; cbn [when].
  - intros [H|[H|H]]; inv_bind H.
    + destruct (ingest_loop_releases f _ (ingest_one_releases q f) _ _ _ _ _
                  Hrun) as (fids & Ho & Hb & He).
      inv_bind H. same_after account Hrun0.
      same_after account H. unfold account in *.
      injection Hsame as E0 B0. injection Hsame0 as E1 B1.
      rewrite <- E1, <- E0, <- B1, <- B0.
      split; [exact He|]. exists fids. auto.
    + destruct (ingest_loop_releases f _ (mfUCB_ingest_one_releases q f) _ _
                  _ _ _ Hrun) as (fids & Ho & Hb & He).
      inv_bind H. same_after account Hrun0. inv_step H.
      unfold account in *. injection Hsame as E0 B0. cbn.
      rewrite <- E0, <- B0.
      split; [exact He|]. exists fids. auto.
    + destruct (ingest_loop_releases f _ (mfUCBPlus_ingest_one_releases q f)
                  _ _ _ _ _ Hrun) as (fids & Ho & Hb & He).
      inv_bind H. same_after account Hrun0.
      same_after account H. unfold account in *.
      injection Hsame as E0 B0. injection Hsame0 as E1 B1.
      rewrite <- E1, <- E0, <- B1, <- B0.
      split; [exact He|]. exists fids. auto.
  - intros [H|[H|H]]; inv_step H; auto.
Qed.

End Controller.

Import Toy.

(** The theorem on the first iteration of a new
    [mfLiveBatch(env, beta = 1)] in the concrete setting: four queries of
    cost 1 are dispatched and resolve at once, and their ingestion takes
    [batch_costs] from 4 back to 0. *)
Lemma ingestion_gives_back_the_costs_witness :
  exists s0 : MF.Self unit env_toy (list point),
    live [4%nat] [[1]; [1 # 2]; [0]; [1 # 4]] = Ret s0 /\
    (let q := [[1]; [1 # 2]; [0]; [1 # 4]] in
     let f := [2; 2; 2; 2]%Z in
     let s :=
       snd ((MF.update_beta ;; MF.snapshot_batch ;;
             '(new_Xs, new_Ms) <- MF.fill_batch 10 [] [] ;;
             MF.dispatch new_Xs new_Ms)%monad s0) in
     MF.batch_costs s == 4 /\
     MF.batch_costs (snd (MF.ingest q f s)) == 0 /\
     MF.env (snd (MF.ingest q f s)) = MF.env s /\
     match MF.new_obs s with
     | None => MF.batch_costs (snd (MF.ingest q f s)) = MF.batch_costs s
     | Some _ =>
         exists fids : list Z,
           omap (index f) (range (len q)) = Ret fids /\
           MF.batch_costs (snd (MF.ingest q f s))
           == MF.batch_costs s
              - MF.total_cost (fidelity_costs (MF.env s)) fids
     end).
Proof.
  eexists. split; [reflexivity|].
  intros q f s.
  split; [vm_compute; reflexivity|]. split; [vm_compute; reflexivity|].
  assert (Hrun : fst (MF.ingest q f s) = Returns tt)
    by (vm_compute; reflexivity).
  exact (ingestion_gives_back_the_costs unit env_toy (list point) q f s
           (snd (MF.ingest q f s)) tt
           (or_introl (run_ret (MF.ingest q f) s tt Hrun))).
Defined.

End ReleaseFacts.

(* ===================================================================== *)
(** * The hyper-parameter dict of the multi-task classes *)
(* ===================================================================== *)

Module HyperDictFacts.

Import PyFacts.
Import MultiTask.
Import String.

Local Open Scope string_scope.

Lemma key_eqb_eq (a b : key) : key_eqb a b = true <-> a = b.
Proof.
  destruct a as [s|n], b as [t|m]; cbn [key_eqb].
  - rewrite String.eqb_eq. split; congruence.
  - split; discriminate.
  - split; discriminate.
  - rewrite Z.eqb_eq. split; congruence.
Qed.

Lemma key_eqb_refl (a : key) : key_eqb a a = true.
Proof. apply key_eqb_eq. reflexivity. Qed.

Lemma key_eqb_neq (a b : key) : a <> b -> key_eqb a b = false.
Proof.
  intros H. destruct (key_eqb a b) eqn:E; [|reflexivity].
  apply key_eqb_eq in E. contradiction.
Qed.

(** Reading back what was stored. *)
Lemma dict_get_set_same (d : dict) (k : key) (v : hval) :
  dict_get (dict_set d k v) k = Some v.
Proof.
  induction d as [|[k' v'] r IH]; cbn [dict_set dict_get].
  - rewrite key_eqb_refl. reflexivity.
  - destruct (key_eqb k' k) eqn:E; cbn [dict_get]; rewrite E;
      [reflexivity|exact IH].
Qed.

(** A store leaves the other keys alone. *)
Lemma dict_get_set_other (d : dict) (k k' : key) (v : hval) :
  k <> k' -> dict_get (dict_set d k v) k' = dict_get d k'.
Proof.
  intros Hne. induction d as [|[k0 v0] r IH]; cbn [dict_set dict_get].
  - rewrite (key_eqb_neq _ _ Hne). reflexivity.
  - destruct (key_eqb k0 k) eqn:E; cbn [dict_get].
    + apply key_eqb_eq in E. subst k0.
      rewrite (key_eqb_neq _ _ Hne). reflexivity.
    + destruct (key_eqb k0 k'); [reflexivity|exact IH].
Qed.

Lemma length_append (a b : String.string) :
  String.length (a ++ b) = (String.length a + String.length b)%nat.
Proof. induction a as [|c a IH]; cbn; [reflexivity|rewrite IH; reflexivity]. Qed.

Lemma append_inv_tail (a b s : String.string) : a ++ s = b ++ s -> a = b.
Proof.
  revert b. induction a as [|c a IH]; intros [|c' b] H.
  - reflexivity.
  - apply (f_equal String.length) in H. cbn in H. rewrite length_append in H.
    lia.
  - apply (f_equal String.length) in H. cbn in H. rewrite length_append in H.
    lia.
  - cbn in H. injection H as -> H. f_equal. apply IH, H.
Qed.

(** [str] is one-to-one on the integers. *)
Lemma str_inj (a b : Z) : str a = str b -> a = b.
Proof.
  unfold str. intros H. apply DecimalZ.to_int_inj.
  apply (f_equal DecimalString.NilEmpty.int_of_string) in H.
  rewrite !DecimalString.NilEmpty.isi in H. congruence.
Qed.

Section Keys.

(** The two keys of a latent. *)
Let lengthscale_key (latent : Z) : key :=
  KStr ("covar_module_" ++ str latent ++ ".lengthscale").

Let variance_key (latent : Z) : key :=
  KStr ("task_covar_module_" ++ str latent ++ ".var").

Variables (num_of_fidelities : Z) (h : hypers).

Lemma lengthscale_key_inj (a b : Z) :
  lengthscale_key a = lengthscale_key b -> a = b.
Proof.
  unfold lengthscale_key. cbn [append]. intros H. injection H as H.
  apply str_inj, (append_inv_tail _ _ _ H).
Qed.

Lemma variance_key_inj (a b : Z) :
  variance_key a = variance_key b -> a = b.
Proof.
  unfold variance_key. cbn [append]. intros H. injection H as H.
  apply str_inj, (append_inv_tail _ _ _ H).
Qed.

Lemma lengthscale_is_not_variance (a b : Z) :
  lengthscale_key a <> variance_key b.
Proof. unfold lengthscale_key, variance_key. cbn [append]. discriminate. Qed.

(** The loop over the latents leaves every other key alone. *)
Lemma latents_leave_others (l : list Z) :
  forall (d : dict) (k : key),
    (forall a, In a l -> lengthscale_key a <> k /\ variance_key a <> k) ->
    dict_get (fold_left (set_latent num_of_fidelities h) l d) k
    = dict_get d k.
Proof.
  induction l as [|a r IH]; intros d k Hk; cbn [fold_left]; [reflexivity|].
  rewrite IH by (intros b Hb; apply Hk; right; exact Hb).
  destruct (Hk a (or_introl eq_refl)) as [H1 H2].
  unfold set_latent. cbv zeta.
  rewrite dict_get_set_other by exact H2.
  apply dict_get_set_other. exact H1.
Qed.

Lemma latents_store_lengthscale (l : list Z) :
  forall (d : dict) (x : Z),
    In x l ->
    dict_get (fold_left (set_latent num_of_fidelities h) l d)
      (lengthscale_key x)
    = Some (HTensor (length_scale h)).
Proof.
  induction l as [|a r IH]; intros d x Hin; [destruct Hin|].
  cbn [fold_left]. destruct (in_dec Z.eq_dec x r) as [Hr|Hr].
  - apply IH, Hr.
  - destruct Hin as [->|Hin]; [|contradiction].
    rewrite latents_leave_others.
    + unfold set_latent. cbv zeta.
      rewrite dict_get_set_other
        by (apply not_eq_sym, lengthscale_is_not_variance).
      apply dict_get_set_same.
    + intros b Hb. split.
      * intros E. apply lengthscale_key_inj in E. subst b. contradiction.
      * apply not_eq_sym, lengthscale_is_not_variance.
Qed.

Lemma latents_store_variance (l : list Z) :
  forall (d : dict) (x : Z),
    In x l ->
    dict_get (fold_left (set_latent num_of_fidelities h) l d)
      (variance_key x)
    = Some (HTensor (copies num_of_fidelities (constant h))).
Proof.
  induction l as [|a r IH]; intros d x Hin; [destruct Hin|].
  cbn [fold_left]. destruct (in_dec Z.eq_dec x r) as [Hr|Hr].
  - apply IH, Hr.
  - destruct Hin as [->|Hin]; [|contradiction].
    rewrite latents_leave_others.
    + unfold set_latent. cbv zeta. apply dict_get_set_same.
    + intros b Hb. split.
      * apply lengthscale_is_not_variance.
      * intros E. apply variance_key_inj in E. subst b. contradiction.
Qed.

(** A store under a new key adds one entry. *)
Lemma length_dict_set_new (d : dict) (k : key) (v : hval) :
  dict_get d k = None ->
  List.length (dict_set d k v) = S (List.length d).
Proof.
  induction d as [|[k' v'] r IH]; cbn [dict_set dict_get]; [reflexivity|].
  destruct (key_eqb k' k); [discriminate|].
  intros H. cbn [List.length]. rewrite IH by exact H. reflexivity.
Qed.

(** Distinct latents add two entries each. *)
Lemma latents_add_two_each (l : list Z) :
  NoDup l ->
  forall d : dict,
    (forall a, In a l ->
       dict_get d (lengthscale_key a) = None /\
       dict_get d (variance_key a) = None) ->
    List.length (fold_left (set_latent num_of_fidelities h) l d)
    = (List.length d + 2 * List.length l)%nat.
Proof.
  induction 1 as [|a r Ha Hr IH]; intros d Hd; cbn [fold_left List.length];
    [lia|].
  destruct (Hd a (or_introl eq_refl)) as [H1 H2].
  rewrite IH.
  - unfold set_latent. cbv zeta.
    rewrite length_dict_set_new.
    + rewrite length_dict_set_new by exact H1. lia.
    + rewrite dict_get_set_other by apply lengthscale_is_not_variance.
      exact H2.
  - intros b Hb. destruct (Hd b (or_intror Hb)) as [H3 H4].
    assert (Hne : a <> b) by (intros ->; contradiction).
    unfold set_latent. cbv zeta. split.
    + rewrite dict_get_set_other
        by (apply not_eq_sym, lengthscale_is_not_variance).
      rewrite dict_get_set_other
        by (intros E; apply lengthscale_key_inj in E; contradiction).
      exact H3.
    + rewrite dict_get_set_other
        by (intros E; apply variance_key_inj in E; contradiction).
      rewrite dict_get_set_other by apply lengthscale_is_not_variance.
      exact H4.
Qed.

End Keys.

Lemma range_holds (n i : Z) : (0 <= i < n)%Z -> In i (range n).
Proof.
  intros H. unfold range. apply in_map_iff. exists (Z.to_nat i).
  split; [lia|]. apply in_seq. lia.
Qed.

Lemma range_NoDup (n : Z) : NoDup (range n).
Proof.
  unfold range. generalize (seq_NoDup (Z.to_nat n) 0).
  induction 1 as [|a r Ha Hr IH]; cbn [map]; constructor; [|exact IH].
  rewrite in_map_iff. intros (b & E & Hb). apply Nat2Z.inj in E. subst b.
  contradiction.
Qed.

(** X26.  What [set_hyperparams] stores: for every latent below
    [num_of_latents], the length scale under
    ['covar_module_' + str(latent) + '.lengthscale'] and
    [num_of_fidelities] copies of the constant under
    ['task_covar_module_' + str(latent) + '.var']; the noise under
    ['likelihood.noise'] and the mean constant under
    ['mean_module.constant']; and nothing else: the dict has
    [2 * num_of_latents + 2] entries. *)
Theorem set_hyperparams_stores_these_entries
    (dim num_of_latents n : Z) (args : option hypers) (latent : Z) :
  (0 <= latent < num_of_latents)%Z ->
  let h := match args with
           | None => mkHypers (6 # 10) (copies dim (15 # 100)) (1 # 10000) 0
           | Some h => h
           end in
  let d := set_hyperparams dim num_of_latents n args in
  lookup d (KStr ("covar_module_" ++ str latent ++ ".lengthscale"))
  = Value (HTensor (length_scale h)) /\
  lookup d (KStr ("task_covar_module_" ++ str latent ++ ".var"))
  = Value (HTensor (copies n (constant h))) /\
  lookup d (KStr "likelihood.noise") = Value (HTensor (copies n (noise h))) /\
  lookup d (KStr "mean_module.constant") = Value (HScalar (mean_constant h)) /\
  List.length d = (2 * Z.to_nat num_of_latents + 2)%nat.
Proof.
  intros Hlat h d. subst d. unfold set_hyperparams. cbv zeta. fold h.
  pose proof (range_holds _ _ Hlat) as Hin.
  assert (Hnoise : forall a : Z,
             KStr ("covar_module_" ++ str a ++ ".lengthscale")
             <> KStr "likelihood.noise" /\
             KStr ("task_covar_module_" ++ str a ++ ".var")
             <> KStr "likelihood.noise")
    by (intros a; cbn [append]; split; discriminate).
  assert (Hmean : forall a : Z,
             KStr ("covar_module_" ++ str a ++ ".lengthscale")
             <> KStr "mean_module.constant" /\
             KStr ("task_covar_module_" ++ str a ++ ".var")
             <> KStr "mean_module.constant")
    by (intros a; cbn [append]; split; discriminate).
  unfold lookup. repeat split.
  - rewrite !dict_get_set_other
      by (apply not_eq_sym; first [apply Hnoise|apply Hmean]).
    rewrite (latents_store_lengthscale n h _ _ _ Hin). reflexivity.
  - rewrite !dict_get_set_other
      by (apply not_eq_sym; first [apply Hnoise|apply Hmean]).
    rewrite (latents_store_variance n h _ _ _ Hin). reflexivity.
  - rewrite dict_get_set_other by discriminate.
    rewrite dict_get_set_same. reflexivity.
  - rewrite dict_get_set_same. reflexivity.
  - rewrite length_dict_set_new.
    + rewrite length_dict_set_new.
      * rewrite (latents_add_two_each n h _ (range_NoDup _)).
        -- rewrite length_range. cbn [List.length]. lia.
        -- intros a _. split; reflexivity.
      * rewrite latents_leave_others; [reflexivity|].
        intros a _. apply Hnoise.
    + rewrite dict_get_set_other by discriminate.
      rewrite latents_leave_others; [reflexivity|].
      intros a _. apply Hmean.
Qed.

Import Toy.

(** The theorem on the dict of the concrete multi-task object, at the
    last of its six latents. *)
Lemma set_hyperparams_stores_these_entries_witness :
  lookup (gp_hyperparams multitask_fresh)
    (KStr "covar_module_5.lengthscale")
  = Value (HTensor [15 # 100]) /\
  List.length (gp_hyperparams multitask_fresh) = 14%nat.
Proof.
  destruct (set_hyperparams_stores_these_entries 1 6 3 None 5 ltac:(lia))
    as (H1 & _ & _ & _ & H5).
  split; [exact H1|exact H5].
Defined.

End HyperDictFacts.
